(** * The SGV pool allocator of SCST ([scst/src/scst_mem.c])

    A shallow embedding of the scatter-gather vector pool: the clustering
    functions, the page fill with its translation table, the per-device
    quota, the high-watermark gate with the shrinker behind it, the purge
    worker, and [sgv_pool_alloc] / [sgv_pool_free] / [scst_alloc] /
    [scst_free].

    Conventions.
    - C [int] and [atomic_t] values are [Z] with the two's complement
      wrap-around written out ([wrap_int]); [unsigned int] is [wrap_uint],
      [unsigned long] is [wrap_ulong] (an LP64 kernel).
    - A [struct page *] is modelled by its page frame number; [NULL] is
      [None].
    - Arrays are lists read and written by index ([sg_at], [sg_set]).
    - Kernel primitives whose results the allocator cannot control (page and
      slab allocation, [jiffies]) are inputs of the model.
    - Calls that acquire or give back a resource append an [event] to the
      trace kept in the global state, in program order. *)

From Stdlib Require Import ZArith Lia Bool.
From Stdlib Require Ascii.
From stdpp Require Import list.

Local Open Scope Z_scope.

(** ** Machine integers *)

Definition wrap_int (x : Z) : Z := (x + 2 ^ 31) mod 2 ^ 32 - 2 ^ 31.
Definition wrap_uint (x : Z) : Z := x mod 2 ^ 32.
Definition wrap_ulong (x : Z) : Z := x mod 2 ^ 64.
Definition wrap_long (x : Z) : Z := (x + 2 ^ 63) mod 2 ^ 64 - 2 ^ 63.

(** [time_after_eq(a, b)] of <linux/jiffies.h>: [(long)(a) - (long)(b) >= 0]. *)
Definition time_after_eq (a b : Z) : bool := 0 <=? wrap_long (a - b).

(** ** Scatter-gather entries *)

Record scatterlist : Type := mk_sg {
  sg_page : option Z;   (* page pointer, by page frame number *)
  sg_offset : Z;
  sg_length : Z         (* unsigned int *)
}.

(** [sg_init_table] and [sg_clear] zero the entry. *)
Definition sg_zero : scatterlist := mk_sg None 0 0.

(** [page_to_pfn]; the value on a [NULL] page is never used by the callers
    modelled here. *)
Definition page_to_pfn (p : option Z) : Z := default 0 p.

Definition sg_at (sg : list scatterlist) (i : Z) : scatterlist :=
  default sg_zero (sg !! Z.to_nat i).

Definition sg_set (sg : list scatterlist) (i : Z) (e : scatterlist)
  : list scatterlist := <[Z.to_nat i := e]> sg.

Definition sg_init_table (n : Z) : list scatterlist :=
  replicate (Z.to_nat n) sg_zero.

Inductive sgv_clustering_types : Type :=
| sgv_no_clustering
| sgv_tail_clustering
| sgv_full_clustering.

Inductive merge_kind : Type := MergeHead | MergeTail.

(** ** Translation table, SG objects, quota, pools *)

(** [struct trans_tbl_ent]. *)
Record trans_tbl_ent : Type := mk_tt {
  sg_num : Z;
  pg_count : Z
}.

Definition tt_zero : trans_tbl_ent := mk_tt 0 0.

Definition tt_at (t : list trans_tbl_ent) (i : Z) : trans_tbl_ent :=
  default tt_zero (t !! Z.to_nat i).

(** [trans_tbl[i].sg_num = v] and [trans_tbl[i].pg_count = v].  The table
    is the list of the entries it was allocated with; the C code stores
    without a bounds check, and a store at an index outside the table has no
    defined result: it is [None] here, and so is every run that makes it. *)
Definition tt_in_bounds (t : list trans_tbl_ent) (i : Z) : bool :=
  (0 <=? i) && (i <? Z.of_nat (length t)).

Definition tt_set_sg_num (t : list trans_tbl_ent) (i v : Z)
  : option (list trans_tbl_ent) :=
  if tt_in_bounds t i
  then Some (<[Z.to_nat i := mk_tt v (pg_count (tt_at t i))]> t)
  else None.

Definition tt_set_pg_count (t : list trans_tbl_ent) (i v : Z)
  : option (list trans_tbl_ent) :=
  if tt_in_bounds t i
  then Some (<[Z.to_nat i := mk_tt (sg_num (tt_at t i)) v]> t)
  else None.

(** [struct sgv_pool_obj].  [obj_addr] is the address of the object, its
    identity on the two lists it can be linked in.  [trans_tbl = None] is a
    [NULL] table.  Whether the arrays are embedded in the object or
    allocated apart only matters to [kfree] and is not recorded. *)
Record sgv_pool_obj : Type := mk_obj {
  obj_addr : nat;
  order_or_pages : Z;
  owner_pool : nat;
  time_stamp : Z;
  allocator_priv : Z;
  sg_entries : list scatterlist;
  trans_tbl : option (list trans_tbl_ent);
  sg_count : Z;
  orig_sg : Z;
  orig_length : Z
}.

(** [struct scst_mem_lim]. *)
Record scst_mem_lim : Type := mk_mem_lim {
  alloced_pages : Z;
  max_allowed_pages : Z
}.

(** [struct sgv_pool], without the statistics counters ([cache_acc],
    [big_*], [other_*]), which only the /proc report reads. *)
Record sgv_pool : Type := mk_pool {
  clustering_type : sgv_clustering_types;
  cached_entries : Z;
  cached_pages : Z;
  inactive_cached_pages : Z;
  purge_work_scheduled : bool;
  sorted_recycling_list : list sgv_pool_obj;
  recycling_lists : Z -> list sgv_pool_obj
}.

(** Resource operations, in the order the code performs them. *)
Inductive event : Type :=
| EvQuotaAdd (n : Z)        (* atomic_add_return(n, &mem_lim->alloced_pages) *)
| EvQuotaSub (n : Z)        (* atomic_sub(n, &mem_lim->alloced_pages) *)
| EvTotalAdd (n : Z)        (* sgv_hiwmk_check: atomic_add(n, &sgv_pages_total) *)
| EvTotalSub (n : Z)        (* sgv_hiwmk_uncheck: atomic_sub(n, &sgv_pages_total) *)
| EvCachedInc (pool : nat) (pages : Z)  (* sgv_get_obj: cached_entries++ *)
| EvCachedDec (pool : nat) (pages : Z)  (* sgv_dec_cached_entries on a failed allocation *)
| EvAllocPage (pfn : Z)     (* alloc_pages() returned a page *)
| EvFreePage (pfn : Z)      (* __free_pages(p, 0) *)
| EvPurge (pool obj : nat) (pages : Z)  (* __sgv_purge_from_cache *)
| EvObjFree (obj : nat)     (* kmem_cache_free() / kfree() of the object *)
| EvScheduleWork (pool : nat) (delay : Z). (* schedule_delayed_work() *)

(** The allocator's global variables, the pools by address, and the trace
    (most recent event first). *)
Record sgv_state : Type := mk_state {
  sgv_pages_total : Z;
  sgv_cur_purge_pool : option nat;
  sgv_active_pools_list : list nat;
  pools : nat -> sgv_pool;
  trace : list event
}.

Definition set_total (v : Z) (g : sgv_state) : sgv_state :=
  mk_state v (sgv_cur_purge_pool g) (sgv_active_pools_list g) (pools g) (trace g).

Definition set_cur_purge_pool (c : option nat) (g : sgv_state) : sgv_state :=
  mk_state (sgv_pages_total g) c (sgv_active_pools_list g) (pools g) (trace g).

Definition set_active (l : list nat) (g : sgv_state) : sgv_state :=
  mk_state (sgv_pages_total g) (sgv_cur_purge_pool g) l (pools g) (trace g).

Definition set_pool (pid : nat) (p : sgv_pool) (g : sgv_state) : sgv_state :=
  mk_state (sgv_pages_total g) (sgv_cur_purge_pool g) (sgv_active_pools_list g)
    (fun j => if Nat.eqb j pid then p else pools g j) (trace g).

Definition log (e : event) (g : sgv_state) : sgv_state :=
  mk_state (sgv_pages_total g) (sgv_cur_purge_pool g) (sgv_active_pools_list g)
    (pools g) (e :: trace g).

Definition log_all (es : list event) (g : sgv_state) : sgv_state :=
  fold_left (fun g e => log e g) es g.

Definition set_counters (ce cp icp : Z) (p : sgv_pool) : sgv_pool :=
  mk_pool (clustering_type p) ce cp icp (purge_work_scheduled p)
    (sorted_recycling_list p) (recycling_lists p).

Definition set_scheduled (b : bool) (p : sgv_pool) : sgv_pool :=
  mk_pool (clustering_type p) (cached_entries p) (cached_pages p)
    (inactive_cached_pages p) b (sorted_recycling_list p) (recycling_lists p).

Definition set_sorted (l : list sgv_pool_obj) (p : sgv_pool) : sgv_pool :=
  mk_pool (clustering_type p) (cached_entries p) (cached_pages p)
    (inactive_cached_pages p) (purge_work_scheduled p) l (recycling_lists p).

Definition set_recycling (order : Z) (l : list sgv_pool_obj) (p : sgv_pool)
  : sgv_pool :=
  mk_pool (clustering_type p) (cached_entries p) (cached_pages p)
    (inactive_cached_pages p) (purge_work_scheduled p)
    (sorted_recycling_list p)
    (fun k => if k =? order then l else recycling_lists p k).

(** [list_del] of an object linked in a list: the first element at that
    address goes. *)
Fixpoint list_del_obj (a : nat) (l : list sgv_pool_obj) : list sgv_pool_obj :=
  match l with
  | [] => []
  | o :: l' => if Nat.eqb (obj_addr o) a then l' else o :: list_del_obj a l'
  end.

(** The entry after [p] in a list of pools, [None] at the list head. *)
Fixpoint list_next (p : nat) (l : list nat) : option nat :=
  match l with
  | [] => None
  | q :: l' => if Nat.eqb q p then hd_error l' else list_next p l'
  end.

Fixpoint list_del_pool (p : nat) (l : list nat) : list nat :=
  match l with
  | [] => []
  | q :: l' => if Nat.eqb q p then l' else q :: list_del_pool p l'
  end.

(** [sgv_pool_clustered]. *)
Definition sgv_pool_clustered (pool : sgv_pool) : bool :=
  match clustering_type pool with
  | sgv_no_clustering => false
  | _ => true
  end.

(** [sgv_check_allowed_mem] and [sgv_uncheck_allowed_mem]. *)
Definition sgv_check_allowed_mem (mem_lim : scst_mem_lim) (pages : Z)
  : bool * scst_mem_lim :=
  let alloced := wrap_int (alloced_pages mem_lim + pages) in
  if alloced >? max_allowed_pages mem_lim
  then (false, mk_mem_lim (wrap_int (alloced - pages)) (max_allowed_pages mem_lim))
  else (true, mk_mem_lim alloced (max_allowed_pages mem_lim)).

Definition sgv_uncheck_allowed_mem (mem_lim : scst_mem_lim) (pages : Z)
  : scst_mem_lim :=
  mk_mem_lim (wrap_int (alloced_pages mem_lim - pages)) (max_allowed_pages mem_lim).

Section SgvMem.

(** Platform and build constants that the source takes from headers. *)
Variable PAGE_SHIFT : Z.
Hypothesis PAGE_SHIFT_range : 0 < PAGE_SHIFT < 31.

(** [SGV_POOL_ELEMENTS] (number of buckets), the two layout limits computed
    once by [sgv_evaluate_local_order], the watermarks set once by
    [scst_sgv_pools_init], and the timer frequency. *)
Variable SGV_POOL_ELEMENTS : Z.
Variables sgv_max_local_order sgv_max_trans_order : Z.
Variables sgv_hi_wmk sgv_lo_wmk : Z.
Variable HZ : Z.

Definition PURGE_INTERVAL : Z := 60 * HZ.
Definition PURGE_TIME_AFTER : Z := PURGE_INTERVAL.
Definition SHRINK_TIME_AFTER : Z := 1 * HZ.
Definition MAX_PAGES_PER_POOL : Z := 50.
Definition ENOMEM : Z := 12.

Definition PAGE_SIZE : Z := Z.shiftl 1 PAGE_SHIFT.

(** [len & ~PAGE_MASK], also written [len & (PAGE_SIZE - 1)]. *)
Definition page_rest (len : Z) : Z := Z.land len (PAGE_SIZE - 1).

(** [(len >> PAGE_SHIFT) + ((len & ~PAGE_MASK) != 0)]: pages spanned. *)
Definition pages_of_len (len : Z) : Z :=
  Z.shiftr len PAGE_SHIFT + (if page_rest len =? 0 then 0 else 1).

(** ** Clustering *)

(** The test made on one candidate entry [i] of [sgv_check_full_clustering]:
    [Some MergeHead] is [goto out_head], [Some MergeTail] is [goto out_tail]. *)
Definition full_cand (sg : list scatterlist) (pfn_cur pfn_cur_next : Z)
    (full_page_cur : bool) (i : Z) : option merge_kind :=
  let pfn := page_to_pfn (sg_page (sg_at sg i)) in
  let pfn_next := wrap_ulong (pfn + Z.shiftr (sg_length (sg_at sg i)) PAGE_SHIFT) in
  let full_page := page_rest (sg_length (sg_at sg i)) =? 0 in
  if (pfn =? pfn_cur_next) && full_page_cur then Some MergeHead
  else if (pfn_next =? pfn_cur) && full_page then Some MergeTail
  else None.

(** [for (i = cur - 1; i >= 0; i--)], entered with [n = cur]. *)
Fixpoint full_scan (sg : list scatterlist) (pfn_cur pfn_cur_next : Z)
    (full_page_cur : bool) (n : nat) : option (merge_kind * Z) :=
  match n with
  | O => None
  | S i =>
      match full_cand sg pfn_cur pfn_cur_next full_page_cur (Z.of_nat i) with
      | Some k => Some (k, Z.of_nat i)
      | None => full_scan sg pfn_cur pfn_cur_next full_page_cur i
      end
  end.

Definition out_tail (sg : list scatterlist) (cur i len_cur : Z)
  : list scatterlist * Z :=
  let e := sg_at sg i in
  let sg := sg_set sg i
    (mk_sg (sg_page e) (sg_offset e) (wrap_uint (sg_length e + len_cur))) in
  (sg_set sg cur sg_zero, i).

Definition out_head (sg : list scatterlist) (cur i len_cur : Z)
  : list scatterlist * Z :=
  let e := sg_at sg i in
  let sg := sg_set sg i
    (mk_sg (sg_page (sg_at sg cur)) (sg_offset e)
           (wrap_uint (sg_length e + len_cur))) in
  (sg_set sg cur sg_zero, i).

Definition sgv_check_full_clustering (sg : list scatterlist) (cur hint : Z)
  : list scatterlist * Z :=
  let pfn_cur := page_to_pfn (sg_page (sg_at sg cur)) in
  let len_cur := wrap_int (sg_length (sg_at sg cur)) in
  let pfn_cur_next := wrap_ulong (pfn_cur + Z.shiftr len_cur PAGE_SHIFT) in
  let full_page_cur := page_rest len_cur =? 0 in
  let hit :=
    match (if 0 <=? hint
           then full_cand sg pfn_cur pfn_cur_next full_page_cur hint
           else None) with
    | Some k => Some (k, hint)
    | None => full_scan sg pfn_cur pfn_cur_next full_page_cur (Z.to_nat cur)
    end in
  match hit with
  | None => (sg, -1)
  | Some (MergeTail, i) => out_tail sg cur i len_cur
  | Some (MergeHead, i) => out_head sg cur i len_cur
  end.

Definition sgv_check_tail_clustering (sg : list scatterlist) (cur hint : Z)
  : list scatterlist * Z :=
  let pfn_cur := page_to_pfn (sg_page (sg_at sg cur)) in
  let len_cur := wrap_int (sg_length (sg_at sg cur)) in
  if cur =? 0 then (sg, -1)
  else
    let prev := cur - 1 in
    let pfn_prev :=
      wrap_ulong (page_to_pfn (sg_page (sg_at sg prev)) +
                  Z.shiftr (sg_length (sg_at sg prev)) PAGE_SHIFT) in
    let full_page := page_rest (sg_length (sg_at sg prev)) =? 0 in
    if (pfn_prev =? pfn_cur) && full_page then out_tail sg cur prev len_cur
    else (sg, -1).

(** The rules of the clusterer in the words of the specification: the test
    order (the hint, then [cur - 1] down to [0]) and the two merge rules on a
    candidate entry [e] and the new entry [n]. *)
Definition spec_candidates (cur hint : Z) : list Z :=
  (if 0 <=? hint then [hint] else [])
  ++ map Z.of_nat (rev (seq 0 (Z.to_nat cur))).

Definition spec_tail_merge (e n : scatterlist) : bool :=
  (page_to_pfn (sg_page e) + sg_length e / PAGE_SIZE =? page_to_pfn (sg_page n))
  && (sg_length e mod PAGE_SIZE =? 0).

Definition spec_head_merge (e n : scatterlist) : bool :=
  (page_to_pfn (sg_page n) + 1 =? page_to_pfn (sg_page e))
  && (sg_length n =? PAGE_SIZE).

Definition spec_full_clustering (sg : list scatterlist) (cur hint : Z)
  : list scatterlist * Z :=
  let n := sg_at sg cur in
  match List.find (fun i => spec_tail_merge (sg_at sg i) n
                            || spec_head_merge (sg_at sg i) n)
                  (spec_candidates cur hint) with
  | None => (sg, -1)
  | Some i =>
      let e := sg_at sg i in
      let e' :=
        if spec_tail_merge e n
        then mk_sg (sg_page e) (sg_offset e) (sg_length e + sg_length n)
        else mk_sg (sg_page n) (sg_offset e) (sg_length e + sg_length n) in
      (sg_set (sg_set sg i e') cur sg_zero, i)
  end.

(** Entries whose frame number and length are far from the ends of their C
    types. *)
Definition sg_sane (e : scatterlist) : bool :=
  (0 <=? page_to_pfn (sg_page e)) && (page_to_pfn (sg_page e) <? 2 ^ 52)
  && (0 <=? sg_length e) && (sg_length e <? 2 ^ 31).

(** ** Page back-end and page fill *)

(** [sgv_free_sys_sg_entries]: the pages handed to [__free_pages], in order.
    Every page is freed with order 0, so an entry of [n] pages gives back
    [p], [p + 1], ... *)
Definition free_entry_pages (e : scatterlist) : list Z :=
  let len := wrap_int (sg_length e) in
  map (fun k => page_to_pfn (sg_page e) + Z.of_nat k)
      (seq 0 (Z.to_nat (pages_of_len len))).

Definition sgv_free_sys_sg_entries (sg : list scatterlist) (sg_count : Z)
  : list Z :=
  flat_map free_entry_pages (take (Z.to_nat sg_count) sg).

(** [sgv_alloc_sys_pages]: [rc] is what [alloc_pages(gfp_mask, 0)] returned;
    the entry is set also when it is [NULL]. *)
Definition sgv_alloc_sys_pages (sg : list scatterlist) (idx : Z)
    (rc : option Z) : list scatterlist :=
  sg_set sg idx (mk_sg rc 0 PAGE_SIZE).

(** The page loop of [sgv_alloc_sg_entries]; [page_src pg] is the result of
    the [pg]-th call of [alloc_pages].  [false] is [goto out_no_mem]. *)
Fixpoint fill_pages (n pg : nat) (page_src : nat -> option Z)
    (clustering : sgv_clustering_types) (sg : list scatterlist)
    (sg_count merged : Z) (tr : list event)
  : bool * list scatterlist * Z * list event :=
  match n with
  | O => (true, sg, sg_count, tr)
  | S n' =>
      let rc := page_src pg in
      let sg := sgv_alloc_sys_pages sg sg_count rc in
      match rc with
      | None => (false, sg, sg_count, tr)
      | Some pfn =>
          let '(sg, merged) :=
            match clustering with
            | sgv_full_clustering => sgv_check_full_clustering sg sg_count merged
            | sgv_tail_clustering => sgv_check_tail_clustering sg sg_count merged
            | sgv_no_clustering => (sg, -1)
            end in
          let sg_count := if merged =? -1 then sg_count + 1 else sg_count in
          fill_pages n' (S pg) page_src clustering sg sg_count merged
            (EvAllocPage pfn :: tr)
      end
  end.

(** [for (j = 0; j < n; j++) trans_tbl[pg++].sg_num = v]; [None] when one
    of the stores falls outside the table. *)
Fixpoint tbl_mark (n : nat) (tbl : list trans_tbl_ent) (pg v : Z)
  : option (list trans_tbl_ent * Z) :=
  match n with
  | O => Some (tbl, pg)
  | S n' =>
      match tt_set_sg_num tbl pg v with
      | Some tbl => tbl_mark n' tbl (pg + 1) v
      | None => None
      end
  end.

(** [for (i = 0; i < pages; i++)] of the translation table, entered with
    [n = pages - i]. *)
Fixpoint tbl_fill (n : nat) (i : Z) (sg : list scatterlist)
    (tbl : list trans_tbl_ent) (pg : Z) : option (list trans_tbl_ent) :=
  match n with
  | O => Some tbl
  | S n' =>
      let cnt := pages_of_len (sg_length (sg_at sg i)) in
      match tt_set_pg_count tbl i pg with
      | Some tbl =>
          match tbl_mark (Z.to_nat cnt) tbl pg (i + 1) with
          | Some (tbl, pg) => tbl_fill n' (i + 1) sg tbl pg
          | None => None
          end
      | None => None
      end
  end.

(** [sgv_alloc_sg_entries] with the system page back-end.  Returns
    [sg_count], the SG array, the translation table and the events; [None]
    when the table loop stores outside the table. *)
Definition sgv_alloc_sg_entries (sg : list scatterlist) (pages : Z)
    (clustering : sgv_clustering_types) (tbl : option (list trans_tbl_ent))
    (page_src : nat -> option Z)
  : option (Z * list scatterlist * option (list trans_tbl_ent) * list event) :=
  match fill_pages (Z.to_nat pages) 0 page_src clustering sg 0 (-1) [] with
  | (true, sg, sg_count, tr) =>
      match clustering, tbl with
      | sgv_no_clustering, _ => Some (sg_count, sg, tbl, tr)
      | _, Some t =>
          match tbl_fill (Z.to_nat pages) 0 sg t 0 with
          | Some t => Some (sg_count, sg, Some t, tr)
          | None => None
          end
      | _, None => Some (sg_count, sg, None, tr)
      end
  | (false, sg, sg_count, tr) =>
      Some (0, sg, tbl,
            rev (map EvFreePage (sgv_free_sys_sg_entries sg sg_count)) ++ tr)
  end.

(** A page allocation that succeeded with a frame number in range. *)
Definition page_valid (r : option Z) : bool :=
  match r with
  | Some pfn => (0 <=? pfn) && (pfn <? 2 ^ 52)
  | None => false
  end.

(** ** Cache eviction *)

(** [sgv_del_from_active]. *)
Definition sgv_del_from_active (pool : nat) (g : sgv_state) : sgv_state :=
  let next := list_next pool (sgv_active_pools_list g) in
  let g := set_active (list_del_pool pool (sgv_active_pools_list g)) g in
  match sgv_cur_purge_pool g with
  | Some c =>
      if Nat.eqb c pool then
        let next :=
          match next with
          | None => hd_error (sgv_active_pools_list g)
          | Some q => Some q
          end in
        set_cur_purge_pool next g
      else g
  | None => g
  end.

(** [sgv_dec_cached_entries]. *)
Definition sgv_dec_cached_entries (pool : nat) (pages : Z) (g : sgv_state)
  : sgv_state :=
  let p := pools g pool in
  let p := set_counters (wrap_int (cached_entries p - 1))
             (wrap_int (cached_pages p - pages)) (inactive_cached_pages p) p in
  let g := set_pool pool p g in
  if cached_entries p =? 0 then sgv_del_from_active pool g else g.

(** [1 << obj->order_or_pages]. *)
Definition obj_pages (obj : sgv_pool_obj) : Z :=
  wrap_int (Z.shiftl 1 (order_or_pages obj)).

(** [__sgv_purge_from_cache]. *)
Definition __sgv_purge_from_cache (obj : sgv_pool_obj) (g : sgv_state)
  : sgv_state :=
  let pages := obj_pages obj in
  let pool := owner_pool obj in
  let p := pools g pool in
  let p := set_sorted (list_del_obj (obj_addr obj) (sorted_recycling_list p)) p in
  let p := set_recycling (order_or_pages obj)
             (list_del_obj (obj_addr obj) (recycling_lists p (order_or_pages obj))) p in
  let p := set_counters (cached_entries p) (cached_pages p)
             (wrap_int (inactive_cached_pages p - pages)) p in
  let g := set_pool pool p g in
  let g := sgv_dec_cached_entries pool pages g in
  log (EvPurge pool (obj_addr obj) pages)
      (set_total (wrap_int (sgv_pages_total g - pages)) g).

(** [sgv_purge_from_cache]. *)
Definition sgv_purge_from_cache (obj : sgv_pool_obj) (after cur_time : Z)
    (g : sgv_state) : bool * sgv_state :=
  if time_after_eq cur_time (wrap_ulong (time_stamp obj + after))
  then (true, __sgv_purge_from_cache obj g)
  else (false, g).

(** [sgv_dtor_and_free], with the system page back-end. *)
Definition sgv_dtor_and_free (obj : sgv_pool_obj) (g : sgv_state) : sgv_state :=
  let g :=
    if sg_count obj =? 0 then g
    else log_all (map EvFreePage
                    (sgv_free_sys_sg_entries (sg_entries obj) (sg_count obj))) g in
  log (EvObjFree (obj_addr obj)) g.

(** The loop of [sgv_shrink_pool].  [l] is [pool->sorted_recycling_list] as
    read by the loop test; a purge unlinks its first element, so the rest of
    [l] is the list the next test reads ([purge_step]). *)
Fixpoint shrink_pool_loop (l : list sgv_pool_obj) (nr freed after cur_time : Z)
    (g : sgv_state) : Z * sgv_state :=
  match l with
  | [] => (nr, g)
  | obj :: l' =>
      if sgv_pages_total g >? sgv_lo_wmk then
        match sgv_purge_from_cache obj after cur_time g with
        | (true, g) =>
            let pages := obj_pages obj in
            let freed := wrap_int (freed + pages) in
            let nr := wrap_int (nr - pages) in
            let g := sgv_dtor_and_free obj g in
            if (nr <=? 0) || (freed >=? MAX_PAGES_PER_POOL) then (nr, g)
            else shrink_pool_loop l' nr freed after cur_time g
        | (false, g) => (nr, g)
        end
      else (nr, g)
  end.

Definition sgv_shrink_pool (pool : nat) (nr after cur_time : Z) (g : sgv_state)
  : Z * sgv_state :=
  shrink_pool_loop (sorted_recycling_list (pools g pool)) nr 0 after cur_time g.

(** The [while (nr > 0)] loop of [__sgv_shrink]; [None] when the fuel runs
    out.  The reference taken by [sgv_pool_get] and dropped by
    [sgv_pool_put] keeps the pool alive and is not recorded. *)
Fixpoint shrink_loop (fuel : nat) (nr prev_nr : Z) (circle : bool)
    (after cur_time : Z) (g : sgv_state) : option (Z * sgv_state) :=
  match fuel with
  | O => None
  | S fuel' =>
      if nr >? 0 then
        match (match sgv_cur_purge_pool g with
               | Some p => Some p
               | None => hd_error (sgv_active_pools_list g)
               end) with
        | None => Some (nr, g)
        | Some pool =>
            match list_next pool (sgv_active_pools_list g) with
            | None =>
                if circle && (prev_nr =? nr) then Some (nr, g)
                else
                  let g := set_cur_purge_pool
                             (hd_error (sgv_active_pools_list g)) g in
                  let '(nr', g) := sgv_shrink_pool pool nr after cur_time g in
                  shrink_loop fuel' nr' nr true after cur_time g
            | Some q =>
                let g := set_cur_purge_pool (Some q) g in
                let '(nr', g) := sgv_shrink_pool pool nr after cur_time g in
                shrink_loop fuel' nr' prev_nr circle after cur_time g
            end
        end
      else Some (nr, g)
  end.

(** Cached objects of the active pools, and a number of iterations that
    [__sgv_shrink] never exceeds ([shrink_loop_terminates]). *)
Definition inactive_objs (g : sgv_state) : nat :=
  list_sum (map (fun p => length (sorted_recycling_list (pools g p)))
                (sgv_active_pools_list g)).

Definition shrink_fuel (g : sgv_state) : nat :=
  S ((S (length (sgv_active_pools_list g))) * (inactive_objs g + 3)).

(** [__sgv_shrink]; [cur_time] is [jiffies] at entry. *)
Definition __sgv_shrink (nr after cur_time : Z) (g : sgv_state)
  : Z * sgv_state :=
  match shrink_loop (shrink_fuel g) nr nr false after cur_time g with
  | Some r => r
  | None => (nr, g)
  end.

(** [sgv_purge_work_fn]; the loop reads the list as [shrink_pool_loop]
    does. *)
Fixpoint purge_work_loop (l : list sgv_pool_obj) (pool : nat) (cur_time : Z)
    (g : sgv_state) : sgv_state :=
  match l with
  | [] => g
  | obj :: l' =>
      match sgv_purge_from_cache obj PURGE_TIME_AFTER cur_time g with
      | (true, g) => purge_work_loop l' pool cur_time (sgv_dtor_and_free obj g)
      | (false, g) =>
          let g := log (EvScheduleWork pool PURGE_INTERVAL) g in
          set_pool pool (set_scheduled true (pools g pool)) g
      end
  end.

Definition sgv_purge_work_fn (pool : nat) (jiffies : Z) (g : sgv_state)
  : sgv_state :=
  let g := set_pool pool (set_scheduled false (pools g pool)) g in
  purge_work_loop (sorted_recycling_list (pools g pool)) pool jiffies g.

(** States on which the shrinker is meant to run: the active list has no
    pool twice, the cursor is on it, and the cached objects of an active pool
    belong to it and have a bucket order. *)
Definition obj_ok (p : nat) (o : sgv_pool_obj) : bool :=
  Nat.eqb (owner_pool o) p && (0 <=? order_or_pages o)
  && (order_or_pages o <? SGV_POOL_ELEMENTS).

Definition cur_ok (g : sgv_state) : bool :=
  match sgv_cur_purge_pool g with
  | None => true
  | Some c => bool_decide (c ∈ sgv_active_pools_list g)
  end.

Definition shrink_wf (g : sgv_state) : bool :=
  bool_decide (NoDup (sgv_active_pools_list g)) && cur_ok g
  && forallb (fun p => forallb (obj_ok p) (sorted_recycling_list (pools g p)))
       (sgv_active_pools_list g).

(** Words for what the purge worker does to the list it walks: the longest
    prefix of old objects, what follows it, the events of one eviction, and
    the bucket lists without the evicted objects. *)
Fixpoint take_while {A : Type} (f : A -> bool) (l : list A) : list A :=
  match l with
  | [] => []
  | x :: l' => if f x then x :: take_while f l' else []
  end.

Fixpoint drop_while {A : Type} (f : A -> bool) (l : list A) : list A :=
  match l with
  | [] => []
  | x :: l' => if f x then drop_while f l' else l
  end.

Definition is_old (now : Z) (o : sgv_pool_obj) : bool :=
  PURGE_TIME_AFTER <=? now - time_stamp o.

Definition destroy_events (o : sgv_pool_obj) : list event :=
  EvPurge (owner_pool o) (obj_addr o) (obj_pages o)
  :: (if sg_count o =? 0 then []
      else map EvFreePage (sgv_free_sys_sg_entries (sg_entries o) (sg_count o)))
  ++ [EvObjFree (obj_addr o)].

Definition unlink_all (olds : list sgv_pool_obj) (k : Z)
    (bucket : list sgv_pool_obj) : list sgv_pool_obj :=
  fold_left (fun b o => if k =? order_or_pages o
                        then list_del_obj (obj_addr o) b else b) olds bucket.

Definition lru_entry_ok (pool : nat) (now : Z) (o : sgv_pool_obj) : bool :=
  Nat.eqb (owner_pool o) pool && (0 <=? time_stamp o) && (time_stamp o <=? now).

Fixpoint lru_sorted (l : list sgv_pool_obj) : bool :=
  match l with
  | [] => true
  | o :: l' =>
      forallb (fun o' => time_stamp o <=? time_stamp o') l' && lru_sorted l'
  end.

(** ** High-watermark gate *)

(** [sgv_hiwmk_check]; the result is [0] or [-ENOMEM]. *)
Definition sgv_hiwmk_check (pages_to_alloc jiffies : Z) (g : sgv_state)
  : Z * sgv_state :=
  let commit (g : sgv_state) :=
    (0, log (EvTotalAdd pages_to_alloc)
          (set_total (wrap_int (sgv_pages_total g + pages_to_alloc)) g)) in
  let pages := wrap_int (pages_to_alloc + sgv_pages_total g) in
  if pages >? sgv_hi_wmk then
    let pages := wrap_int (pages - sgv_hi_wmk) in
    let '(pages, g) := __sgv_shrink pages 0 jiffies g in
    if pages >? 0 then (- ENOMEM, g) else commit g
  else commit g.

(** [sgv_hiwmk_uncheck]. *)
Definition sgv_hiwmk_uncheck (pages : Z) (g : sgv_state) : sgv_state :=
  log (EvTotalSub pages) (set_total (wrap_int (sgv_pages_total g - pages)) g).

(** ** Bucket free-lists *)

(** [sgv_get_obj]; [new_obj] is what [kmem_cache_alloc] returned. *)
Definition sgv_get_obj (pool : nat) (order : Z) (new_obj : option nat)
    (g : sgv_state) : option sgv_pool_obj * sgv_state :=
  let pages := wrap_int (Z.shiftl 1 order) in
  let p := pools g pool in
  match recycling_lists p order with
  | obj :: _ =>
      let p := set_sorted (list_del_obj (obj_addr obj) (sorted_recycling_list p)) p in
      let p := set_recycling order
                 (list_del_obj (obj_addr obj) (recycling_lists p order)) p in
      let p := set_counters (cached_entries p) (cached_pages p)
                 (wrap_int (inactive_cached_pages p - pages)) p in
      (Some obj, set_pool pool p g)
  | [] =>
      let g :=
        if cached_entries p =? 0
        then set_active (sgv_active_pools_list g ++ [pool]) g
        else g in
      let p := set_counters (wrap_int (cached_entries p + 1))
                 (wrap_int (cached_pages p + pages)) (inactive_cached_pages p) p in
      let g := log (EvCachedInc pool pages) (set_pool pool p g) in
      match new_obj with
      | Some a => (Some (mk_obj a order pool 0 0 [] None 0 0 0), g)
      | None =>
          (None, log (EvCachedDec pool pages) (sgv_dec_cached_entries pool pages g))
      end
  end.

(** The place [sgv_put_obj] finds in a bucket of a clustered pool: before
    the first object with at least as many SG entries. *)
Fixpoint insert_by_sg_count (obj : sgv_pool_obj) (l : list sgv_pool_obj)
  : list sgv_pool_obj :=
  match l with
  | [] => [obj]
  | tmp :: l' =>
      if sg_count obj <=? sg_count tmp then obj :: l
      else tmp :: insert_by_sg_count obj l'
  end.

Definition with_time_stamp (t : Z) (o : sgv_pool_obj) : sgv_pool_obj :=
  mk_obj (obj_addr o) (order_or_pages o) (owner_pool o) t (allocator_priv o)
    (sg_entries o) (trans_tbl o) (sg_count o) (orig_sg o) (orig_length o).

(** [sgv_put_obj]. *)
Definition sgv_put_obj (obj : sgv_pool_obj) (jiffies : Z) (g : sgv_state)
  : sgv_state :=
  let pool := owner_pool obj in
  let p := pools g pool in
  let pages := obj_pages obj in
  let obj := with_time_stamp jiffies obj in
  let bucket := recycling_lists p (order_or_pages obj) in
  let bucket :=
    if sgv_pool_clustered p then insert_by_sg_count obj bucket
    else obj :: bucket in
  let p := set_recycling (order_or_pages obj) bucket p in
  let p := set_sorted (sorted_recycling_list p ++ [obj]) p in
  let p := set_counters (cached_entries p) (cached_pages p)
             (wrap_int (inactive_cached_pages p + pages)) p in
  if purge_work_scheduled p then set_pool pool p g
  else log (EvScheduleWork pool PURGE_INTERVAL)
         (set_pool pool (set_scheduled true p) g).


(** ** [sgv_pool_alloc] *)

(** The three tests made on [flags]. *)
Record alloc_flags : Type := mk_flags {
  SCST_POOL_ALLOC_NO_CACHED : bool;
  SCST_POOL_NO_ALLOC_ON_CACHE_MISS : bool;
  SCST_POOL_RETURN_OBJ_ON_ALLOC_FAIL : bool
}.

(** What the kernel answers during one call: the object allocation (its
    address, or [None] for [NULL]), whether the two [sgv_alloc_arrays]
    allocations succeed, the bytes found in a table that is not cleared, the
    pages, and [jiffies]. *)
Record alloc_env : Type := mk_env {
  env_new_obj : option nat;
  env_sg_entries_ok : bool;
  env_trans_tbl_ok : bool;
  env_uninit_tbl : nat -> trans_tbl_ent;
  env_page_src : nat -> option Z;
  env_jiffies : Z
}.

(** The return value with the three locations the call writes:
    [*count], [*sgv] and [*mem_lim]. *)
Record alloc_result : Type := mk_res {
  res_sg : option (list scatterlist);
  res_count : Z;
  res_sgv : option sgv_pool_obj;
  res_mem_lim : scst_mem_lim;
  res_state : sgv_state
}.

Definition with_arrays (sg : list scatterlist) (t : option (list trans_tbl_ent))
    (o : sgv_pool_obj) : sgv_pool_obj :=
  mk_obj (obj_addr o) (order_or_pages o) (owner_pool o) (time_stamp o)
    (allocator_priv o) sg t (sg_count o) (orig_sg o) (orig_length o).

Definition with_sg_count (c : Z) (o : sgv_pool_obj) : sgv_pool_obj :=
  mk_obj (obj_addr o) (order_or_pages o) (owner_pool o) (time_stamp o)
    (allocator_priv o) (sg_entries o) (trans_tbl o) c (orig_sg o) (orig_length o).

Definition with_priv (pool : nat) (priv : Z) (o : sgv_pool_obj) : sgv_pool_obj :=
  mk_obj (obj_addr o) (order_or_pages o) pool (time_stamp o)
    priv (sg_entries o) (trans_tbl o) (sg_count o) (orig_sg o) (orig_length o).

Definition with_orig (sg len : Z) (o : sgv_pool_obj) : sgv_pool_obj :=
  mk_obj (obj_addr o) (order_or_pages o) (owner_pool o) (time_stamp o)
    (allocator_priv o) (sg_entries o) (trans_tbl o) (sg_count o) sg len.

Definition set_sg_length (sg : list scatterlist) (i len : Z) : list scatterlist :=
  let e := sg_at sg i in sg_set sg i (mk_sg (sg_page e) (sg_offset e) len).

(** Modelled from the spec: [get_order] is the kernel's, not part of the
    sources; the spec gives it as the ceiling of the binary logarithm of the
    page count. *)
Definition get_order (size : Z) : Z :=
  Z.log2_up (Z.shiftr (size + PAGE_SIZE - 1) PAGE_SHIFT).

Definition uninit_tbl (env : alloc_env) (n : Z) : list trans_tbl_ent :=
  map (env_uninit_tbl env) (seq 0 (Z.to_nat n)).

(** The labels [out_uncheck], [out_fail], [out_fail_free] (which
    [out_fail_free_sg_entries] falls into after [kfree] of the arrays),
    [out_return2], [out_return1] and [out_return]. *)
Definition out_uncheck (hiwmk_checked allowed_mem_checked : bool)
    (pages_to_alloc count : Z) (sgv : option sgv_pool_obj)
    (mem_lim : scst_mem_lim) (g : sgv_state) : alloc_result :=
  let g := if hiwmk_checked then sgv_hiwmk_uncheck pages_to_alloc g else g in
  if allowed_mem_checked
  then mk_res None count sgv (sgv_uncheck_allowed_mem mem_lim pages_to_alloc)
         (log (EvQuotaSub pages_to_alloc) g)
  else mk_res None count sgv mem_lim g.

Definition out_fail (hiwmk_checked allowed_mem_checked : bool)
    (pages_to_alloc : Z) (mem_lim : scst_mem_lim) (g : sgv_state)
  : alloc_result :=
  out_uncheck hiwmk_checked allowed_mem_checked pages_to_alloc 0 None mem_lim g.

Definition out_fail_free (cache : bool) (pool : nat) (obj : sgv_pool_obj)
    (hiwmk_checked allowed_mem_checked : bool)
    (pages_to_alloc : Z) (mem_lim : scst_mem_lim) (g : sgv_state)
  : alloc_result :=
  let g :=
    if cache
    then log (EvCachedDec pool pages_to_alloc)
           (sgv_dec_cached_entries pool pages_to_alloc g)
    else g in
  out_fail hiwmk_checked allowed_mem_checked pages_to_alloc mem_lim
    (log (EvObjFree (obj_addr obj)) g).

Definition out_return2 (hiwmk_checked allowed_mem_checked : bool)
    (pages_to_alloc : Z) (sgv : option sgv_pool_obj)
    (mem_lim : scst_mem_lim) (g : sgv_state) : alloc_result :=
  out_uncheck hiwmk_checked allowed_mem_checked pages_to_alloc pages_to_alloc
    sgv mem_lim g.

Definition out_return1 (obj : sgv_pool_obj)
    (hiwmk_checked allowed_mem_checked : bool)
    (pages_to_alloc : Z) (mem_lim : scst_mem_lim) (g : sgv_state)
  : alloc_result :=
  out_return2 hiwmk_checked allowed_mem_checked pages_to_alloc (Some obj)
    mem_lim g.

Definition out_return (pool : nat) (priv : Z) (obj : sgv_pool_obj)
    (hiwmk_checked allowed_mem_checked : bool)
    (pages_to_alloc : Z) (mem_lim : scst_mem_lim) (g : sgv_state)
  : alloc_result :=
  out_return1 (with_priv pool priv obj) hiwmk_checked allowed_mem_checked
    pages_to_alloc mem_lim g.

(** The label [success]: [cnt], the stored tail length and the truncation
    of the last entry. *)
Definition alloc_success (cache clustered : bool) (size pages : Z)
    (obj : sgv_pool_obj) (mem_lim : scst_mem_lim) (g : sgv_state)
  : alloc_result :=
  let tbl := default [] (trans_tbl obj) in
  let '(cnt, obj) :=
    if cache then
      let cnt := if clustered then sg_num (tt_at tbl (pages - 1)) else pages in
      let sg := cnt - 1 in
      let obj := with_orig sg (sg_length (sg_at (sg_entries obj) sg)) obj in
      let obj :=
        if clustered
        then with_arrays
               (set_sg_length (sg_entries obj) sg
                  (wrap_uint (Z.shiftl (pages - pg_count (tt_at tbl sg)) PAGE_SHIFT)))
               (trans_tbl obj) obj
        else obj in
      (cnt, obj)
    else (sg_count obj, obj) in
  let obj :=
    if page_rest size =? 0 then obj
    else with_arrays
           (set_sg_length (sg_entries obj) (cnt - 1)
              (wrap_uint (sg_length (sg_at (sg_entries obj) (cnt - 1))
                          - (PAGE_SIZE - page_rest size))))
           (trans_tbl obj) obj in
  mk_res (Some (sg_entries obj)) cnt (Some obj) mem_lim g.

(** From the call of [sgv_alloc_sg_entries] to the end; both watermark and
    quota are held here.  [None] when [sgv_alloc_sg_entries] stores outside
    the translation table. *)
Definition alloc_fill (cache : bool) (pool : nat) (size pages pages_to_alloc : Z)
    (flags : alloc_flags) (env : alloc_env) (obj : sgv_pool_obj)
    (mem_lim : scst_mem_lim) (g : sgv_state) : option alloc_result :=
  let clustering := clustering_type (pools g pool) in
  match sgv_alloc_sg_entries (sg_entries obj) pages_to_alloc clustering
          (trans_tbl obj) (env_page_src env) with
  | None => None
  | Some (cnt, sg, tbl, evs) =>
      let obj := with_sg_count cnt (with_arrays sg tbl obj) in
      let g := log_all (rev evs) g in
      Some
        (if cnt <=? 0 then
           let obj := with_sg_count 0 obj in
           if SCST_POOL_RETURN_OBJ_ON_ALLOC_FAIL flags && cache
           then out_return1 obj true true pages_to_alloc mem_lim g
           else out_fail_free cache pool obj true true pages_to_alloc mem_lim g
         else
           alloc_success cache (sgv_pool_clustered (pools g pool)) size pages
             obj mem_lim g)
  end.

(** [sgv_pool_alloc].  [None] is a call without a defined return: the
    [BUG()] of [sBUG_ON] on a [__GFP_NOFAIL] mask, or a store outside the
    translation table in [sgv_alloc_sg_entries].  [count] and [sgv] are the
    values [*count] and [*sgv] hold at entry.  The checks under
    [EXTRACHECKS_BUG_ON] are compiled out. *)
Definition sgv_pool_alloc (pool : nat) (size : Z) (gfp_nofail : bool)
    (flags : alloc_flags) (count : Z) (sgv : option sgv_pool_obj)
    (mem_lim : scst_mem_lim) (priv : Z) (env : alloc_env) (g : sgv_state)
  : option alloc_result :=
  if size =? 0 then Some (mk_res None count sgv mem_lim g)
  else if gfp_nofail then None
  else
    let pages := wrap_int (Z.shiftr (wrap_ulong (size + PAGE_SIZE - 1)) PAGE_SHIFT) in
    let order := get_order size in
    let clustered := sgv_pool_clustered (pools g pool) in
    let gate (n : Z) (g : sgv_state) := sgv_hiwmk_check n (env_jiffies env) g in
    let charge (n : Z) (ok : bool) (g : sgv_state) :=
      let g := log (EvQuotaAdd n) g in
      if ok then g else log (EvQuotaSub n) g in
    match sgv with
    | Some obj =>
        let pages_to_alloc := wrap_int (Z.shiftl 1 order) in
        let '(ok, mem_lim) := sgv_check_allowed_mem mem_lim pages_to_alloc in
        let g := charge pages_to_alloc ok g in
        if negb ok
        then Some (out_fail_free true pool obj false false pages_to_alloc mem_lim g)
        else
          let '(rc, g) := gate pages_to_alloc g in
          if negb (rc =? 0)
          then Some (out_fail_free true pool obj false true pages_to_alloc
                       mem_lim g)
          else alloc_fill true pool size pages pages_to_alloc flags env obj
                 mem_lim g
    | None =>
        if (order <? SGV_POOL_ELEMENTS) && negb (SCST_POOL_ALLOC_NO_CACHED flags)
        then
          let pages_to_alloc := wrap_int (Z.shiftl 1 order) in
          let '(ok, mem_lim) := sgv_check_allowed_mem mem_lim pages_to_alloc in
          let g := charge pages_to_alloc ok g in
          if negb ok then Some (out_fail false false pages_to_alloc mem_lim g)
          else
            match sgv_get_obj pool order (env_new_obj env) g with
            | (None, g) => Some (out_fail false true pages_to_alloc mem_lim g)
            | (Some obj, g) =>
                if negb (sg_count obj =? 0)
                then Some (alloc_success true clustered size pages obj mem_lim g)
                else if SCST_POOL_NO_ALLOC_ON_CACHE_MISS flags
                        && negb (SCST_POOL_RETURN_OBJ_ON_ALLOC_FAIL flags)
                then Some (out_fail_free true pool obj false true
                             pages_to_alloc mem_lim g)
                else
                  let arrays :=
                    if order <=? sgv_max_local_order then
                      Some (with_arrays (sg_init_table pages_to_alloc)
                              (if clustered
                               then Some (uninit_tbl env pages_to_alloc)
                               else trans_tbl obj) obj)
                    else if negb (env_sg_entries_ok env) then None
                    else if negb clustered then
                      Some (with_arrays (sg_init_table pages_to_alloc)
                              (trans_tbl obj) obj)
                    else if order <=? sgv_max_trans_order then
                      Some (with_arrays (sg_init_table pages_to_alloc)
                              (Some (uninit_tbl env pages_to_alloc)) obj)
                    else if env_trans_tbl_ok env then
                      Some (with_arrays (sg_init_table pages_to_alloc)
                              (Some (replicate (Z.to_nat pages_to_alloc) tt_zero)) obj)
                    else None in
                  match arrays with
                  | None =>
                      Some (out_fail_free true pool obj false true
                              pages_to_alloc mem_lim g)
                  | Some obj =>
                      if SCST_POOL_NO_ALLOC_ON_CACHE_MISS flags
                         && SCST_POOL_RETURN_OBJ_ON_ALLOC_FAIL flags
                      then Some (out_return pool priv obj false true
                                   pages_to_alloc mem_lim g)
                      else
                        let obj := with_priv (owner_pool obj) priv obj in
                        let '(rc, g) := gate pages_to_alloc g in
                        if negb (rc =? 0)
                        then Some (out_fail_free true pool obj false true
                                     pages_to_alloc mem_lim g)
                        else alloc_fill true pool size pages pages_to_alloc
                               flags env obj mem_lim g
                  end
            end
        else
          let pages_to_alloc := pages in
          let '(ok, mem_lim) := sgv_check_allowed_mem mem_lim pages_to_alloc in
          let g := charge pages_to_alloc ok g in
          if negb ok then Some (out_fail false false pages_to_alloc mem_lim g)
          else if SCST_POOL_NO_ALLOC_ON_CACHE_MISS flags
          then Some (out_return2 false true pages_to_alloc sgv mem_lim g)
          else
            match env_new_obj env with
            | None => Some (out_fail false true pages_to_alloc mem_lim g)
            | Some a =>
                let obj := mk_obj a (wrap_int (- pages_to_alloc)) pool 0 priv
                             (sg_init_table pages) None 0 0 0 in
                let '(rc, g) := gate pages_to_alloc g in
                if negb (rc =? 0)
                then Some (out_fail_free false pool obj false true
                             pages_to_alloc mem_lim g)
                else alloc_fill false pool size pages pages_to_alloc flags env
                       obj mem_lim g
            end
    end.

(** The request as [sgv_pool_alloc] sorts it: whether it goes to a bucket
    (an object supplied through [*sgv] always does); [pages_to_alloc], the
    pages it is charged; and the address of the object it works on: the one
    supplied, the head of the bucket, or a new one. *)
Definition bucketed_request (size : Z) (flags : alloc_flags)
    (sgv : option sgv_pool_obj) : bool :=
  match sgv with
  | Some _ => true
  | None => (get_order size <? SGV_POOL_ELEMENTS)
            && negb (SCST_POOL_ALLOC_NO_CACHED flags)
  end.



(** [sgv_get_priv]. *)
Definition sgv_get_priv (obj : sgv_pool_obj) : Z := allocator_priv obj.

(** [sgv_pool_free]. *)
Definition sgv_pool_free (obj : sgv_pool_obj) (mem_lim : scst_mem_lim)
    (jiffies : Z) (g : sgv_state) : scst_mem_lim * sgv_state :=
  let '(pages, g) :=
    if 0 <=? order_or_pages obj then
      let obj := with_arrays
                   (set_sg_length (sg_entries obj) (orig_sg obj) (orig_length obj))
                   (trans_tbl obj) obj in
      let pages := if sg_count obj =? 0 then 0 else obj_pages obj in
      (pages, sgv_put_obj obj jiffies g)
    else
      let g := log_all (map EvFreePage
                 (sgv_free_sys_sg_entries (sg_entries obj) (sg_count obj))) g in
      let pages := if sg_count obj =? 0 then 0
                   else wrap_int (- order_or_pages obj) in
      let g := log (EvObjFree (obj_addr obj)) g in
      (pages, sgv_hiwmk_uncheck pages g) in
  (sgv_uncheck_allowed_mem mem_lim pages, log (EvQuotaSub pages) g).

(** ** Reading a trace *)

(** The events of an eviction from the cache. *)
Definition eviction_event (e : event) : bool :=
  match e with
  | EvPurge _ _ _ | EvFreePage _ | EvObjFree _ => true
  | _ => false
  end.


















(** ** [scst_alloc] and [scst_free] *)

(** [scst_alloc]; [kmalloc_ok] tells whether the SG array could be
    allocated.  The result is the SG array (or [NULL]) and [*count]; the
    outer [None] is the one of [sgv_alloc_sg_entries], which a call without
    a translation table never gives. *)
Definition scst_alloc (size : Z) (no_fail : bool) (count : Z)
    (kmalloc_ok : bool) (page_src : nat -> option Z) (jiffies : Z)
    (g : sgv_state) : option (option (list scatterlist) * Z * sgv_state) :=
  let pages := wrap_int (Z.shiftr size PAGE_SHIFT
                         + (if page_rest size =? 0 then 0 else 1)) in
  let out_uncheck (count : Z) (g : sgv_state) :=
    (None, count, if no_fail then g else sgv_hiwmk_uncheck pages g) in
  let '(rc, g) := sgv_hiwmk_check pages jiffies g in
  if negb (rc =? 0) && negb no_fail then Some (None, count, g)
  else
    let g := if negb (rc =? 0) then sgv_hiwmk_uncheck (wrap_int (- pages)) g
             else g in
    if negb kmalloc_ok then Some (out_uncheck count g)
    else
      match sgv_alloc_sg_entries (sg_init_table pages) pages
              sgv_no_clustering None page_src with
      | None => None
      | Some (cnt, sg, _, evs) =>
          let g := log_all (rev evs) g in
          if cnt <=? 0 then Some (out_uncheck cnt g)
          else Some (Some sg, cnt, g)
      end.

(** [scst_free]. *)
Definition scst_free (sg : list scatterlist) (count : Z) (g : sgv_state)
  : sgv_state :=
  let g := sgv_hiwmk_uncheck count g in
  log_all (map EvFreePage (sgv_free_sys_sg_entries sg count)) g.

(** ** Flushing a pool, and the shrinker callback *)

(** The [while (!list_empty(&pool->recycling_lists[i]))] loop of
    [sgv_pool_flush]: every turn reads the object at the head of bucket [i],
    purges it from the cache and destroys it.  [fuel] bounds the number of
    turns. *)
Fixpoint flush_bucket (fuel : nat) (pool : nat) (i : Z) (g : sgv_state)
  : sgv_state :=
  match fuel with
  | O => g
  | S fuel' =>
      match recycling_lists (pools g pool) i with
      | [] => g
      | obj :: _ =>
          flush_bucket fuel' pool i
            (sgv_dtor_and_free obj (__sgv_purge_from_cache obj g))
      end
  end.

(** [sgv_pool_flush]: the buckets [0 .. SGV_POOL_ELEMENTS - 1] in turn, each
    with as many turns as it holds objects when its loop starts. *)
Definition sgv_pool_flush (pool : nat) (g : sgv_state) : sgv_state :=
  fold_left
    (fun g i =>
       flush_bucket (length (recycling_lists (pools g pool) (Z.of_nat i)))
         pool (Z.of_nat i) g)
    (seq 0 (Z.to_nat SGV_POOL_ELEMENTS)) g.

(** [sgv_shrink], the callback registered with the kernel's shrinker:
    asked for [nr > 0] objects it shrinks, otherwise it reports how many
    inactive pages of the active pools lie above the low watermark. *)
Definition sgv_shrink (nr jiffies : Z) (g : sgv_state) : Z * sgv_state :=
  if nr >? 0 then __sgv_shrink nr SHRINK_TIME_AFTER jiffies g
  else
    let inactive_pages :=
      fold_left (fun acc p => wrap_int (acc + inactive_cached_pages (pools g p)))
        (sgv_active_pools_list g) 0 in
    (Z.max 0 (wrap_int (inactive_pages - sgv_lo_wmk)), g).

(** * Properties *)

Ltac splits := repeat match goal with |- _ /\ _ => split end.

(** ** Machine integers *)

Lemma wrap_int_id (x : Z) : - 2 ^ 31 <= x < 2 ^ 31 -> wrap_int x = x.
Proof.
  intros H. unfold wrap_int. rewrite Z.mod_small; lia.
Qed.

Lemma wrap_int_range (x : Z) : - 2 ^ 31 <= wrap_int x < 2 ^ 31.
Proof.
  unfold wrap_int.
  pose proof (Z.mod_pos_bound (x + 2 ^ 31) (2 ^ 32) ltac:(lia)). lia.
Qed.

Lemma wrap_int_add_l (a b : Z) : wrap_int (wrap_int a + b) = wrap_int (a + b).
Proof.
  unfold wrap_int. f_equal.
  replace ((a + 2 ^ 31) mod 2 ^ 32 - 2 ^ 31 + b + 2 ^ 31)
    with ((a + 2 ^ 31) mod 2 ^ 32 + b) by lia.
  rewrite Zplus_mod_idemp_l. f_equal; lia.
Qed.

Lemma wrap_int_add_r (a b : Z) : wrap_int (a + wrap_int b) = wrap_int (a + b).
Proof.
  rewrite (Z.add_comm a), wrap_int_add_l. f_equal; lia.
Qed.

Lemma wrap_int_sub_l (a b : Z) : wrap_int (wrap_int a - b) = wrap_int (a - b).
Proof.
  replace (wrap_int a - b) with (wrap_int a + - b) by lia.
  rewrite wrap_int_add_l. f_equal; lia.
Qed.

Lemma wrap_int_sub_r (a b : Z) : wrap_int (a - wrap_int b) = wrap_int (a - b).
Proof.
  unfold wrap_int. f_equal.
  replace (a - ((b + 2 ^ 31) mod 2 ^ 32 - 2 ^ 31) + 2 ^ 31)
    with (a + 2 * 2 ^ 31 - (b + 2 ^ 31) mod 2 ^ 32) by lia.
  rewrite Zminus_mod_idemp_r. f_equal; lia.
Qed.

Lemma wrap_int_inj (a b : Z) :
  wrap_int a = wrap_int b -> - 2 ^ 32 < a - b < 2 ^ 32 -> a = b.
Proof.
  unfold wrap_int. intros H Hr.
  change (2 ^ 32) with 4294967296 in *. change (2 ^ 31) with 2147483648 in *.
  pose proof (Z.div_mod (a + 2147483648) 4294967296 ltac:(lia)).
  pose proof (Z.div_mod (b + 2147483648) 4294967296 ltac:(lia)).
  lia.
Qed.

Lemma wrap_int_idem (a : Z) : wrap_int (wrap_int a) = wrap_int a.
Proof. apply wrap_int_id, wrap_int_range. Qed.

Lemma wrap_uint_id (x : Z) : 0 <= x < 2 ^ 32 -> wrap_uint x = x.
Proof. intros H. unfold wrap_uint. apply Z.mod_small; lia. Qed.

Lemma wrap_ulong_id (x : Z) : 0 <= x < 2 ^ 64 -> wrap_ulong x = x.
Proof. intros H. unfold wrap_ulong. apply Z.mod_small; lia. Qed.

Lemma wrap_long_id (x : Z) : - 2 ^ 63 <= x < 2 ^ 63 -> wrap_long x = x.
Proof. intros H. unfold wrap_long. rewrite Z.mod_small; lia. Qed.

(** ** Page arithmetic *)

Lemma PAGE_SIZE_eq : PAGE_SIZE = 2 ^ PAGE_SHIFT.
Proof. unfold PAGE_SIZE. rewrite Z.shiftl_mul_pow2 by lia. lia. Qed.

Lemma PAGE_SIZE_bounds : 2 <= PAGE_SIZE <= 2 ^ 30.
Proof.
  rewrite PAGE_SIZE_eq. split.
  - change 2 with (2 ^ 1) at 1. apply Z.pow_le_mono_r; lia.
  - apply Z.pow_le_mono_r; lia.
Qed.

Lemma page_rest_mod (len : Z) : page_rest len = len mod PAGE_SIZE.
Proof.
  unfold page_rest. rewrite PAGE_SIZE_eq.
  replace (2 ^ PAGE_SHIFT - 1) with (Z.ones PAGE_SHIFT)
    by (rewrite Z.ones_equiv; lia).
  apply Z.land_ones. lia.
Qed.

Lemma shiftr_page (len : Z) : Z.shiftr len PAGE_SHIFT = len / PAGE_SIZE.
Proof. rewrite PAGE_SIZE_eq. apply Z.shiftr_div_pow2. lia. Qed.

Lemma shiftl_page (n : Z) : Z.shiftl n PAGE_SHIFT = n * PAGE_SIZE.
Proof. rewrite PAGE_SIZE_eq. apply Z.shiftl_mul_pow2. lia. Qed.

(** ** Full clustering *)

Lemma sg_sane_spec (e : scatterlist) :
  sg_sane e = true ->
  0 <= page_to_pfn (sg_page e) < 2 ^ 52 /\ 0 <= sg_length e < 2 ^ 31.
Proof. unfold sg_sane. intros H. repeat (apply andb_prop in H as [H ?]). lia. Qed.

Lemma sg_sane_at (sg : list scatterlist) (n : nat) (i : Z) :
  forallb sg_sane (take n sg) = true ->
  0 <= i < Z.of_nat n -> (Z.to_nat i < length sg)%nat ->
  sg_sane (sg_at sg i) = true.
Proof.
  intros Hall Hi Hlen. rewrite forallb_forall in Hall. apply Hall.
  unfold sg_at. destruct (lookup_lt_is_Some_2 sg (Z.to_nat i) Hlen) as [e He].
  rewrite He. simpl. apply list_elem_of_In, list_elem_of_lookup.
  exists (Z.to_nat i). rewrite lookup_take_lt by lia. exact He.
Qed.

(** The test on one candidate is the specification's pair of rules. *)
Lemma full_cand_spec (sg : list scatterlist) (cur i : Z) :
  let n := sg_at sg cur in
  let e := sg_at sg i in
  sg_sane n = true -> sg_sane e = true ->
  0 < sg_length n <= PAGE_SIZE ->
  full_cand sg (page_to_pfn (sg_page n))
    (wrap_ulong (page_to_pfn (sg_page n)
                 + Z.shiftr (wrap_int (sg_length n)) PAGE_SHIFT))
    (page_rest (wrap_int (sg_length n)) =? 0) i
  = if spec_head_merge e n then Some MergeHead
    else if spec_tail_merge e n then Some MergeTail else None.
Proof.
  intros n e Hn He Hlen.
  apply sg_sane_spec in Hn as [Hn1 Hn2], He as [He1 He2].
  pose proof PAGE_SIZE_bounds as HP.
  unfold full_cand, spec_head_merge, spec_tail_merge. fold e. fold n.
  rewrite (wrap_int_id (sg_length n)) by lia.
  rewrite !page_rest_mod, !shiftr_page.
  assert (Hq : 0 <= sg_length e / PAGE_SIZE < 2 ^ 31).
  { split; [apply Z.div_pos; lia|].
    apply Z.div_lt_upper_bound; nia. }
  rewrite (wrap_ulong_id (page_to_pfn (sg_page e) + _)) by lia.
  destruct (Z.eq_dec (sg_length n) PAGE_SIZE) as [Heq|Hne].
  - rewrite Heq, Z.div_same, Z_mod_same_full by lia.
    rewrite wrap_ulong_id by lia.
    rewrite (Z.eqb_refl PAGE_SIZE), (Z.eqb_refl 0), !andb_true_r.
    rewrite (Z.eqb_sym (page_to_pfn (sg_page e))). reflexivity.
  - rewrite Z.div_small, Z.mod_small by lia.
    rewrite (proj2 (Z.eqb_neq (sg_length n) 0)) by lia.
    rewrite (proj2 (Z.eqb_neq (sg_length n) PAGE_SIZE)) by lia.
    rewrite !andb_false_r. reflexivity.
Qed.

(** Head and tail merge never both apply to one candidate. *)
Lemma spec_merge_exclusive (e n : scatterlist) :
  0 <= sg_length e ->
  spec_tail_merge e n = true -> spec_head_merge e n = true -> False.
Proof.
  unfold spec_tail_merge, spec_head_merge. intros Hl Ht Hh.
  pose proof PAGE_SIZE_bounds as HP.
  apply andb_prop in Ht as [Ht _], Hh as [Hh _].
  apply Z.eqb_eq in Ht, Hh.
  assert (0 <= sg_length e / PAGE_SIZE) by (apply Z.div_pos; lia). lia.
Qed.

Lemma full_scan_find (sg : list scatterlist) (cur : Z) (k : nat) :
  let n := sg_at sg cur in
  sg_sane n = true -> 0 < sg_length n <= PAGE_SIZE ->
  (forall i, 0 <= i < Z.of_nat k -> sg_sane (sg_at sg i) = true) ->
  full_scan sg (page_to_pfn (sg_page n))
    (wrap_ulong (page_to_pfn (sg_page n)
                 + Z.shiftr (wrap_int (sg_length n)) PAGE_SHIFT))
    (page_rest (wrap_int (sg_length n)) =? 0) k
  = match List.find (fun i => spec_tail_merge (sg_at sg i) n
                              || spec_head_merge (sg_at sg i) n)
                    (map Z.of_nat (rev (seq 0 k))) with
    | Some i =>
        Some (if spec_head_merge (sg_at sg i) n then MergeHead else MergeTail, i)
    | None => None
    end.
Proof.
  intros n Hn Hlen. induction k as [|k IH]; intros Hall; [reflexivity|].
  rewrite seq_S, rev_app_distr. cbn [rev app map List.find full_scan Nat.add].
  pose proof (full_cand_spec sg cur (Z.of_nat k)) as HC.
  cbv zeta in HC. fold n in HC.
  rewrite HC by first [exact Hn | exact Hlen | apply Hall; lia]. clear HC.
  destruct (spec_head_merge (sg_at sg (Z.of_nat k)) n) eqn:Hh.
  - rewrite orb_true_r. cbn beta iota. rewrite Hh. reflexivity.
  - rewrite orb_false_r.
    destruct (spec_tail_merge (sg_at sg (Z.of_nat k)) n) eqn:Ht.
    + cbn beta iota. rewrite Hh. reflexivity.
    + apply IH. intros i Hi. apply Hall. lia.
Qed.

Lemma full_clustering_refines (sg : list scatterlist) (cur hint : Z) :
  0 <= cur -> (Z.to_nat cur < length sg)%nat -> hint < cur ->
  forallb sg_sane (take (S (Z.to_nat cur)) sg) = true ->
  0 < sg_length (sg_at sg cur) <= PAGE_SIZE ->
  sgv_check_full_clustering sg cur hint = spec_full_clustering sg cur hint.
Proof.
  intros Hcur Hlen Hhint Hall Hnew.
  assert (Hsane : forall i, 0 <= i <= cur -> sg_sane (sg_at sg i) = true).
  { intros i Hi. apply (sg_sane_at sg (S (Z.to_nat cur))); auto; lia. }
  pose proof PAGE_SIZE_bounds as HP.
  set (n := sg_at sg cur).
  assert (Hn : sg_sane n = true) by (apply Hsane; lia).
  pose proof (sg_sane_spec n Hn) as [Hn1 Hn2].
  assert (Hout : forall i, 0 <= i <= cur ->
            (spec_tail_merge (sg_at sg i) n || spec_head_merge (sg_at sg i) n) = true ->
            match (if spec_head_merge (sg_at sg i) n then MergeHead else MergeTail) with
            | MergeTail => out_tail sg cur i (wrap_int (sg_length n))
            | MergeHead => out_head sg cur i (wrap_int (sg_length n))
            end
            = (sg_set (sg_set sg i
                 (if spec_tail_merge (sg_at sg i) n
                  then mk_sg (sg_page (sg_at sg i)) (sg_offset (sg_at sg i))
                         (sg_length (sg_at sg i) + sg_length n)
                  else mk_sg (sg_page n) (sg_offset (sg_at sg i))
                         (sg_length (sg_at sg i) + sg_length n))) cur sg_zero, i)).
  { intros i Hi HP'.
    pose proof (sg_sane_spec _ (Hsane i Hi)) as [He1 He2].
    rewrite wrap_int_id by lia.
    unfold out_tail, out_head. fold n.
    rewrite wrap_uint_id by lia.
    destruct (spec_head_merge (sg_at sg i) n) eqn:Hh.
    - destruct (spec_tail_merge (sg_at sg i) n) eqn:Ht; [|reflexivity].
      exfalso. eapply (spec_merge_exclusive (sg_at sg i) n); eauto; lia.
    - rewrite orb_false_r in HP'. rewrite HP'. reflexivity. }
  unfold sgv_check_full_clustering, spec_full_clustering, spec_candidates.
  fold n.
  destruct (0 <=? hint) eqn:Hh0.
  - apply Z.leb_le in Hh0.
    pose proof (full_cand_spec sg cur hint) as HC.
    cbv zeta in HC. fold n in HC.
    rewrite HC by first [exact Hn | exact Hnew | apply Hsane; lia]. clear HC.
    cbn [app List.find].
    destruct (spec_head_merge (sg_at sg hint) n) eqn:Hh.
    + rewrite orb_true_r. cbn beta iota.
      specialize (Hout hint ltac:(lia)). rewrite Hh in Hout.
      rewrite Hout by apply orb_true_r. reflexivity.
    + rewrite orb_false_r.
      destruct (spec_tail_merge (sg_at sg hint) n) eqn:Ht.
      * cbn beta iota.
        specialize (Hout hint ltac:(lia)). rewrite Hh, Ht in Hout.
        rewrite Hout by reflexivity. rewrite Ht. reflexivity.
      * pose proof (full_scan_find sg cur (Z.to_nat cur)) as HF.
        cbv zeta in HF. fold n in HF.
        rewrite HF; auto.
        2:{ intros i Hi. apply Hsane. lia. }
        destruct (List.find _ _) as [i|] eqn:Hf; [|reflexivity].
        apply find_some in Hf as [Hin Hi].
        apply in_map_iff in Hin as (j & <- & Hj).
        apply in_rev, in_seq in Hj.
        apply (Hout (Z.of_nat j)); [lia|exact Hi].
  - cbn [app].
    pose proof (full_scan_find sg cur (Z.to_nat cur)) as HF.
    cbv zeta in HF. fold n in HF.
    rewrite HF; auto.
    2:{ intros i Hi. apply Hsane. lia. }
    destruct (List.find _ _) as [i|] eqn:Hf; [|reflexivity].
    apply find_some in Hf as [Hin Hi].
    apply in_map_iff in Hin as (j & <- & Hj).
    apply in_rev, in_seq in Hj.
    apply (Hout (Z.of_nat j)); [lia|exact Hi].
Qed.

(** C4. In full-clustering mode the clusterer tests the hint and then the
    entries [cur - 1] down to [0]; the first candidate that satisfies the
    tail rule (its frames end where the new page starts and its length is
    page-aligned) or the head rule (the new page, a whole one, ends where the
    candidate starts) absorbs the new page: the length grows by the new
    page's length, and on a head merge the page becomes the new page.  The
    result is the index of that entry, or [-1] with the array unchanged when
    no candidate matches. *)
Theorem full_clustering_spec (sg : list scatterlist) (cur hint : Z) :
  0 <= cur -> (Z.to_nat cur < length sg)%nat -> hint < cur ->
  forallb sg_sane (take (S (Z.to_nat cur)) sg) = true ->
  0 < sg_length (sg_at sg cur) <= PAGE_SIZE ->
  sgv_check_full_clustering sg cur hint = spec_full_clustering sg cur hint.
Proof. exact (full_clustering_refines sg cur hint). Qed.


(** ** The active list and the cursor *)

Lemma list_del_pool_elem (p x : nat) (l : list nat) :
  NoDup l -> (x ∈ list_del_pool p l <-> x ∈ l /\ x <> p).
Proof.
  induction l as [|q l IH]; intros Hnd; simpl.
  - rewrite elem_of_nil. tauto.
  - apply NoDup_cons in Hnd as [Hq Hnd].
    destruct (Nat.eqb_spec q p) as [->|Hne].
    + rewrite elem_of_cons. split.
      * intros H. split; [auto|]. intros ->. contradiction.
      * intros [[->|H] Hx]; [contradiction|exact H].
    + rewrite !elem_of_cons, IH by exact Hnd. split.
      * intros [->|[H1 H2]]; auto.
      * intros [[->|H1] H2]; auto.
Qed.

Lemma list_del_pool_NoDup (p : nat) (l : list nat) :
  NoDup l -> NoDup (list_del_pool p l).
Proof.
  induction l as [|q l IH]; intros Hnd; simpl; [constructor|].
  pose proof Hnd as Hnd'. apply NoDup_cons in Hnd as [Hq Hnd].
  destruct (Nat.eqb_spec q p) as [->|Hne]; [exact Hnd|].
  apply NoDup_cons. split; [|auto].
  rewrite list_del_pool_elem by exact Hnd. tauto.
Qed.

Lemma list_del_pool_length (p : nat) (l : list nat) :
  (length (list_del_pool p l) <= length l)%nat.
Proof.
  induction l as [|q l IH]; simpl; [lia|].
  destruct (Nat.eqb q p); simpl; lia.
Qed.

Lemma list_next_elem (p q : nat) (l : list nat) :
  NoDup l -> list_next p l = Some q -> q ∈ l /\ q <> p /\ p ∈ l.
Proof.
  induction l as [|x l IH]; intros Hnd H; simpl in H; [discriminate|].
  apply NoDup_cons in Hnd as [Hx Hnd].
  destruct (Nat.eqb_spec x p) as [->|Hne].
  - destruct l as [|y l]; simpl in H; [discriminate|]. injection H as ->.
    rewrite !elem_of_cons. repeat split; auto.
    intros ->. apply Hx. left.
  - destruct (IH Hnd H) as (H1 & H2 & H3).
    rewrite !elem_of_cons. auto.
Qed.

Lemma hd_error_elem (q : nat) (l : list nat) : hd_error l = Some q -> q ∈ l.
Proof. destruct l; simpl; intros H; [discriminate|]. injection H as ->. left. Qed.

Definition cur_in_active (g : sgv_state) : Prop :=
  forall c, sgv_cur_purge_pool g = Some c -> c ∈ sgv_active_pools_list g.

Lemma del_from_active_spec (pool : nat) (g : sgv_state) :
  let g' := sgv_del_from_active pool g in
  sgv_active_pools_list g' = list_del_pool pool (sgv_active_pools_list g) /\
  pools g' = pools g /\ sgv_pages_total g' = sgv_pages_total g /\
  trace g' = trace g /\
  (forall c, c <> pool -> sgv_cur_purge_pool g = Some c ->
             sgv_cur_purge_pool g' = Some c) /\
  (NoDup (sgv_active_pools_list g) -> cur_in_active g -> cur_in_active g').
Proof.
  unfold sgv_del_from_active, cur_in_active; simpl.
  destruct (sgv_cur_purge_pool g) as [c|] eqn:Hc; simpl.
  - destruct (Nat.eqb_spec c pool) as [->|Hne]; simpl; splits; auto.
    + intros c Hne H. congruence.
    + intros Hnd Hin c.
      destruct (list_next pool (sgv_active_pools_list g)) as [q|] eqn:Hq.
      * intros H. injection H as <-.
        destruct (list_next_elem _ _ _ Hnd Hq) as (H1 & H2 & _).
        apply list_del_pool_elem; auto.
      * apply hd_error_elem.
    + intros c' _ H. congruence.
    + intros Hnd Hin c' H. rewrite Hc in H. injection H as <-.
      apply list_del_pool_elem; auto.
  - splits; auto.
    + intros c _ H. discriminate.
    + intros _ _ c. rewrite Hc. discriminate.
Qed.

(** ** Eviction of one object *)

Lemma log_all_fields (es : list event) (g : sgv_state) :
  sgv_pages_total (log_all es g) = sgv_pages_total g /\
  sgv_cur_purge_pool (log_all es g) = sgv_cur_purge_pool g /\
  sgv_active_pools_list (log_all es g) = sgv_active_pools_list g /\
  pools (log_all es g) = pools g /\
  trace (log_all es g) = rev es ++ trace g.
Proof.
  revert g. induction es as [|e es IH]; intros g; simpl; [auto|].
  destruct (IH (log e g)) as (H1 & H2 & H3 & H4 & H5).
  unfold log_all in *. simpl. rewrite H1, H2, H3, H4, H5. simpl.
  splits; auto. rewrite <- app_assoc. reflexivity.
Qed.

Lemma dtor_fields (obj : sgv_pool_obj) (g : sgv_state) :
  let g' := sgv_dtor_and_free obj g in
  sgv_pages_total g' = sgv_pages_total g /\
  sgv_cur_purge_pool g' = sgv_cur_purge_pool g /\
  sgv_active_pools_list g' = sgv_active_pools_list g /\
  pools g' = pools g.
Proof.
  unfold sgv_dtor_and_free. simpl.
  destruct (sg_count obj =? 0); simpl; auto.
  destruct (log_all_fields
    (map EvFreePage (sgv_free_sys_sg_entries (sg_entries obj) (sg_count obj))) g)
    as (H1 & H2 & H3 & H4 & _).
  auto.
Qed.

Lemma list_del_obj_head (o : sgv_pool_obj) (l : list sgv_pool_obj) :
  list_del_obj (obj_addr o) (o :: l) = l.
Proof. simpl. rewrite Nat.eqb_refl. reflexivity. Qed.

Lemma dec_cached_spec (pool : nat) (pages : Z) (g : sgv_state) :
  let g' := sgv_dec_cached_entries pool pages g in
  (sgv_active_pools_list g' = sgv_active_pools_list g \/
   sgv_active_pools_list g' = list_del_pool pool (sgv_active_pools_list g)) /\
  (forall q, q <> pool -> pools g' q = pools g q) /\
  pools g' pool =
    set_counters (wrap_int (cached_entries (pools g pool) - 1))
      (wrap_int (cached_pages (pools g pool) - pages))
      (inactive_cached_pages (pools g pool)) (pools g pool) /\
  sgv_pages_total g' = sgv_pages_total g /\
  trace g' = trace g /\
  (forall c, c <> pool -> sgv_cur_purge_pool g = Some c ->
             sgv_cur_purge_pool g' = Some c) /\
  (NoDup (sgv_active_pools_list g) -> cur_in_active g -> cur_in_active g').
Proof.
  unfold sgv_dec_cached_entries. cbn zeta.
  set (p' := set_counters _ _ _ _).
  destruct (cached_entries p' =? 0).
  - destruct (del_from_active_spec pool (set_pool pool p' g))
      as (H1 & H2 & H3 & H4 & H5 & H6).
    cbv zeta in *. rewrite H1, H2, H3, H4. simpl. splits; auto.
    + intros q Hq. destruct (Nat.eqb_spec q pool); [contradiction|reflexivity].
    + rewrite Nat.eqb_refl. reflexivity.
  - simpl. splits; auto.
    + intros q Hq. destruct (Nat.eqb_spec q pool); [contradiction|reflexivity].
    + rewrite Nat.eqb_refl. reflexivity.
Qed.

Lemma purge_step (obj : sgv_pool_obj) (l' : list sgv_pool_obj) (g : sgv_state) :
  let p := owner_pool obj in
  let g' := __sgv_purge_from_cache obj g in
  sorted_recycling_list (pools g p) = obj :: l' ->
  sorted_recycling_list (pools g' p) = l' /\
  (forall q, q <> p -> pools g' q = pools g q) /\
  (sgv_active_pools_list g' = sgv_active_pools_list g \/
   sgv_active_pools_list g' = list_del_pool p (sgv_active_pools_list g)) /\
  (forall c, c <> p -> sgv_cur_purge_pool g = Some c ->
             sgv_cur_purge_pool g' = Some c) /\
  (NoDup (sgv_active_pools_list g) -> cur_in_active g -> cur_in_active g') /\
  sgv_pages_total g' = wrap_int (sgv_pages_total g - obj_pages obj) /\
  trace g' = EvPurge p (obj_addr obj) (obj_pages obj) :: trace g.
Proof.
  intros p g' Hl. subst g'. unfold __sgv_purge_from_cache. fold p.
  set (p1 := set_counters _ _ _ _).
  destruct (dec_cached_spec p (obj_pages obj) (set_pool p p1 g))
    as (H1 & H2 & H3 & H4 & H5 & H6 & H7).
  cbv zeta in *. simpl in *. rewrite Nat.eqb_refl in H3.
  splits; auto.
  - rewrite H3. subst p1. simpl. rewrite Hl. apply list_del_obj_head.
  - intros q Hq. rewrite H2 by exact Hq.
    destruct (Nat.eqb_spec q p); [contradiction|reflexivity].
  - rewrite H4. reflexivity.
  - rewrite H5. reflexivity.
Qed.

(** ** [sgv_shrink_pool] *)

Lemma obj_ok_spec (p : nat) (o : sgv_pool_obj) :
  obj_ok p o = true ->
  owner_pool o = p /\ 0 <= order_or_pages o < SGV_POOL_ELEMENTS.
Proof.
  unfold obj_ok. intros H. repeat (apply andb_prop in H as [H ?]).
  apply Nat.eqb_eq in H. lia.
Qed.

Lemma obj_pages_bound (p : nat) (o : sgv_pool_obj) :
  SGV_POOL_ELEMENTS <= 31 -> obj_ok p o = true -> 1 <= obj_pages o <= 2 ^ 30.
Proof.
  intros HE Hok. apply obj_ok_spec in Hok as [_ Ho].
  unfold obj_pages. rewrite Z.shiftl_mul_pow2, Z.mul_1_l by lia.
  assert (1 <= 2 ^ order_or_pages o <= 2 ^ 30).
  { split; [apply (Z.pow_le_mono_r 2 0); lia | apply Z.pow_le_mono_r; lia]. }
  rewrite wrap_int_id; lia.
Qed.

Lemma list_del_pool_absent (p : nat) (l : list nat) :
  p ∉ l -> list_del_pool p l = l.
Proof.
  induction l as [|q l IH]; intros H; simpl; [reflexivity|].
  rewrite not_elem_of_cons in H. destruct H as [H1 H2].
  destruct (Nat.eqb_spec q p); [congruence|]. rewrite IH; auto.
Qed.

Lemma list_del_pool_twice (p : nat) (l : list nat) :
  NoDup l -> list_del_pool p (list_del_pool p l) = list_del_pool p l.
Proof.
  intros Hnd. apply list_del_pool_absent.
  rewrite list_del_pool_elem by exact Hnd. tauto.
Qed.

(** What one call of [sgv_shrink_pool] does to the state: [k] objects leave
    the head of the pool's list. *)
Definition pool_shrunk (p : nat) (k : nat) (nr nr' : Z) (g g' : sgv_state)
  : Prop :=
  (k <= length (sorted_recycling_list (pools g p)))%nat /\
  sorted_recycling_list (pools g' p) = drop k (sorted_recycling_list (pools g p)) /\
  (k = 0%nat -> nr' = nr) /\
  (forall q, q <> p -> pools g' q = pools g q) /\
  (sgv_active_pools_list g' = sgv_active_pools_list g \/
   sgv_active_pools_list g' = list_del_pool p (sgv_active_pools_list g)) /\
  (forall c, c <> p -> sgv_cur_purge_pool g = Some c ->
             sgv_cur_purge_pool g' = Some c) /\
  cur_in_active g' /\
  wrap_int (nr' - sgv_pages_total g') = wrap_int (nr - sgv_pages_total g) /\
  sgv_pages_total g' <= sgv_pages_total g /\
  (- 2 ^ 30 <= sgv_pages_total g -> - 2 ^ 30 <= sgv_pages_total g') /\
  (- 2 ^ 31 <= nr < 2 ^ 31 -> - 2 ^ 31 <= nr' < 2 ^ 31).

Lemma shrink_pool_loop_spec (p : nat) (l : list sgv_pool_obj) :
  0 <= sgv_lo_wmk -> SGV_POOL_ELEMENTS <= 31 ->
  forall (nr freed after t : Z) (g : sgv_state),
  sorted_recycling_list (pools g p) = l ->
  (forall o, o ∈ l -> obj_ok p o = true) ->
  NoDup (sgv_active_pools_list g) -> cur_in_active g ->
  sgv_pages_total g < 2 ^ 31 ->
  exists k, pool_shrunk p k nr (fst (shrink_pool_loop l nr freed after t g))
              g (snd (shrink_pool_loop l nr freed after t g)).
Proof.
  intros Hlo HE. induction l as [|obj l IH]; intros nr freed after t g Hl Hok Hnd Hcur Htot.
  - exists 0%nat. unfold pool_shrunk. simpl. rewrite Hl. simpl.
    splits; auto; lia.
  - assert (Hstop : exists k, pool_shrunk p k nr nr g g).
    { exists 0%nat. unfold pool_shrunk. rewrite drop_0. splits; auto; lia. }
    simpl. destruct (sgv_pages_total g >? sgv_lo_wmk) eqn:Hgt; [|exact Hstop].
    unfold sgv_purge_from_cache.
    destruct (time_after_eq t (wrap_ulong (time_stamp obj + after))); [|exact Hstop].
    clear Hstop. apply Z.gtb_lt in Hgt.
    assert (Hobj : obj_ok p obj = true) by (apply Hok; left).
    pose proof (obj_pages_bound p obj HE Hobj) as Hpg.
    destruct (obj_ok_spec p obj Hobj) as [Hown _].
    pose proof (purge_step obj l g) as Hstep. cbv zeta in Hstep.
    rewrite Hown in Hstep. specialize (Hstep Hl).
    destruct Hstep as (S1 & S2 & S3 & S4 & S5 & S6 & S7).
    set (g1 := __sgv_purge_from_cache obj g) in *.
    destruct (dtor_fields obj g1) as (D1 & D2 & D3 & D4). cbv zeta in *.
    set (g2 := sgv_dtor_and_free obj g1) in *.
    clearbody g2. clearbody g1.
    assert (Htot1 : sgv_pages_total g2 = sgv_pages_total g - obj_pages obj).
    { rewrite D1, S6. apply wrap_int_id. lia. }
    assert (Hnd2 : NoDup (sgv_active_pools_list g2)).
    { rewrite D3. destruct S3 as [->| ->]; auto using list_del_pool_NoDup. }
    assert (Hcur2 : cur_in_active g2).
    { unfold cur_in_active. rewrite D2, D3. apply S5; auto. }
    assert (Hone : pool_shrunk p 1 nr (wrap_int (nr - obj_pages obj)) g g2).
    { unfold pool_shrunk. rewrite D2, D3, D4, Hl, S1. simpl. rewrite drop_0.
      splits; auto; try lia.
      - rewrite Htot1, wrap_int_sub_l. f_equal. lia.
      - intros _. apply wrap_int_range. }
    destruct ((wrap_int (nr - obj_pages obj) <=? 0)
              || (wrap_int (freed + obj_pages obj) >=? MAX_PAGES_PER_POOL)).
    { exists 1%nat. exact Hone. }
    destruct (IH (wrap_int (nr - obj_pages obj)) (wrap_int (freed + obj_pages obj))
                after t g2) as [k Hk]; auto.
    { rewrite D4. exact S1. }
    { intros o Ho. apply Hok. right. exact Ho. }
    { lia. }
    exists (S k).
    destruct Hone as (_ & _ & _ & O4 & O5 & O6 & _ & O8 & O9 & O10 & O11).
    destruct Hk as (K1 & K2 & K3 & K4 & K5 & K6 & K7 & K8 & K9 & K10 & K11).
    rewrite D4, S1 in K1, K2.
    unfold pool_shrunk. rewrite Hl. simpl. splits; auto; try lia; try congruence.
    + intros q Hq. rewrite K4, O4; auto.
    + destruct K5 as [->| ->]; destruct O5 as [->| ->]; auto.
      right. apply list_del_pool_twice. exact Hnd.
Qed.

(** ** Termination of [__sgv_shrink] *)

Definition shrink_inv (g : sgv_state) : Prop :=
  NoDup (sgv_active_pools_list g) /\ cur_in_active g /\
  (forall p, p ∈ sgv_active_pools_list g ->
   forall o, o ∈ sorted_recycling_list (pools g p) -> obj_ok p o = true).

Lemma shrink_wf_inv (g : sgv_state) : shrink_wf g = true -> shrink_inv g.
Proof.
  unfold shrink_wf, shrink_inv, cur_ok, cur_in_active. intros H.
  apply andb_prop in H as [H H3]. apply andb_prop in H as [H1 H2].
  apply bool_decide_eq_true_1 in H1. splits; auto.
  - intros c Hc. rewrite Hc in H2. apply bool_decide_eq_true_1 in H2. exact H2.
  - intros p Hp o Ho. rewrite forallb_forall in H3.
    apply list_elem_of_In in Hp, Ho. specialize (H3 p Hp).
    rewrite forallb_forall in H3. auto.
Qed.

(** The part of the active list from pool [q] on, and the measure that
    decreases with every iteration of the loop. *)
Fixpoint suffix_from (q : nat) (l : list nat) : list nat :=
  match l with
  | [] => []
  | x :: l' => if Nat.eqb x q then l else suffix_from q l'
  end.

Definition rem_from (c : option nat) (l : list nat) : nat :=
  match c with
  | None => length l
  | Some q => length (suffix_from q l)
  end.

Definition credit (circle : bool) (prev_nr nr : Z) : nat :=
  if circle then (if prev_nr =? nr then 0 else 1) else 2.

Definition potential (g : sgv_state) (circle : bool) (prev_nr nr : Z) : nat :=
  rem_from (sgv_cur_purge_pool g) (sgv_active_pools_list g)
  + S (length (sgv_active_pools_list g))
    * (inactive_objs g + credit circle prev_nr nr).

Lemma suffix_from_length (q : nat) (l : list nat) :
  (length (suffix_from q l) <= length l)%nat.
Proof.
  induction l as [|x l IH]; simpl; [lia|].
  destruct (Nat.eqb x q); simpl; lia.
Qed.

Lemma rem_from_length (c : option nat) (l : list nat) :
  (rem_from c l <= length l)%nat.
Proof. destruct c; simpl; [apply suffix_from_length|lia]. Qed.

Lemma suffix_from_next (p q : nat) (l : list nat) :
  NoDup l -> list_next p l = Some q ->
  suffix_from p l = p :: suffix_from q l /\
  suffix_from q (list_del_pool p l) = suffix_from q l.
Proof.
  induction l as [|x l IH]; intros Hnd H; [discriminate|].
  pose proof (list_next_elem p q _ Hnd H) as (Hq & Hne & Hp).
  apply NoDup_cons in Hnd as [Hx Hnd]. simpl in *.
  destruct (Nat.eqb_spec x p) as [->|Hxp].
  - destruct (Nat.eqb_spec p q) as [->|_]; [congruence|].
    destruct l as [|y l]; simpl in H; [discriminate|]. injection H as ->.
    simpl. rewrite Nat.eqb_refl. auto.
  - destruct (IH Hnd H) as [IH1 IH2].
    destruct (list_next_elem p q _ Hnd H) as (Hq' & _).
    destruct (Nat.eqb_spec x q) as [->|_]; [contradiction|].
    simpl. destruct (Nat.eqb_spec x q) as [->|_]; [contradiction|]. auto.
Qed.

Lemma sum_del (f : nat -> nat) (p : nat) (l : list nat) :
  NoDup l -> p ∈ l ->
  (list_sum (map f (list_del_pool p l)) + f p = list_sum (map f l))%nat.
Proof.
  induction l as [|x l IH]; intros Hnd Hp; [inversion Hp|].
  apply NoDup_cons in Hnd as [Hx Hnd]. simpl.
  destruct (Nat.eqb_spec x p) as [->|Hne]; [lia|].
  apply elem_of_cons in Hp as [->|Hp]; [congruence|].
  simpl. specialize (IH Hnd Hp). lia.
Qed.

Lemma sum_ext (f f' : nat -> nat) (l : list nat) :
  (forall q, q ∈ l -> f' q = f q) ->
  list_sum (map f' l) = list_sum (map f l).
Proof.
  induction l as [|x l IH]; intros H; simpl; [reflexivity|].
  rewrite H by left. rewrite IH; auto. intros q Hq. apply H. right. exact Hq.
Qed.

Lemma inactive_objs_shrunk (p k : nat) (nr nr' : Z) (g g' : sgv_state) :
  pool_shrunk p k nr nr' g g' ->
  NoDup (sgv_active_pools_list g) -> p ∈ sgv_active_pools_list g ->
  (inactive_objs g' + k <= inactive_objs g)%nat /\
  (length (sgv_active_pools_list g') <= length (sgv_active_pools_list g))%nat.
Proof.
  intros (K1 & K2 & _ & K4 & K5 & _) Hnd Hp. unfold inactive_objs.
  set (f := fun q => length (sorted_recycling_list (pools g q))).
  set (f' := fun q => length (sorted_recycling_list (pools g' q))).
  assert (Hf : forall q, q <> p -> f' q = f q).
  { intros q Hq. unfold f, f'. rewrite K4; auto. }
  assert (Hfp : (f' p + k = f p)%nat).
  { unfold f, f'. rewrite K2, length_drop. lia. }
  pose proof (sum_del f p _ Hnd Hp) as Hs.
  pose proof (sum_del f' p _ Hnd Hp) as Hs'.
  assert (Hd : list_sum (map f' (list_del_pool p (sgv_active_pools_list g)))
               = list_sum (map f (list_del_pool p (sgv_active_pools_list g)))).
  { apply sum_ext. intros q Hq. apply Hf.
    apply list_del_pool_elem in Hq; tauto. }
  destruct K5 as [->| ->].
  - split; lia.
  - split; [lia|apply list_del_pool_length].
Qed.

Lemma shrink_pool_spec (p : nat) (nr after t : Z) (g : sgv_state) :
  0 <= sgv_lo_wmk -> SGV_POOL_ELEMENTS <= 31 ->
  shrink_inv g -> p ∈ sgv_active_pools_list g -> sgv_pages_total g < 2 ^ 31 ->
  exists k, pool_shrunk p k nr (fst (sgv_shrink_pool p nr after t g)) g
              (snd (sgv_shrink_pool p nr after t g)) /\
            shrink_inv (snd (sgv_shrink_pool p nr after t g)).
Proof.
  intros Hlo HE (I1 & I2 & I3) Hp Htot. unfold sgv_shrink_pool.
  destruct (shrink_pool_loop_spec p (sorted_recycling_list (pools g p)) Hlo HE
              nr 0 after t g) as [k Hk]; auto.
  exists k. split; [exact Hk|].
  destruct Hk as (K1 & K2 & _ & K4 & K5 & _ & K7 & _).
  set (g' := snd _) in *. clearbody g'.
  assert (Hsub : forall q, q ∈ sgv_active_pools_list g' ->
                           q ∈ sgv_active_pools_list g).
  { intros q. destruct K5 as [->| ->]; auto.
    rewrite list_del_pool_elem by exact I1. tauto. }
  unfold shrink_inv. splits; auto.
  - destruct K5 as [->| ->]; auto using list_del_pool_NoDup.
  - intros q Hq o Ho. destruct (Nat.eq_dec q p) as [->|Hne].
    + rewrite K2 in Ho. apply (I3 p Hp).
      rewrite <- (take_drop k). apply elem_of_app. right. exact Ho.
    + rewrite K4 in Ho by exact Hne. apply (I3 q); auto.
Qed.

Lemma shrink_loop_spec (after t : Z) :
  0 <= sgv_lo_wmk -> SGV_POOL_ELEMENTS <= 31 ->
  forall (fuel : nat) (nr prev : Z) (circle : bool) (g : sgv_state),
  shrink_inv g -> sgv_pages_total g < 2 ^ 31 ->
  (potential g circle prev nr < fuel)%nat ->
  exists nr' g',
    shrink_loop fuel nr prev circle after t g = Some (nr', g') /\
    shrink_inv g' /\
    wrap_int (nr' - sgv_pages_total g') = wrap_int (nr - sgv_pages_total g) /\
    sgv_pages_total g' <= sgv_pages_total g /\
    (- 2 ^ 30 <= sgv_pages_total g -> - 2 ^ 30 <= sgv_pages_total g') /\
    (- 2 ^ 31 <= nr < 2 ^ 31 -> - 2 ^ 31 <= nr' < 2 ^ 31).
Proof.
  intros Hlo HE. induction fuel as [|fuel IH]; intros nr prev circle g Hinv Htot Hpot;
    [lia|].
  assert (Hstop : exists nr' g', Some (nr, g) = Some (nr', g') /\
            shrink_inv g' /\
            wrap_int (nr' - sgv_pages_total g') = wrap_int (nr - sgv_pages_total g) /\
            sgv_pages_total g' <= sgv_pages_total g /\
            (- 2 ^ 30 <= sgv_pages_total g -> - 2 ^ 30 <= sgv_pages_total g') /\
            (- 2 ^ 31 <= nr < 2 ^ 31 -> - 2 ^ 31 <= nr' < 2 ^ 31)).
  { exists nr, g. splits; auto; lia. }
  simpl. destruct (nr >? 0); [|exact Hstop].
  pose proof Hinv as (I1 & I2 & I3).
  set (A := sgv_active_pools_list g) in *.
  destruct (match sgv_cur_purge_pool g with
            | Some p => Some p
            | None => hd_error A
            end) as [p|] eqn:Hsel; [|exact Hstop].
  assert (Hp : p ∈ A).
  { destruct (sgv_cur_purge_pool g) eqn:Hc.
    - injection Hsel as ->. apply I2. exact Hc.
    - apply hd_error_elem. exact Hsel. }
  assert (Hrem : rem_from (sgv_cur_purge_pool g) A = length (suffix_from p A)).
  { destruct (sgv_cur_purge_pool g) eqn:Hc.
    - injection Hsel as ->. reflexivity.
    - destruct A as [|h A']; [discriminate|]. simpl in Hsel. injection Hsel as ->.
      simpl. rewrite Nat.eqb_refl. reflexivity. }
  unfold potential in Hpot. fold A in Hpot. rewrite Hrem in Hpot.
  assert (Hstep : forall (c : option nat) (prev' : Z) (circle' : bool),
    (forall q, c = Some q -> q ∈ A) ->
    (forall nr1 g1 k,
       pool_shrunk p k nr nr1 (set_cur_purge_pool c g) g1 ->
       (inactive_objs g1 + k <= inactive_objs g)%nat ->
       (length (sgv_active_pools_list g1) <= length A)%nat ->
       (potential g1 circle' prev' nr1 < fuel)%nat) ->
    exists nr' g',
      (let '(nr1, g1) := sgv_shrink_pool p nr after t (set_cur_purge_pool c g) in
       shrink_loop fuel nr1 prev' circle' after t g1) = Some (nr', g') /\
      shrink_inv g' /\
      wrap_int (nr' - sgv_pages_total g') = wrap_int (nr - sgv_pages_total g) /\
      sgv_pages_total g' <= sgv_pages_total g /\
      (- 2 ^ 30 <= sgv_pages_total g -> - 2 ^ 30 <= sgv_pages_total g') /\
      (- 2 ^ 31 <= nr < 2 ^ 31 -> - 2 ^ 31 <= nr' < 2 ^ 31)).
  { intros c prev' circle' Hc Hmeasure.
    set (g0 := set_cur_purge_pool c g).
    assert (Hinv0 : shrink_inv g0).
    { unfold shrink_inv, cur_in_active. simpl. splits; auto. }
    destruct (shrink_pool_spec p nr after t g0 Hlo HE Hinv0 Hp Htot)
      as (k & Hk & Hinv1).
    destruct (sgv_shrink_pool p nr after t g0) as [nr1 g1]. simpl in Hk, Hinv1.
    destruct (inactive_objs_shrunk _ _ _ _ _ _ Hk I1 Hp) as [HN Hlen].
    specialize (Hmeasure nr1 g1 k Hk HN Hlen).
    destruct Hk as (K1 & K2 & K3 & K4 & K5 & K6 & K7 & K8 & K9 & K10 & K11).
    simpl in K8, K9, K10.
    destruct (IH nr1 prev' circle' g1 Hinv1 ltac:(lia) Hmeasure)
      as (nr' & g' & E & J1 & J2 & J3 & J4 & J5).
    exists nr', g'. splits; auto; try lia; congruence. }
  clear Hstop.
  destruct (list_next p A) as [q|] eqn:Hnext.
  - destruct (suffix_from_next p q A I1 Hnext) as [Hs1 Hs2].
    destruct (list_next_elem p q A I1 Hnext) as (Hq & Hqp & _).
    apply Hstep.
    { intros q' Hq'. injection Hq' as <-. exact Hq. }
    intros nr1 g1 k Hk HN Hlen.
    destruct Hk as (K1 & K2 & K3 & K4 & K5 & K6 & _).
    simpl in K5, K6. fold A in K5.
    unfold potential. rewrite (K6 q Hqp eq_refl). simpl rem_from.
    assert (Hsuf : suffix_from q (sgv_active_pools_list g1) = suffix_from q A).
    { destruct K5 as [->| ->]; auto. }
    rewrite Hsuf. rewrite Hs1 in Hpot. simpl length in Hpot.
    assert (HC : (inactive_objs g1 + credit circle prev nr1
                  <= inactive_objs g + credit circle prev nr)%nat).
    { destruct k as [|k].
      - rewrite K3 by reflexivity. lia.
      - unfold credit. destruct circle; [|lia].
        destruct (prev =? nr1), (prev =? nr); lia. }
    nia.
  - destruct (circle && (prev =? nr)) eqn:Hexit.
    + exists nr, g. splits; auto; lia.
    + apply Hstep.
      { intros q' Hq'. apply hd_error_elem. exact Hq'. }
      intros nr1 g1 k Hk HN Hlen.
      destruct Hk as (K1 & K2 & K3 & _).
      unfold potential.
      pose proof (rem_from_length (sgv_cur_purge_pool g1)
                    (sgv_active_pools_list g1)) as Hr.
      assert (HC : (inactive_objs g1 + credit true nr nr1 <= inactive_objs g)%nat).
      { destruct k as [|k].
        - rewrite K3 by reflexivity. unfold credit. rewrite Z.eqb_refl. lia.
        - unfold credit. destruct (nr =? nr1); lia. }
      assert (HC0 : (1 <= credit circle prev nr)%nat).
      { unfold credit. destruct circle; [|lia].
        simpl in Hexit. rewrite Hexit. lia. }
      nia.
Qed.

Lemma shrink_loop_mono (after t : Z) (fuel : nat) :
  forall (nr prev : Z) (circle : bool) (g : sgv_state) (r : Z * sgv_state),
  shrink_loop fuel nr prev circle after t g = Some r ->
  forall fuel', (fuel <= fuel')%nat ->
  shrink_loop fuel' nr prev circle after t g = Some r.
Proof.
  induction fuel as [|fuel IH]; intros nr prev circle g r H fuel' Hle;
    [discriminate|].
  destruct fuel' as [|fuel']; [lia|]. simpl in *.
  destruct (nr >? 0); [|exact H].
  destruct (match sgv_cur_purge_pool g with
            | Some p => Some p
            | None => hd_error (sgv_active_pools_list g)
            end) as [p|]; [|exact H].
  destruct (list_next p (sgv_active_pools_list g)).
  - destruct (sgv_shrink_pool _ _ _ _ _) as [nr1 g1].
    apply (IH _ _ _ _ _ H). lia.
  - destruct (circle && (prev =? nr)); [exact H|].
    destruct (sgv_shrink_pool _ _ _ _ _) as [nr1 g1].
    apply (IH _ _ _ _ _ H). lia.
Qed.

Lemma potential_fuel (g : sgv_state) (nr : Z) :
  (potential g false nr nr < shrink_fuel g)%nat.
Proof.
  unfold potential, shrink_fuel, credit.
  pose proof (rem_from_length (sgv_cur_purge_pool g) (sgv_active_pools_list g)).
  nia.
Qed.

(** [__sgv_shrink] returns: the loop ends within [shrink_fuel g] iterations,
    and more fuel does not change its result.  What it purges comes off
    [sgv_pages_total] and off the request alike. *)
Lemma shrink_loop_terminates (nr after t : Z) (g : sgv_state) :
  0 <= sgv_lo_wmk -> SGV_POOL_ELEMENTS <= 31 ->
  shrink_wf g = true -> sgv_pages_total g < 2 ^ 31 ->
  let r := __sgv_shrink nr after t g in
  (forall fuel, (shrink_fuel g <= fuel)%nat ->
     shrink_loop fuel nr nr false after t g = Some r) /\
  shrink_inv (snd r) /\
  wrap_int (fst r - sgv_pages_total (snd r)) = wrap_int (nr - sgv_pages_total g) /\
  sgv_pages_total (snd r) <= sgv_pages_total g /\
  (- 2 ^ 30 <= sgv_pages_total g -> - 2 ^ 30 <= sgv_pages_total (snd r)) /\
  (- 2 ^ 31 <= nr < 2 ^ 31 -> - 2 ^ 31 <= fst r < 2 ^ 31).
Proof.
  intros Hlo HE Hwf Htot r.
  destruct (shrink_loop_spec after t Hlo HE (shrink_fuel g) nr nr false g
              (shrink_wf_inv g Hwf) Htot (potential_fuel g nr))
    as (nr' & g' & E & H1 & H2 & H3 & H4 & H5).
  assert (Hr : r = (nr', g')).
  { unfold r, __sgv_shrink. rewrite E. reflexivity. }
  rewrite Hr. simpl. splits; auto.
  intros fuel Hf. apply (shrink_loop_mono after t _ _ _ _ _ _ E). exact Hf.
Qed.

(** ** The high-watermark gate *)

(** C1. A request of [n] pages that fits under [sgv_hi_wmk] is committed
    at once by adding [n] to [sgv_pages_total].  Otherwise the gate asks the
    shrinker, with age floor 0, for the pages in excess; the shrinker
    returns, and the request is committed when it then fits, and refused
    with [-ENOMEM], nothing added, when it does not. *)
Theorem hiwmk_check_spec (n jiffies : Z) (g : sgv_state) :
  0 <= sgv_lo_wmk -> SGV_POOL_ELEMENTS <= 31 ->
  0 <= sgv_hi_wmk < 2 ^ 30 -> 0 <= n < 2 ^ 30 ->
  shrink_wf g = true -> 0 <= sgv_pages_total g < 2 ^ 30 ->
  let proj := sgv_pages_total g + n in
  let commit (g : sgv_state) :=
    (0, log (EvTotalAdd n) (set_total (sgv_pages_total g + n) g)) in
  if proj <=? sgv_hi_wmk then sgv_hiwmk_check n jiffies g = commit g
  else
    let r := __sgv_shrink (proj - sgv_hi_wmk) 0 jiffies g in
    (forall fuel, (shrink_fuel g <= fuel)%nat ->
       shrink_loop fuel (proj - sgv_hi_wmk) (proj - sgv_hi_wmk) false 0 jiffies g
       = Some r) /\
    sgv_pages_total (snd r) <= sgv_pages_total g /\
    sgv_hiwmk_check n jiffies g =
      (if sgv_pages_total (snd r) + n <=? sgv_hi_wmk
       then commit (snd r) else (- ENOMEM, snd r)).
Proof.
  intros Hlo HE Hhi Hn Hwf Htot proj commit.
  unfold sgv_hiwmk_check.
  rewrite (wrap_int_id (n + sgv_pages_total g)) by lia.
  replace (n + sgv_pages_total g) with proj by (unfold proj; lia).
  destruct (proj <=? sgv_hi_wmk) eqn:Hle.
  - apply Z.leb_le in Hle.
    destruct (proj >? sgv_hi_wmk) eqn:Hgt; [apply Z.gtb_lt in Hgt; lia|].
    unfold commit. rewrite wrap_int_id by lia. reflexivity.
  - apply Z.leb_gt in Hle.
    destruct (proj >? sgv_hi_wmk) eqn:Hgt;
      [|rewrite Z.gtb_ltb in Hgt; apply Z.ltb_ge in Hgt; lia].
    rewrite (wrap_int_id (proj - sgv_hi_wmk)) by (unfold proj; lia).
    destruct (shrink_loop_terminates (proj - sgv_hi_wmk) 0 jiffies g Hlo HE Hwf
                ltac:(lia)) as (T1 & T2 & T3 & T4 & T5 & T6).
    cbv zeta. split; [exact T1|]. split; [exact T4|].
    destruct (__sgv_shrink (proj - sgv_hi_wmk) 0 jiffies g) as [nr g1].
    simpl in *. specialize (T5 ltac:(lia)). specialize (T6 ltac:(unfold proj; lia)).
    assert (Hnr : nr - sgv_pages_total g1 = proj - sgv_hi_wmk - sgv_pages_total g).
    { apply wrap_int_inj; [exact T3|].
      unfold proj. change (2 ^ 32) with (2 * 2 ^ 31).
      change (2 ^ 31) with (2 * 2 ^ 30) in *. lia. }
    unfold proj in Hnr.
    destruct (sgv_pages_total g1 + n <=? sgv_hi_wmk) eqn:Hfit.
    + apply Z.leb_le in Hfit.
      destruct (nr >? 0) eqn:Hpos; [apply Z.gtb_lt in Hpos; lia|].
      unfold commit. rewrite wrap_int_id; [reflexivity|].
      change (2 ^ 31) with (2 * 2 ^ 30). lia.
    + apply Z.leb_gt in Hfit.
      destruct (nr >? 0) eqn:Hpos; [reflexivity|].
      rewrite Z.gtb_ltb in Hpos. apply Z.ltb_ge in Hpos. lia.
Qed.

(** ** The purge worker *)

Lemma purge_pool_eq (obj : sgv_pool_obj) (g : sgv_state) :
  let p := pools g (owner_pool obj) in
  pools (__sgv_purge_from_cache obj g) (owner_pool obj) =
  mk_pool (clustering_type p)
    (wrap_int (cached_entries p - 1))
    (wrap_int (cached_pages p - obj_pages obj))
    (wrap_int (inactive_cached_pages p - obj_pages obj))
    (purge_work_scheduled p)
    (list_del_obj (obj_addr obj) (sorted_recycling_list p))
    (fun k => if k =? order_or_pages obj
              then list_del_obj (obj_addr obj) (recycling_lists p (order_or_pages obj))
              else recycling_lists p k).
Proof.
  unfold __sgv_purge_from_cache. cbv zeta.
  set (p1 := set_counters _ _ _ _).
  destruct (dec_cached_spec (owner_pool obj) (obj_pages obj)
              (set_pool (owner_pool obj) p1 g)) as (_ & _ & H3 & _).
  cbv zeta in H3. simpl in *. rewrite Nat.eqb_refl in H3. rewrite H3.
  reflexivity.
Qed.

Lemma time_after_eq_age (now ts after : Z) :
  0 <= ts <= now -> now < 2 ^ 62 -> 0 <= after < 2 ^ 62 ->
  time_after_eq now (wrap_ulong (ts + after)) = (after <=? now - ts).
Proof.
  intros H1 H2 H3. unfold time_after_eq.
  change (2 ^ 62) with 4611686018427387904 in *.
  rewrite wrap_ulong_id by (change (2 ^ 64) with 18446744073709551616; lia).
  rewrite wrap_long_id by (change (2 ^ 63) with 9223372036854775808; lia).
  destruct (Z.leb_spec 0 (now - (ts + after))), (Z.leb_spec after (now - ts));
    auto; lia.
Qed.

Lemma lru_entry_ok_spec (pool : nat) (now : Z) (o : sgv_pool_obj) :
  lru_entry_ok pool now o = true ->
  owner_pool o = pool /\ 0 <= time_stamp o <= now.
Proof.
  unfold lru_entry_ok. intros H. repeat (apply andb_prop in H as [H ?]).
  apply Nat.eqb_eq in H. lia.
Qed.

Lemma dtor_trace (obj : sgv_pool_obj) (g : sgv_state) :
  trace (sgv_dtor_and_free obj g) =
  EvObjFree (obj_addr obj)
  :: rev (if sg_count obj =? 0 then []
          else map EvFreePage
                 (sgv_free_sys_sg_entries (sg_entries obj) (sg_count obj)))
  ++ trace g.
Proof.
  unfold sgv_dtor_and_free. destruct (sg_count obj =? 0); simpl; [reflexivity|].
  destruct (log_all_fields
    (map EvFreePage (sgv_free_sys_sg_entries (sg_entries obj) (sg_count obj))) g)
    as (_ & _ & _ & _ & H).
  rewrite H. reflexivity.
Qed.

Lemma purge_work_loop_spec (pool : nat) (now : Z) :
  0 <= now < 2 ^ 62 -> 0 <= PURGE_TIME_AFTER < 2 ^ 62 ->
  forall (l : list sgv_pool_obj) (g : sgv_state),
  sorted_recycling_list (pools g pool) = l ->
  forallb (lru_entry_ok pool now) l = true ->
  let g' := purge_work_loop l pool now g in
  sorted_recycling_list (pools g' pool) = drop_while (is_old now) l /\
  purge_work_scheduled (pools g' pool) =
    match drop_while (is_old now) l with
    | [] => purge_work_scheduled (pools g pool)
    | _ :: _ => true
    end /\
  trace g' =
    match drop_while (is_old now) l with
    | [] => []
    | _ :: _ => [EvScheduleWork pool PURGE_INTERVAL]
    end ++ rev (flat_map destroy_events (take_while (is_old now) l)) ++ trace g /\
  sgv_pages_total g' =
    fold_left (fun t o => wrap_int (t - obj_pages o))
      (take_while (is_old now) l) (sgv_pages_total g) /\
  (forall k, recycling_lists (pools g' pool) k =
             unlink_all (take_while (is_old now) l) k
               (recycling_lists (pools g pool) k)).
Proof.
  intros Hnow Hafter. induction l as [|obj l IH]; intros g Hl Hok g'.
  - subst g'. simpl. rewrite Hl. splits; auto.
  - simpl in Hok. apply andb_prop in Hok as [Hobj Hok].
    apply lru_entry_ok_spec in Hobj as [Hown Hts].
    subst g'. simpl. unfold sgv_purge_from_cache.
    rewrite time_after_eq_age by lia. fold (is_old now obj).
    destruct (is_old now obj) eqn:Hold.
    + pose proof (purge_step obj l g) as Hstep. cbv zeta in Hstep.
      rewrite Hown in Hstep. specialize (Hstep Hl).
      destruct Hstep as (S1 & _ & _ & _ & _ & S6 & S7).
      pose proof (purge_pool_eq obj g) as Hpool. cbv zeta in Hpool.
      rewrite Hown in Hpool.
      pose proof (dtor_trace obj (__sgv_purge_from_cache obj g)) as Htr.
      destruct (dtor_fields obj (__sgv_purge_from_cache obj g))
        as (D1 & _ & _ & D4). cbv zeta in D1, D4.
      set (g2 := sgv_dtor_and_free obj (__sgv_purge_from_cache obj g)) in *.
      clearbody g2.
      destruct (IH g2) as (I1 & I2 & I3 & I4 & I5); auto.
      { rewrite D4. exact S1. }
      cbv zeta in *. rewrite I1, I2, I3, I4. rewrite D4, Hpool, D1, S6, Htr, S7.
      simpl. splits; auto.
      * unfold destroy_events. rewrite Hown.
        rewrite rev_app_distr. simpl. rewrite rev_app_distr. simpl.
        repeat rewrite <- app_assoc. simpl. reflexivity.
      * intros k. rewrite I5, D4, Hpool. simpl.
        destruct (Z.eqb_spec k (order_or_pages obj)) as [->|]; reflexivity.
    + simpl. rewrite Nat.eqb_refl. simpl. rewrite Hl. splits; auto.
Qed.

Lemma sorted_old_prefix (now : Z) (l : list sgv_pool_obj) :
  lru_sorted l = true ->
  take_while (is_old now) l = List.filter (is_old now) l /\
  drop_while (is_old now) l = List.filter (fun o => negb (is_old now o)) l.
Proof.
  induction l as [|o l IH]; intros Hs; [auto|].
  simpl in Hs. apply andb_prop in Hs as [Hall Hs].
  destruct (IH Hs) as [IH1 IH2]. simpl.
  destruct (is_old now o) eqn:Ho; simpl.
  - rewrite IH1, IH2. auto.
  - assert (Hyoung : forall o', In o' l -> is_old now o' = false).
    { intros o' Hin. rewrite forallb_forall in Hall. specialize (Hall o' Hin).
      unfold is_old in *. apply Z.leb_le in Hall. apply Z.leb_gt in Ho.
      apply Z.leb_gt. lia. }
    split.
    + clear -Hyoung. induction l as [|x l IHl]; [reflexivity|]. simpl.
      rewrite Hyoung by (left; reflexivity). apply IHl.
      intros o' Hin. apply Hyoung. right. exact Hin.
    + f_equal. clear -Hyoung. induction l as [|x l IHl]; [reflexivity|]. simpl.
      rewrite Hyoung by (left; reflexivity). simpl. f_equal. apply IHl.
      intros o' Hin. apply Hyoung. right. exact Hin.
Qed.

(** C8. When the purge worker fires it walks the pool's list from the
    oldest object.  Every object at the head of the list whose age
    [now - time_stamp] is at least [PURGE_TIME_AFTER] is unlinked from the
    list and from its bucket, taken off [sgv_pages_total] and destroyed; on
    a list in time order these are all the objects of that age.  At the
    first object that is too young the worker schedules itself again at
    [PURGE_INTERVAL] and stops; when the list runs empty it does not. *)
Theorem purge_work_spec (pool : nat) (now : Z) (g : sgv_state) :
  0 <= now < 2 ^ 62 -> 0 <= HZ < 2 ^ 32 ->
  let l := sorted_recycling_list (pools g pool) in
  forallb (lru_entry_ok pool now) l = true ->
  let g' := sgv_purge_work_fn pool now g in
  let olds := take_while (is_old now) l in
  let rest := drop_while (is_old now) l in
  sorted_recycling_list (pools g' pool) = rest /\
  (forall k, recycling_lists (pools g' pool) k =
             unlink_all olds k (recycling_lists (pools g pool) k)) /\
  sgv_pages_total g' =
    fold_left (fun t o => wrap_int (t - obj_pages o)) olds (sgv_pages_total g) /\
  purge_work_scheduled (pools g' pool) =
    match rest with [] => false | _ :: _ => true end /\
  trace g' =
    match rest with
    | [] => []
    | _ :: _ => [EvScheduleWork pool PURGE_INTERVAL]
    end ++ rev (flat_map destroy_events olds) ++ trace g /\
  (lru_sorted l = true ->
   olds = List.filter (is_old now) l /\
   rest = List.filter (fun o => negb (is_old now o)) l).
Proof.
  intros Hnow HHZ l Hok g' olds rest.
  assert (Hafter : 0 <= PURGE_TIME_AFTER < 2 ^ 62).
  { unfold PURGE_TIME_AFTER, PURGE_INTERVAL.
    change (2 ^ 62) with 4611686018427387904.
    change (2 ^ 32) with 4294967296 in HHZ. lia. }
  set (g0 := set_pool pool (set_scheduled false (pools g pool)) g).
  destruct (purge_work_loop_spec pool now Hnow Hafter l g0)
    as (H1 & H2 & H3 & H4 & H5).
  { unfold g0. simpl. rewrite Nat.eqb_refl. reflexivity. }
  { exact Hok. }
  cbv zeta in *.
  assert (Hg' : g' = purge_work_loop l pool now g0).
  { unfold g', sgv_purge_work_fn. fold g0. f_equal.
    unfold g0. simpl. rewrite Nat.eqb_refl. reflexivity. }
  rewrite Hg'. fold olds rest in H1, H2, H3, H4, H5 |- *.
  splits; auto.
  - intros k. rewrite H5. unfold g0. simpl. rewrite Nat.eqb_refl. reflexivity.
  - rewrite H2. unfold g0. simpl. rewrite Nat.eqb_refl. reflexivity.
  - apply sorted_old_prefix.
Qed.

(** ** Release into the bucket *)

Lemma insert_by_sg_count_In (obj x : sgv_pool_obj) (l : list sgv_pool_obj) :
  In x (insert_by_sg_count obj l) <-> x = obj \/ In x l.
Proof.
  induction l as [|tmp l IH]; simpl; [intuition congruence|].
  destruct (sg_count obj <=? sg_count tmp); simpl; [intuition congruence|].
  rewrite IH. intuition congruence.
Qed.


Lemma set_sg_length_at (sg : list scatterlist) (i len : Z) :
  (Z.to_nat i < length sg)%nat ->
  sg_length (sg_at (set_sg_length sg i len) i) = len.
Proof.
  intros Hi. unfold set_sg_length, sg_at, sg_set.
  rewrite list_lookup_insert_eq by exact Hi. reflexivity.
Qed.

(** What [sgv_pool_free] does with a bucketed object. *)
Lemma pool_free_bucketed (obj : sgv_pool_obj) (mem_lim : scst_mem_lim)
    (now : Z) (g : sgv_state) :
  0 <= order_or_pages obj ->
  let pool := owner_pool obj in
  let p := pools g pool in
  let order := order_or_pages obj in
  let pages := if sg_count obj =? 0 then 0 else obj_pages obj in
  let obj' := with_time_stamp now
                (with_arrays
                   (set_sg_length (sg_entries obj) (orig_sg obj) (orig_length obj))
                   (trans_tbl obj) obj) in
  let g' := snd (sgv_pool_free obj mem_lim now g) in
  let p' := pools g' pool in
  fst (sgv_pool_free obj mem_lim now g)
    = sgv_uncheck_allowed_mem mem_lim pages /\
  sorted_recycling_list p' = sorted_recycling_list p ++ [obj'] /\
  recycling_lists p' order =
    (if sgv_pool_clustered p
     then insert_by_sg_count obj' (recycling_lists p order)
     else obj' :: recycling_lists p order) /\
  (forall k, k <> order -> recycling_lists p' k = recycling_lists p k) /\
  purge_work_scheduled p' = true /\
  trace g' =
    EvQuotaSub pages
    :: (if purge_work_scheduled p then []
        else [EvScheduleWork pool PURGE_INTERVAL]) ++ trace g /\
  sgv_pages_total g' = sgv_pages_total g.
Proof.
  intros Ho pool p order pages obj' g' p'.
  subst g' p'. unfold sgv_pool_free.
  destruct (0 <=? order_or_pages obj) eqn:Hge; [|apply Z.leb_gt in Hge; lia].
  unfold sgv_put_obj. simpl. fold pool. fold p. fold order. fold obj'.
  destruct (purge_work_scheduled p) eqn:Hsched; simpl; rewrite Nat.eqb_refl;
    simpl; rewrite ?Z.eqb_refl; splits; auto;
    intros k Hk; destruct (Z.eqb_spec k order); congruence.
Qed.

(** ** The page fill *)

(** An entry that holds [k >= 1] whole pages starting at frame [pfn]. *)
Definition good_entry (e : scatterlist) : Prop :=
  exists pfn k,
    sg_page e = Some pfn /\ sg_length e = k * PAGE_SIZE /\
    0 <= pfn /\ 1 <= k /\ pfn + k <= 2 ^ 52.

Definition entry_pages (e : scatterlist) : Z := sg_length e / PAGE_SIZE.

Definition sum_pages (es : list scatterlist) : Z :=
  fold_right (fun e acc => entry_pages e + acc) 0 es.

Lemma sum_pages_app (es1 es2 : list scatterlist) :
  sum_pages (es1 ++ es2) = sum_pages es1 + sum_pages es2.
Proof. induction es1 as [|e es IH]; simpl; [reflexivity|]. rewrite IH. lia. Qed.

Lemma good_entry_pages (e : scatterlist) : good_entry e -> 1 <= entry_pages e.
Proof.
  intros (pfn & k & _ & Hl & _ & Hk & _). unfold entry_pages.
  pose proof PAGE_SIZE_bounds. rewrite Hl, Z.div_mul by lia. exact Hk.
Qed.

Lemma sum_pages_nonneg (es : list scatterlist) :
  Forall good_entry es -> Z.of_nat (length es) <= sum_pages es.
Proof.
  induction 1 as [|e es He _ IH]; simpl; [lia|].
  pose proof (good_entry_pages e He). lia.
Qed.

Lemma sum_pages_lookup (es : list scatterlist) (i : nat) (e : scatterlist) :
  Forall good_entry es -> es !! i = Some e -> entry_pages e <= sum_pages es.
Proof.
  intros Hg. revert i. induction Hg as [|x es Hx Hg IH]; intros i Hi;
    [discriminate|].
  pose proof (sum_pages_nonneg es Hg). pose proof (good_entry_pages x Hx).
  destruct i as [|i]; simpl in *.
  - injection Hi as ->. lia.
  - specialize (IH i Hi). lia.
Qed.

Lemma sum_pages_insert (es : list scatterlist) (i : nat) (e e' : scatterlist) :
  es !! i = Some e ->
  sum_pages (<[i:=e']> es) = sum_pages es - entry_pages e + entry_pages e'.
Proof.
  revert i. induction es as [|x es IH]; intros i Hi; [discriminate|].
  destruct i as [|i]; simpl in *.
  - injection Hi as ->. lia.
  - rewrite (IH i Hi). lia.
Qed.

Lemma pages_of_len_whole (k : Z) :
  0 <= k -> pages_of_len (k * PAGE_SIZE) = k.
Proof.
  intros Hk. pose proof PAGE_SIZE_bounds. unfold pages_of_len.
  rewrite page_rest_mod, shiftr_page, Z.div_mul, Z_mod_mult by lia.
  simpl. lia.
Qed.

Lemma free_entry_pages_good (e : scatterlist) (pfn k : Z) :
  sg_page e = Some pfn -> sg_length e = k * PAGE_SIZE ->
  0 <= k -> k * PAGE_SIZE < 2 ^ 31 ->
  free_entry_pages e = map (fun j => pfn + Z.of_nat j) (seq 0 (Z.to_nat k)).
Proof.
  intros Hp Hl Hk Hb. unfold free_entry_pages.
  pose proof PAGE_SIZE_bounds.
  rewrite Hp, Hl, wrap_int_id by lia. rewrite pages_of_len_whole by lia.
  reflexivity.
Qed.

Lemma good_entry_sane (e : scatterlist) (bound : Z) :
  good_entry e -> entry_pages e <= bound -> bound * PAGE_SIZE < 2 ^ 31 ->
  sg_sane e = true.
Proof.
  intros (pfn & k & Hp & Hl & H1 & H2 & H3) Hb Hbound.
  pose proof PAGE_SIZE_bounds. unfold entry_pages in Hb.
  rewrite Hl, Z.div_mul in Hb by lia.
  unfold sg_sane. rewrite Hp, Hl. simpl.
  assert (k * PAGE_SIZE <= bound * PAGE_SIZE) by nia.
  repeat (apply andb_true_intro; split); try apply Z.leb_le; try apply Z.ltb_lt;
    lia.
Qed.

(** [e'] is [e] with the page at frame [pfn] merged in. *)
Definition merged_entry (pfn : Z) (e e' : scatterlist) : Prop :=
  good_entry e' /\ entry_pages e' = entry_pages e + 1 /\
  free_entry_pages e' ≡ₚ pfn :: free_entry_pages e.

Lemma tail_merged (e : scatterlist) (pfn : Z) :
  good_entry e -> (entry_pages e + 1) * PAGE_SIZE < 2 ^ 31 ->
  page_to_pfn (sg_page e) + sg_length e / PAGE_SIZE = pfn -> pfn < 2 ^ 52 ->
  merged_entry pfn e
    (mk_sg (sg_page e) (sg_offset e) (sg_length e + PAGE_SIZE)).
Proof.
  intros (pe & k & Hp & Hl & H1 & H2 & H3) Hb Hpfn Hlt.
  pose proof PAGE_SIZE_bounds as HP. unfold entry_pages in *.
  rewrite Hp, Hl, Z.div_mul in * by lia. simpl in Hpfn.
  assert (Hl' : k * PAGE_SIZE + PAGE_SIZE = (k + 1) * PAGE_SIZE) by lia.
  unfold merged_entry, good_entry, entry_pages. simpl. rewrite Hl, Hl'. splits.
  - exists pe, (k + 1). splits; auto; lia.
  - rewrite !Z.div_mul by lia. reflexivity.
  - rewrite (free_entry_pages_good _ pe (k + 1)); auto; try lia.
    rewrite (free_entry_pages_good e pe k); auto; try lia.
    replace (Z.to_nat (k + 1)) with (S (Z.to_nat k)) by lia.
    rewrite seq_S, map_app. simpl.
    replace (pe + Z.of_nat (Z.to_nat k)) with pfn by lia.
    symmetry. apply Permutation_cons_append.
Qed.

Lemma head_merged (e : scatterlist) (pfn : Z) :
  good_entry e -> (entry_pages e + 1) * PAGE_SIZE < 2 ^ 31 ->
  pfn + 1 = page_to_pfn (sg_page e) -> 0 <= pfn ->
  merged_entry pfn e
    (mk_sg (Some pfn) (sg_offset e) (sg_length e + PAGE_SIZE)).
Proof.
  intros (pe & k & Hp & Hl & H1 & H2 & H3) Hb Hpfn Hge.
  pose proof PAGE_SIZE_bounds as HP. unfold entry_pages in *.
  rewrite Hp, Hl, Z.div_mul in * by lia. simpl in Hpfn.
  assert (Hl' : k * PAGE_SIZE + PAGE_SIZE = (k + 1) * PAGE_SIZE) by lia.
  unfold merged_entry, good_entry, entry_pages. simpl. rewrite Hl, Hl'. splits.
  - exists pfn, (k + 1). splits; auto; lia.
  - rewrite !Z.div_mul by lia. reflexivity.
  - rewrite (free_entry_pages_good _ pfn (k + 1)); auto; try lia.
    rewrite (free_entry_pages_good e pe k); auto; try lia.
    replace (Z.to_nat (k + 1)) with (S (Z.to_nat k)) by lia.
    simpl. rewrite Z.add_0_r. apply Permutation_cons; [reflexivity|].
    rewrite <- seq_shift, map_map.
    erewrite map_ext; [reflexivity|]. intros j. simpl. lia.
Qed.

(** The outcome of a clustering step on an array whose first [length es]
    entries are filled, the new page being the next entry. *)
Definition cluster_outcome (es : list scatterlist) (n : scatterlist)
    (zs : list scatterlist) (pfn : Z) (r : list scatterlist * Z) : Prop :=
  r = (es ++ n :: zs, -1) \/
  exists (i : nat) (e e' : scatterlist),
    es !! i = Some e /\ merged_entry pfn e e' /\
    r = (<[i:=e']> es ++ sg_zero :: zs, Z.of_nat i).

Lemma sg_at_app_l (es zs : list scatterlist) (i : nat) (e : scatterlist) :
  es !! i = Some e -> sg_at (es ++ zs) (Z.of_nat i) = e.
Proof.
  intros H. unfold sg_at. rewrite Nat2Z.id.
  rewrite lookup_app_l by (eapply lookup_lt_Some; eauto). rewrite H. reflexivity.
Qed.

Lemma sg_at_app_mid (es zs : list scatterlist) (n : scatterlist) :
  sg_at (es ++ n :: zs) (Z.of_nat (length es)) = n.
Proof.
  unfold sg_at. rewrite Nat2Z.id, list_lookup_middle by reflexivity. reflexivity.
Qed.

Lemma merge_array (es zs : list scatterlist) (n e' : scatterlist) (i : nat) :
  (i < length es)%nat ->
  sg_set (sg_set (es ++ n :: zs) (Z.of_nat i) e') (Z.of_nat (length es)) sg_zero
  = <[i:=e']> es ++ sg_zero :: zs.
Proof.
  intros Hi. unfold sg_set. rewrite !Nat2Z.id.
  rewrite insert_app_l by exact Hi.
  rewrite insert_app_r_alt by (rewrite length_insert; lia).
  rewrite length_insert, Nat.sub_diag. reflexivity.
Qed.

Lemma good_entries_sane (es : list scatterlist) (bound : Z) :
  Forall good_entry es -> sum_pages es <= bound -> bound * PAGE_SIZE < 2 ^ 31 ->
  forallb sg_sane es = true.
Proof.
  intros Hg Hs Hb. apply forallb_forall. intros e He.
  apply list_elem_of_In, list_elem_of_lookup in He as [i Hi].
  apply (good_entry_sane e bound); auto.
  - rewrite Forall_forall in Hg. apply Hg.
    apply list_elem_of_lookup. eauto.
  - pose proof (sum_pages_lookup es i e Hg Hi). lia.
Qed.

Lemma new_entry_sane (pfn : Z) :
  0 <= pfn < 2 ^ 52 -> sg_sane (mk_sg (Some pfn) 0 PAGE_SIZE) = true.
Proof.
  intros H. pose proof PAGE_SIZE_bounds. unfold sg_sane. simpl.
  change (2 ^ 30) with 1073741824 in *. change (2 ^ 31) with 2147483648.
  repeat (apply andb_true_intro; split); try apply Z.leb_le; try apply Z.ltb_lt;
    lia.
Qed.

Lemma tail_cluster_outcome (es zs : list scatterlist) (pfn hint : Z) :
  let n := mk_sg (Some pfn) 0 PAGE_SIZE in
  Forall good_entry es -> 0 <= pfn < 2 ^ 52 ->
  (sum_pages es + 1) * PAGE_SIZE < 2 ^ 31 ->
  cluster_outcome es n zs pfn
    (sgv_check_tail_clustering (es ++ n :: zs) (Z.of_nat (length es)) hint).
Proof.
  intros n Hg Hpfn Hb. pose proof PAGE_SIZE_bounds as HP.
  unfold sgv_check_tail_clustering.
  destruct (Z.of_nat (length es) =? 0) eqn:H0; [left; reflexivity|].
  apply Z.eqb_neq in H0.
  destruct (lookup_lt_is_Some_2 es (length es - 1) ltac:(lia)) as [e He].
  replace (Z.of_nat (length es) - 1) with (Z.of_nat (length es - 1)) by lia.
  rewrite (sg_at_app_l es (n :: zs) _ e He), sg_at_app_mid.
  assert (Hge : good_entry e).
  { rewrite Forall_forall in Hg. apply Hg, list_elem_of_lookup. eauto. }
  pose proof (sum_pages_lookup es _ e Hg He) as Hle.
  pose proof Hge as (pe & k & Hp & Hl & H1 & H2 & H3).
  assert (Hk : entry_pages e = k).
  { unfold entry_pages. rewrite Hl, Z.div_mul by lia. reflexivity. }
  rewrite page_rest_mod, shiftr_page. fold (entry_pages e).
  rewrite Hl, Z_mod_mult, Hk, Hp. simpl page_to_pfn.
  rewrite wrap_ulong_id
    by (change (2 ^ 64) with 18446744073709551616;
        change (2 ^ 52) with 4503599627370496 in *; lia).
  simpl. rewrite andb_true_r.
  destruct (pe + k =? pfn) eqn:Heq; [|left; reflexivity].
  apply Z.eqb_eq in Heq. right. exists (length es - 1)%nat, e, 
    (mk_sg (sg_page e) (sg_offset e) (sg_length e + PAGE_SIZE)).
  splits; auto.
  - apply tail_merged; auto; try lia.
    + rewrite Hk. nia.
    + rewrite Hp, Hl, Z.div_mul by lia. simpl. lia.
  - unfold out_tail. rewrite (sg_at_app_l es (n :: zs) _ e He).
    rewrite wrap_int_id by (change (2 ^ 30) with 1073741824 in *;
                            change (2 ^ 31) with 2147483648; lia).
    rewrite wrap_uint_id by (rewrite Hl; change (2 ^ 32) with (2 * 2 ^ 31); nia).
    rewrite merge_array by (eapply lookup_lt_Some; eauto). reflexivity.
Qed.

Lemma full_cluster_outcome (es zs : list scatterlist) (pfn hint : Z) :
  let n := mk_sg (Some pfn) 0 PAGE_SIZE in
  Forall good_entry es -> 0 <= pfn < 2 ^ 52 ->
  (sum_pages es + 1) * PAGE_SIZE < 2 ^ 31 ->
  hint < Z.of_nat (length es) ->
  cluster_outcome es n zs pfn
    (sgv_check_full_clustering (es ++ n :: zs) (Z.of_nat (length es)) hint).
Proof.
  intros n Hg Hpfn Hb Hhint. pose proof PAGE_SIZE_bounds as HP. subst n.
  set (n := mk_sg (Some pfn) 0 PAGE_SIZE).
  rewrite full_clustering_refines; try lia.
  2:{ rewrite Nat2Z.id, length_app. simpl. lia. }
  2:{ rewrite Nat2Z.id. replace (S (length es)) with (length es + 1)%nat by lia.
      rewrite take_app_add. simpl. rewrite forallb_app. simpl.
      rewrite (good_entries_sane es (sum_pages es + 1)) by (auto; lia).
      unfold n. rewrite new_entry_sane by exact Hpfn. reflexivity. }
  2:{ rewrite sg_at_app_mid. simpl. lia. }
  unfold spec_full_clustering. rewrite sg_at_app_mid.
  destruct (List.find _ _) as [i|] eqn:Hf; [|left; reflexivity].
  apply find_some in Hf as [Hin Hi]. right.
  assert (Hj : exists j : nat, i = Z.of_nat j /\ (j < length es)%nat).
  { unfold spec_candidates in Hin. apply in_app_or in Hin as [Hin|Hin].
    - destruct (0 <=? hint) eqn:Hh; [|inversion Hin].
      apply Z.leb_le in Hh. destruct Hin as [<-|[]].
      exists (Z.to_nat hint). lia.
    - apply in_map_iff in Hin as (j & <- & Hj).
      apply in_rev, in_seq in Hj. exists j. lia. }
  destruct Hj as (j & -> & Hj).
  destruct (lookup_lt_is_Some_2 es j Hj) as [e He].
  rewrite (sg_at_app_l es (n :: zs) _ e He) in *.
  assert (Hge : good_entry e).
  { rewrite Forall_forall in Hg. apply Hg, list_elem_of_lookup. eauto. }
  pose proof (sum_pages_lookup es _ e Hg He) as Hle.
  assert (Hb' : (entry_pages e + 1) * PAGE_SIZE < 2 ^ 31) by nia.
  rewrite merge_array by exact Hj.
  destruct (spec_tail_merge e n) eqn:Ht.
  - exists j, e, (mk_sg (sg_page e) (sg_offset e) (sg_length e + PAGE_SIZE)).
    splits; auto. unfold spec_tail_merge in Ht.
    apply andb_prop in Ht as [Ht _]. apply Z.eqb_eq in Ht. simpl in Ht.
    apply tail_merged; auto; lia.
  - exists j, e, (mk_sg (Some pfn) (sg_offset e) (sg_length e + PAGE_SIZE)).
    splits; auto. simpl in Hi. unfold spec_head_merge in Hi.
    apply andb_prop in Hi as [Hi _]. apply Z.eqb_eq in Hi. simpl in Hi.
    apply head_merged; auto; lia.
Qed.

(** The state of the page loop after the pages [alloc] have been obtained:
    [cnt] filled entries that cover exactly those pages, zeroed entries
    behind them. *)
Definition fill_state (pages : Z) (alloc : list Z) (sg : list scatterlist)
    (cnt merged : Z) : Prop :=
  exists es zs,
    sg = es ++ zs /\ zs = replicate (length zs) sg_zero /\
    Z.of_nat (length es) = cnt /\ Z.of_nat (length sg) = pages /\
    Forall good_entry es /\
    sum_pages es = Z.of_nat (length alloc) /\
    flat_map free_entry_pages es ≡ₚ alloc /\
    merged < cnt.

Definition page_ok (r : option Z) : bool :=
  match r with
  | Some pfn => (0 <=? pfn) && (pfn <? 2 ^ 52)
  | None => true
  end.

Lemma flat_map_insert_perm (es : list scatterlist) (i : nat)
    (e e' : scatterlist) (pfn : Z) :
  es !! i = Some e ->
  free_entry_pages e' ≡ₚ pfn :: free_entry_pages e ->
  flat_map free_entry_pages (<[i:=e']> es) ≡ₚ pfn :: flat_map free_entry_pages es.
Proof.
  revert i. induction es as [|x es IH]; intros i Hi Hp; [discriminate|].
  destruct i as [|i]; simpl in *.
  - injection Hi as ->. rewrite Hp. reflexivity.
  - rewrite (IH i Hi Hp). symmetry. apply Permutation_middle.
Qed.

(** The same with any condition [P] on the entries behind the filled
    ones that survives the clearing and the dropping of its first entry:
    the loop reads and writes no entry behind the one it fills. *)
Definition fill_state_on (P : list scatterlist -> Prop) (pages : Z)
    (alloc : list Z) (sg : list scatterlist) (cnt merged : Z) : Prop :=
  exists es zs,
    sg = es ++ zs /\ P zs /\
    Z.of_nat (length es) = cnt /\ Z.of_nat (length sg) = pages /\
    Forall good_entry es /\
    sum_pages es = Z.of_nat (length alloc) /\
    flat_map free_entry_pages es ≡ₚ alloc /\
    merged < cnt.

Definition rest_closed (P : list scatterlist -> Prop) : Prop :=
  forall z zs, P (z :: zs) -> P zs /\ P (sg_zero :: zs).

Lemma rest_closed_zeros :
  rest_closed (fun zs => zs = replicate (length zs) sg_zero).
Proof.
  intros z zs H. simpl in H. injection H as -> H. split; [exact H|].
  simpl. rewrite <- H. reflexivity.
Qed.

Lemma rest_closed_any : rest_closed (fun _ => True).
Proof. intros z zs _. split; exact I. Qed.

Lemma fill_step_on (P : list scatterlist -> Prop) (pages : Z)
    (ct : sgv_clustering_types) (alloc : list Z)
    (sg : list scatterlist) (cnt merged pfn : Z) :
  rest_closed P ->
  pages * PAGE_SIZE < 2 ^ 31 ->
  fill_state_on P pages alloc sg cnt merged ->
  Z.of_nat (length alloc) < pages -> 0 <= pfn < 2 ^ 52 ->
  let r :=
    match ct with
    | sgv_full_clustering =>
        sgv_check_full_clustering (sgv_alloc_sys_pages sg cnt (Some pfn)) cnt merged
    | sgv_tail_clustering =>
        sgv_check_tail_clustering (sgv_alloc_sys_pages sg cnt (Some pfn)) cnt merged
    | sgv_no_clustering => (sgv_alloc_sys_pages sg cnt (Some pfn), -1)
    end in
  fill_state_on P pages (alloc ++ [pfn]) (fst r)
    (if snd r =? -1 then cnt + 1 else cnt) (snd r).
Proof.
  intros HP' Hb (es & zs & -> & Hzs & Hcnt & Hlen & Hg & Hsum & Hperm & Hm) Hlt Hpfn r.
  pose proof PAGE_SIZE_bounds as HP.
  pose proof (sum_pages_nonneg es Hg) as Hle.
  rewrite length_app in Hlen.
  destruct zs as [|z zs]; [simpl in Hlen; lia|].
  destruct (HP' z zs Hzs) as [Hdrop Hclear].
  set (n := mk_sg (Some pfn) 0 PAGE_SIZE).
  assert (Hsg1 : sgv_alloc_sys_pages (es ++ z :: zs) cnt (Some pfn)
                 = es ++ n :: zs).
  { unfold sgv_alloc_sys_pages, sg_set. rewrite <- Hcnt, Nat2Z.id.
    rewrite insert_app_r_alt, Nat.sub_diag by lia. reflexivity. }
  assert (Hout : cluster_outcome es n zs pfn r).
  { subst r. rewrite Hsg1, <- Hcnt. destruct ct.
    - left. reflexivity.
    - apply tail_cluster_outcome; auto. nia.
    - apply full_cluster_outcome; auto; try lia. nia. }
  clearbody r. destruct Hout as [->|(i & e & e' & Hi & (M1 & M2 & M3) & ->)].
  - simpl. exists (es ++ [n]), zs. rewrite <- app_assoc. simpl.
    rewrite !length_app in *. simpl in *. splits; auto; try lia.
    + apply Forall_app. split; [exact Hg|]. constructor; [|constructor].
      exists pfn, 1. unfold n. simpl. splits; auto; lia.
    + rewrite sum_pages_app. simpl. unfold entry_pages, n. simpl.
      rewrite Z.div_same by lia. lia.
    + rewrite flat_map_app. simpl. rewrite app_nil_r.
      change (2 ^ 30) with 1073741824 in HP.
      rewrite (free_entry_pages_good n pfn 1); unfold n; simpl; auto;
        try (change (2 ^ 31) with 2147483648; lia).
      rewrite Z.add_0_r, Hperm. reflexivity.
  - simpl. pose proof (lookup_lt_Some _ _ _ Hi) as Hilt.
    destruct (Z.eqb_spec (Z.of_nat i) (-1)) as [|_]; [lia|].
    exists (<[i:=e']> es), (sg_zero :: zs).
    rewrite !length_app, !length_insert in *. simpl in *.
    splits; auto; try lia.
    + apply Forall_insert; auto.
    + rewrite (sum_pages_insert es i e e' Hi). lia.
    + rewrite (flat_map_insert_perm es i e e' pfn Hi M3), Hperm.
      apply Permutation_cons_append.
Qed.

Lemma fill_step (pages : Z) (ct : sgv_clustering_types) (alloc : list Z)
    (sg : list scatterlist) (cnt merged pfn : Z) :
  pages * PAGE_SIZE < 2 ^ 31 ->
  fill_state pages alloc sg cnt merged ->
  Z.of_nat (length alloc) < pages -> 0 <= pfn < 2 ^ 52 ->
  let r :=
    match ct with
    | sgv_full_clustering =>
        sgv_check_full_clustering (sgv_alloc_sys_pages sg cnt (Some pfn)) cnt merged
    | sgv_tail_clustering =>
        sgv_check_tail_clustering (sgv_alloc_sys_pages sg cnt (Some pfn)) cnt merged
    | sgv_no_clustering => (sgv_alloc_sys_pages sg cnt (Some pfn), -1)
    end in
  fill_state pages (alloc ++ [pfn]) (fst r)
    (if snd r =? -1 then cnt + 1 else cnt) (snd r).
Proof.
  exact (fill_step_on _ pages ct alloc sg cnt merged pfn rest_closed_zeros).
Qed.

Lemma page_ok_spec (r : option Z) (pfn : Z) :
  page_ok r = true -> r = Some pfn -> 0 <= pfn < 2 ^ 52.
Proof.
  intros H ->. simpl in H. apply andb_prop in H as [H1 H2].
  apply Z.leb_le in H1. apply Z.ltb_lt in H2. lia.
Qed.

(** The page loop: [alloc2] are the pages it obtained.  When it ends
    normally all [n] pages are in place; when a page allocation fails, the
    entries filled so far cover what was obtained and the failed entry has
    been set with a [NULL] page. *)
Lemma fill_pages_spec_on (P : list scatterlist -> Prop) (pages : Z)
    (page_src : nat -> option Z) (ct : sgv_clustering_types) :
  rest_closed P ->
  pages * PAGE_SIZE < 2 ^ 31 ->
  forall (n pg : nat) (sg : list scatterlist) (cnt merged : Z)
         (tr : list event) (alloc : list Z),
  fill_state_on P pages alloc sg cnt merged ->
  length alloc = pg -> Z.of_nat (pg + n) <= pages ->
  (forall k, (pg <= k < pg + n)%nat -> page_ok (page_src k) = true) ->
  exists (alloc2 : list Z) (sg0 : list scatterlist) (cnt' merged' : Z),
    fill_state_on P pages (alloc ++ alloc2) sg0 cnt' merged' /\
    (fill_pages n pg page_src ct sg cnt merged tr
       = (true, sg0, cnt', rev (map EvAllocPage alloc2) ++ tr) /\
     length alloc2 = n
     \/
     fill_pages n pg page_src ct sg cnt merged tr
       = (false, sg_set sg0 cnt' (mk_sg None 0 PAGE_SIZE), cnt',
          rev (map EvAllocPage alloc2) ++ tr) /\
     (length alloc2 < n)%nat /\ page_src (pg + length alloc2)%nat = None).
Proof.
  intros HP' Hb.
  induction n as [|n IH]; intros pg sg cnt merged tr alloc Hst Hpg Hle Hok.
  - exists [], sg, cnt, merged. rewrite app_nil_r. split; [exact Hst|].
    left. split; reflexivity.
  - simpl. destruct (page_src pg) as [pfn|] eqn:Hsrc.
    + assert (Hpfn : 0 <= pfn < 2 ^ 52).
      { apply (page_ok_spec (page_src pg)); auto. apply Hok. lia. }
      pose proof (fill_step_on P pages ct alloc sg cnt merged pfn HP' Hb Hst
                    ltac:(lia) Hpfn) as Hstep.
      cbv zeta in Hstep.
      destruct (match ct with
                | sgv_no_clustering => _
                | sgv_tail_clustering => _
                | sgv_full_clustering => _
                end) as [sg2 m] eqn:Hcl.
      assert (Hcl' : match ct with
                     | sgv_no_clustering =>
                         (sgv_alloc_sys_pages sg cnt (Some pfn), -1)
                     | sgv_tail_clustering =>
                         sgv_check_tail_clustering
                           (sgv_alloc_sys_pages sg cnt (Some pfn)) cnt merged
                     | sgv_full_clustering =>
                         sgv_check_full_clustering
                           (sgv_alloc_sys_pages sg cnt (Some pfn)) cnt merged
                     end = (sg2, m)).
      { destruct ct; exact Hcl. }
      simpl in Hstep.
      destruct (IH (S pg) sg2 (if m =? -1 then cnt + 1 else cnt) m
                  (EvAllocPage pfn :: tr) (alloc ++ [pfn]))
        as (alloc2 & sg0 & cnt' & merged' & Hst' & Hres).
      * exact Hstep.
      * rewrite length_app. simpl. lia.
      * lia.
      * intros k Hk. apply Hok. lia.
      * exists (pfn :: alloc2), sg0, cnt', merged'.
        rewrite <- app_assoc in Hst'. split; [exact Hst'|].
        simpl. rewrite <- app_assoc. simpl.
        destruct Hres as [[-> Hl]|(-> & Hl & Hn)]; [left|right]; splits; auto;
          try lia.
        rewrite <- Hn. f_equal. lia.
    + exists [], sg, cnt, merged. rewrite app_nil_r. split; [exact Hst|].
      right. splits; [reflexivity|simpl; lia|].
      simpl. rewrite Nat.add_0_r. exact Hsrc.
Qed.

Lemma fill_pages_spec (pages : Z) (page_src : nat -> option Z)
    (ct : sgv_clustering_types) :
  pages * PAGE_SIZE < 2 ^ 31 ->
  forall (n pg : nat) (sg : list scatterlist) (cnt merged : Z)
         (tr : list event) (alloc : list Z),
  fill_state pages alloc sg cnt merged ->
  length alloc = pg -> Z.of_nat (pg + n) <= pages ->
  (forall k, (pg <= k < pg + n)%nat -> page_ok (page_src k) = true) ->
  exists (alloc2 : list Z) (sg0 : list scatterlist) (cnt' merged' : Z),
    fill_state pages (alloc ++ alloc2) sg0 cnt' merged' /\
    (fill_pages n pg page_src ct sg cnt merged tr
       = (true, sg0, cnt', rev (map EvAllocPage alloc2) ++ tr) /\
     length alloc2 = n
     \/
     fill_pages n pg page_src ct sg cnt merged tr
       = (false, sg_set sg0 cnt' (mk_sg None 0 PAGE_SIZE), cnt',
          rev (map EvAllocPage alloc2) ++ tr) /\
     (length alloc2 < n)%nat /\ page_src (pg + length alloc2)%nat = None).
Proof.
  exact (fill_pages_spec_on _ pages page_src ct rest_closed_zeros).
Qed.

(** The frames [alloc_pages] returned for the calls [pg], ..., [pg + n - 1]. *)
Definition pages_got (page_src : nat -> option Z) (pg n : nat) : list Z :=
  map (fun k => page_to_pfn (page_src k)) (seq pg n).

Lemma pages_got_S (page_src : nat -> option Z) (pg n : nat) :
  pages_got page_src pg (S n)
  = pages_got page_src pg n ++ [page_to_pfn (page_src (pg + n)%nat)].
Proof.
  unfold pages_got. rewrite seq_S, map_app. reflexivity.
Qed.

(** The loop asks for pages in order and stops at the first refusal. *)
Lemma fill_pages_trace (page_src : nat -> option Z) (ct : sgv_clustering_types) :
  forall (n pg : nat) (sg : list scatterlist) (cnt merged : Z) (tr : list event),
  let r := fill_pages n pg page_src ct sg cnt merged tr in
  (fst (fst (fst r)) = true /\
   (forall k, (pg <= k < pg + n)%nat -> page_src k <> None) /\
   snd r = rev (map EvAllocPage (pages_got page_src pg n)) ++ tr) \/
  (fst (fst (fst r)) = false /\
   exists j, (j < n)%nat /\ page_src (pg + j)%nat = None /\
     (forall k, (pg <= k < pg + j)%nat -> page_src k <> None) /\
     snd r = rev (map EvAllocPage (pages_got page_src pg j)) ++ tr).
Proof.
  induction n as [|n IH]; intros pg sg cnt merged tr; cbv zeta.
  - left. simpl. splits; auto. intros k Hk. lia.
  - simpl. destruct (page_src pg) as [pfn|] eqn:Hsrc.
    + destruct (match ct with
                | sgv_no_clustering => _
                | sgv_tail_clustering => _
                | sgv_full_clustering => _
                end) as [sg2 m].
      specialize (IH (S pg) sg2 (if m =? -1 then cnt + 1 else cnt) m
                     (EvAllocPage pfn :: tr)).
      cbv zeta in IH.
      destruct IH as [(H1 & H2 & H3)|(H1 & j & Hj & Hn & H2 & H3)].
      * left. splits; auto.
        -- intros k Hk. destruct (Nat.eq_dec k pg) as [->|Hne].
           ++ rewrite Hsrc. discriminate.
           ++ apply H2. lia.
        -- rewrite H3. unfold pages_got. rewrite <- app_assoc. reflexivity.
      * right. split; [exact H1|]. exists (S j). splits.
        -- lia.
        -- rewrite <- Hn. f_equal. lia.
        -- intros k Hk. destruct (Nat.eq_dec k pg) as [->|Hne].
           ++ rewrite Hsrc. discriminate.
           ++ apply H2. lia.
        -- rewrite H3. unfold pages_got. simpl. rewrite Hsrc, <- app_assoc.
           reflexivity.
    + right. simpl. split; [reflexivity|]. exists 0%nat. splits; auto.
      * lia.
      * rewrite Nat.add_0_r. exact Hsrc.
      * intros k Hk. lia.
Qed.

Lemma rev_map_alloc_inj (l1 l2 : list Z) :
  rev (map EvAllocPage l1) = rev (map EvAllocPage l2) -> l1 = l2.
Proof.
  intros H. apply (f_equal (@rev event)) in H. rewrite !rev_involutive in H.
  revert l2 H. induction l1 as [|a l1 IH]; intros [|b l2] H;
    try discriminate; [reflexivity|].
  simpl in H. injection H as -> H. f_equal. auto.
Qed.

(** ** The translation table *)

Lemma tt_at_insert (t : list trans_tbl_ent) (i j : Z) (x : trans_tbl_ent) :
  0 <= i -> 0 <= j -> (Z.to_nat i < length t)%nat ->
  tt_at (<[Z.to_nat i := x]> t) j = if i =? j then x else tt_at t j.
Proof.
  intros Hi Hj Hlt. unfold tt_at.
  destruct (Z.eqb_spec i j) as [->|Hne].
  - rewrite list_lookup_insert_eq by exact Hlt. reflexivity.
  - rewrite list_lookup_insert_ne by lia. reflexivity.
Qed.

Lemma tt_in_bounds_spec (t : list trans_tbl_ent) (i : Z) :
  tt_in_bounds t i = true <-> 0 <= i < Z.of_nat (length t).
Proof. unfold tt_in_bounds. rewrite andb_true_iff, Z.leb_le, Z.ltb_lt. tauto. Qed.

Lemma tt_set_sg_num_in (t : list trans_tbl_ent) (i v : Z) :
  0 <= i < Z.of_nat (length t) ->
  tt_set_sg_num t i v =
  Some (<[Z.to_nat i := mk_tt v (pg_count (tt_at t i))]> t).
Proof.
  intros H. unfold tt_set_sg_num.
  rewrite (proj2 (tt_in_bounds_spec t i) H). reflexivity.
Qed.

Lemma tt_set_pg_count_in (t : list trans_tbl_ent) (i v : Z) :
  0 <= i < Z.of_nat (length t) ->
  tt_set_pg_count t i v =
  Some (<[Z.to_nat i := mk_tt (sg_num (tt_at t i)) v]> t).
Proof.
  intros H. unfold tt_set_pg_count.
  rewrite (proj2 (tt_in_bounds_spec t i) H). reflexivity.
Qed.

Lemma tbl_mark_spec (n : nat) :
  forall (tbl : list trans_tbl_ent) (pg v : Z),
  0 <= pg -> pg + Z.of_nat n <= Z.of_nat (length tbl) ->
  exists tbl',
  tbl_mark n tbl pg v = Some (tbl', pg + Z.of_nat n) /\
  length tbl' = length tbl /\
  (forall j, 0 <= j -> pg_count (tt_at tbl' j) = pg_count (tt_at tbl j)) /\
  (forall j, 0 <= j ->
     sg_num (tt_at tbl' j) =
     if (pg <=? j) && (j <? pg + Z.of_nat n) then v else sg_num (tt_at tbl j)).
Proof.
  induction n as [|n IH]; intros tbl pg v Hpg Hle.
  - exists tbl. simpl. rewrite Z.add_0_r. splits; auto. intros j Hj.
    destruct (Z.leb_spec pg j), (Z.ltb_spec j pg); simpl; auto; lia.
  - simpl. rewrite tt_set_sg_num_in by lia.
    destruct (IH (<[Z.to_nat pg := mk_tt v (pg_count (tt_at tbl pg))]> tbl)
                (pg + 1) v) as (tbl' & I0 & I2 & I3 & I4); try lia.
    { rewrite length_insert. lia. }
    exists tbl'. rewrite I0, I2, length_insert. splits; auto.
    + do 2 f_equal. lia.
    + intros j Hj. rewrite I3 by exact Hj.
      rewrite tt_at_insert by lia.
      destruct (Z.eqb_spec pg j) as [->|]; reflexivity.
    + intros j Hj. rewrite I4 by exact Hj.
      rewrite tt_at_insert by lia.
      destruct (Z.eqb_spec pg j) as [Heq|];
        destruct (Z.leb_spec (pg + 1) j), (Z.ltb_spec j (pg + 1 + Z.of_nat n)),
                 (Z.leb_spec pg j), (Z.ltb_spec j (pg + Z.of_nat (S n)));
        simpl; auto; lia.
Qed.

(** What the table says after entries [0 .. i-1] have been walked. *)
Definition tbl_done (sg : list scatterlist) (tbl : list trans_tbl_ent)
    (i : nat) : Prop :=
  (forall e, (e < i)%nat ->
     pg_count (tt_at tbl (Z.of_nat e)) = sum_pages (take e sg)) /\
  (forall j, 0 <= j < sum_pages (take i sg) ->
     exists e, (e < i)%nat /\ sg_num (tt_at tbl j) = Z.of_nat e + 1 /\
               sum_pages (take e sg) <= j < sum_pages (take (S e) sg)).

Definition entry_ok (e : scatterlist) : Prop :=
  pages_of_len (sg_length e) = entry_pages e /\ 0 <= entry_pages e.

Lemma sum_pages_take_le (sg : list scatterlist) (i : nat) :
  Forall entry_ok sg -> 0 <= sum_pages (take i sg) <= sum_pages sg.
Proof.
  intros H. revert i. induction H as [|x sg [_ Hx] _ IH]; intros i.
  - destruct i; simpl; lia.
  - destruct i as [|i]; simpl.
    + specialize (IH 0%nat). simpl in IH. lia.
    + specialize (IH i). lia.
Qed.

Lemma sum_pages_take_S (sg : list scatterlist) (i : nat) (x : scatterlist) :
  sg !! i = Some x ->
  sum_pages (take (S i) sg) = sum_pages (take i sg) + entry_pages x.
Proof.
  intros H. rewrite (take_S_r sg i x H), sum_pages_app. simpl. lia.
Qed.

Lemma tbl_fill_spec (sg : list scatterlist) :
  Forall entry_ok sg ->
  forall (n i : nat) (tbl : list trans_tbl_ent),
  (i + n <= length sg)%nat -> sum_pages sg <= Z.of_nat (length tbl) ->
  (length sg <= length tbl)%nat ->
  tbl_done sg tbl i ->
  exists tbl',
  tbl_fill n (Z.of_nat i) sg tbl (sum_pages (take i sg)) = Some tbl' /\
  length tbl' = length tbl /\ tbl_done sg tbl' (i + n).
Proof.
  intros Hok. induction n as [|n IH]; intros i tbl Hin Hsum Hlen Hdone.
  - exists tbl. simpl. rewrite Nat.add_0_r. auto.
  - simpl.
    destruct (lookup_lt_is_Some_2 sg i ltac:(lia)) as [x Hx].
    assert (Hat : sg_at sg (Z.of_nat i) = x).
    { unfold sg_at. rewrite Nat2Z.id, Hx. reflexivity. }
    assert (Hxok : entry_ok x).
    { rewrite Forall_forall in Hok. apply Hok, list_elem_of_lookup. eauto. }
    destruct Hxok as [Hx1 Hx2].
    rewrite Hat, Hx1.
    pose proof (sum_pages_take_le sg i Hok) as Hpg.
    pose proof (sum_pages_take_le sg (S i) Hok) as Hpg'.
    pose proof (sum_pages_take_S sg i x Hx) as HS.
    set (pg := sum_pages (take i sg)) in *.
    rewrite tt_set_pg_count_in by lia.
    set (tbl1 := <[Z.to_nat (Z.of_nat i) :=
                     mk_tt (sg_num (tt_at tbl (Z.of_nat i))) pg]> tbl).
    assert (Hl1 : length tbl1 = length tbl) by apply length_insert.
    destruct (tbl_mark_spec (Z.to_nat (entry_pages x)) tbl1 pg (Z.of_nat i + 1))
      as (tbl2 & M0 & M2 & M3 & M4); try lia.
    rewrite M0.
    rewrite Z2Nat.id in M4 |- * by lia.
    replace (Z.of_nat i + 1) with (Z.of_nat (S i)) in * by lia.
    replace (pg + entry_pages x) with (sum_pages (take (S i) sg)) by lia.
    replace (i + S n)%nat with (S i + n)%nat by lia.
    destruct (IH (S i) tbl2) as (tbl' & I0 & I1 & I2); try lia.
    2:{ exists tbl'. split; [exact I0|]. split; [lia|exact I2]. }
    destruct Hdone as [D1 D2]. split.
    + intros e He. rewrite M3 by lia. unfold tbl1.
      rewrite tt_at_insert by lia.
      destruct (Z.eqb_spec (Z.of_nat i) (Z.of_nat e)) as [Heq|Hne].
      * simpl. apply Nat2Z.inj in Heq. subst e. reflexivity.
      * apply D1. lia.
    + intros j Hj. rewrite M4 by lia.
      destruct (Z.leb_spec pg j), (Z.ltb_spec j (pg + entry_pages x)); simpl.
      * exists i. splits; auto; lia.
      * lia.
      * destruct (D2 j ltac:(lia)) as (e & He & Hn & Hr).
        exists e. splits; auto; try lia.
        rewrite <- Hn. unfold tbl1.
        rewrite tt_at_insert by lia.
        destruct (Z.eqb_spec (Z.of_nat i) j) as [<-|]; reflexivity.
      * lia.
Qed.

(** A table loop that returns has stored inside the table only. *)
Lemma tbl_mark_bounds (n : nat) :
  forall (tbl tbl' : list trans_tbl_ent) (pg pg' v : Z),
  tbl_mark n tbl pg v = Some (tbl', pg') ->
  pg' = pg + Z.of_nat n /\ length tbl' = length tbl /\
  ((0 < n)%nat -> 0 <= pg /\ pg + Z.of_nat n <= Z.of_nat (length tbl)).
Proof.
  induction n as [|n IH]; intros tbl tbl' pg pg' v H; simpl in H.
  - injection H as <- <-. splits; auto; lia.
  - unfold tt_set_sg_num in H.
    destruct (tt_in_bounds tbl pg) eqn:Hb; [|discriminate].
    apply tt_in_bounds_spec in Hb.
    apply IH in H as (H1 & H2 & H3). rewrite length_insert in H2, H3.
    splits; auto; lia.
Qed.

Lemma tbl_fill_bounds (sg : list scatterlist) :
  Forall entry_ok sg ->
  forall (n i : nat) (tbl tbl' : list trans_tbl_ent) (pg : Z),
  (i + n <= length sg)%nat ->
  tbl_fill n (Z.of_nat i) sg tbl pg = Some tbl' ->
  length tbl' = length tbl /\
  ((0 < n)%nat -> (i + n <= length tbl)%nat) /\
  (0 < sum_pages (take n (drop i sg)) ->
   pg + sum_pages (take n (drop i sg)) <= Z.of_nat (length tbl)).
Proof.
  intros Hok. induction n as [|n IH]; intros i tbl tbl' pg Hin H; simpl in H.
  - injection H as <-. simpl. splits; auto; lia.
  - destruct (lookup_lt_is_Some_2 sg i ltac:(lia)) as [x Hx].
    assert (Hat : sg_at sg (Z.of_nat i) = x).
    { unfold sg_at. rewrite Nat2Z.id, Hx. reflexivity. }
    assert (Hxok : entry_ok x).
    { rewrite Forall_forall in Hok. apply Hok, list_elem_of_lookup. eauto. }
    destruct Hxok as [Hx1 Hx2]. rewrite Hat, Hx1 in H.
    unfold tt_set_pg_count in H.
    destruct (tt_in_bounds tbl (Z.of_nat i)) eqn:Hb; [|discriminate].
    apply tt_in_bounds_spec in Hb.
    destruct (tbl_mark _ _ _ _) as [[tbl2 pg2]|] eqn:Hm; [|discriminate].
    apply tbl_mark_bounds in Hm as (M1 & M2 & M3).
    rewrite length_insert in M2, M3. rewrite Z2Nat.id in M1, M3 by lia.
    replace (Z.of_nat i + 1) with (Z.of_nat (S i)) in H by lia.
    apply IH in H as (I1 & I2 & I3); [|lia].
    rewrite M2 in I1, I2, I3.
    rewrite (drop_S sg x i Hx). simpl.
    splits; auto; lia.
Qed.

Lemma entry_ok_zero : entry_ok sg_zero.
Proof.
  unfold entry_ok, entry_pages. simpl sg_length.
  pose proof (pages_of_len_whole 0 ltac:(lia)) as H. rewrite Z.mul_0_l in H.
  rewrite H, Zdiv_0_l. lia.
Qed.

Lemma entry_ok_good (e : scatterlist) : good_entry e -> entry_ok e.
Proof.
  intros (pfn & k & _ & Hl & _ & Hk & _). pose proof PAGE_SIZE_bounds.
  unfold entry_ok, entry_pages. rewrite Hl, pages_of_len_whole, Z.div_mul by lia.
  lia.
Qed.

Lemma sum_pages_zeros (m : nat) : sum_pages (replicate m sg_zero) = 0.
Proof.
  induction m as [|m IH]; simpl; [reflexivity|]. rewrite IH.
  unfold entry_pages. simpl. rewrite Zdiv_0_l. reflexivity.
Qed.

Lemma fill_state_entries (pages : Z) (alloc : list Z) (sg : list scatterlist)
    (cnt merged : Z) :
  fill_state pages alloc sg cnt merged ->
  Forall entry_ok sg /\ sum_pages sg = Z.of_nat (length alloc) /\
  0 <= cnt <= Z.of_nat (length alloc) /\
  (forall e : nat, cnt <= Z.of_nat e ->
     sum_pages (take e sg) = Z.of_nat (length alloc)) /\
  flat_map free_entry_pages (take (Z.to_nat cnt) sg) ≡ₚ alloc.
Proof.
  intros (es & zs & -> & Hzs & Hcnt & Hlen & Hg & Hsum & Hperm & Hm).
  pose proof (sum_pages_nonneg es Hg). splits; try lia.
  - apply Forall_app. split.
    + eapply Forall_impl; [exact Hg|]. apply entry_ok_good.
    + rewrite Hzs. apply Forall_replicate, entry_ok_zero.
  - rewrite sum_pages_app, Hzs, sum_pages_zeros. lia.
  - intros e He. rewrite take_app, sum_pages_app.
    rewrite take_ge by lia. rewrite Hzs, take_replicate, sum_pages_zeros. lia.
  - rewrite <- Hcnt, Nat2Z.id, take_app_length. exact Hperm.
Qed.

Lemma fill_state_init (pages : Z) :
  0 <= pages -> fill_state pages [] (sg_init_table pages) 0 (-1).
Proof.
  intros Hp. exists [], (replicate (Z.to_nat pages) sg_zero).
  unfold sg_init_table. simpl. rewrite !length_replicate.
  splits; auto; lia.
Qed.

Lemma page_valid_ok (page_src : nat -> option Z) (n : nat) :
  forallb (fun k => page_valid (page_src k)) (seq 0 n) = true ->
  forall k, (k < n)%nat -> page_ok (page_src k) = true /\ page_src k <> None.
Proof.
  intros H k Hk. rewrite forallb_forall in H.
  specialize (H k ltac:(apply in_seq; lia)).
  destruct (page_src k); [|discriminate]. split; [exact H|discriminate].
Qed.

(** A fill whose page allocations all succeed. *)
Lemma fill_all_pages (pages : Z) (ct : sgv_clustering_types)
    (page_src : nat -> option Z) :
  0 <= pages -> pages * PAGE_SIZE < 2 ^ 31 ->
  forallb (fun k => page_valid (page_src k)) (seq 0 (Z.to_nat pages)) = true ->
  exists alloc sg cnt merged,
    fill_pages (Z.to_nat pages) 0 page_src ct (sg_init_table pages) 0 (-1) []
      = (true, sg, cnt, rev (map EvAllocPage alloc)) /\
    Z.of_nat (length alloc) = pages /\
    fill_state pages alloc sg cnt merged.
Proof.
  intros Hp Hb Hv.
  pose proof (page_valid_ok page_src _ Hv) as Hk.
  destruct (fill_pages_spec pages page_src ct Hb (Z.to_nat pages) 0
              (sg_init_table pages) 0 (-1) [] [] (fill_state_init pages Hp)
              eq_refl ltac:(lia))
    as (alloc & sg & cnt & merged & Hst & Hres).
  { intros k Hr. apply Hk. lia. }
  simpl in Hst. rewrite app_nil_r in Hres.
  destruct Hres as [[E Hl]|(E & Hl & Hn)].
  - exists alloc, sg, cnt, merged. splits; auto. lia.
  - exfalso. destruct (Hk (length alloc) Hl) as [_ Hne]. apply Hne. exact Hn.
Qed.

(** The fill of a clustered object whose table has one entry per page. *)
Lemma trans_tbl_filled (pages : Z) (ct : sgv_clustering_types)
    (t0 : list trans_tbl_ent) (page_src : nat -> option Z) :
  ct <> sgv_no_clustering -> 1 <= pages -> pages * PAGE_SIZE < 2 ^ 31 ->
  Z.of_nat (length t0) = pages ->
  forallb (fun k => page_valid (page_src k)) (seq 0 (Z.to_nat pages)) = true ->
  exists cnt sg t evs,
    sgv_alloc_sg_entries (sg_init_table pages) pages ct (Some t0) page_src
      = Some (cnt, sg, Some t, evs) /\
    1 <= cnt <= pages /\ Z.of_nat (length t) = pages /\
    (forall i, 0 <= i < cnt ->
       pg_count (tt_at t i) = sum_pages (take (Z.to_nat i) sg)) /\
    (forall j, 0 <= j < pages ->
       1 <= sg_num (tt_at t j) <= cnt /\
       sum_pages (take (Z.to_nat (sg_num (tt_at t j) - 1)) sg) <= j
         < sum_pages (take (Z.to_nat (sg_num (tt_at t j))) sg)).
Proof.
  intros Hct Hp Hb Ht0 Hv.
  destruct (fill_all_pages pages ct page_src ltac:(lia) Hb Hv)
    as (alloc & sg & cnt & merged & E & Hl & Hst).
  pose proof (fill_state_entries _ _ _ _ _ Hst) as (Hok & Hsum & Hcnt & Hbeyond & _).
  pose proof Hst as (es & zs & Hsg & _ & Hces & Hlen & Hg & Hes & _).
  assert (Hcnt1 : 1 <= cnt).
  { destruct es; simpl in *; lia. }
  destruct (tbl_fill_spec sg Hok (Z.to_nat pages) 0 t0) as (t & T0 & T1 & D1 & D2);
    try lia.
  { split; [intros e He; lia|]. simpl. intros j Hj. lia. }
  change (Z.of_nat 0) with 0 in T0.
  change (sum_pages (take 0 sg)) with 0 in T0.
  rewrite Nat.add_0_l in D1, D2.
  exists cnt, sg, t, (rev (map EvAllocPage alloc)).
  splits; try lia.
  - unfold sgv_alloc_sg_entries. rewrite E, T0. destruct ct; congruence.
  - intros i Hi. rewrite <- (Z2Nat.id i) at 1 by lia. apply D1. lia.
  - intros j Hj. rewrite (take_ge sg (Z.to_nat pages)) in D2 by lia.
    destruct (D2 j ltac:(lia)) as (e & He & Hn & Hr).
    assert (Z.of_nat e < cnt).
    { destruct (Z.lt_ge_cases (Z.of_nat e) cnt) as [|Hge]; [assumption|].
      rewrite (Hbeyond e), (Hbeyond (S e)) in Hr by lia. lia. }
    rewrite Hn. replace (Z.to_nat (Z.of_nat e + 1 - 1)) with e by lia.
    replace (Z.to_nat (Z.of_nat e + 1)) with (S e) by lia.
    split; [lia|exact Hr].
Qed.

(** ** [sgv_pool_alloc]: empty requests and cache hits *)

(** C9 as it holds.  A request of size 0 returns [NULL] at once: [*count]
    and [*sgv] keep the values they had at entry, and neither the quota nor
    [sgv_pages_total] nor anything else in the state is touched. *)
Theorem alloc_size_zero (pool : nat) (gfp_nofail : bool) (flags : alloc_flags)
    (count : Z) (sgv : option sgv_pool_obj) (mem_lim : scst_mem_lim)
    (priv : Z) (env : alloc_env) (g : sgv_state) :
  sgv_pool_alloc pool 0 gfp_nofail flags count sgv mem_lim priv env g
  = Some (mk_res None count sgv mem_lim g).
Proof. reflexivity. Qed.

Lemma map_insert_same {A B : Type} (f : A -> B) (l : list A) (i : nat)
    (e e' : A) :
  l !! i = Some e -> f e' = f e -> map f (<[i:=e']> l) = map f l.
Proof.
  revert i. induction l as [|x l IH]; intros i Hi Hf; [discriminate|].
  destruct i as [|i]; simpl in *.
  - injection Hi as ->. rewrite Hf. reflexivity.
  - rewrite (IH i Hi Hf). reflexivity.
Qed.

Lemma set_sg_length_pages (sg : list scatterlist) (i len : Z) :
  map sg_page (set_sg_length sg i len) = map sg_page sg.
Proof.
  unfold set_sg_length, sg_set, sg_at.
  destruct (sg !! Z.to_nat i) as [e|] eqn:He.
  - simpl. apply (map_insert_same sg_page sg _ e); auto.
  - rewrite list_insert_ge; [reflexivity|]. apply lookup_ge_None. exact He.
Qed.

Lemma alloc_success_obj (cache clustered : bool) (size pages : Z)
    (obj : sgv_pool_obj) (mem_lim : scst_mem_lim) (g : sgv_state) :
  let r := alloc_success cache clustered size pages obj mem_lim g in
  exists obj',
    res_sgv r = Some obj' /\ res_sg r = Some (sg_entries obj') /\
    res_mem_lim r = mem_lim /\ res_state r = g /\
    obj_addr obj' = obj_addr obj /\
    order_or_pages obj' = order_or_pages obj /\
    owner_pool obj' = owner_pool obj /\
    allocator_priv obj' = allocator_priv obj /\
    sg_count obj' = sg_count obj /\
    trans_tbl obj' = trans_tbl obj /\
    map sg_page (sg_entries obj') = map sg_page (sg_entries obj).
Proof.
  unfold alloc_success.
  destruct cache, clustered, (page_rest size =? 0); simpl;
    eexists; splits; try reflexivity; simpl;
    rewrite ?set_sg_length_pages; reflexivity.
Qed.

(** The conditions under which a call is served from the bucket free-list:
    no object supplied, a size that goes to a bucket, the quota not
    exceeded, and a filled object at the head of the bucket. *)
Definition cache_hit (pool : nat) (size : Z) (flags : alloc_flags)
    (mem_lim : scst_mem_lim) (g : sgv_state) (obj : sgv_pool_obj) : Prop :=
  size <> 0 /\
  get_order size < SGV_POOL_ELEMENTS /\
  SCST_POOL_ALLOC_NO_CACHED flags = false /\
  wrap_int (alloced_pages mem_lim + wrap_int (Z.shiftl 1 (get_order size)))
    <= max_allowed_pages mem_lim /\
  hd_error (recycling_lists (pools g pool) (get_order size)) = Some obj /\
  sg_count obj <> 0.

Lemma alloc_cache_hit (pool : nat) (size : Z) (flags : alloc_flags)
    (count : Z) (mem_lim : scst_mem_lim) (priv : Z) (env : alloc_env)
    (g : sgv_state) (obj : sgv_pool_obj) :
  cache_hit pool size flags mem_lim g obj ->
  exists r obj',
    sgv_pool_alloc pool size false flags count None mem_lim priv env g = Some r /\
    res_sgv r = Some obj' /\ res_sg r = Some (sg_entries obj') /\
    obj_addr obj' = obj_addr obj /\
    allocator_priv obj' = allocator_priv obj /\
    sg_count obj' = sg_count obj /\
    trans_tbl obj' = trans_tbl obj /\
    map sg_page (sg_entries obj') = map sg_page (sg_entries obj).
Proof.
  intros (Hsz & Hord & Hnc & Hq & Hhd & Hcnt).
  unfold sgv_pool_alloc.
  destruct (Z.eqb_spec size 0) as [|_]; [contradiction|].
  destruct (Z.ltb_spec (get_order size) SGV_POOL_ELEMENTS) as [_|]; [|lia].
  rewrite Hnc. simpl andb. cbv iota.
  unfold sgv_check_allowed_mem.
  destruct (Z.gtb_spec (wrap_int (alloced_pages mem_lim
              + wrap_int (Z.shiftl 1 (get_order size))))
              (max_allowed_pages mem_lim)) as [|_]; [lia|].
  simpl negb. cbv iota. unfold sgv_get_obj. simpl pools.
  destruct (recycling_lists (pools g pool) (get_order size)) as [|o rest];
    [discriminate|]. simpl in Hhd. injection Hhd as ->.
  destruct (Z.eqb_spec (sg_count obj) 0) as [|_]; [contradiction|].
  simpl negb. cbv iota.
  match goal with
  | |- exists r obj', Some (alloc_success ?c ?cl ?s ?pg ?o ?m ?g') = Some r /\ _ =>
      destruct (alloc_success_obj c cl s pg o m g')
        as (obj' & A1 & A2 & A3 & A4 & A5 & A6 & A7 & A8 & A9 & A10 & A11);
      exists (alloc_success c cl s pg o m g'), obj'
  end.
  splits; auto.
Qed.

(** ** The fill without clustering *)

Lemma fill_pages_no_clustering (page_src : nat -> option Z) (n : nat) :
  forall (pg : nat) (sg : list scatterlist) (cnt merged : Z) (tr : list event),
  let r := fill_pages n pg page_src sgv_no_clustering sg cnt merged tr in
  fst (fst (fst r)) = true -> snd (fst r) = cnt + Z.of_nat n.
Proof.
  induction n as [|n IH]; intros pg sg cnt merged tr r Hok; subst r; simpl in *.
  - lia.
  - destruct (page_src pg); [|discriminate]. simpl in *.
    rewrite IH by exact Hok. lia.
Qed.

Lemma hiwmk_uncheck_total (pages : Z) (g : sgv_state) :
  sgv_pages_total (sgv_hiwmk_uncheck pages g)
  = wrap_int (sgv_pages_total g - pages).
Proof. reflexivity. Qed.

(** ** What the gate does to the trace and to the free-lists *)

(** No list of cached objects of [g'] holds an object that [g] did not
    hold in the same list. *)
Definition lists_shrink (g g' : sgv_state) : Prop :=
  (forall q k o, In o (recycling_lists (pools g' q) k) ->
                 In o (recycling_lists (pools g q) k)) /\
  (forall q o, In o (sorted_recycling_list (pools g' q)) ->
               In o (sorted_recycling_list (pools g q))) /\
  (forall q, clustering_type (pools g' q) = clustering_type (pools g q)).

Definition evicts (g g' : sgv_state) : Prop :=
  (exists evs, trace g' = evs ++ trace g /\ forallb eviction_event evs = true) /\
  lists_shrink g g'.

Lemma lists_shrink_refl (g : sgv_state) : lists_shrink g g.
Proof. unfold lists_shrink. auto. Qed.

Lemma lists_shrink_trans (g1 g2 g3 : sgv_state) :
  lists_shrink g1 g2 -> lists_shrink g2 g3 -> lists_shrink g1 g3.
Proof.
  intros (A1 & A2 & A3) (B1 & B2 & B3). unfold lists_shrink. splits.
  - intros q k o H. auto.
  - intros q o H. auto.
  - intros q. rewrite B3. apply A3.
Qed.

Lemma lists_shrink_pools (g g' : sgv_state) :
  pools g' = pools g -> lists_shrink g g'.
Proof. intros H. unfold lists_shrink. rewrite H. auto. Qed.

Lemma evicts_refl (g : sgv_state) : evicts g g.
Proof.
  split; [|apply lists_shrink_refl]. exists []. split; reflexivity.
Qed.

Lemma evicts_trans (g1 g2 g3 : sgv_state) :
  evicts g1 g2 -> evicts g2 g3 -> evicts g1 g3.
Proof.
  intros [(e1 & T1 & F1) S1] [(e2 & T2 & F2) S2]. split.
  - exists (e2 ++ e1). rewrite T2, T1, app_assoc, forallb_app, F1, F2. auto.
  - eapply lists_shrink_trans; eauto.
Qed.

Lemma list_del_obj_In (a : nat) (o : sgv_pool_obj) (l : list sgv_pool_obj) :
  In o (list_del_obj a l) -> In o l.
Proof.
  induction l as [|x l IH]; simpl; [auto|].
  destruct (Nat.eqb (obj_addr x) a); simpl; intuition auto.
Qed.

Lemma purge_other_pools (obj : sgv_pool_obj) (g : sgv_state) (q : nat) :
  q <> owner_pool obj -> pools (__sgv_purge_from_cache obj g) q = pools g q.
Proof.
  intros Hq. unfold __sgv_purge_from_cache. cbv zeta.
  set (p1 := set_counters _ _ _ _).
  destruct (dec_cached_spec (owner_pool obj) (obj_pages obj)
              (set_pool (owner_pool obj) p1 g)) as (_ & H2 & _).
  cbv zeta in H2. simpl in *. rewrite H2 by exact Hq.
  destruct (Nat.eqb_spec q (owner_pool obj)); [contradiction|reflexivity].
Qed.

Lemma purge_trace (obj : sgv_pool_obj) (g : sgv_state) :
  trace (__sgv_purge_from_cache obj g)
  = EvPurge (owner_pool obj) (obj_addr obj) (obj_pages obj) :: trace g.
Proof.
  unfold __sgv_purge_from_cache. cbv zeta.
  set (p1 := set_counters _ _ _ _).
  destruct (dec_cached_spec (owner_pool obj) (obj_pages obj)
              (set_pool (owner_pool obj) p1 g)) as (_ & _ & _ & _ & H5 & _).
  cbv zeta in H5. simpl in *. rewrite H5. reflexivity.
Qed.

Lemma evicts_purge_dtor (obj : sgv_pool_obj) (g : sgv_state) :
  evicts g (sgv_dtor_and_free obj (__sgv_purge_from_cache obj g)).
Proof.
  destruct (dtor_fields obj (__sgv_purge_from_cache obj g)) as (_ & _ & _ & D4).
  cbv zeta in D4. split.
  - rewrite dtor_trace, purge_trace.
    exists (EvObjFree (obj_addr obj)
            :: rev (if sg_count obj =? 0 then []
                    else map EvFreePage
                           (sgv_free_sys_sg_entries (sg_entries obj) (sg_count obj)))
            ++ [EvPurge (owner_pool obj) (obj_addr obj) (obj_pages obj)]).
    split.
    + simpl. rewrite <- app_assoc. reflexivity.
    + simpl. rewrite forallb_app. simpl. rewrite andb_true_r.
      destruct (sg_count obj =? 0); simpl; [reflexivity|].
      apply forallb_forall. intros e He. apply in_rev in He.
      apply in_map_iff in He as (x & <- & _). reflexivity.
  - unfold lists_shrink. rewrite D4. splits.
    + intros q k o. destruct (Nat.eq_dec q (owner_pool obj)) as [->|Hq].
      * rewrite purge_pool_eq. simpl.
        destruct (Z.eqb_spec k (order_or_pages obj)) as [->|]; [|auto].
        apply list_del_obj_In.
      * rewrite purge_other_pools by exact Hq. auto.
    + intros q o. destruct (Nat.eq_dec q (owner_pool obj)) as [->|Hq].
      * rewrite purge_pool_eq. simpl. apply list_del_obj_In.
      * rewrite purge_other_pools by exact Hq. auto.
    + intros q. destruct (Nat.eq_dec q (owner_pool obj)) as [->|Hq].
      * rewrite purge_pool_eq. reflexivity.
      * rewrite purge_other_pools by exact Hq. reflexivity.
Qed.

Lemma evicts_shrink_pool_loop (l : list sgv_pool_obj) :
  forall (nr freed after t : Z) (g : sgv_state),
  evicts g (snd (shrink_pool_loop l nr freed after t g)).
Proof.
  induction l as [|obj l IH]; intros nr freed after t g; simpl;
    [apply evicts_refl|].
  destruct (sgv_pages_total g >? sgv_lo_wmk); [|apply evicts_refl].
  unfold sgv_purge_from_cache.
  destruct (time_after_eq t (wrap_ulong (time_stamp obj + after)));
    [|apply evicts_refl].
  destruct (_ || _).
  - apply evicts_purge_dtor.
  - eapply evicts_trans; [apply evicts_purge_dtor|apply IH].
Qed.

Lemma evicts_set_cur (c : option nat) (g : sgv_state) :
  evicts g (set_cur_purge_pool c g).
Proof.
  split; [exists []; split; reflexivity|]. apply lists_shrink_pools. reflexivity.
Qed.

Lemma evicts_shrink_loop (after t : Z) (fuel : nat) :
  forall (nr prev : Z) (circle : bool) (g : sgv_state) (r : Z * sgv_state),
  shrink_loop fuel nr prev circle after t g = Some r -> evicts g (snd r).
Proof.
  induction fuel as [|fuel IH]; intros nr prev circle g r H; [discriminate|].
  simpl in H.
  destruct (nr >? 0); [|injection H as <-; apply evicts_refl].
  destruct (match sgv_cur_purge_pool g with
            | Some p => Some p
            | None => hd_error (sgv_active_pools_list g)
            end) as [p|]; [|injection H as <-; apply evicts_refl].
  assert (Hgo : forall c prev' circle',
    (let '(nr', g0) := sgv_shrink_pool p nr after t (set_cur_purge_pool c g) in
     shrink_loop fuel nr' prev' circle' after t g0) = Some r ->
    evicts g (snd r)).
  { intros c prev' circle' E.
    pose proof (evicts_shrink_pool_loop
                  (sorted_recycling_list (pools (set_cur_purge_pool c g) p))
                  nr 0 after t (set_cur_purge_pool c g)) as Hp.
    fold (sgv_shrink_pool p nr after t (set_cur_purge_pool c g)) in Hp.
    destruct (sgv_shrink_pool p nr after t (set_cur_purge_pool c g)) as [nr1 g1].
    simpl in Hp. apply IH in E.
    eapply evicts_trans; [apply evicts_set_cur|].
    eapply evicts_trans; eauto. }
  destruct (list_next p (sgv_active_pools_list g)).
  - eapply Hgo; eauto.
  - destruct (circle && (prev =? nr)); [injection H as <-; apply evicts_refl|].
    eapply Hgo; eauto.
Qed.

Lemma evicts_shrink (nr after t : Z) (g : sgv_state) :
  evicts g (snd (__sgv_shrink nr after t g)).
Proof.
  unfold __sgv_shrink.
  destruct (shrink_loop _ _ _ _ _ _ _) as [r|] eqn:E; [|apply evicts_refl].
  eapply evicts_shrink_loop; eauto.
Qed.

(** The gate either refuses, having only evicted, or commits after having
    only evicted. *)
Lemma gate_outcome (n t : Z) (g : sgv_state) :
  let r := sgv_hiwmk_check n t g in
  (fst r <> 0 /\ evicts g (snd r)) \/
  (fst r = 0 /\ exists g0, evicts g g0 /\
     snd r = log (EvTotalAdd n) (set_total (wrap_int (sgv_pages_total g0 + n)) g0)).
Proof.
  unfold sgv_hiwmk_check.
  destruct (_ >? sgv_hi_wmk).
  - pose proof (evicts_shrink
                  (wrap_int (wrap_int (n + sgv_pages_total g) - sgv_hi_wmk)) 0 t g)
      as He.
    destruct (__sgv_shrink _ _ _ _) as [nr g1]. simpl in He.
    destruct (nr >? 0); simpl.
    + left. split; [unfold ENOMEM; lia|exact He].
    + right. split; [reflexivity|]. exists g1. auto.
  - simpl. right. split; [reflexivity|]. exists g. split; [apply evicts_refl|auto].
Qed.

(** ** Failures of [sgv_pool_alloc] *)

(** [steps g g' l]: from [g] to [g'] the events [l] (most recent first)
    were logged and no object was put on a list. *)
Definition steps (g g' : sgv_state) (l : list event) : Prop :=
  trace g' = l ++ trace g /\ lists_shrink g g'.

Lemma steps_refl (g : sgv_state) : steps g g [].
Proof. split; [reflexivity|apply lists_shrink_refl]. Qed.

Lemma steps_trans (g1 g2 g3 : sgv_state) (l1 l2 : list event) :
  steps g1 g2 l1 -> steps g2 g3 l2 -> steps g1 g3 (l2 ++ l1).
Proof.
  intros [T1 S1] [T2 S2]. split.
  - rewrite T2, T1, app_assoc. reflexivity.
  - eapply lists_shrink_trans; eauto.
Qed.

Lemma steps_log (e : event) (g : sgv_state) : steps g (log e g) [e].
Proof. split; [reflexivity|apply lists_shrink_pools; reflexivity]. Qed.


Lemma steps_uncheck (n : Z) (g : sgv_state) :
  steps g (sgv_hiwmk_uncheck n g) [EvTotalSub n].
Proof. split; [reflexivity|apply lists_shrink_pools; reflexivity]. Qed.

Lemma steps_dec_cached (pool : nat) (n : Z) (g : sgv_state) :
  steps g (sgv_dec_cached_entries pool n g) [].
Proof.
  destruct (dec_cached_spec pool n g) as (_ & Ho & Hp & _ & Ht & _).
  cbv zeta in *. split; [exact Ht|].
  unfold lists_shrink. splits.
  - intros q k o. destruct (Nat.eq_dec q pool) as [->|Hq].
    + rewrite Hp. auto.
    + rewrite Ho by exact Hq. auto.
  - intros q o. destruct (Nat.eq_dec q pool) as [->|Hq].
    + rewrite Hp. auto.
    + rewrite Ho by exact Hq. auto.
  - intros q. destruct (Nat.eq_dec q pool) as [->|Hq].
    + rewrite Hp. reflexivity.
    + rewrite Ho by exact Hq. reflexivity.
Qed.

Lemma steps_gate (n t : Z) (g : sgv_state) :
  let r := sgv_hiwmk_check n t g in
  exists evs, forallb eviction_event evs = true /\
    if fst r =? 0 then steps g (snd r) (EvTotalAdd n :: evs)
    else steps g (snd r) evs.
Proof.
  destruct (gate_outcome n t g) as [[Hr [(evs & Ht & He) Hs]]
                                   |[Hr (g0 & [(evs & Ht & He) Hs] & Hg)]];
    cbv zeta in *; exists evs; (split; [exact He|]).
  - destruct (Z.eqb_spec (fst (sgv_hiwmk_check n t g)) 0); [contradiction|].
    split; assumption.
  - rewrite Hr, Hg. simpl. split.
    + simpl. rewrite Ht. reflexivity.
    + eapply lists_shrink_trans; [exact Hs|].
      apply lists_shrink_pools. reflexivity.
Qed.

(** [sgv_get_obj] takes the head of the bucket, or makes an empty object
    and counts it in. *)
Lemma steps_get_obj (pool : nat) (order : Z) (new_obj : option nat)
    (g : sgv_state) :
  let n := wrap_int (Z.shiftl 1 order) in
  let r := sgv_get_obj pool order new_obj g in
  match fst r with
  | Some obj =>
      (hd_error (recycling_lists (pools g pool) order) = Some obj /\
       steps g (snd r) []) \/
      (recycling_lists (pools g pool) order = [] /\ sg_count obj = 0 /\
       sg_entries obj = [] /\ steps g (snd r) [EvCachedInc pool n])
  | None => steps g (snd r) [EvCachedDec pool n; EvCachedInc pool n]
  end.
Proof.
  unfold sgv_get_obj. cbv zeta.
  destruct (recycling_lists (pools g pool) order) as [|obj l] eqn:Hl.
  - set (p1 := set_counters _ _ _ (pools g pool)).
    set (g1 := if cached_entries (pools g pool) =? 0 then _ else g).
    assert (H1 : steps g (log (EvCachedInc pool (wrap_int (Z.shiftl 1 order)))
                            (set_pool pool p1 g1))
                   [EvCachedInc pool (wrap_int (Z.shiftl 1 order))]).
    { split.
      - simpl. unfold g1. destruct (_ =? 0); reflexivity.
      - assert (Hp : pools g1 = pools g) by (unfold g1; destruct (_ =? 0); reflexivity).
        unfold lists_shrink. simpl. rewrite Hp. splits.
        + intros q k o. destruct (q =? pool)%nat eqn:E; auto.
          apply Nat.eqb_eq in E. subst q. auto.
        + intros q o. destruct (q =? pool)%nat eqn:E; auto.
          apply Nat.eqb_eq in E. subst q. auto.
        + intros q. destruct (q =? pool)%nat eqn:E; auto.
          apply Nat.eqb_eq in E. subst q. auto. }
    destruct new_obj as [a|]; simpl fst; simpl snd.
    + right. splits; auto.
    + change [EvCachedDec pool (wrap_int (Z.shiftl 1 order));
              EvCachedInc pool (wrap_int (Z.shiftl 1 order))]
        with ([EvCachedDec pool (wrap_int (Z.shiftl 1 order))]
              ++ [EvCachedInc pool (wrap_int (Z.shiftl 1 order))]).
      eapply steps_trans; [exact H1|].
      change [EvCachedDec pool (wrap_int (Z.shiftl 1 order))]
        with ([EvCachedDec pool (wrap_int (Z.shiftl 1 order))] ++ []).
      eapply steps_trans; [apply steps_dec_cached|apply steps_log].
  - simpl fst; simpl snd. left. split; [reflexivity|]. split; [reflexivity|].
    unfold lists_shrink. simpl. splits.
    + intros q k o. destruct (q =? pool)%nat eqn:E; auto.
      apply Nat.eqb_eq in E. subst q. simpl.
      destruct (k =? order) eqn:Ek; auto.
      apply Z.eqb_eq in Ek. subst k. rewrite Hl. apply list_del_obj_In.
    + intros q o. destruct (q =? pool)%nat eqn:E; auto.
      apply Nat.eqb_eq in E. subst q. simpl. apply list_del_obj_In.
    + intros q. destruct (q =? pool)%nat eqn:E; auto.
      apply Nat.eqb_eq in E. subst q. reflexivity.
Qed.

(** [sgv_alloc_sg_entries] after its page loop. *)
Lemma alloc_sg_entries_filled (sg : list scatterlist) (pages : Z)
    (ct : sgv_clustering_types) (tbl : option (list trans_tbl_ent))
    (page_src : nat -> option Z) (sg' : list scatterlist) (cnt : Z)
    (tr : list event)
    (res : Z * list scatterlist * option (list trans_tbl_ent) * list event) :
  fill_pages (Z.to_nat pages) 0 page_src ct sg 0 (-1) [] = (true, sg', cnt, tr) ->
  sgv_alloc_sg_entries sg pages ct tbl page_src = Some res ->
  exists tbl', res = (cnt, sg', tbl', tr) /\
    (ct = sgv_no_clustering \/ tbl = None -> tbl' = tbl) /\
    (ct <> sgv_no_clustering -> forall t, tbl = Some t ->
     exists t', tbl' = Some t' /\
       tbl_fill (Z.to_nat pages) 0 sg' t 0 = Some t').
Proof.
  intros E. unfold sgv_alloc_sg_entries. rewrite E.
  destruct ct; [intros H; injection H as <-; eexists; splits; eauto;
                intros; contradiction| |];
    (destruct tbl as [t|];
     [destruct (tbl_fill _ _ _ _ _) as [t'|] eqn:T; [|discriminate];
      intros H; injection H as <-; eexists; splits; eauto;
      [intros [?|?]; discriminate
      |intros _ t0 H0; injection H0 as <-; eauto]
     |intros H; injection H as <-; eexists; splits; eauto;
      intros _ t0 H0; discriminate]).
Qed.

Lemma alloc_sg_entries_failed (sg : list scatterlist) (pages : Z)
    (ct : sgv_clustering_types) (tbl : option (list trans_tbl_ent))
    (page_src : nat -> option Z) (sg' : list scatterlist) (cnt : Z)
    (tr : list event) :
  fill_pages (Z.to_nat pages) 0 page_src ct sg 0 (-1) [] = (false, sg', cnt, tr) ->
  sgv_alloc_sg_entries sg pages ct tbl page_src
  = Some (0, sg', tbl,
          rev (map EvFreePage (sgv_free_sys_sg_entries sg' cnt)) ++ tr).
Proof. intros E. unfold sgv_alloc_sg_entries. rewrite E. reflexivity. Qed.


(** The fill returns unless its table loop leaves the table: always
    without clustering or without a table, and on a cleared array when the
    table has an entry for each page. *)
Definition tbl_fits (pages : Z) (ct : sgv_clustering_types)
    (sg : list scatterlist) (tbl : option (list trans_tbl_ent)) : Prop :=
  ct = sgv_no_clustering \/ tbl = None \/
  (sg = sg_init_table pages /\
   exists t, tbl = Some t /\ pages <= Z.of_nat (length t)).

Lemma alloc_sg_entries_returns (pages : Z) (ct : sgv_clustering_types)
    (sg : list scatterlist) (tbl : option (list trans_tbl_ent))
    (page_src : nat -> option Z) :
  0 <= pages -> pages * PAGE_SIZE < 2 ^ 31 ->
  (forall k, page_ok (page_src k) = true) ->
  tbl_fits pages ct sg tbl ->
  exists res, sgv_alloc_sg_entries sg pages ct tbl page_src = Some res.
Proof.
  intros Hp Hb Hok Hfit. unfold sgv_alloc_sg_entries.
  destruct (fill_pages (Z.to_nat pages) 0 page_src ct sg 0 (-1) [])
    as [[[b sg0] c] tr] eqn:E.
  destruct b; [|eauto].
  destruct Hfit as [->|[->|(-> & t & -> & Ht)]]; [eauto|destruct ct; eauto|].
  destruct (fill_pages_spec pages page_src ct Hb (Z.to_nat pages) 0
              (sg_init_table pages) 0 (-1) [] [] (fill_state_init pages Hp)
              eq_refl ltac:(lia) ltac:(intros; apply Hok))
    as (A & sg1 & c1 & m1 & Hst & Hres).
  simpl in Hst. rewrite app_nil_r in Hres.
  destruct Hres as [[E' HA]|(E' & _ & _)]; rewrite E' in E; [|discriminate].
  injection E as <- <- <-.
  pose proof (fill_state_entries _ _ _ _ _ Hst) as (Hgood & Hsum & _).
  pose proof Hst as (es & zs & _ & _ & _ & Hl & _).
  destruct (tbl_fill_spec sg1 Hgood (Z.to_nat pages) 0 t) as (t' & T0 & _);
    try lia.
  { split; [intros e He; lia|]. simpl. intros j Hj. lia. }
  change (Z.of_nat 0) with 0 in T0.
  change (sum_pages (take 0 sg1)) with 0 in T0.
  rewrite T0. destruct ct; eauto.
Qed.

(** ** The counters follow the trace *)

Definition int_range (x : Z) : Prop := - 2 ^ 31 <= x < 2 ^ 31.




































Lemma quota_roundtrip (a n : Z) :
  - 2 ^ 31 <= a < 2 ^ 31 -> wrap_int (wrap_int (a + n) - n) = a.
Proof.
  intros H. rewrite wrap_int_sub_l.
  replace (a + n - n) with a by lia. apply wrap_int_id, H.
Qed.

Lemma out_uncheck_steps (h a : bool) (n c : Z) (sgv : option sgv_pool_obj)
    (ml : scst_mem_lim) (g : sgv_state) :
  let r := out_uncheck h a n c sgv ml g in
  res_sg r = None /\ res_sgv r = sgv /\
  res_mem_lim r = (if a then sgv_uncheck_allowed_mem ml n else ml) /\
  steps g (res_state r)
    ((if a then [EvQuotaSub n] else []) ++ (if h then [EvTotalSub n] else [])).
Proof.
  unfold out_uncheck. cbv zeta.
  assert (Hh : steps g (if h then sgv_hiwmk_uncheck n g else g)
                 (if h then [EvTotalSub n] else [])).
  { destruct h; [apply steps_uncheck|apply steps_refl]. }
  destruct a; cbn [res_sg res_sgv res_mem_lim res_state]; splits; auto.
  eapply steps_trans; [exact Hh|apply steps_log].
Qed.

Lemma out_fail_free_steps (cache : bool) (pool : nat) (obj : sgv_pool_obj)
    (h a : bool) (n : Z) (ml : scst_mem_lim) (g : sgv_state) :
  let r := out_fail_free cache pool obj h a n ml g in
  res_sg r = None /\ res_sgv r = None /\
  res_mem_lim r = (if a then sgv_uncheck_allowed_mem ml n else ml) /\
  steps g (res_state r)
    (((if a then [EvQuotaSub n] else []) ++ (if h then [EvTotalSub n] else []))
     ++ [EvObjFree (obj_addr obj)]
     ++ (if cache then [EvCachedDec pool n] else [])).
Proof.
  unfold out_fail_free, out_fail. cbv zeta.
  set (g1 := if cache then _ else g).
  assert (H1 : steps g g1 (if cache then [EvCachedDec pool n] else [])).
  { unfold g1. destruct cache; [|apply steps_refl].
    change [EvCachedDec pool n] with ([EvCachedDec pool n] ++ []).
    eapply steps_trans; [apply steps_dec_cached|apply steps_log]. }
  destruct (out_uncheck_steps h a n 0 None ml (log (EvObjFree (obj_addr obj)) g1))
    as (R1 & R2 & R3 & R4).
  cbv zeta in *. splits; auto.
  eapply steps_trans; [|exact R4].
  eapply steps_trans; [exact H1|apply steps_log].
Qed.






Lemma bucket_pages_bounds (size : Z) :
  Z.shiftl 1 (get_order size) * PAGE_SIZE < 2 ^ 31 ->
  0 <= wrap_int (Z.shiftl 1 (get_order size)) /\
  wrap_int (Z.shiftl 1 (get_order size)) * PAGE_SIZE < 2 ^ 31.
Proof.
  intros H. pose proof PAGE_SIZE_bounds as HP.
  assert (Ho : 0 <= get_order size) by apply Z.log2_up_nonneg.
  rewrite Z.shiftl_1_l in *.
  assert (0 < 2 ^ get_order size) by (apply Z.pow_pos_nonneg; lia).
  rewrite wrap_int_id by nia. lia.
Qed.

Lemma request_pages_bounds (size : Z) :
  0 < size -> size + PAGE_SIZE <= 2 ^ 31 ->
  let pages := wrap_int (Z.shiftr (wrap_ulong (size + PAGE_SIZE - 1)) PAGE_SHIFT) in
  0 <= pages /\ pages * PAGE_SIZE < 2 ^ 31.
Proof.
  intros H1 H2 pages. pose proof PAGE_SIZE_bounds as HP. unfold pages.
  rewrite wrap_ulong_id by (change (2 ^ 64) with (2 ^ 31 * 2 ^ 33); lia).
  rewrite shiftr_page.
  assert (0 <= (size + PAGE_SIZE - 1) / PAGE_SIZE) by (apply Z.div_pos; lia).
  pose proof (Z.mul_div_le (size + PAGE_SIZE - 1) PAGE_SIZE ltac:(lia)).
  rewrite wrap_int_id by nia. split; [lia|nia].
Qed.





(** ** When [sgv_pool_alloc] returns *)

Lemma clustered_type (p : sgv_pool) :
  sgv_pool_clustered p = false <-> clustering_type p = sgv_no_clustering.
Proof.
  unfold sgv_pool_clustered. destruct (clustering_type p); split;
    intros H; try reflexivity; discriminate.
Qed.


Lemma alloc_fill_returns (cache : bool) (pool : nat) (size pages n : Z)
    (flags : alloc_flags) (env : alloc_env) (obj : sgv_pool_obj)
    (ml : scst_mem_lim) (g : sgv_state) :
  0 <= n -> n * PAGE_SIZE < 2 ^ 31 ->
  (forall k, page_ok (env_page_src env k) = true) ->
  tbl_fits n (clustering_type (pools g pool)) (sg_entries obj) (trans_tbl obj) ->
  exists r, alloc_fill cache pool size pages n flags env obj ml g = Some r.
Proof.
  intros Hn Hb Hok Hfit. unfold alloc_fill.
  destruct (alloc_sg_entries_returns n _ _ _ (env_page_src env) Hn Hb Hok Hfit)
    as [[[[cnt sg] tbl] evs] E].
  rewrite E. eauto.
Qed.

Lemma gate_fill_returns (cache : bool) (pool : nat) (size pages n : Z)
    (flags : alloc_flags) (env : alloc_env) (obj : sgv_pool_obj)
    (ml : scst_mem_lim) (g : sgv_state) :
  0 <= n -> n * PAGE_SIZE < 2 ^ 31 ->
  (forall k, page_ok (env_page_src env k) = true) ->
  tbl_fits n (clustering_type (pools g pool)) (sg_entries obj) (trans_tbl obj) ->
  exists r,
    (let '(rc, g') := sgv_hiwmk_check n (env_jiffies env) g in
     if negb (rc =? 0)
     then Some (out_fail_free cache pool obj false true n ml g')
     else alloc_fill cache pool size pages n flags env obj ml g') = Some r.
Proof.
  intros Hn Hb Hok Hfit.
  destruct (steps_gate n (env_jiffies env) g) as (E & _ & Hst).
  cbv zeta in Hst.
  destruct (sgv_hiwmk_check n (env_jiffies env) g) as [rc g'].
  simpl in Hst.
  assert (Hct : clustering_type (pools g' pool) = clustering_type (pools g pool)).
  { destruct (rc =? 0); destruct Hst as [_ (_ & _ & H3)]; apply H3. }
  destruct (negb (rc =? 0)); [eauto|].
  apply alloc_fill_returns; auto. rewrite Hct. exact Hfit.
Qed.

(** [sgv_pool_alloc] returns when no object is supplied, when the pool
    does not cluster, and when the object supplied has a cleared SG array
    and a translation table with an entry for each page of its bucket. *)
Lemma alloc_returns (pool : nat) (size : Z) (flags : alloc_flags)
    (count : Z) (sgv : option sgv_pool_obj) (mem_lim : scst_mem_lim)
    (priv : Z) (env : alloc_env) (g : sgv_state) :
  0 < size -> size + PAGE_SIZE <= 2 ^ 31 ->
  Z.shiftl 1 (get_order size) * PAGE_SIZE < 2 ^ 31 ->
  (forall k, page_ok (env_page_src env k) = true) ->
  (forall o, sgv = Some o ->
     tbl_fits (wrap_int (Z.shiftl 1 (get_order size)))
       (clustering_type (pools g pool)) (sg_entries o) (trans_tbl o)) ->
  exists r,
    sgv_pool_alloc pool size false flags count sgv mem_lim priv env g = Some r.
Proof.
  intros Hs Hs2 Hb Hok Hsgv.
  destruct (bucket_pages_bounds size Hb) as [Hnb1 Hnb2].
  destruct (request_pages_bounds size Hs Hs2) as [Hng1 Hng2].
  unfold sgv_pool_alloc.
  destruct (Z.eqb_spec size 0) as [?|_]; [lia|].
  cbv beta zeta.
  set (nb := wrap_int (Z.shiftl 1 (get_order size))) in *.
  set (ng := wrap_int (Z.shiftr (wrap_ulong (size + PAGE_SIZE - 1)) PAGE_SHIFT)) in *.
  destruct sgv as [obj|].
  - specialize (Hsgv obj eq_refl).
    destruct (sgv_check_allowed_mem mem_lim nb) as [ok ml'].
    destruct ok; cbn [negb]; cbv iota; [|eauto].
    apply gate_fill_returns; auto.
  - destruct ((get_order size <? SGV_POOL_ELEMENTS)
              && negb (SCST_POOL_ALLOC_NO_CACHED flags)).
    + destruct (sgv_check_allowed_mem mem_lim nb) as [ok ml'].
      destruct ok; cbn [negb]; cbv iota; [|eauto].
      pose proof (steps_get_obj pool (get_order size) (env_new_obj env)
                    (log (EvQuotaAdd nb) g)) as Hget.
      cbv zeta in Hget. fold nb in Hget.
      destruct (sgv_get_obj pool (get_order size) (env_new_obj env)
                  (log (EvQuotaAdd nb) g)) as [[obj|] g1];
        simpl fst in Hget; simpl snd in Hget; [|eauto].
      assert (Hct : clustering_type (pools g1 pool)
                    = clustering_type (pools g pool)).
      { destruct Hget as [[_ [_ (_ & _ & H3)]]|(_ & _ & _ & [_ (_ & _ & H3)])];
          apply H3. }
      destruct (negb (sg_count obj =? 0)); [eauto|].
      destruct (_ && negb _); [eauto|].
      set (arrays := if get_order size <=? sgv_max_local_order then _ else _).
      assert (Harr : arrays = None \/
                exists t, arrays = Some (with_arrays (sg_init_table nb) t obj) /\
                  tbl_fits nb (clustering_type (pools g1 pool))
                    (sg_init_table nb) t).
      { unfold arrays. rewrite Hct.
        assert (Hu : Z.of_nat (length (uninit_tbl env nb)) = nb).
        { unfold uninit_tbl. rewrite length_map, length_seq. lia. }
        assert (Hz : Z.of_nat (length (replicate (Z.to_nat nb) tt_zero)) = nb).
        { rewrite length_replicate. lia. }
        destruct (sgv_pool_clustered (pools g pool)) eqn:Hcl.
        - destruct (get_order size <=? sgv_max_local_order),
                   (env_sg_entries_ok env),
                   (get_order size <=? sgv_max_trans_order),
                   (env_trans_tbl_ok env); simpl; auto;
            right; eexists; (split; [reflexivity|]);
            right; right; (split; [reflexivity|]); eexists;
            (split; [reflexivity|]); lia.
        - apply clustered_type in Hcl.
          destruct (get_order size <=? sgv_max_local_order),
                   (env_sg_entries_ok env); simpl; auto;
            right; eexists; (split; [reflexivity|]); left; exact Hcl. }
      clearbody arrays.
      destruct Harr as [->|(t & -> & Hfit)]; [eauto|].
      destruct (_ && _); [eauto|].
      apply gate_fill_returns; auto.
    + destruct (sgv_check_allowed_mem mem_lim ng) as [ok ml'].
      destruct ok; cbn [negb]; cbv iota; [|eauto].
      destruct (SCST_POOL_NO_ALLOC_ON_CACHE_MISS flags); [eauto|].
      destruct (env_new_obj env) as [a|]; [|eauto].
      apply gate_fill_returns; auto. right. left. reflexivity.
Qed.

(** ** Failures of [sgv_pool_alloc] *)




(** ** The [allocator_priv] field *)

(** The fill leaves [allocator_priv] alone, and the object it hands out or
    back is the one it was given. *)
Lemma alloc_fill_priv (cache : bool) (pool : nat) (size pages n : Z)
    (flags : alloc_flags) (env : alloc_env) (obj : sgv_pool_obj)
    (ml : scst_mem_lim) (g : sgv_state) (r : alloc_result) (o : sgv_pool_obj) :
  alloc_fill cache pool size pages n flags env obj ml g = Some r ->
  res_sgv r = Some o ->
  allocator_priv o = allocator_priv obj /\ obj_addr o = obj_addr obj /\
  (res_sg r = None <-> sg_count o = 0).
Proof.
  unfold alloc_fill.
  destruct (sgv_alloc_sg_entries _ _ _ _ _) as [[[[cnt sg] tbl] evs]|];
    [|discriminate].
  intros Hr. apply (inj Some) in Hr. subst r.
  destruct (Z.leb_spec cnt 0) as [Hc|Hc].
  - destruct (_ && cache).
    + unfold out_return1, out_return2.
      match goal with |- context [out_uncheck ?h ?a ?n ?c ?s ?m ?gg] =>
        destruct (out_uncheck_steps h a n c s m gg) as (R1 & R2 & _) end.
      cbv zeta in R1, R2. rewrite R2. intros Ho. injection Ho as <-.
      simpl. tauto.
    + match goal with |- context [out_fail_free ?c ?p ?ob ?h ?a ?n ?m ?gg] =>
        destruct (out_fail_free_steps c p ob h a n m gg) as (_ & R2 & _) end.
      cbv zeta in R2. rewrite R2. discriminate.
  - match goal with |- context [alloc_success ?c ?cl ?sz ?p ?ob ?m ?gg] =>
      destruct (alloc_success_obj c cl sz p ob m gg)
        as (o' & R1 & R2 & _ & _ & R5 & _ & _ & R8 & R9 & _) end.
    cbv zeta in *. rewrite R1. intros Ho. injection Ho as <-.
    rewrite R2, R5, R8, R9. simpl. splits; auto.
    split; [discriminate|lia].
Qed.

Lemma gate_fill_priv (cache : bool) (pool : nat) (size pages n : Z)
    (flags : alloc_flags) (env : alloc_env) (obj : sgv_pool_obj)
    (ml : scst_mem_lim) (g : sgv_state) (r : alloc_result) (o : sgv_pool_obj) :
  (let '(rc, g') := sgv_hiwmk_check n (env_jiffies env) g in
   if negb (rc =? 0)
   then Some (out_fail_free cache pool obj false true n ml g')
   else alloc_fill cache pool size pages n flags env obj ml g') = Some r ->
  res_sgv r = Some o ->
  allocator_priv o = allocator_priv obj /\ obj_addr o = obj_addr obj /\
  (res_sg r = None <-> sg_count o = 0).
Proof.
  destruct (sgv_hiwmk_check n (env_jiffies env) g) as [rc g'].
  destruct (negb (rc =? 0)).
  - intros Hr. apply (inj Some) in Hr. subst r.
    destruct (out_fail_free_steps cache pool obj false true n ml g')
      as (_ & R2 & _).
    cbv zeta in R2. rewrite R2. discriminate.
  - apply alloc_fill_priv.
Qed.

(** What [allocator_priv] holds in the object a call hands out or back: the
    [priv] of the call when the call took the object empty from its bucket
    or made it, and what the field held before when the object was supplied
    through [*sgv] or came filled from the free-list. *)
Definition stored_priv (pool : nat) (size : Z) (flags : alloc_flags)
    (sgv : option sgv_pool_obj) (priv : Z) (g : sgv_state) : Z :=
  match sgv with
  | Some o0 => allocator_priv o0
  | None =>
      match hd_error (recycling_lists (pools g pool) (get_order size)) with
      | Some o0 =>
          if bucketed_request size flags None && negb (sg_count o0 =? 0)
          then allocator_priv o0 else priv
      | None => priv
      end
  end.

Lemma alloc_priv (pool : nat) (size : Z) (flags : alloc_flags)
    (count : Z) (sgv : option sgv_pool_obj) (mem_lim : scst_mem_lim)
    (priv : Z) (env : alloc_env) (g : sgv_state) (r : alloc_result)
    (o : sgv_pool_obj) :
  sgv_pool_alloc pool size false flags count sgv mem_lim priv env g = Some r ->
  res_sgv r = Some o ->
  allocator_priv o = stored_priv pool size flags sgv priv g /\
  (size <> 0 -> (res_sg r = None <-> sg_count o = 0)).
Proof.
  unfold sgv_pool_alloc, stored_priv, bucketed_request.
  destruct (Z.eqb_spec size 0) as [Hz|Hz].
  { intros Hr. apply (inj Some) in Hr. subst r. simpl. intros ->.
    split; [reflexivity|contradiction]. }
  cbv beta zeta.
  set (nb := wrap_int (Z.shiftl 1 (get_order size))).
  set (ng := wrap_int (Z.shiftr (wrap_ulong (size + PAGE_SIZE - 1)) PAGE_SHIFT)).
  assert (Hnone : forall c p ob h a n m gg,
            res_sgv (out_fail_free c p ob h a n m gg) = None).
  { intros. destruct (out_fail_free_steps c p ob h a n m gg) as (_ & R2 & _).
    exact R2. }
  assert (Hnone' : forall h a n c m gg,
            res_sgv (out_uncheck h a n c None m gg) = None).
  { intros. destruct (out_uncheck_steps h a n c None m gg) as (_ & R2 & _).
    exact R2. }
  destruct sgv as [obj|].
  - destruct (sgv_check_allowed_mem mem_lim nb) as [ok ml'].
    destruct ok; cbn [negb]; cbv iota.
    + intros Hr Ho.
      destruct (gate_fill_priv _ _ _ _ _ _ _ _ _ _ _ _ Hr Ho) as (P1 & _ & P3).
      auto.
    + intros Hr. apply (inj Some) in Hr. subst r. rewrite Hnone. discriminate.
  - destruct ((get_order size <? SGV_POOL_ELEMENTS)
              && negb (SCST_POOL_ALLOC_NO_CACHED flags)); cbn [andb].
    + destruct (sgv_check_allowed_mem mem_lim nb) as [ok ml'].
      destruct ok; cbn [negb]; cbv iota.
      2:{ intros Hr. apply (inj Some) in Hr. subst r. unfold out_fail.
          rewrite Hnone'. discriminate. }
      unfold sgv_get_obj. cbv zeta. simpl pools.
      destruct (recycling_lists (pools g pool) (get_order size)) as [|o0 l];
        simpl hd_error.
      * destruct (env_new_obj env) as [a|].
        2:{ intros Hr. apply (inj Some) in Hr. subst r. unfold out_fail.
            rewrite Hnone'. discriminate. }
        simpl sg_count. change (negb (0 =? 0)) with false. cbv iota.
        destruct (_ && negb _).
        { intros Hr. apply (inj Some) in Hr. subst r. rewrite Hnone.
          discriminate. }
        match goal with |- match ?x with _ => _ end = _ -> _ =>
          set (arrays := x) end.
        assert (Harr : arrays = None \/
                  exists ob, arrays = Some ob /\ sg_count ob = 0).
        { unfold arrays.
          destruct (get_order size <=? sgv_max_local_order),
                   (env_sg_entries_ok env),
                   (sgv_pool_clustered (pools g pool)),
                   (get_order size <=? sgv_max_trans_order),
                   (env_trans_tbl_ok env); simpl; eauto. }
        clearbody arrays.
        destruct Harr as [->|(ob & -> & Hob)].
        { intros Hr. apply (inj Some) in Hr. subst r. rewrite Hnone.
          discriminate. }
        destruct (_ && _).
        { intros Hr. apply (inj Some) in Hr. subst r.
          unfold out_return, out_return1, out_return2.
          match goal with |- context [out_uncheck ?h ?a ?n ?c ?sv ?m ?gg] =>
            destruct (out_uncheck_steps h a n c sv m gg) as (R1 & R2 & _) end.
          cbv zeta in R1, R2. rewrite R1, R2. intros Ho. injection Ho as <-.
          simpl. tauto. }
        intros Hr Ho.
        destruct (gate_fill_priv _ _ _ _ _ _ _ _ _ _ _ _ Hr Ho) as (P1 & _ & P3).
        auto.
      * destruct (Z.eqb_spec (sg_count o0) 0) as [Hc|Hc]; cbn [negb]; cbv iota.
        2:{ intros Hr. apply (inj Some) in Hr. subst r.
            match goal with |- context [alloc_success ?c ?cl ?sz ?p ?ob ?m ?gg] =>
              destruct (alloc_success_obj c cl sz p ob m gg)
                as (o' & R1 & R2 & _ & _ & _ & _ & _ & R8 & R9 & _) end.
            cbv zeta in *. rewrite R1. intros Ho. injection Ho as <-.
            rewrite R2, R8, R9.
            split; [destruct (Z.eqb_spec (sg_count o0) 0);
                    [contradiction|reflexivity]|].
            intros _. split; [discriminate|contradiction]. }
        assert (Hsp : (if negb (sg_count o0 =? 0) then allocator_priv o0
                       else priv) = priv) by (rewrite Hc; reflexivity).
        rewrite ?Hsp.
        destruct (_ && negb _).
        { intros Hr. apply (inj Some) in Hr. subst r. rewrite Hnone.
          discriminate. }
        match goal with |- match ?x with _ => _ end = _ -> _ =>
          set (arrays := x) end.
        assert (Harr : arrays = None \/
                  exists ob, arrays = Some ob /\ sg_count ob = 0).
        { unfold arrays.
          destruct (get_order size <=? sgv_max_local_order),
                   (env_sg_entries_ok env),
                   (sgv_pool_clustered (pools g pool)),
                   (get_order size <=? sgv_max_trans_order),
                   (env_trans_tbl_ok env); simpl; eauto. }
        clearbody arrays.
        destruct Harr as [->|(ob & -> & Hob)].
        { intros Hr. apply (inj Some) in Hr. subst r. rewrite Hnone.
          discriminate. }
        destruct (_ && _).
        { intros Hr. apply (inj Some) in Hr. subst r.
          unfold out_return, out_return1, out_return2.
          match goal with |- context [out_uncheck ?h ?a ?n ?c ?sv ?m ?gg] =>
            destruct (out_uncheck_steps h a n c sv m gg) as (R1 & R2 & _) end.
          cbv zeta in R1, R2. rewrite R1, R2. intros Ho. injection Ho as <-.
          simpl. tauto. }
        intros Hr Ho.
        destruct (gate_fill_priv _ _ _ _ _ _ _ _ _ _ _ _ Hr Ho) as (P1 & _ & P3).
        auto.
    + assert (Hp : match hd_error (recycling_lists (pools g pool) (get_order size))
                   with Some _ => priv | None => priv end = priv).
      { destruct (hd_error _); reflexivity. }
      rewrite Hp.
      destruct (sgv_check_allowed_mem mem_lim ng) as [ok ml'].
      destruct ok; cbn [negb]; cbv iota.
      2:{ intros Hr. apply (inj Some) in Hr. subst r. unfold out_fail.
          rewrite Hnone'. discriminate. }
      destruct (SCST_POOL_NO_ALLOC_ON_CACHE_MISS flags).
      { intros Hr. apply (inj Some) in Hr. subst r. unfold out_return2.
        rewrite Hnone'. discriminate. }
      destruct (env_new_obj env) as [a|].
      2:{ intros Hr. apply (inj Some) in Hr. subst r. unfold out_fail.
          rewrite Hnone'. discriminate. }
      intros Hr Ho.
      destruct (gate_fill_priv _ _ _ _ _ _ _ _ _ _ _ _ Hr Ho) as (P1 & _ & P3).
      auto.
Qed.

(** C7 as it holds.  [sgv_pool_alloc] writes [allocator_priv] when it takes
    an empty object from its bucket or makes an object, whether or not it
    then fills it: the object it hands out, or hands back, holds the [priv]
    of the call.  It does not write the field of an object supplied through
    [*sgv], which it may fill, nor of a filled object that comes from the
    free-list ([stored_priv]); [sgv_get_priv] reads the field.  A call served
    from the free-list returns the cached object with the [priv] it held,
    whatever [priv] the caller passes, and with the same pages; and a
    release into the bucket keeps both. *)
Theorem allocator_priv_spec (pool : nat) (size : Z) (flags : alloc_flags)
    (count : Z) (sgv : option sgv_pool_obj) (mem_lim : scst_mem_lim)
    (priv : Z) (env : alloc_env) (g : sgv_state) :
  (forall r o,
     sgv_pool_alloc pool size false flags count sgv mem_lim priv env g = Some r ->
     res_sgv r = Some o ->
     sgv_get_priv o = stored_priv pool size flags sgv priv g /\
     (size <> 0 -> (res_sg r = None <-> sg_count o = 0))) /\
  (forall obj,
     cache_hit pool size flags mem_lim g obj ->
     exists r obj',
       sgv_pool_alloc pool size false flags count None mem_lim priv env g
         = Some r /\
       res_sgv r = Some obj' /\ res_sg r = Some (sg_entries obj') /\
       obj_addr obj' = obj_addr obj /\
       sgv_get_priv obj' = allocator_priv obj /\
       sg_count obj' = sg_count obj /\
       map sg_page (sg_entries obj') = map sg_page (sg_entries obj)) /\
  (forall (o : sgv_pool_obj) (m : scst_mem_lim) (now : Z) (g0 : sgv_state),
     0 <= order_or_pages o ->
     exists o',
       In o' (recycling_lists (pools (snd (sgv_pool_free o m now g0)) (owner_pool o))
                (order_or_pages o)) /\
       obj_addr o' = obj_addr o /\ allocator_priv o' = allocator_priv o /\
       map sg_page (sg_entries o') = map sg_page (sg_entries o)).
Proof.
  splits.
  - intros r o Hr Ho. unfold sgv_get_priv. eapply alloc_priv; eauto.
  - intros obj Hhit.
    destruct (alloc_cache_hit pool size flags count mem_lim priv env g obj Hhit)
      as (r & obj' & H1 & H2 & H3 & H4 & H5 & H6 & H7 & H8).
    exists r, obj'. splits; auto.
  - intros o m now g0 Ho.
    destruct (pool_free_bucketed o m now g0 Ho) as (_ & _ & F3 & _).
    cbv zeta in F3. rewrite F3. eexists. split.
    + destruct (sgv_pool_clustered _).
      * apply insert_by_sg_count_In. left. reflexivity.
      * left. reflexivity.
    + simpl. splits; auto. apply set_sg_length_pages.
Qed.

(** ** Release of a bucketed object *)


(** ** Quota *)

(** C2. A charge adds [n] to [alloced_pages]; when the sum exceeds
    [max_allowed_pages] the charge fails and [n] is subtracted again, which
    leaves the counter as it was; an uncharge subtracts [n].  With a ceiling
    of 10, a charge of 9 succeeds and a further charge of 2 fails and leaves
    the counter at 9. *)
Theorem quota_charge_uncharge (mem_lim : scst_mem_lim) (n : Z) :
  - 2 ^ 31 <= alloced_pages mem_lim < 2 ^ 31 ->
  let new := wrap_int (alloced_pages mem_lim + n) in
  sgv_check_allowed_mem mem_lim n =
    (if new >? max_allowed_pages mem_lim
     then (false, mem_lim)
     else (true, mk_mem_lim new (max_allowed_pages mem_lim))) /\
  (- 2 ^ 31 <= alloced_pages mem_lim + n < 2 ^ 31 ->
   new = alloced_pages mem_lim + n) /\
  sgv_uncheck_allowed_mem mem_lim n =
    mk_mem_lim (wrap_int (alloced_pages mem_lim - n)) (max_allowed_pages mem_lim) /\
  (- 2 ^ 31 <= alloced_pages mem_lim - n < 2 ^ 31 ->
   alloced_pages (sgv_uncheck_allowed_mem mem_lim n) = alloced_pages mem_lim - n) /\
  (let m0 := mk_mem_lim 0 10 in
   let '(ok9, m1) := sgv_check_allowed_mem m0 9 in
   let '(ok2, m2) := sgv_check_allowed_mem m1 2 in
   ok9 = true /\ alloced_pages m1 = 9 /\ ok2 = false /\ alloced_pages m2 = 9).
Proof.
  intros Hr new. split; [|split; [|split; [|split]]].
  - unfold sgv_check_allowed_mem. fold new.
    destruct (new >? max_allowed_pages mem_lim); [|reflexivity].
    f_equal. unfold new. rewrite wrap_int_sub_l.
    replace (alloced_pages mem_lim + n - n) with (alloced_pages mem_lim) by lia.
    rewrite wrap_int_id by exact Hr. destruct mem_lim; reflexivity.
  - intros H. apply wrap_int_id, H.
  - reflexivity.
  - intros H. simpl. apply wrap_int_id, H.
  - vm_compute. repeat split.
Qed.

(** * Further properties *)

(** ** The page fill and its reverse *)

Definition total_length (es : list scatterlist) : Z :=
  fold_right (fun e acc => sg_length e + acc) 0 es.

Lemma total_length_good (es : list scatterlist) :
  Forall good_entry es -> total_length es = sum_pages es * PAGE_SIZE.
Proof.
  pose proof PAGE_SIZE_bounds as HP.
  induction 1 as [|e es (pfn & k & _ & Hl & _) _ IH]; [reflexivity|].
  simpl. rewrite IH. unfold entry_pages. rewrite Hl, Z.div_mul by lia. lia.
Qed.

(** X1. A fill whose page allocations all succeed returns exactly when
    its table loop stays inside the translation table: without clustering,
    without a table, or with a table of at least [pages] entries.  It then
    has asked for exactly [pages] pages, in order; it reports between one
    and [pages] SG entries ([pages] without clustering), which together are
    [pages * PAGE_SIZE] bytes long; the entries behind them are still
    cleared; and [sgv_free_sys_sg_entries] on the result gives back every
    page obtained, each once. *)
Theorem fill_then_free (pages : Z) (ct : sgv_clustering_types)
    (tbl : option (list trans_tbl_ent)) (page_src : nat -> option Z) :
  1 <= pages -> pages * PAGE_SIZE < 2 ^ 31 ->
  forallb (fun k => page_valid (page_src k)) (seq 0 (Z.to_nat pages)) = true ->
  let fits :=
    ct = sgv_no_clustering \/
    forall t, tbl = Some t -> pages <= Z.of_nat (length t) in
  (fits ->
   exists cnt sg tbl',
     sgv_alloc_sg_entries (sg_init_table pages) pages ct tbl page_src
       = Some (cnt, sg, tbl',
               rev (map EvAllocPage (pages_got page_src 0 (Z.to_nat pages)))) /\
     1 <= cnt <= pages /\ Z.of_nat (length sg) = pages /\
     (ct = sgv_no_clustering -> cnt = pages) /\
     total_length (take (Z.to_nat cnt) sg) = pages * PAGE_SIZE /\
     (forall i, cnt <= i -> sg_at sg i = sg_zero) /\
     sgv_free_sys_sg_entries sg cnt ≡ₚ pages_got page_src 0 (Z.to_nat pages)) /\
  (~ fits ->
   sgv_alloc_sg_entries (sg_init_table pages) pages ct tbl page_src = None).
Proof.
  intros Hp Hb Hv fits.
  destruct (fill_all_pages pages ct page_src ltac:(lia) Hb Hv)
    as (alloc & sg & cnt & merged & E & Hl & Hst).
  pose proof (fill_pages_trace page_src ct (Z.to_nat pages) 0
                (sg_init_table pages) 0 (-1) []) as Htr.
  pose proof (fill_pages_no_clustering page_src (Z.to_nat pages) 0
                (sg_init_table pages) 0 (-1) []) as Hnc.
  cbv zeta in Htr, Hnc. rewrite E in Htr. simpl in Htr.
  destruct Htr as [(_ & _ & Htr)|(Hf & _)]; [|discriminate].
  rewrite app_nil_r in Htr. apply rev_map_alloc_inj in Htr. subst alloc.
  pose proof (fill_state_entries _ _ _ _ _ Hst) as (Hgood & Hsumsg & _).
  destruct Hst as (es & zs & Hsg & Hzs & Hcnt & Hlen & Hg & Hsum & Hperm & _).
  pose proof (sum_pages_nonneg es Hg) as Hle.
  assert (Htake : take (Z.to_nat cnt) sg = es).
  { rewrite Hsg. replace (Z.to_nat cnt) with (length es) by lia.
    apply take_app_length. }
  split.
  - intros Hfit.
    assert (Hok : forall k, (k < Z.to_nat pages)%nat -> page_src k <> None).
    { intros k Hk. apply (page_valid_ok page_src _ Hv k Hk). }
    assert (Hret : exists res,
              sgv_alloc_sg_entries (sg_init_table pages) pages ct tbl page_src
              = Some res).
    { unfold sgv_alloc_sg_entries. rewrite E.
      destruct ct; [eauto| |]; (destruct tbl as [t|]; [|eauto]);
        (destruct Hfit as [?|Hfit]; [discriminate|]);
        specialize (Hfit t eq_refl);
        (destruct (tbl_fill_spec sg Hgood (Z.to_nat pages) 0 t)
           as (t' & T0 & _); try lia;
         [split; [intros e He; lia|]; simpl; intros j Hj; lia|]);
        change (Z.of_nat 0) with 0 in T0;
        change (sum_pages (take 0 sg)) with 0 in T0; rewrite T0; eauto. }
    destruct Hret as [res Hres].
    destruct (alloc_sg_entries_filled _ _ _ _ _ _ _ _ _ E Hres)
      as (tbl' & -> & _).
    exists cnt, sg, tbl'. splits.
    + exact Hres.
    + destruct es; simpl in *; lia.
    + lia.
    + exact Hlen.
    + intros ->. rewrite E in Hnc. simpl in Hnc. specialize (Hnc eq_refl). lia.
    + rewrite Htake, total_length_good by exact Hg. rewrite Hsum. lia.
    + intros i Hi. unfold sg_at. rewrite Hsg.
      rewrite lookup_app_r by lia.
      destruct (zs !! (Z.to_nat i - length es)%nat) as [z|] eqn:Hz; [|reflexivity].
      rewrite Hzs in Hz. apply lookup_replicate in Hz as [-> _]. reflexivity.
    + unfold sgv_free_sys_sg_entries. rewrite Htake. exact Hperm.
  - intros Hno.
    destruct (sgv_alloc_sg_entries (sg_init_table pages) pages ct tbl page_src)
      as [res|] eqn:Hres; [exfalso|reflexivity].
    destruct (alloc_sg_entries_filled _ _ _ _ _ _ _ _ _ E Hres)
      as (tbl' & -> & _ & Htb).
    apply Hno. unfold fits.
    destruct ct; [left; reflexivity| |]; right; intros t ->;
      (destruct (Htb ltac:(discriminate) t eq_refl) as (t' & _ & T);
       apply (tbl_fill_bounds sg Hgood (Z.to_nat pages) 0 t t' 0) in T;
       [|simpl; lia]; destruct T as (_ & _ & T);
       rewrite drop_0, take_ge in T by lia; lia).
Qed.

(** X2. When the [j]-th page allocation is the first to be refused, the
    fill stops there: it has asked for the pages before it and for no page
    after it, it gives every page it obtained back, each once, reports no
    SG entry, and leaves the translation table alone. *)
Theorem fill_refused (pages : Z) (ct : sgv_clustering_types)
    (tbl : option (list trans_tbl_ent)) (page_src : nat -> option Z) (j : nat) :
  0 <= pages -> pages * PAGE_SIZE < 2 ^ 31 ->
  (forall k, page_ok (page_src k) = true) ->
  (j < Z.to_nat pages)%nat -> page_src j = None ->
  (forall k, (k < j)%nat -> page_src k <> None) ->
  exists sg F,
    sgv_alloc_sg_entries (sg_init_table pages) pages ct tbl page_src
      = Some (0, sg, tbl,
              rev (map EvFreePage F)
              ++ rev (map EvAllocPage (pages_got page_src 0 j))) /\
    F ≡ₚ pages_got page_src 0 j.
Proof.
  intros Hp Hb Hok Hj Hnone Hsome.
  destruct (fill_pages_spec pages page_src ct Hb (Z.to_nat pages) 0
              (sg_init_table pages) 0 (-1) [] [] (fill_state_init pages Hp)
              eq_refl ltac:(lia) ltac:(intros; apply Hok))
    as (A & sg0 & cnt & merged & Hst & Hres).
  pose proof (fill_pages_trace page_src ct (Z.to_nat pages) 0
                (sg_init_table pages) 0 (-1) []) as Htr.
  cbv zeta in Htr. simpl in Hst. rewrite app_nil_r in Hres.
  destruct Hres as [[E _]|(E & _ & _)]; rewrite E in Htr; simpl in Htr.
  - exfalso. destruct Htr as [(_ & Hall & _)|(Hf & _)]; [|discriminate].
    apply (Hall j); [lia|exact Hnone].
  - destruct Htr as [(Hf & _)|(_ & j' & Hj' & Hn' & Hs' & Htr)]; [discriminate|].
    assert (j' = j).
    { destruct (Nat.lt_trichotomy j' j) as [Hlt|[Heq|Hgt]]; [|exact Heq|].
      - exfalso. apply (Hsome j' Hlt). exact Hn'.
      - exfalso. apply (Hs' j); [lia|exact Hnone]. }
    subst j'. rewrite app_nil_r in Htr. apply rev_map_alloc_inj in Htr. subst A.
    destruct Hst as (es & zs & Hsg & _ & Hlen & _ & _ & _ & Hperm & _).
    exists (sg_set sg0 cnt (mk_sg None 0 PAGE_SIZE)),
      (sgv_free_sys_sg_entries (sg_set sg0 cnt (mk_sg None 0 PAGE_SIZE)) cnt).
    split.
    + unfold sgv_alloc_sg_entries. rewrite E. reflexivity.
    + unfold sgv_free_sys_sg_entries, sg_set.
      rewrite take_insert_ge by lia. rewrite Hsg.
      replace (Z.to_nat cnt) with (length es) by lia.
      rewrite take_app_length. exact Hperm.
Qed.

(** ** The shrinker *)

(** X3. [__sgv_shrink] returns: the loop needs no more than [shrink_fuel]
    rounds.  It never adds to [sgv_pages_total]; the number of pages still
    asked for goes down by exactly what the total went down by; and the
    active list stays free of duplicates with the cursor on one of its
    pools. *)
Theorem shrink_returns (nr after t : Z) (g : sgv_state) :
  0 <= sgv_lo_wmk -> SGV_POOL_ELEMENTS <= 31 ->
  shrink_wf g = true ->
  - 2 ^ 30 <= sgv_pages_total g < 2 ^ 30 -> 0 <= nr < 2 ^ 30 ->
  let r := __sgv_shrink nr after t g in
  (forall fuel, (shrink_fuel g <= fuel)%nat ->
     shrink_loop fuel nr nr false after t g = Some r) /\
  sgv_pages_total (snd r) <= sgv_pages_total g /\
  nr - fst r = sgv_pages_total g - sgv_pages_total (snd r) /\
  NoDup (sgv_active_pools_list (snd r)) /\ cur_in_active (snd r).
Proof.
  intros Hlo HE Hwf Ht Hnr.
  destruct (shrink_loop_terminates nr after t g Hlo HE Hwf ltac:(lia))
    as (T1 & (I1 & I2 & _) & T3 & T4 & T5 & T6).
  cbv zeta in *. splits; auto.
  specialize (T5 ltac:(lia)). specialize (T6 ltac:(lia)).
  set (nr' := fst (__sgv_shrink nr after t g)) in *.
  set (t' := sgv_pages_total (snd (__sgv_shrink nr after t g))) in *.
  rewrite (wrap_int_id (nr - sgv_pages_total g)) in T3 by lia.
  unfold wrap_int in T3.
  change (2 ^ 30) with 1073741824 in *.
  change (2 ^ 31) with 2147483648 in *.
  change (2 ^ 32) with 4294967296 in *.
  pose proof (Z.div_mod (nr' - t' + 2147483648) 4294967296 ltac:(lia)) as Hdm.
  pose proof (Z.mod_pos_bound (nr' - t' + 2147483648) 4294967296 ltac:(lia)).
  assert ((nr' - t' + 2147483648) / 4294967296 = 0) by lia.
  lia.
Qed.

(** ** The active list *)

(** X4. [sgv_del_from_active] takes the pool off the active list and keeps
    the purge cursor on the list: a cursor that stood on the pool moves to
    the pool behind it, to the first pool when it was the last, and to
    [NULL] when the list is now empty; any other cursor stays. *)
Theorem del_from_active_cursor (pool : nat) (g : sgv_state) :
  NoDup (sgv_active_pools_list g) -> cur_in_active g ->
  let l := sgv_active_pools_list g in
  let g' := sgv_del_from_active pool g in
  sgv_active_pools_list g' = list_del_pool pool l /\
  ~ In pool (sgv_active_pools_list g') /\
  sgv_cur_purge_pool g' <> Some pool /\
  cur_in_active g' /\
  (sgv_cur_purge_pool g = Some pool ->
   sgv_cur_purge_pool g' =
     match list_next pool l with
     | Some q => Some q
     | None => hd_error (list_del_pool pool l)
     end) /\
  (sgv_cur_purge_pool g <> Some pool ->
   sgv_cur_purge_pool g' = sgv_cur_purge_pool g).
Proof.
  intros Hnd Hcur l g'.
  destruct (del_from_active_spec pool g) as (H1 & _ & _ & _ & H5 & H6).
  cbv zeta in *. fold g' in H1, H5, H6. fold l in H1.
  assert (Hout : pool ∉ sgv_active_pools_list g').
  { rewrite H1. unfold l. rewrite list_del_pool_elem by exact Hnd. tauto. }
  specialize (H6 Hnd Hcur).
  split; [exact H1|].
  split; [intros Hin; apply Hout, list_elem_of_In; exact Hin|].
  split; [intros Hc; apply Hout, H6; exact Hc|].
  split; [exact H6|]. split.
  - intros Hc. unfold g', sgv_del_from_active. simpl. rewrite Hc. simpl.
    rewrite Nat.eqb_refl. simpl. destruct (list_next pool _); reflexivity.
  - intros Hc. unfold g', sgv_del_from_active. simpl.
    destruct (sgv_cur_purge_pool g) as [c|] eqn:E; simpl; [|exact E].
    destruct (Nat.eqb_spec c pool) as [->|Hne]; [congruence|].
    simpl. exact E.
Qed.

(** The active list holds, once each, the pools that own objects. *)
Definition active_tracks (g : sgv_state) : Prop :=
  NoDup (sgv_active_pools_list g) /\
  forall q, 0 <= cached_entries (pools g q) < 2 ^ 31 /\
            (In q (sgv_active_pools_list g) <-> 0 < cached_entries (pools g q)).

Lemma active_tracks_ext (g g' : sgv_state) :
  sgv_active_pools_list g' = sgv_active_pools_list g ->
  (forall q, cached_entries (pools g' q) = cached_entries (pools g q)) ->
  active_tracks g -> active_tracks g'.
Proof.
  intros Ha Hc [Hnd H]. unfold active_tracks. rewrite Ha.
  split; [exact Hnd|]. intros q. rewrite Hc. apply H.
Qed.

Lemma dec_cached_tracks (pool : nat) (pages : Z) (g : sgv_state) :
  active_tracks g -> 0 < cached_entries (pools g pool) ->
  active_tracks (sgv_dec_cached_entries pool pages g).
Proof.
  intros [Hnd H] Hpos. destruct (H pool) as [Hr Hin].
  unfold sgv_dec_cached_entries. cbv zeta.
  set (p' := set_counters _ _ _ _).
  assert (Hce : cached_entries p' = cached_entries (pools g pool) - 1).
  { unfold p'. simpl. apply wrap_int_id. lia. }
  assert (Hq : forall q, q <> pool ->
            pools (set_pool pool p' g) q = pools g q).
  { intros q Hne. simpl. destruct (Nat.eqb_spec q pool); [contradiction|].
    reflexivity. }
  assert (Hp : pools (set_pool pool p' g) pool = p').
  { simpl. rewrite Nat.eqb_refl. reflexivity. }
  destruct (Z.eqb_spec (cached_entries p') 0) as [Hz|Hz].
  - destruct (del_from_active_spec pool (set_pool pool p' g))
      as (H1 & H2 & _).
    cbv zeta in H1, H2. unfold active_tracks. rewrite H1, H2.
    change (sgv_active_pools_list (set_pool pool p' g))
      with (sgv_active_pools_list g).
    split; [apply list_del_pool_NoDup; exact Hnd|].
    intros q. rewrite <- list_elem_of_In, list_del_pool_elem by exact Hnd.
    rewrite list_elem_of_In.
    destruct (Nat.eq_dec q pool) as [->|Hne].
    + rewrite Hp. split; [lia|]. split; [tauto|lia].
    + rewrite (Hq q Hne). destruct (H q) as [Hr' Hin']. split; [exact Hr'|].
      tauto.
  - unfold active_tracks.
    change (sgv_active_pools_list (set_pool pool p' g))
      with (sgv_active_pools_list g).
    split; [exact Hnd|]. intros q.
    destruct (Nat.eq_dec q pool) as [->|Hne].
    + rewrite Hp. split; [lia|]. split; [lia|]. intros _. apply Hin. lia.
    + rewrite (Hq q Hne). apply H.
Qed.

(** X5. The active list holds exactly the pools with [cached_entries]
    above zero, each once, and the three functions that change the count
    keep it so: [sgv_get_obj], also when the object allocation fails;
    [sgv_dec_cached_entries]; and [__sgv_purge_from_cache]. *)
Theorem active_list_tracks (pool : nat) (order pages : Z)
    (new_obj : option nat) (obj : sgv_pool_obj) (g : sgv_state) :
  active_tracks g ->
  (cached_entries (pools g pool) < 2 ^ 31 - 1 ->
   active_tracks (snd (sgv_get_obj pool order new_obj g))) /\
  (0 < cached_entries (pools g pool) ->
   active_tracks (sgv_dec_cached_entries pool pages g)) /\
  (0 < cached_entries (pools g (owner_pool obj)) ->
   active_tracks (__sgv_purge_from_cache obj g)).
Proof.
  intros Hinv. split; [|split].
  - intros Hmax. unfold sgv_get_obj. cbv zeta.
    destruct (recycling_lists (pools g pool) order) as [|o l].
    + set (g1 := if cached_entries (pools g pool) =? 0 then _ else g).
      set (p1 := set_counters _ _ _ (pools g pool)).
      assert (Hinv1 : active_tracks (set_pool pool p1 g1)).
      { destruct Hinv as [Hnd H]. destruct (H pool) as [Hr Hin].
        assert (Hce : cached_entries p1 = cached_entries (pools g pool) + 1).
        { unfold p1. simpl. apply wrap_int_id. lia. }
        assert (Hpools : pools g1 = pools g).
        { unfold g1. destruct (_ =? 0); reflexivity. }
        unfold active_tracks. simpl. rewrite Hpools.
        assert (Hl : forall q, In q (sgv_active_pools_list g1)
                               <-> q = pool \/ In q (sgv_active_pools_list g)).
        { intros q. unfold g1.
          destruct (Z.eqb_spec (cached_entries (pools g pool)) 0) as [Hz|Hz];
            simpl.
          - rewrite in_app_iff. simpl. intuition congruence.
          - split; [tauto|]. intros [->|Hq]; [|exact Hq]. apply Hin. lia. }
        split.
        - unfold g1.
          destruct (Z.eqb_spec (cached_entries (pools g pool)) 0) as [Hz|Hz];
            simpl; [|exact Hnd].
          apply NoDup_app. split; [exact Hnd|]. split; [|apply NoDup_singleton].
          intros x Hx Hx'. apply list_elem_of_singleton in Hx'. subst x.
          apply list_elem_of_In, Hin in Hx. lia.
        - intros q. rewrite Hl. destruct (Nat.eqb_spec q pool) as [->|Hne].
          + rewrite Hce. split; [lia|]. split; [lia|tauto].
          + destruct (H q) as [Hr' Hin']. split; [exact Hr'|].
            rewrite <- Hin'. tauto. }
      destruct new_obj as [a|]; simpl snd.
      * eapply active_tracks_ext; [| |exact Hinv1]; reflexivity.
      * eapply active_tracks_ext; [| |apply (dec_cached_tracks pool
            (wrap_int (Z.shiftl 1 order))
            (log (EvCachedInc pool (wrap_int (Z.shiftl 1 order)))
                 (set_pool pool p1 g1)))]; try reflexivity.
        -- eapply active_tracks_ext; [| |exact Hinv1]; reflexivity.
        -- simpl. rewrite Nat.eqb_refl. unfold p1. simpl.
           destruct Hinv as [_ H]. destruct (H pool) as [Hr _].
           rewrite wrap_int_id by lia. lia.
    + simpl snd. eapply active_tracks_ext; [| |exact Hinv]; [reflexivity|].
      intros q. simpl. destruct (Nat.eqb_spec q pool) as [->|]; reflexivity.
  - apply dec_cached_tracks. exact Hinv.
  - intros Hpos. unfold __sgv_purge_from_cache. cbv zeta.
    set (p1 := set_counters _ _ _ _).
    assert (Hinv1 : active_tracks (set_pool (owner_pool obj) p1 g)).
    { eapply active_tracks_ext; [| |exact Hinv]; [reflexivity|].
      intros q. simpl. destruct (Nat.eqb_spec q (owner_pool obj)) as [->|];
        reflexivity. }
    eapply active_tracks_ext;
      [| |apply (dec_cached_tracks (owner_pool obj) (obj_pages obj) _ Hinv1)];
      try reflexivity.
    simpl. rewrite Nat.eqb_refl. exact Hpos.
Qed.

(** ** What a successful call hands out *)

Lemma total_length_app (es1 es2 : list scatterlist) :
  total_length (es1 ++ es2) = total_length es1 + total_length es2.
Proof. induction es1 as [|e es IH]; simpl; [reflexivity|]. rewrite IH. lia. Qed.

Lemma set_sg_length_twice (sg : list scatterlist) (i a b : Z) :
  set_sg_length (set_sg_length sg i a) i b = set_sg_length sg i b.
Proof.
  unfold set_sg_length, sg_set.
  set (x := mk_sg (sg_page (sg_at sg i)) (sg_offset (sg_at sg i)) a).
  destruct (lt_dec (Z.to_nat i) (length sg)) as [Hlt|Hge].
  - assert (Hx : sg_at (<[Z.to_nat i:=x]> sg) i = x).
    { unfold sg_at. rewrite list_lookup_insert_eq by exact Hlt. reflexivity. }
    rewrite Hx. simpl. apply list_insert_insert_eq.
  - rewrite (list_insert_ge sg (Z.to_nat i) x) by lia. reflexivity.
Qed.

Lemma set_sg_length_same (sg : list scatterlist) (i : Z) :
  set_sg_length sg i (sg_length (sg_at sg i)) = sg.
Proof.
  unfold set_sg_length, sg_set, sg_at.
  destruct (sg !! Z.to_nat i) as [e|] eqn:He; simpl.
  - apply list_insert_id. rewrite He. destruct e; reflexivity.
  - apply list_insert_ge, lookup_ge_None. exact He.
Qed.

Lemma set_sg_length_length (sg : list scatterlist) (i len : Z) :
  length (set_sg_length sg i len) = length sg.
Proof. unfold set_sg_length, sg_set. apply length_insert. Qed.

Lemma total_length_set (sg : list scatterlist) (i : nat) (len : Z) :
  (i < length sg)%nat ->
  total_length (take (S i) (set_sg_length sg (Z.of_nat i) len))
  = total_length (take i sg) + len.
Proof.
  intros Hi. unfold set_sg_length, sg_set. rewrite Nat2Z.id.
  rewrite (take_S_r _ i (mk_sg (sg_page (sg_at sg (Z.of_nat i)))
                           (sg_offset (sg_at sg (Z.of_nat i))) len))
    by (apply list_lookup_insert_eq; exact Hi).
  rewrite take_insert_ge by lia. rewrite total_length_app. simpl. lia.
Qed.

(** The array, the count and the saved length that the label [success]
    leaves, for a count that lies in the array. *)
Lemma alloc_success_shape (cache clustered : bool) (size pages : Z)
    (obj : sgv_pool_obj) (mem_lim : scst_mem_lim) (g : sgv_state) :
  let tbl := default [] (trans_tbl obj) in
  let cnt :=
    if cache
    then if clustered then sg_num (tt_at tbl (pages - 1)) else pages
    else sg_count obj in
  let len := sg_length (sg_at (sg_entries obj) (cnt - 1)) in
  let len1 :=
    if cache && clustered
    then wrap_uint (Z.shiftl (pages - pg_count (tt_at tbl (cnt - 1))) PAGE_SHIFT)
    else len in
  let len2 :=
    if page_rest size =? 0 then len1
    else wrap_uint (len1 - (PAGE_SIZE - page_rest size)) in
  let r := alloc_success cache clustered size pages obj mem_lim g in
  (Z.to_nat (cnt - 1) < length (sg_entries obj))%nat ->
  exists o,
    res_sgv r = Some o /\ res_sg r = Some (sg_entries o) /\
    res_count r = cnt /\
    sg_entries o = set_sg_length (sg_entries obj) (cnt - 1) len2 /\
    (cache = true -> orig_sg o = cnt - 1 /\ orig_length o = len).
Proof.
  intros tbl cnt len len1 len2 r Hi.
  assert (Hat : forall a, sg_length (sg_at (set_sg_length (sg_entries obj)
                                              (cnt - 1) a) (cnt - 1)) = a).
  { intros a. apply set_sg_length_at. exact Hi. }
  unfold r, alloc_success. fold tbl.
  destruct cache, clustered; cbv zeta; cbn [andb] in len1;
    fold cnt; cbn [sg_entries with_orig with_arrays trans_tbl];
    fold len; destruct (page_rest size =? 0) eqn:Hrest;
    cbn [res_sgv res_sg res_count sg_entries with_orig with_arrays trans_tbl
         orig_sg orig_length];
    eexists; (split; [reflexivity|]); (split; [reflexivity|]);
    (split; [reflexivity|]); (split; [|intros; try discriminate; auto]);
    unfold len2; rewrite ?Hrest; unfold len1;
    rewrite ?Hat, ?set_sg_length_twice; fold len;
    rewrite ?set_sg_length_same; reflexivity.
Qed.

(** An object whose first [sg_count] entries hold [n] pages in all. *)
Definition filled_plain (n : Z) (obj : sgv_pool_obj) (es : list scatterlist)
  : Prop :=
  exists zs,
    sg_entries obj = es ++ zs /\ Z.of_nat (length es) = sg_count obj /\
    Forall good_entry es /\ sum_pages es = n.

(** A filled object of a bucket: in a clustered pool its translation table
    tells where each SG entry begins and which entry holds each page; in a
    pool without clustering it has one entry per page. *)
Definition filled (clustered : bool) (n : Z) (obj : sgv_pool_obj) : Prop :=
  exists es,
    filled_plain n obj es /\
    if clustered then
      exists t,
        trans_tbl obj = Some t /\
        (forall i, 0 <= i < sg_count obj ->
           pg_count (tt_at t i) = sum_pages (take (Z.to_nat i) es)) /\
        (forall j, 0 <= j < n ->
           1 <= sg_num (tt_at t j) <= sg_count obj /\
           sum_pages (take (Z.to_nat (sg_num (tt_at t j) - 1)) es) <= j
             < sum_pages (take (Z.to_nat (sg_num (tt_at t j))) es))
    else sg_count obj = n.

Lemma request_pages_size (size : Z) :
  0 < size -> size + PAGE_SIZE <= 2 ^ 31 ->
  let pages := wrap_int (Z.shiftr (wrap_ulong (size + PAGE_SIZE - 1)) PAGE_SHIFT) in
  1 <= pages /\
  size = pages * PAGE_SIZE
         - (if page_rest size =? 0 then 0 else PAGE_SIZE - page_rest size) /\
  0 <= page_rest size < PAGE_SIZE.
Proof.
  intros H1 H2 pages. pose proof PAGE_SIZE_bounds as HP. unfold pages.
  rewrite wrap_ulong_id by (change (2 ^ 64) with (2 ^ 31 * 2 ^ 33); lia).
  rewrite shiftr_page, page_rest_mod.
  pose proof (Z.mod_pos_bound size PAGE_SIZE ltac:(lia)) as Hm.
  pose proof (Z.div_mod size PAGE_SIZE ltac:(lia)) as Hdm.
  assert (Hq : 0 <= size / PAGE_SIZE) by (apply Z.div_pos; lia).
  assert (Hdiv : (size + PAGE_SIZE - 1) / PAGE_SIZE
                 = size / PAGE_SIZE + (if size mod PAGE_SIZE =? 0 then 0 else 1)).
  { destruct (Z.eqb_spec (size mod PAGE_SIZE) 0) as [Hz|Hz].
    - symmetry. apply (Z.div_unique _ _ _ (PAGE_SIZE - 1)); lia.
    - symmetry. apply (Z.div_unique _ _ _ (size mod PAGE_SIZE - 1)); lia. }
  rewrite Hdiv.
  assert (size / PAGE_SIZE < 2 ^ 31 - 1).
  { apply Z.div_lt_upper_bound; [lia|]. nia. }
  destruct (Z.eqb_spec (size mod PAGE_SIZE) 0) as [Hz|Hz];
    rewrite wrap_int_id by lia; splits; try lia; nia.
Qed.

Lemma sum_pages_take_good (es : list scatterlist) (k : nat) :
  Forall good_entry es ->
  total_length (take k es) = sum_pages (take k es) * PAGE_SIZE.
Proof. intros H. apply total_length_good, Forall_take, H. Qed.

Lemma sum_pages_last (es : list scatterlist) (e : nat) (x : scatterlist) :
  es !! e = Some x ->
  sum_pages (take (S e) es) = sum_pages (take e es) + entry_pages x.
Proof.
  intros H. rewrite (take_S_r _ _ _ H), sum_pages_app. simpl. lia.
Qed.

Lemma one_page_entries (es : list scatterlist) :
  Forall good_entry es -> sum_pages es = Z.of_nat (length es) ->
  Forall (fun e => entry_pages e = 1) es.
Proof.
  induction 1 as [|e es He Hes IH]; intros Hs; [constructor|].
  simpl in Hs. pose proof (good_entry_pages e He).
  pose proof (sum_pages_nonneg es Hes).
  constructor; [lia|]. apply IH. lia.
Qed.

Lemma sum_pages_ones (es : list scatterlist) :
  Forall (fun e => entry_pages e = 1) es -> sum_pages es = Z.of_nat (length es).
Proof.
  induction 1 as [|e es He _ IH]; [reflexivity|]. simpl length.
  simpl. rewrite He, IH. lia.
Qed.

Lemma handout_core (cache clustered : bool) (size n : Z)
    (obj : sgv_pool_obj) (mem_lim : scst_mem_lim) (g : sgv_state)
    (es : list scatterlist) :
  0 < size -> size + PAGE_SIZE <= 2 ^ 31 ->
  let pages := wrap_int (Z.shiftr (wrap_ulong (size + PAGE_SIZE - 1)) PAGE_SHIFT) in
  let tbl := default [] (trans_tbl obj) in
  let cnt :=
    if cache
    then if clustered then sg_num (tt_at tbl (pages - 1)) else pages
    else sg_count obj in
  let len1 :=
    if cache && clustered
    then wrap_uint (Z.shiftl (pages - pg_count (tt_at tbl (cnt - 1))) PAGE_SHIFT)
    else sg_length (sg_at (sg_entries obj) (cnt - 1)) in
  filled_plain n obj es ->
  1 <= cnt <= sg_count obj ->
  total_length (take (Z.to_nat (cnt - 1)) es) + len1 = pages * PAGE_SIZE ->
  PAGE_SIZE <= len1 ->
  let r := alloc_success cache clustered size pages obj mem_lim g in
  exists o,
    res_sgv r = Some o /\ res_sg r = Some (sg_entries o) /\
    res_count r = cnt /\
    total_length (take (Z.to_nat (res_count r)) (sg_entries o)) = size /\
    (cache = true ->
     set_sg_length (sg_entries o) (orig_sg o) (orig_length o) = sg_entries obj).
Proof.
  intros Hs Hs2 pages tbl cnt len1 (zs & Hsg & Hlen & Hg & Hsum) Hcnt Htot Hl1 r.
  pose proof PAGE_SIZE_bounds as HP.
  destruct (request_pages_size size Hs Hs2) as (Hp1 & Hsize & Hrest).
  fold pages in Hp1, Hsize.
  assert (Hi : (Z.to_nat (cnt - 1) < length (sg_entries obj))%nat).
  { rewrite Hsg, length_app. lia. }
  destruct (alloc_success_shape cache clustered size pages obj mem_lim g Hi)
    as (o & R1 & R2 & R3 & R4 & R5).
  fold r in R1, R2, R3. fold tbl cnt in R4, R5. fold tbl cnt len1 in R4.
  exists o. splits; auto.
  - change (res_count r = cnt) in R3. rewrite R3, R4.
    replace (Z.to_nat cnt) with (S (Z.to_nat (cnt - 1))) by lia.
    set (k := Z.to_nat (cnt - 1)) in *.
    replace (cnt - 1) with (Z.of_nat k) by lia.
    rewrite total_length_set by exact Hi.
    rewrite Hsg, take_app_le by lia.
    assert (H0 : 0 <= total_length (take k es)).
    { rewrite sum_pages_take_good by exact Hg.
      pose proof (sum_pages_nonneg (take k es) (Forall_take _ _ _ Hg)). nia. }
    destruct (page_rest size =? 0); [lia|].
    rewrite wrap_uint_id; [lia|].
    change (2 ^ 32) with (2 * 2 ^ 31). lia.
  - intros Hc. destruct (R5 Hc) as [-> ->].
    rewrite R4, set_sg_length_twice. apply set_sg_length_same.
Qed.

Lemma good_entry_length (e : scatterlist) :
  good_entry e -> sg_length e = entry_pages e * PAGE_SIZE /\ 1 <= entry_pages e.
Proof.
  intros (pfn & k & _ & Hl & _ & Hk & _). pose proof PAGE_SIZE_bounds.
  unfold entry_pages. rewrite Hl, Z.div_mul by lia. lia.
Qed.

Lemma sg_at_prefix (es zs : list scatterlist) (i : Z) (x : scatterlist) :
  es !! Z.to_nat i = Some x -> sg_at (es ++ zs) i = x.
Proof.
  intros H. unfold sg_at.
  rewrite lookup_app_l by (eapply lookup_lt_Some; exact H).
  rewrite H. reflexivity.
Qed.

Lemma handout_covers (cache clustered : bool) (size n : Z)
    (obj : sgv_pool_obj) (mem_lim : scst_mem_lim) (g : sgv_state) :
  0 < size -> size + PAGE_SIZE <= 2 ^ 31 -> n * PAGE_SIZE < 2 ^ 31 ->
  let pages := wrap_int (Z.shiftr (wrap_ulong (size + PAGE_SIZE - 1)) PAGE_SHIFT) in
  (if cache then pages <= n /\ filled clustered n obj
   else pages = n /\ exists es, filled_plain n obj es) ->
  let r := alloc_success cache clustered size pages obj mem_lim g in
  exists o,
    res_sgv r = Some o /\ res_sg r = Some (sg_entries o) /\
    1 <= res_count r <= sg_count obj /\
    total_length (take (Z.to_nat (res_count r)) (sg_entries o)) = size /\
    (cache = true ->
     set_sg_length (sg_entries o) (orig_sg o) (orig_length o) = sg_entries obj).
Proof.
  intros Hs Hs2 Hn pages Hobj r.
  pose proof PAGE_SIZE_bounds as HP.
  destruct (request_pages_size size Hs Hs2) as (Hp1 & _ & _). fold pages in Hp1.
  assert (Hcore : forall es cnt,
    filled_plain n obj es ->
    cnt = (if cache
           then if clustered
                then sg_num (tt_at (default [] (trans_tbl obj)) (pages - 1))
                else pages
           else sg_count obj) ->
    1 <= cnt <= sg_count obj ->
    total_length (take (Z.to_nat (cnt - 1)) es)
    + (if cache && clustered
       then wrap_uint (Z.shiftl (pages - pg_count (tt_at (default [] (trans_tbl obj))
                                                    (cnt - 1))) PAGE_SHIFT)
       else sg_length (sg_at (sg_entries obj) (cnt - 1)))
    = pages * PAGE_SIZE ->
    PAGE_SIZE <= (if cache && clustered
       then wrap_uint (Z.shiftl (pages - pg_count (tt_at (default [] (trans_tbl obj))
                                                    (cnt - 1))) PAGE_SHIFT)
       else sg_length (sg_at (sg_entries obj) (cnt - 1))) ->
    exists o,
      res_sgv r = Some o /\ res_sg r = Some (sg_entries o) /\
      1 <= res_count r <= sg_count obj /\
      total_length (take (Z.to_nat (res_count r)) (sg_entries o)) = size /\
      (cache = true ->
       set_sg_length (sg_entries o) (orig_sg o) (orig_length o) = sg_entries obj)).
  { intros es cnt Hpl -> Hc Ht Hl.
    destruct (handout_core cache clustered size n obj mem_lim g es Hs Hs2 Hpl
                Hc Ht Hl) as (o & R1 & R2 & R3 & R4 & R5).
    exists o. splits; auto; fold pages in R3; fold r in R3; rewrite R3; lia. }
  destruct cache.
  - destruct Hobj as [Hle (es & Hpl & Htab)].
    pose proof Hpl as (zs & Hsg & Hlen & Hg & Hsum).
    destruct clustered.
    + destruct Htab as (t & Ht & T1 & T2).
      destruct (T2 (pages - 1) ltac:(lia)) as (Hs1 & Hlo & Hhi).
      set (cnt := sg_num (tt_at t (pages - 1))) in *.
      assert (Hpg : pg_count (tt_at t (cnt - 1))
                    = sum_pages (take (Z.to_nat (cnt - 1)) es))
        by (apply T1; lia).
      assert (Hw : wrap_uint (Z.shiftl (pages - pg_count (tt_at t (cnt - 1)))
                                PAGE_SHIFT)
                   = (pages - pg_count (tt_at t (cnt - 1))) * PAGE_SIZE).
      { rewrite shiftl_page. apply wrap_uint_id.
        pose proof (sum_pages_nonneg (take (Z.to_nat (cnt - 1)) es)
                      (Forall_take _ _ _ Hg)).
        change (2 ^ 32) with (2 * 2 ^ 31). nia. }
      apply (Hcore es cnt Hpl); rewrite ?Ht; cbn [andb default]; unfold id;
        auto; rewrite Hw, Hpg.
      * rewrite sum_pages_take_good by exact Hg. lia.
      * nia.
    + assert (Hone : Forall (fun e => entry_pages e = 1) es).
      { apply one_page_entries; [exact Hg|]. lia. }
      assert (Hx : exists x, es !! Z.to_nat (pages - 1) = Some x).
      { apply lookup_lt_is_Some_2. lia. }
      destruct Hx as [x Hx].
      assert (Hxl : sg_length x = PAGE_SIZE).
      { pose proof (proj1 (Forall_lookup _ es) Hg _ _ Hx) as Hgx.
        pose proof (proj1 (Forall_lookup _ es) Hone _ _ Hx) as H1.
        simpl in H1. destruct (good_entry_length x Hgx) as [Hl _]. lia. }
      apply (Hcore es pages Hpl); cbn [andb]; auto; try lia;
        rewrite Hsg, (sg_at_prefix es zs _ x Hx), Hxl; [|lia].
      rewrite sum_pages_take_good by exact Hg.
      rewrite (sum_pages_ones (take (Z.to_nat (pages - 1)) es))
        by (apply Forall_take; exact Hone).
      replace (length (take (Z.to_nat (pages - 1)) es))
        with (Z.to_nat (pages - 1)) by (rewrite length_take; lia).
      rewrite Z2Nat.id by lia. lia.
  - destruct Hobj as [Hpn (es & Hpl)].
    pose proof Hpl as (zs & Hsg & Hlen & Hg & Hsum).
    assert (Hne : 1 <= sg_count obj).
    { destruct es; simpl in *; lia. }
    assert (Hx : exists x, es !! Z.to_nat (sg_count obj - 1) = Some x).
    { apply lookup_lt_is_Some_2. lia. }
    destruct Hx as [x Hx].
    pose proof (proj1 (Forall_lookup _ es) Hg _ _ Hx) as Hgx.
    destruct (good_entry_length x Hgx) as [Hxl Hx1].
    apply (Hcore es (sg_count obj) Hpl); cbn [andb]; auto; try lia;
      rewrite Hsg, (sg_at_prefix es zs _ x Hx), Hxl; [|nia].
    rewrite sum_pages_take_good by exact Hg.
    pose proof (sum_pages_last es _ x Hx) as Hlast.
    rewrite take_ge in Hlast by lia. lia.
Qed.

Lemma fill_success_valid (n : Z) (ct : sgv_clustering_types)
    (sg0 : list scatterlist)
    (tbl tbl' : option (list trans_tbl_ent)) (page_src : nat -> option Z)
    (cnt : Z) (sg : list scatterlist) (evs : list event) :
  (forall k, page_ok (page_src k) = true) ->
  sgv_alloc_sg_entries sg0 n ct tbl page_src = Some (cnt, sg, tbl', evs) ->
  0 < cnt ->
  forallb (fun k => page_valid (page_src k)) (seq 0 (Z.to_nat n)) = true.
Proof.
  intros Hok E Hc.
  pose proof (fill_pages_trace page_src ct (Z.to_nat n) 0 sg0 0 (-1) []) as Htr.
  cbv zeta in Htr.
  destruct (fill_pages (Z.to_nat n) 0 page_src ct sg0 0 (-1) [])
    as [[[b sgx] c] trx] eqn:Ef.
  destruct b.
  2:{ rewrite (alloc_sg_entries_failed _ _ _ _ _ _ _ _ Ef) in E.
      injection E as <- _ _ _. lia. }
  simpl in Htr. destruct Htr as [(_ & Hall & _)|(Hf & _)]; [|discriminate].
  apply forallb_forall. intros k Hk. apply in_seq in Hk.
  specialize (Hall k ltac:(lia)). specialize (Hok k).
  destruct (page_src k); [exact Hok|contradiction].
Qed.

(** A fill that reports entries leaves a filled object: without clustering
    whatever the SG array held, with clustering when it was cleared. *)
Lemma fill_gives_filled (n : Z) (p : sgv_pool) (page_src : nat -> option Z)
    (obj : sgv_pool_obj) (sg0 : list scatterlist) (cnt : Z)
    (sg : list scatterlist)
    (tbl : option (list trans_tbl_ent)) (evs : list event) :
  1 <= n -> n * PAGE_SIZE < 2 ^ 31 ->
  (forall k, page_ok (page_src k) = true) ->
  Z.of_nat (length sg0) = n ->
  (sgv_pool_clustered p = true -> sg0 = sg_init_table n) ->
  sgv_alloc_sg_entries sg0 n (clustering_type p)
    (trans_tbl obj) page_src = Some (cnt, sg, tbl, evs) ->
  0 < cnt ->
  let obj1 := with_sg_count cnt (with_arrays sg tbl obj) in
  (exists es, filled_plain n obj1 es) /\
  ((sgv_pool_clustered p = true ->
    exists t0, trans_tbl obj = Some t0 /\ Z.of_nat (length t0) = n) ->
   filled (sgv_pool_clustered p) n obj1).
Proof.
  intros Hn Hb Hok Hlen0 Hclr E Hc obj1.
  pose proof (fill_success_valid _ _ _ _ _ _ _ _ _ Hok E Hc) as Hv.
  assert (Hinit : fill_state_on (fun _ => True) n [] sg0 0 (-1)).
  { exists [], sg0. simpl. splits; auto. lia. }
  destruct (fill_pages_spec_on _ n page_src (clustering_type p) rest_closed_any
              Hb (Z.to_nat n) 0 sg0 0 (-1) [] [] Hinit
              eq_refl ltac:(lia) ltac:(intros; apply Hok))
    as (alloc & sg' & cnt' & merged & Hst & Hres).
  simpl in Hst. rewrite app_nil_r in Hres.
  destruct Hres as [[E' Hl]|(E' & Hl & Hnone)].
  2:{ exfalso. destruct (page_valid_ok page_src _ Hv (length alloc) Hl) as [_ Hne].
      apply Hne. exact Hnone. }
  destruct (alloc_sg_entries_filled _ _ _ _ _ _ _ _ _ E' E)
    as (tbl2 & Heq & _). injection Heq as -> -> -> ->.
  pose proof Hst as (es & zs & Hsg & _ & Hces & Hlen & Hg & Hes & _).
  assert (Hpl : filled_plain n obj1 es).
  { exists zs. unfold obj1. simpl. splits; auto. lia. }
  split; [exists es; exact Hpl|]. intros Htab.
  exists es. split; [exact Hpl|].
  destruct (sgv_pool_clustered p) eqn:Hcl.
  - destruct (Htab eq_refl) as (t0 & Ht0 & Hl0).
    rewrite (Hclr eq_refl) in E.
    assert (Hct : clustering_type p <> sgv_no_clustering).
    { intros Hx. apply clustered_type in Hx. congruence. }
    destruct (trans_tbl_filled n (clustering_type p) t0 page_src Hct Hn Hb Hl0 Hv)
      as (c2 & s2 & t & e2 & E2 & _ & _ & T1 & T2).
    rewrite Ht0 in E. rewrite E2 in E. injection E as -> -> <- _.
    exists t. unfold obj1. simpl. splits; auto.
    + intros i Hi. rewrite (T1 i Hi). rewrite Hsg, take_app_le by lia.
      reflexivity.
    + intros j Hj. destruct (T2 j Hj) as (Hs & Hlo & Hhi).
      rewrite Hsg in Hlo, Hhi. rewrite !take_app_le in Hlo, Hhi by lia.
      auto.
  - unfold obj1. simpl. apply clustered_type in Hcl.
    pose proof (fill_pages_no_clustering page_src (Z.to_nat n) 0
                  sg0 0 (-1) []) as Hnc.
    cbv zeta in Hnc. rewrite Hcl in E'. rewrite E' in Hnc. simpl in Hnc.
    specialize (Hnc eq_refl). lia.
Qed.

(** What a call that returns an SG vector has handed out: [size] bytes in
    the first [*count] entries of an object that, for a bucketed object, is
    the filled object [obj1] but for the length of one entry, which
    [orig_sg] and [orig_length] remember. *)
Definition handout_ok (cache clustered : bool) (n size : Z)
    (ml : scst_mem_lim) (ord : Z) (r : alloc_result) : Prop :=
  exists o obj1,
    res_sgv r = Some o /\ res_sg r = Some (sg_entries o) /\
    1 <= res_count r <= sg_count o /\
    total_length (take (Z.to_nat (res_count r)) (sg_entries o)) = size /\
    res_mem_lim r = ml /\ order_or_pages o = ord /\
    sg_count o = sg_count obj1 /\ trans_tbl o = trans_tbl obj1 /\
    (cache = true ->
     filled clustered n obj1 /\
     set_sg_length (sg_entries o) (orig_sg o) (orig_length o) = sg_entries obj1).

Lemma handout_ok_intro (cache clustered : bool) (size n : Z)
    (obj : sgv_pool_obj) (mem_lim : scst_mem_lim) (g : sgv_state) :
  0 < size -> size + PAGE_SIZE <= 2 ^ 31 -> n * PAGE_SIZE < 2 ^ 31 ->
  let pages := wrap_int (Z.shiftr (wrap_ulong (size + PAGE_SIZE - 1)) PAGE_SHIFT) in
  (if cache then pages <= n /\ filled clustered n obj
   else pages = n /\ exists es, filled_plain n obj es) ->
  handout_ok cache clustered n size mem_lim (order_or_pages obj)
    (alloc_success cache clustered size pages obj mem_lim g).
Proof.
  intros Hs Hs2 Hn pages Hobj.
  destruct (handout_covers cache clustered size n obj mem_lim g Hs Hs2 Hn Hobj)
    as (o & R1 & R2 & R3 & R4 & R5).
  destruct (alloc_success_obj cache clustered size pages obj mem_lim g)
    as (o' & S1 & _ & S3 & _ & _ & S6 & _ & _ & S9 & S10 & _).
  cbv zeta in *. fold pages in R1, R2, R3, R4.
  rewrite R1 in S1. injection S1 as <-.
  exists o, obj. splits; auto; try lia.
  intros Hc. subst cache. split; [apply Hobj|auto].
Qed.

Lemma out_uncheck_null (h a : bool) (n c : Z) (sgv : option sgv_pool_obj)
    (ml : scst_mem_lim) (g : sgv_state) :
  res_sg (out_uncheck h a n c sgv ml g) = None.
Proof. unfold out_uncheck. destruct a; reflexivity. Qed.

Lemma out_fail_free_null (cache : bool) (pool : nat) (obj : sgv_pool_obj)
    (h a : bool) (n : Z) (ml : scst_mem_lim) (g : sgv_state) :
  res_sg (out_fail_free cache pool obj h a n ml g) = None.
Proof. unfold out_fail_free, out_fail. apply out_uncheck_null. Qed.

Lemma bucket_holds_request (size : Z) :
  0 < size -> size + PAGE_SIZE <= 2 ^ 31 ->
  Z.shiftl 1 (get_order size) * PAGE_SIZE < 2 ^ 31 ->
  wrap_int (Z.shiftr (wrap_ulong (size + PAGE_SIZE - 1)) PAGE_SHIFT)
  <= wrap_int (Z.shiftl 1 (get_order size)).
Proof.
  intros Hs Hs2 Hb. pose proof PAGE_SIZE_bounds as HP.
  destruct (request_pages_bounds size Hs Hs2) as [Hp0 Hp1]. cbv zeta in *.
  destruct (request_pages_size size Hs Hs2) as (Hp & _). cbv zeta in Hp.
  assert (Ho : 0 <= get_order size) by apply Z.log2_up_nonneg.
  revert Hp0 Hp1 Hp.
  rewrite wrap_ulong_id by (change (2 ^ 64) with (2 ^ 31 * 2 ^ 33); lia).
  intros Hp0 Hp1 Hp.
  rewrite Z.shiftl_1_l in *.
  assert (0 < 2 ^ get_order size) by (apply Z.pow_pos_nonneg; lia).
  rewrite (wrap_int_id (2 ^ get_order size)) by nia.
  set (q := Z.shiftr (size + PAGE_SIZE - 1) PAGE_SHIFT) in *.
  assert (Hq : wrap_int q = q).
  { apply wrap_int_id. unfold q. rewrite shiftr_page.
    assert (0 <= (size + PAGE_SIZE - 1) / PAGE_SIZE) by (apply Z.div_pos; lia).
    assert ((size + PAGE_SIZE - 1) / PAGE_SIZE < 2 ^ 31).
    { apply Z.div_lt_upper_bound; nia. }
    lia. }
  rewrite Hq in *. unfold get_order. fold q.
  clearbody q.
  destruct (Z.eq_dec q 1) as [->|Hne]; [vm_compute; discriminate|].
  apply Z.log2_up_spec. lia.
Qed.

Lemma alloc_fill_handout (cache : bool) (pool : nat) (size n : Z)
    (flags : alloc_flags) (env : alloc_env) (obj : sgv_pool_obj)
    (ml : scst_mem_lim) (g : sgv_state) :
  0 < size -> size + PAGE_SIZE <= 2 ^ 31 ->
  1 <= n -> n * PAGE_SIZE < 2 ^ 31 ->
  (forall k, page_ok (env_page_src env k) = true) ->
  Z.of_nat (length (sg_entries obj)) = n ->
  (sgv_pool_clustered (pools g pool) = true ->
   sg_entries obj = sg_init_table n) ->
  let pages := wrap_int (Z.shiftr (wrap_ulong (size + PAGE_SIZE - 1)) PAGE_SHIFT) in
  (if cache then pages <= n else pages = n) ->
  (cache = true -> sgv_pool_clustered (pools g pool) = true ->
   exists t0, trans_tbl obj = Some t0 /\ Z.of_nat (length t0) = n) ->
  forall r,
  alloc_fill cache pool size pages n flags env obj ml g = Some r ->
  res_sg r <> None ->
  handout_ok cache (sgv_pool_clustered (pools g pool)) n size ml
    (order_or_pages obj) r.
Proof.
  intros Hs Hs2 Hn Hb Hok Hlen Hclr pages Hpg Htab r Hr Hres.
  unfold alloc_fill in Hr.
  destruct (sgv_alloc_sg_entries (sg_entries obj) n
              (clustering_type (pools g pool)) (trans_tbl obj)
              (env_page_src env)) as [[[[cnt sg] tbl] evs]|] eqn:E;
    [|discriminate].
  apply (inj Some) in Hr. subst r.
  destruct (Z.leb_spec cnt 0) as [Hc|Hc].
  - exfalso. apply Hres.
    destruct (SCST_POOL_RETURN_OBJ_ON_ALLOC_FAIL flags && cache).
    + unfold out_return1, out_return2. apply out_uncheck_null.
    + apply out_fail_free_null.
  - destruct (log_all_fields (rev evs) g) as (_ & _ & _ & Hp & _).
    rewrite Hp.
    destruct (fill_gives_filled n (pools g pool) (env_page_src env) obj
                (sg_entries obj) cnt sg tbl evs Hn Hb Hok Hlen Hclr E Hc)
      as [Hplain Hfilled].
    cbv zeta in Hplain, Hfilled.
    apply (handout_ok_intro cache (sgv_pool_clustered (pools g pool)) size n
             (with_sg_count cnt (with_arrays sg tbl obj))); auto.
    destruct cache; [|auto].
    split; [exact Hpg|]. apply Hfilled. intros Hcl. apply Htab; auto.
Qed.

Lemma gate_fill_handout (cache : bool) (pool : nat) (size n : Z)
    (flags : alloc_flags) (env : alloc_env) (obj : sgv_pool_obj)
    (ml : scst_mem_lim) (g0 g : sgv_state) :
  0 < size -> size + PAGE_SIZE <= 2 ^ 31 ->
  1 <= n -> n * PAGE_SIZE < 2 ^ 31 ->
  (forall k, page_ok (env_page_src env k) = true) ->
  Z.of_nat (length (sg_entries obj)) = n ->
  (sgv_pool_clustered (pools g0 pool) = true ->
   sg_entries obj = sg_init_table n) ->
  let pages := wrap_int (Z.shiftr (wrap_ulong (size + PAGE_SIZE - 1)) PAGE_SHIFT) in
  (if cache then pages <= n else pages = n) ->
  clustering_type (pools g pool) = clustering_type (pools g0 pool) ->
  (cache = true -> sgv_pool_clustered (pools g0 pool) = true ->
   exists t0, trans_tbl obj = Some t0 /\ Z.of_nat (length t0) = n) ->
  forall r,
  (let '(rc, g') := sgv_hiwmk_check n (env_jiffies env) g in
   if negb (rc =? 0)
   then Some (out_fail_free cache pool obj false true n ml g')
   else alloc_fill cache pool size pages n flags env obj ml g') = Some r ->
  res_sg r <> None ->
  handout_ok cache (sgv_pool_clustered (pools g0 pool)) n size ml
    (order_or_pages obj) r.
Proof.
  intros Hs Hs2 Hn Hb Hok Hlen Hclr pages Hpg Hct Htab r.
  destruct (steps_gate n (env_jiffies env) g) as (E & _ & Hst).
  cbv zeta in Hst.
  destruct (sgv_hiwmk_check n (env_jiffies env) g) as [rc g'].
  simpl in Hst.
  assert (Hct' : clustering_type (pools g' pool) = clustering_type (pools g0 pool)).
  { rewrite <- Hct. destruct (rc =? 0); destruct Hst as [_ (_ & _ & H3)];
      apply H3. }
  assert (Hcl : sgv_pool_clustered (pools g' pool)
                = sgv_pool_clustered (pools g0 pool)).
  { unfold sgv_pool_clustered. rewrite Hct'. reflexivity. }
  destruct (rc =? 0); simpl negb; cbv iota; intros Hr Hres.
  - rewrite <- Hcl.
    eapply alloc_fill_handout; eauto; rewrite Hcl; assumption.
  - exfalso. apply (inj Some) in Hr. subst r. apply Hres, out_fail_free_null.
Qed.

Ltac no_vector :=
  let Hr := fresh in
  let H := fresh in
  intros Hr; apply (inj Some) in Hr;
  match type of Hr with _ = ?r => subst r end;
  intros H; exfalso; apply H;
  first [ reflexivity
        | apply out_fail_free_null
        | apply out_uncheck_null
        | unfold out_return, out_return1, out_return2, out_fail;
          apply out_uncheck_null ].

Lemma handout_ok_ord (cache clustered : bool) (n size : Z)
    (ml : scst_mem_lim) (ord ord' : Z) (r : alloc_result) :
  ord = ord' -> handout_ok cache clustered n size ml ord r ->
  handout_ok cache clustered n size ml ord' r.
Proof. intros ->. auto. Qed.

Lemma get_obj_order (pool : nat) (order : Z) (new_obj : option nat)
    (g : sgv_state) (obj : sgv_pool_obj) :
  fst (sgv_get_obj pool order new_obj g) = Some obj ->
  hd_error (recycling_lists (pools g pool) order) = Some obj \/
  order_or_pages obj = order.
Proof.
  unfold sgv_get_obj. cbv zeta.
  destruct (recycling_lists (pools g pool) order) as [|o l].
  - destruct new_obj; simpl; intros H; [|discriminate].
    injection H as <-. right. reflexivity.
  - simpl. intros H. left. exact H.
Qed.

(** Every way through [sgv_pool_alloc] that ends with an SG vector. *)
Lemma alloc_handout (pool : nat) (size : Z) (flags : alloc_flags)
    (count : Z) (sgv : option sgv_pool_obj) (mem_lim : scst_mem_lim)
    (priv : Z) (env : alloc_env) (g : sgv_state) :
  0 < size -> size + PAGE_SIZE <= 2 ^ 31 ->
  Z.shiftl 1 (get_order size) * PAGE_SIZE < 2 ^ 31 ->
  (forall k, page_ok (env_page_src env k) = true) ->
  let pages := wrap_int (Z.shiftr (wrap_ulong (size + PAGE_SIZE - 1)) PAGE_SHIFT) in
  let nb := wrap_int (Z.shiftl 1 (get_order size)) in
  let clustered := sgv_pool_clustered (pools g pool) in
  let bucketed := bucketed_request size flags sgv in
  (forall o, sgv = Some o ->
     order_or_pages o = get_order size /\
     Z.of_nat (length (sg_entries o)) = nb /\
     (clustered = true ->
      sg_entries o = sg_init_table nb /\
      exists t0, trans_tbl o = Some t0 /\ Z.of_nat (length t0) = nb)) ->
  (forall o, hd_error (recycling_lists (pools g pool) (get_order size)) = Some o ->
     order_or_pages o = get_order size /\
     (sg_count o <> 0 -> filled clustered nb o)) ->
  forall r,
  sgv_pool_alloc pool size false flags count sgv mem_lim priv env g = Some r ->
  res_sg r <> None ->
  handout_ok bucketed clustered (if bucketed then nb else pages) size
    (snd (sgv_check_allowed_mem mem_lim (if bucketed then nb else pages)))
    (if bucketed then get_order size else wrap_int (- pages)) r.
Proof.
  intros Hs Hs2 Hb Hok pages nb clustered bucketed Hsgv Hhit r.
  destruct (bucket_pages_bounds size Hb) as [_ Hnb2]. fold nb in Hnb2.
  destruct (request_pages_bounds size Hs Hs2) as [_ Hng2]. fold pages in Hng2.
  destruct (request_pages_size size Hs Hs2) as (Hp1 & _). fold pages in Hp1.
  pose proof (bucket_holds_request size Hs Hs2 Hb) as Hle. fold pages nb in Hle.
  assert (Hnb1 : 1 <= nb) by lia.
  unfold sgv_pool_alloc, bucketed, bucketed_request.
  destruct (Z.eqb_spec size 0) as [?|_]; [lia|].
  cbv beta zeta. fold pages nb.
  destruct sgv as [obj|].
  - destruct (Hsgv obj eq_refl) as (Hord & Hsg & Htab).
    destruct (sgv_check_allowed_mem mem_lim nb) as [ok ml']. cbn [snd].
    destruct ok; cbn [negb]; cbv iota; [|no_vector].
    intros Hr Hres. apply (handout_ok_ord _ _ _ _ _ _ _ _ Hord).
    apply (gate_fill_handout true pool size nb flags env obj ml' g
             (log (EvQuotaAdd nb) g) Hs Hs2 Hnb1 Hnb2 Hok Hsg) with (r := r);
      auto.
    + intros Hc. apply Htab, Hc.
    + intros _ Hc. apply Htab, Hc.
  - destruct ((get_order size <? SGV_POOL_ELEMENTS)
              && negb (SCST_POOL_ALLOC_NO_CACHED flags)).
    + destruct (sgv_check_allowed_mem mem_lim nb) as [ok ml']. cbn [snd].
      destruct ok; cbn [negb]; cbv iota; [|no_vector].
      pose proof (steps_get_obj pool (get_order size) (env_new_obj env)
                    (log (EvQuotaAdd nb) g)) as Hget.
      pose proof (get_obj_order pool (get_order size) (env_new_obj env)
                    (log (EvQuotaAdd nb) g)) as Hgo.
      cbv zeta in Hget. fold nb in Hget.
      destruct (sgv_get_obj pool (get_order size) (env_new_obj env)
                  (log (EvQuotaAdd nb) g)) as [[obj|] g1];
        simpl fst in Hget, Hgo; simpl snd in Hget; [|no_vector].
      assert (Hord : order_or_pages obj = get_order size).
      { destruct (Hgo obj eq_refl) as [Hhd|Ho]; [|exact Ho].
        apply (Hhit obj Hhd). }
      assert (Hct : clustering_type (pools g1 pool)
                    = clustering_type (pools g pool)).
      { destruct Hget as [[_ [_ (_ & _ & H3)]]|(_ & _ & _ & [_ (_ & _ & H3)])];
          apply H3. }
      destruct (Z.eqb_spec (sg_count obj) 0) as [Hz|Hz]; cbn [negb]; cbv iota.
      2:{ intros Hr _. apply (inj Some) in Hr. subst r.
          apply (handout_ok_ord _ _ _ _ _ _ _ _ Hord).
          apply handout_ok_intro; auto. split; [exact Hle|].
          destruct Hget as [[Hhd _]|(_ & Hz' & _)]; [|contradiction].
          apply (Hhit obj Hhd). exact Hz. }
      destruct (SCST_POOL_NO_ALLOC_ON_CACHE_MISS flags
                && negb (SCST_POOL_RETURN_OBJ_ON_ALLOC_FAIL flags));
        [no_vector|].
      set (arrays := if get_order size <=? sgv_max_local_order then _ else _).
      assert (Harr : arrays = None \/
                exists t, arrays = Some (with_arrays (sg_init_table nb) t obj) /\
                  (clustered = true ->
                   exists t0, t = Some t0 /\ Z.of_nat (length t0) = nb)).
      { assert (Hu : Z.of_nat (length (uninit_tbl env nb)) = nb).
        { unfold uninit_tbl. rewrite length_map, length_seq. lia. }
        assert (Hr : Z.of_nat (length (replicate (Z.to_nat nb) tt_zero)) = nb).
        { rewrite length_replicate. lia. }
        unfold arrays. fold clustered.
        destruct (get_order size <=? sgv_max_local_order),
                 (env_sg_entries_ok env), clustered,
                 (get_order size <=? sgv_max_trans_order),
                 (env_trans_tbl_ok env); simpl; auto;
          right; eexists; (split; [reflexivity|]); intros Hc;
          try discriminate; eauto. }
      clearbody arrays.
      destruct Harr as [->|(t & -> & Ht)]; [no_vector|].
      destruct (SCST_POOL_NO_ALLOC_ON_CACHE_MISS flags
                && SCST_POOL_RETURN_OBJ_ON_ALLOC_FAIL flags).
      { no_vector. }
      intros Hr Hres. apply (handout_ok_ord _ _ _ _ _ _ _ _ Hord).
      match type of Hr with
      | context [out_fail_free true pool ?o false true nb ml' _] =>
          apply (gate_fill_handout true pool size nb flags env o ml' g g1
                   Hs Hs2 Hnb1 Hnb2 Hok) with (r := r)
      end; auto.
      simpl. unfold sg_init_table. rewrite length_replicate. lia.
    + destruct (sgv_check_allowed_mem mem_lim pages) as [ok ml']. cbn [snd].
      destruct ok; cbn [negb]; cbv iota; [|no_vector].
      destruct (SCST_POOL_NO_ALLOC_ON_CACHE_MISS flags); [no_vector|].
      destruct (env_new_obj env) as [a|]; [|no_vector].
      intros Hr Hres.
      match type of Hr with
      | context [out_fail_free false pool ?o false true pages ml' _] =>
          apply (gate_fill_handout false pool size pages flags env o ml' g
                   (log (EvQuotaAdd pages) g) Hs Hs2 Hp1 Hng2 Hok) with (r := r)
      end; auto; try discriminate.
      simpl. unfold sg_init_table. rewrite length_replicate. lia.
Qed.

Lemma alloc_handout_charged (pool : nat) (size : Z) (flags : alloc_flags)
    (count : Z) (sgv : option sgv_pool_obj) (mem_lim : scst_mem_lim)
    (priv : Z) (env : alloc_env) (g : sgv_state) :
  let pages := wrap_int (Z.shiftr (wrap_ulong (size + PAGE_SIZE - 1)) PAGE_SHIFT) in
  let nb := wrap_int (Z.shiftl 1 (get_order size)) in
  let bucketed := bucketed_request size flags sgv in
  forall r,
  sgv_pool_alloc pool size false flags count sgv mem_lim priv env g = Some r ->
  res_sg r <> None ->
  fst (sgv_check_allowed_mem mem_lim (if bucketed then nb else pages)) = true.
Proof.
  intros pages nb bucketed r. unfold sgv_pool_alloc.
  destruct (size =? 0); [no_vector|].
  cbv beta zeta. fold pages nb. unfold bucketed, bucketed_request.
  destruct sgv as [obj|];
    [|destruct ((get_order size <? SGV_POOL_ELEMENTS)
                && negb (SCST_POOL_ALLOC_NO_CACHED flags))];
    match goal with
    | |- context [sgv_check_allowed_mem mem_lim ?n] =>
        destruct (sgv_check_allowed_mem mem_lim n) as [ok ml']
    end; destruct ok; cbn [negb fst]; cbv iota; auto; no_vector.
Qed.

(** What is asked of a request and of the kernel's answers: a size within
    the range of [int], a bucket that fits, and page frames in range. *)
Definition request_ok (size : Z) (env : alloc_env) : Prop :=
  0 < size /\ size + PAGE_SIZE <= 2 ^ 31 /\
  Z.shiftl 1 (get_order size) * PAGE_SIZE < 2 ^ 31 /\
  forall k, page_ok (env_page_src env k) = true.

(** The objects of a bucket are of its order, and filled unless empty. *)
Definition bucket_ok (clustered : bool) (order : Z) (l : list sgv_pool_obj)
  : Prop :=
  forall o, In o l ->
    order_or_pages o = order /\
    (sg_count o <> 0 -> filled clustered (wrap_int (Z.shiftl 1 order)) o).

(** What is asked of the cache and of an empty object the caller brings:
    an SG array of the size of its bucket and, in a pool with clustering,
    one that is cleared, with a translation table of as many entries; such
    is the object that [sgv_pool_alloc] hands back unfilled. *)
Definition cache_ok (pool : nat) (size : Z) (sgv : option sgv_pool_obj)
    (g : sgv_state) : Prop :=
  let nb := wrap_int (Z.shiftl 1 (get_order size)) in
  let clustered := sgv_pool_clustered (pools g pool) in
  (forall o, sgv = Some o ->
     order_or_pages o = get_order size /\
     Z.of_nat (length (sg_entries o)) = nb /\
     (clustered = true ->
      sg_entries o = sg_init_table nb /\
      exists t0, trans_tbl o = Some t0 /\ Z.of_nat (length t0) = nb)) /\
  bucket_ok clustered (get_order size)
    (recycling_lists (pools g pool) (get_order size)).

Lemma alloc_handout_of (pool : nat) (size : Z) (flags : alloc_flags)
    (count : Z) (sgv : option sgv_pool_obj) (mem_lim : scst_mem_lim)
    (priv : Z) (env : alloc_env) (g : sgv_state) (r : alloc_result) :
  request_ok size env -> cache_ok pool size sgv g ->
  sgv_pool_alloc pool size false flags count sgv mem_lim priv env g = Some r ->
  res_sg r <> None ->
  let pages := wrap_int (Z.shiftr (wrap_ulong (size + PAGE_SIZE - 1)) PAGE_SHIFT) in
  let nb := wrap_int (Z.shiftl 1 (get_order size)) in
  let bucketed := bucketed_request size flags sgv in
  let n := if bucketed then nb else pages in
  fst (sgv_check_allowed_mem mem_lim n) = true /\
  handout_ok bucketed (sgv_pool_clustered (pools g pool)) n size
    (snd (sgv_check_allowed_mem mem_lim n))
    (if bucketed then get_order size else wrap_int (- pages)) r.
Proof.
  intros (Hs & Hs2 & Hb & Hok) [Hsgv Hbucket] Hcall Hres.
  pose proof (alloc_handout pool size flags count sgv mem_lim priv env g
                Hs Hs2 Hb Hok Hsgv) as H1.
  pose proof (alloc_handout_charged pool size flags count sgv mem_lim priv env g)
    as H2.
  cbv zeta in H1, H2. cbv zeta.
  split; [apply (H2 r Hcall Hres)|].
  apply H1; [|exact Hcall|exact Hres].
  intros o Hhd. apply Hbucket.
  destruct (recycling_lists (pools g pool) (get_order size)); simpl in *;
    [discriminate|]. injection Hhd as ->. left. reflexivity.
Qed.

Lemma cache_ok_fits (pool : nat) (size : Z) (sgv : option sgv_pool_obj)
    (g : sgv_state) :
  cache_ok pool size sgv g ->
  forall o, sgv = Some o ->
    tbl_fits (wrap_int (Z.shiftl 1 (get_order size)))
      (clustering_type (pools g pool)) (sg_entries o) (trans_tbl o).
Proof.
  intros [Hsgv _] o Ho. destruct (Hsgv o Ho) as (_ & _ & Htab).
  destruct (sgv_pool_clustered (pools g pool)) eqn:Hcl.
  - destruct (Htab eq_refl) as (Hsg & t0 & Ht & Hl).
    right. right. split; [exact Hsg|]. exists t0. split; [exact Ht|lia].
  - left. apply clustered_type. exact Hcl.
Qed.

(** ** The length of the translation table *)

Lemma tbl_fill_length (sg : list scatterlist) (n : nat) :
  forall (i : Z) (tbl tbl' : list trans_tbl_ent) (pg : Z),
  tbl_fill n i sg tbl pg = Some tbl' -> length tbl' = length tbl.
Proof.
  induction n as [|n IH]; intros i tbl tbl' pg H; simpl in H.
  - injection H as <-. reflexivity.
  - unfold tt_set_pg_count in H.
    destruct (tt_in_bounds tbl i); [|discriminate].
    destruct (tbl_mark _ _ _ _) as [[tbl2 pg2]|] eqn:Hm; [|discriminate].
    apply tbl_mark_bounds in Hm as (_ & M2 & _). rewrite length_insert in M2.
    apply IH in H. congruence.
Qed.

Lemma alloc_sg_entries_tbl_length (sg : list scatterlist) (pages : Z)
    (ct : sgv_clustering_types) (t0 : list trans_tbl_ent)
    (page_src : nat -> option Z) (cnt : Z) (sg' : list scatterlist)
    (tbl : option (list trans_tbl_ent)) (evs : list event) :
  sgv_alloc_sg_entries sg pages ct (Some t0) page_src = Some (cnt, sg', tbl, evs) ->
  exists t, tbl = Some t /\ length t = length t0.
Proof.
  unfold sgv_alloc_sg_entries.
  destruct (fill_pages _ _ _ _ _ _ _ _) as [[[ok s] c] tr].
  destruct ok.
  - destruct ct;
      [intros H; injection H as <- <- <- <-; eauto| |];
      (destruct (tbl_fill _ _ _ _ _) as [t'|] eqn:T; [|discriminate];
       intros H; injection H as <- <- <- <-;
       apply tbl_fill_length in T; eauto).
  - intros H. injection H as <- <- <- <-. eauto.
Qed.

(** The fill keeps the length of the table of the object it is given. *)
Lemma alloc_fill_tbl (cache : bool) (pool : nat) (size pages n : Z)
    (flags : alloc_flags) (env : alloc_env) (obj : sgv_pool_obj)
    (ml : scst_mem_lim) (g : sgv_state) (r : alloc_result) (o : sgv_pool_obj)
    (t0 : list trans_tbl_ent) :
  trans_tbl obj = Some t0 ->
  alloc_fill cache pool size pages n flags env obj ml g = Some r ->
  res_sgv r = Some o ->
  exists t, trans_tbl o = Some t /\ length t = length t0.
Proof.
  intros Ht0. unfold alloc_fill. rewrite Ht0.
  destruct (sgv_alloc_sg_entries _ _ _ _ _) as [[[[cnt sg] tbl] evs]|] eqn:E;
    [|discriminate].
  apply alloc_sg_entries_tbl_length in E as (t & -> & Hl).
  intros Hr. apply (inj Some) in Hr. subst r.
  destruct (cnt <=? 0).
  - destruct (_ && cache).
    + unfold out_return1, out_return2.
      match goal with |- context [out_uncheck ?h ?a ?n ?c ?s ?m ?gg] =>
        destruct (out_uncheck_steps h a n c s m gg) as (_ & R2 & _) end.
      cbv zeta in R2. rewrite R2. intros Ho. injection Ho as <-.
      simpl. eauto.
    + match goal with |- context [out_fail_free ?c ?p ?ob ?h ?a ?n ?m ?gg] =>
        destruct (out_fail_free_steps c p ob h a n m gg) as (_ & R2 & _) end.
      cbv zeta in R2. rewrite R2. discriminate.
  - match goal with |- context [alloc_success ?c ?cl ?sz ?p ?ob ?m ?gg] =>
      destruct (alloc_success_obj c cl sz p ob m gg)
        as (o' & R1 & _ & _ & _ & _ & _ & _ & _ & _ & R10 & _) end.
    cbv zeta in *. rewrite R1. intros Ho. injection Ho as <-.
    rewrite R10. simpl. eauto.
Qed.

Lemma gate_fill_tbl (cache : bool) (pool : nat) (size pages n : Z)
    (flags : alloc_flags) (env : alloc_env) (obj : sgv_pool_obj)
    (ml : scst_mem_lim) (g : sgv_state) (r : alloc_result) (o : sgv_pool_obj)
    (t0 : list trans_tbl_ent) :
  trans_tbl obj = Some t0 ->
  (let '(rc, g') := sgv_hiwmk_check n (env_jiffies env) g in
   if negb (rc =? 0)
   then Some (out_fail_free cache pool obj false true n ml g')
   else alloc_fill cache pool size pages n flags env obj ml g') = Some r ->
  res_sgv r = Some o ->
  exists t, trans_tbl o = Some t /\ length t = length t0.
Proof.
  intros Ht0.
  destruct (sgv_hiwmk_check n (env_jiffies env) g) as [rc g'].
  destruct (negb (rc =? 0)).
  - intros Hr. apply (inj Some) in Hr. subst r.
    destruct (out_fail_free_steps cache pool obj false true n ml g')
      as (_ & R2 & _).
    cbv zeta in R2. rewrite R2. discriminate.
  - apply alloc_fill_tbl. exact Ht0.
Qed.

(** A bucketed call on a pool with clustering hands out, or back, an object
    whose translation table has an entry for each page of the bucket, when
    the filled object at the head of the bucket and the object supplied have
    such a table. *)
Lemma alloc_tbl_length (pool : nat) (size : Z) (flags : alloc_flags)
    (count : Z) (sgv : option sgv_pool_obj) (mem_lim : scst_mem_lim)
    (priv : Z) (env : alloc_env) (g : sgv_state) (r : alloc_result)
    (o : sgv_pool_obj) :
  let nb := wrap_int (Z.shiftl 1 (get_order size)) in
  0 <= nb ->
  sgv_pool_clustered (pools g pool) = true ->
  bucketed_request size flags sgv = true ->
  (forall o0, sgv = Some o0 ->
     exists t0, trans_tbl o0 = Some t0 /\ Z.of_nat (length t0) = nb) ->
  (forall o0,
     hd_error (recycling_lists (pools g pool) (get_order size)) = Some o0 ->
     sg_count o0 <> 0 ->
     exists t0, trans_tbl o0 = Some t0 /\ Z.of_nat (length t0) = nb) ->
  sgv_pool_alloc pool size false flags count sgv mem_lim priv env g = Some r ->
  res_sgv r = Some o ->
  exists t, trans_tbl o = Some t /\ Z.of_nat (length t) = nb.
Proof.
  intros nb Hnb Hcl Hbk Hsgv Hhd.
  unfold sgv_pool_alloc. unfold bucketed_request in Hbk.
  destruct (Z.eqb_spec size 0) as [Hz|Hz].
  { intros Hr. apply (inj Some) in Hr. subst r. simpl. intros ->.
    apply Hsgv. reflexivity. }
  cbv beta zeta. fold nb. rewrite Hcl.
  assert (Hnone : forall c p ob h a n m gg,
            res_sgv (out_fail_free c p ob h a n m gg) = None).
  { intros. destruct (out_fail_free_steps c p ob h a n m gg) as (_ & R2 & _).
    exact R2. }
  assert (Hnone' : forall h a n c m gg,
            res_sgv (out_uncheck h a n c None m gg) = None).
  { intros. destruct (out_uncheck_steps h a n c None m gg) as (_ & R2 & _).
    exact R2. }
  assert (Hu : Z.of_nat (length (uninit_tbl env nb)) = nb).
  { unfold uninit_tbl. rewrite length_map, length_seq. lia. }
  assert (Hrp : Z.of_nat (length (replicate (Z.to_nat nb) tt_zero)) = nb).
  { rewrite length_replicate. lia. }
  destruct sgv as [obj|].
  - destruct (Hsgv obj eq_refl) as (t0 & Ht0 & Hl0).
    destruct (sgv_check_allowed_mem mem_lim nb) as [ok ml'].
    destruct ok; cbn [negb]; cbv iota.
    + intros Hr Ho.
      destruct (gate_fill_tbl _ _ _ _ _ _ _ _ _ _ _ _ _ Ht0 Hr Ho)
        as (t & T1 & T2).
      exists t. split; [exact T1|lia].
    + intros Hr. apply (inj Some) in Hr. subst r. rewrite Hnone. discriminate.
  - rewrite Hbk.
    destruct (sgv_check_allowed_mem mem_lim nb) as [ok ml'].
    destruct ok; cbn [negb]; cbv iota.
    2:{ intros Hr. apply (inj Some) in Hr. subst r. unfold out_fail.
        rewrite Hnone'. discriminate. }
    pose proof (steps_get_obj pool (get_order size) (env_new_obj env)
                  (log (EvQuotaAdd nb) g)) as Hget.
    cbv zeta in Hget.
    destruct (sgv_get_obj pool (get_order size) (env_new_obj env)
                (log (EvQuotaAdd nb) g)) as [[obj|] g1];
      simpl fst in Hget; simpl snd in Hget.
    2:{ intros Hr. apply (inj Some) in Hr. subst r. unfold out_fail.
        rewrite Hnone'. discriminate. }
    destruct (Z.eqb_spec (sg_count obj) 0) as [Hc|Hc]; cbn [negb]; cbv iota.
    2:{ intros Hr. apply (inj Some) in Hr. subst r.
        match goal with |- context [alloc_success ?c ?cl ?sz ?p ?ob ?m ?gg] =>
          destruct (alloc_success_obj c cl sz p ob m gg)
            as (o' & R1 & _ & _ & _ & _ & _ & _ & _ & _ & R10 & _) end.
        cbv zeta in *. rewrite R1. intros Ho. injection Ho as <-.
        rewrite R10.
        destruct Hget as [[Hhead _]|(_ & Hz' & _)]; [|contradiction].
        apply (Hhd obj Hhead Hc). }
    destruct (SCST_POOL_NO_ALLOC_ON_CACHE_MISS flags
              && negb (SCST_POOL_RETURN_OBJ_ON_ALLOC_FAIL flags)).
    { intros Hr. apply (inj Some) in Hr. subst r. rewrite Hnone.
      discriminate. }
    match goal with |- match ?x with _ => _ end = _ -> _ =>
      set (arrays := x) end.
    assert (Harr : arrays = None \/
              exists ob t0, arrays = Some ob /\ trans_tbl ob = Some t0 /\
                Z.of_nat (length t0) = nb).
    { unfold arrays.
      destruct (get_order size <=? sgv_max_local_order),
               (env_sg_entries_ok env),
               (get_order size <=? sgv_max_trans_order),
               (env_trans_tbl_ok env); simpl; eauto 10. }
    clearbody arrays.
    destruct Harr as [->|(ob & t0 & -> & Ht0 & Hl0)].
    { intros Hr. apply (inj Some) in Hr. subst r. rewrite Hnone.
      discriminate. }
    destruct (SCST_POOL_NO_ALLOC_ON_CACHE_MISS flags
              && SCST_POOL_RETURN_OBJ_ON_ALLOC_FAIL flags).
    { intros Hr. apply (inj Some) in Hr. subst r.
      unfold out_return, out_return1, out_return2.
      match goal with |- context [out_uncheck ?h ?a ?n ?c ?sv ?m ?gg] =>
        destruct (out_uncheck_steps h a n c sv m gg) as (_ & R2 & _) end.
      cbv zeta in R2. rewrite R2. intros Ho. injection Ho as <-.
      simpl. eauto. }
    intros Hr Ho.
    assert (Htp : trans_tbl (with_priv (owner_pool ob) priv ob) = Some t0)
      by exact Ht0.
    destruct (gate_fill_tbl _ _ _ _ _ _ _ _ _ _ _ _ _ Htp Hr Ho)
      as (t & T1 & T2).
    exists t. split; [exact T1|lia].
Qed.

(** ** The translation table of an object handed out *)

(** C5 as it holds.  First the fill of a clustered bucketed object of
    [pages = 1 << order_or_pages] pages whose SG array is cleared and whose
    translation table has [pages] entries, whatever they hold: the table
    that [sgv_pool_alloc] gives an empty object it takes from the bucket has
    [pages] entries, the uncleared one inside the object or the one
    allocated apart and zeroed; after the fill the table has these [pages]
    entries; [pg_count] of entry [i] is the page index at which SG entry [i]
    begins; and [sg_num] of entry [j] is the index of the SG entry that
    holds page [j] plus one, so it lies between [1] and [sg_count].  Then
    every bucketed request on a pool with clustering: the call returns, and
    the object of a call that returns an SG vector, filled by this call or
    taken filled from the bucket, has a table of [1 << order_or_pages]
    entries that says the same of its [sg_count] entries and of the pages of
    its bucket, once the length that the call changed is put back from
    [orig_sg] and [orig_length].  Last the release: [sgv_pool_free] puts the
    object into its bucket with the table and the count it has, and adds
    nothing else to the bucket.  The bucket holds objects that are empty or
    filled and whose tables have an entry for each page, and an object
    supplied through [*sgv] has a cleared SG array ([cache_ok]): nothing is
    said of the refill of the object that a failed fill handed back, whose
    array is not cleared. *)
Theorem trans_tbl_spec (pool : nat) (size : Z) (flags : alloc_flags)
    (count : Z) (sgv : option sgv_pool_obj) (mem_lim : scst_mem_lim)
    (priv : Z) (env : alloc_env) (g : sgv_state) :
  (forall pages ct t0,
     ct <> sgv_no_clustering -> 1 <= pages -> pages * PAGE_SIZE < 2 ^ 31 ->
     Z.of_nat (length t0) = pages ->
     forallb (fun k => page_valid (env_page_src env k)) (seq 0 (Z.to_nat pages))
       = true ->
     Z.of_nat (length (uninit_tbl env pages)) = pages /\
     Z.of_nat (length (replicate (Z.to_nat pages) tt_zero)) = pages /\
     exists cnt sg t evs,
       sgv_alloc_sg_entries (sg_init_table pages) pages ct (Some t0)
         (env_page_src env)
         = Some (cnt, sg, Some t, evs) /\
       1 <= cnt <= pages /\ Z.of_nat (length t) = pages /\
       (forall i, 0 <= i < cnt ->
          pg_count (tt_at t i) = sum_pages (take (Z.to_nat i) sg)) /\
       (forall j, 0 <= j < pages ->
          1 <= sg_num (tt_at t j) <= cnt /\
          sum_pages (take (Z.to_nat (sg_num (tt_at t j) - 1)) sg) <= j
            < sum_pages (take (Z.to_nat (sg_num (tt_at t j))) sg))) /\
  (let pages := wrap_int (Z.shiftl 1 (get_order size)) in
   request_ok size env -> cache_ok pool size sgv g ->
   (forall o0 t0,
      In o0 (recycling_lists (pools g pool) (get_order size)) ->
      trans_tbl o0 = Some t0 -> Z.of_nat (length t0) = pages) ->
   sgv_pool_clustered (pools g pool) = true ->
   bucketed_request size flags sgv = true ->
   exists r,
     sgv_pool_alloc pool size false flags count sgv mem_lim priv env g = Some r /\
     forall o, res_sg r <> None -> res_sgv r = Some o ->
       order_or_pages o = get_order size /\ 1 <= sg_count o /\
       exists t es zs,
         trans_tbl o = Some t /\ Z.of_nat (length t) = pages /\
         set_sg_length (sg_entries o) (orig_sg o) (orig_length o) = es ++ zs /\
         Z.of_nat (length es) = sg_count o /\ sum_pages es = pages /\
         (forall i, 0 <= i < sg_count o ->
            pg_count (tt_at t i) = sum_pages (take (Z.to_nat i) es)) /\
         (forall j, 0 <= j < pages ->
            1 <= sg_num (tt_at t j) <= sg_count o /\
            sum_pages (take (Z.to_nat (sg_num (tt_at t j) - 1)) es) <= j
              < sum_pages (take (Z.to_nat (sg_num (tt_at t j))) es))) /\
  (forall (o : sgv_pool_obj) (m : scst_mem_lim) (now : Z) (g0 : sgv_state),
     0 <= order_or_pages o ->
     let bucket (s : sgv_state) :=
       recycling_lists (pools s (owner_pool o)) (order_or_pages o) in
     exists o',
       obj_addr o' = obj_addr o /\ trans_tbl o' = trans_tbl o /\
       sg_count o' = sg_count o /\
       sg_entries o'
       = set_sg_length (sg_entries o) (orig_sg o) (orig_length o) /\
       forall x, In x (bucket (snd (sgv_pool_free o m now g0)))
                 <-> x = o' \/ In x (bucket g0)).
Proof.
  splits.
  - intros pages ct t0 Hct Hp Hb Ht0 Hv. splits.
    + unfold uninit_tbl. rewrite length_map, length_seq. lia.
    + rewrite length_replicate. lia.
    + apply trans_tbl_filled; auto.
  - intros pages Hreq Hcache Hlen Hcl Hbk.
    pose proof Hreq as (Hs & Hs2 & Hb & Hok).
    destruct (bucket_pages_bounds size Hb) as [Hnb1 _]. fold pages in Hnb1.
    destruct (alloc_returns pool size flags count sgv mem_lim priv env g
                Hs Hs2 Hb Hok (cache_ok_fits pool size sgv g Hcache))
      as [r Hcall].
    exists r. split; [exact Hcall|]. intros o Hres Ho.
    destruct (alloc_handout_of pool size flags count sgv mem_lim priv env g r
                Hreq Hcache Hcall Hres)
      as [_ (o1 & obj1 & R1 & _ & R3 & _ & _ & R6 & R7 & R8 & R9)].
    rewrite Ho in R1. injection R1 as <-. rewrite Hbk in R6, R9.
    rewrite Hcl in R9.
    destruct (R9 eq_refl)
      as [(es & (zs & E1 & E2 & _ & E4) & t & T1 & T2 & T3) Hrestore].
    destruct Hcache as [Hsgv Hbucket]. cbv zeta in Hsgv, Hbucket.
    rewrite Hcl in Hsgv, Hbucket.
    destruct (alloc_tbl_length pool size flags count sgv mem_lim priv env g r o
                Hnb1 Hcl Hbk) as (t' & L1 & L2); auto.
    { intros o0 Ho0. destruct (Hsgv o0 Ho0) as (_ & _ & Htab).
      destruct (Htab eq_refl) as (_ & Ht). exact Ht. }
    { intros o0 Hhd Hc.
      assert (Hin : In o0 (recycling_lists (pools g pool) (get_order size))).
      { destruct (recycling_lists (pools g pool) (get_order size));
          simpl in Hhd; [discriminate|]. injection Hhd as ->. left. reflexivity. }
      destruct (Hbucket o0 Hin) as [_ Hf].
      destruct (Hf Hc) as (_ & _ & t0 & Ht0 & _).
      exists t0. split; [exact Ht0|]. apply (Hlen o0 t0 Hin Ht0). }
    split; [exact R6|]. split; [lia|].
    exists t, es, zs. rewrite R7, R8, Hrestore.
    rewrite R8, T1 in L1. injection L1 as <-. splits; auto.
  - intros o m now g0 Ho bucket.
    destruct (pool_free_bucketed o m now g0 Ho) as (_ & _ & F3 & _).
    cbv zeta in F3. eexists. splits.
    5:{ intros x. unfold bucket. rewrite F3.
        destruct (sgv_pool_clustered (pools g0 (owner_pool o))).
        - apply insert_by_sg_count_In.
        - simpl. intuition congruence. }
    all: reflexivity.
Qed.

(** X6. [sgv_pool_alloc] returns, and when it returns an SG vector, the
    vector is the array of the object stored in [*sgv], [*count] is at least
    one and at most the object's [sg_count], and the lengths of the first
    [*count] entries add up to exactly [size] bytes: on a cache hit, on a
    miss, for an object outside the buckets and for an empty object supplied
    through [*sgv], with or without clustering.  The object supplied has an
    SG array of the size of its bucket; in a pool with clustering the array
    is cleared and comes with a translation table of that size
    ([cache_ok]), which leaves out the refill of an object that a failed
    fill handed back. *)
Theorem alloc_covers_size (pool : nat) (size : Z) (flags : alloc_flags)
    (count : Z) (sgv : option sgv_pool_obj) (mem_lim : scst_mem_lim)
    (priv : Z) (env : alloc_env) (g : sgv_state) :
  request_ok size env -> cache_ok pool size sgv g ->
  exists r,
    sgv_pool_alloc pool size false flags count sgv mem_lim priv env g = Some r /\
    forall sg, res_sg r = Some sg ->
    exists o,
      res_sgv r = Some o /\ sg = sg_entries o /\
      1 <= res_count r <= sg_count o /\
      total_length (take (Z.to_nat (res_count r)) sg) = size.
Proof.
  intros Hreq Hcache.
  pose proof Hreq as (Hs & Hs2 & Hb & Hok).
  destruct (alloc_returns pool size flags count sgv mem_lim priv env g
              Hs Hs2 Hb Hok (cache_ok_fits pool size sgv g Hcache))
    as [r Hcall].
  exists r. split; [exact Hcall|]. intros sg Hsg.
  destruct (alloc_handout_of pool size flags count sgv mem_lim priv env g r
              Hreq Hcache Hcall ltac:(rewrite Hsg; discriminate))
    as [_ (o & obj1 & R1 & R2 & R3 & R4 & _)].
  rewrite Hsg in R2. injection R2 as ->.
  exists o. splits; auto; lia.
Qed.

Lemma filled_ext (clustered : bool) (n : Z) (a b : sgv_pool_obj) :
  sg_entries b = sg_entries a -> sg_count b = sg_count a ->
  trans_tbl b = trans_tbl a -> filled clustered n a -> filled clustered n b.
Proof.
  intros He Hc Ht (es & (zs & H1 & H2 & H3 & H4) & Htab).
  exists es. split.
  - exists zs. rewrite He, Hc. auto.
  - destruct clustered; rewrite ?Hc, ?Ht; exact Htab.
Qed.

(** X7. The object of a bucketed request that succeeded goes back into its
    bucket filled: [sgv_pool_free] undoes the one length the call changed, so
    the cached object has again the array, the count and the table of the
    fill, and a bucket whose objects were all of its order and filled stays
    so.  The request is one that [cache_ok] admits: on a pool with
    clustering an object supplied through [*sgv] has a cleared SG array,
    which leaves out the refill of an object that a failed fill handed
    back. *)
Theorem free_keeps_filled (pool : nat) (size : Z) (flags : alloc_flags)
    (count : Z) (sgv : option sgv_pool_obj) (mem_lim : scst_mem_lim)
    (priv : Z) (env : alloc_env) (g : sgv_state) (r : alloc_result)
    (o : sgv_pool_obj) (ml' : scst_mem_lim) (now : Z) (g' : sgv_state) :
  request_ok size env -> cache_ok pool size sgv g ->
  sgv_pool_alloc pool size false flags count sgv mem_lim priv env g = Some r ->
  res_sg r <> None -> res_sgv r = Some o ->
  bucketed_request size flags sgv = true ->
  let clustered := sgv_pool_clustered (pools g pool) in
  let bucket (s : sgv_state) :=
    recycling_lists (pools s (owner_pool o)) (get_order size) in
  order_or_pages o = get_order size /\
  (bucket_ok clustered (get_order size) (bucket g') ->
   bucket_ok clustered (get_order size)
     (bucket (snd (sgv_pool_free o ml' now g')))) /\
  exists o',
    In o' (bucket (snd (sgv_pool_free o ml' now g'))) /\
    obj_addr o' = obj_addr o /\ sg_count o' = sg_count o /\
    filled clustered (wrap_int (Z.shiftl 1 (get_order size))) o'.
Proof.
  intros Hreq Hcache Hcall Hres Ho Hb clustered bucket.
  destruct (alloc_handout_of pool size flags count sgv mem_lim priv env g r
              Hreq Hcache Hcall Hres)
    as [_ (o1 & obj1 & R1 & _ & _ & _ & _ & R6 & R7 & R8 & R9)].
  rewrite Ho in R1. injection R1 as <-. rewrite Hb in R6, R9.
  destruct (R9 eq_refl) as [Hfilled Hrestore].
  assert (Hord : 0 <= order_or_pages o).
  { rewrite R6. apply Z.log2_up_nonneg. }
  destruct (pool_free_bucketed o ml' now g' Hord) as (_ & _ & F3 & _).
  cbv zeta in F3. rewrite R6 in F3.
  set (o' := with_time_stamp now
               (with_arrays
                  (set_sg_length (sg_entries o) (orig_sg o) (orig_length o))
                  (trans_tbl o) o)) in *.
  assert (Hf' : filled clustered (wrap_int (Z.shiftl 1 (get_order size))) o').
  { apply (filled_ext _ _ obj1); auto. }
  assert (Hin : forall x, In x (bucket (snd (sgv_pool_free o ml' now g')))
                          <-> x = o' \/ In x (bucket g')).
  { intros x. unfold bucket. rewrite F3.
    destruct (sgv_pool_clustered (pools g' (owner_pool o))).
    - apply insert_by_sg_count_In.
    - simpl. intuition congruence. }
  split; [exact R6|]. split.
  - intros Hok x Hx. apply Hin in Hx as [->|Hx]; [|apply Hok; exact Hx].
    split; [exact R6|]. intros _. exact Hf'.
  - exists o'. split; [apply Hin; left; reflexivity|]. splits; auto.
Qed.

(** X8. An allocation that succeeded and the [sgv_pool_free] of its object
    leave the quota where it was: what the call charged, the bucket's page
    count or the request's, is what the release gives back. *)
Theorem alloc_free_quota (pool : nat) (size : Z) (flags : alloc_flags)
    (count : Z) (sgv : option sgv_pool_obj) (mem_lim : scst_mem_lim)
    (priv : Z) (env : alloc_env) (g : sgv_state) (r : alloc_result)
    (o : sgv_pool_obj) (now : Z) (g' : sgv_state) :
  request_ok size env -> cache_ok pool size sgv g ->
  - 2 ^ 31 <= alloced_pages mem_lim < 2 ^ 31 ->
  sgv_pool_alloc pool size false flags count sgv mem_lim priv env g = Some r ->
  res_sg r <> None -> res_sgv r = Some o ->
  let n :=
    if bucketed_request size flags sgv
    then wrap_int (Z.shiftl 1 (get_order size))
    else wrap_int (Z.shiftr (wrap_ulong (size + PAGE_SIZE - 1)) PAGE_SHIFT) in
  alloced_pages (res_mem_lim r) = wrap_int (alloced_pages mem_lim + n) /\
  alloced_pages (res_mem_lim r) <= max_allowed_pages mem_lim /\
  alloced_pages (fst (sgv_pool_free o (res_mem_lim r) now g'))
  = alloced_pages mem_lim.
Proof.
  intros Hreq Hcache Hml Hcall Hres Ho n.
  destruct (alloc_handout_of pool size flags count sgv mem_lim priv env g r
              Hreq Hcache Hcall Hres)
    as [Hchg (o1 & obj1 & R1 & _ & R3 & _ & R5 & R6 & _)].
  cbv zeta in Hchg, R5, R6. fold n in Hchg, R5.
  rewrite Ho in R1. injection R1 as <-.
  destruct Hreq as (Hs & Hs2 & Hb & _).
  destruct (request_pages_bounds size Hs Hs2) as [_ Hp2].
  destruct (request_pages_size size Hs Hs2) as (Hp1 & _).
  cbv zeta in Hp1, Hp2. pose proof PAGE_SIZE_bounds as HP.
  assert (Hcharged : alloced_pages (res_mem_lim r)
                     = wrap_int (alloced_pages mem_lim + n)
                     /\ alloced_pages (res_mem_lim r) <= max_allowed_pages mem_lim).
  { rewrite R5. unfold sgv_check_allowed_mem in *. cbv zeta in *.
    destruct (Z.gtb_spec (wrap_int (alloced_pages mem_lim + n))
                (max_allowed_pages mem_lim)); simpl in *; [discriminate|].
    split; [reflexivity|lia]. }
  split; [apply Hcharged|]. split; [apply Hcharged|].
  assert (Hpages : (if 0 <=? order_or_pages o
                    then if sg_count o =? 0 then 0 else obj_pages o
                    else if sg_count o =? 0 then 0
                         else wrap_int (- order_or_pages o)) = n).
  { destruct (Z.eqb_spec (sg_count o) 0) as [?|_]; [lia|].
    rewrite R6. unfold n. destruct (bucketed_request size flags sgv).
    - destruct (Z.leb_spec 0 (get_order size)) as [_|Hneg];
        [|pose proof (Z.log2_up_nonneg
                        (Z.shiftr (size + PAGE_SIZE - 1) PAGE_SHIFT));
          unfold get_order in Hneg; lia].
      unfold obj_pages. rewrite R6. reflexivity.
    - set (pages := wrap_int (Z.shiftr (wrap_ulong (size + PAGE_SIZE - 1))
                                PAGE_SHIFT)) in *.
      assert (pages < 2 ^ 31) by nia.
      rewrite (wrap_int_id (- pages)) by lia.
      destruct (Z.leb_spec 0 (- pages)); [lia|].
      rewrite Z.opp_involutive. apply wrap_int_id. lia. }
  assert (Hfst : fst (sgv_pool_free o (res_mem_lim r) now g')
                 = sgv_uncheck_allowed_mem (res_mem_lim r)
                     (if 0 <=? order_or_pages o
                      then if sg_count o =? 0 then 0 else obj_pages o
                      else if sg_count o =? 0 then 0
                           else wrap_int (- order_or_pages o))).
  { unfold sgv_pool_free. destruct (0 <=? order_or_pages o); reflexivity. }
  rewrite Hfst, Hpages. simpl. rewrite (proj1 Hcharged).
  apply quota_roundtrip. exact Hml.
Qed.

(** ** Flushing a pool *)

Lemma purge_total (obj : sgv_pool_obj) (g : sgv_state) :
  sgv_pages_total (__sgv_purge_from_cache obj g)
  = wrap_int (sgv_pages_total g - obj_pages obj).
Proof.
  unfold __sgv_purge_from_cache. cbv zeta. simpl.
  match goal with |- context [sgv_dec_cached_entries ?p ?n ?s] =>
    destruct (dec_cached_spec p n s) as (_ & _ & _ & Ht & _) end.
  cbv zeta in Ht. rewrite Ht. reflexivity.
Qed.

(** One bucket of a pool emptied. *)
Lemma flush_bucket_spec (pool : nat) (i : Z) :
  forall (l : list sgv_pool_obj) (g : sgv_state),
  recycling_lists (pools g pool) i = l ->
  (forall o, In o l -> owner_pool o = pool /\ order_or_pages o = i) ->
  let g' := flush_bucket (length l) pool i g in
  recycling_lists (pools g' pool) i = [] /\
  (forall k, k <> i ->
     recycling_lists (pools g' pool) k = recycling_lists (pools g pool) k) /\
  (forall q, q <> pool -> pools g' q = pools g q) /\
  sgv_pages_total g' =
    fold_left (fun t o => wrap_int (t - obj_pages o)) l (sgv_pages_total g) /\
  trace g' = rev (flat_map destroy_events l) ++ trace g.
Proof.
  induction l as [|obj l IH]; intros g Hl Hok; cbv zeta.
  - simpl. splits; auto.
  - destruct (Hok obj ltac:(left; reflexivity)) as [Hown Hord].
    set (g1 := sgv_dtor_and_free obj (__sgv_purge_from_cache obj g)).
    destruct (dtor_fields obj (__sgv_purge_from_cache obj g))
      as (D1 & _ & _ & D4).
    cbv zeta in D1, D4. fold g1 in D1, D4.
    pose proof (purge_pool_eq obj g) as Hp. cbv zeta in Hp.
    rewrite Hown, Hord in Hp.
    assert (Hb : recycling_lists (pools g1 pool) i = l).
    { rewrite D4, Hp. simpl. rewrite Z.eqb_refl, Hl.
      apply list_del_obj_head. }
    assert (Hk : forall k, k <> i ->
              recycling_lists (pools g1 pool) k = recycling_lists (pools g pool) k).
    { intros k Hne. rewrite D4, Hp. simpl.
      destruct (Z.eqb_spec k i); [contradiction|reflexivity]. }
    assert (Hq : forall q, q <> pool -> pools g1 q = pools g q).
    { intros q Hne. rewrite D4. apply purge_other_pools. congruence. }
    destruct (IH g1 Hb ltac:(intros o Ho; apply Hok; right; exact Ho))
      as (I1 & I2 & I3 & I4 & I5).
    cbv zeta in *.
    change (flush_bucket (length (obj :: l)) pool i g)
      with (match recycling_lists (pools g pool) i with
            | [] => g
            | o :: _ =>
                flush_bucket (length l) pool i
                  (sgv_dtor_and_free o (__sgv_purge_from_cache o g))
            end).
    rewrite Hl. fold g1. splits.
    + exact I1.
    + intros k Hne. rewrite (I2 k Hne). apply Hk. exact Hne.
    + intros q Hne. rewrite (I3 q Hne). apply Hq. exact Hne.
    + rewrite I4, D1, purge_total. reflexivity.
    + rewrite I5. unfold g1. rewrite dtor_trace, purge_trace.
      change (flat_map destroy_events (obj :: l))
        with (destroy_events obj ++ flat_map destroy_events l).
      rewrite rev_app_distr, <- app_assoc. f_equal.
      unfold destroy_events. simpl. rewrite rev_app_distr. simpl.
      rewrite <- app_assoc. reflexivity.
Qed.

Lemma flat_map_agree {A B : Type} (f h : A -> list B) (l : list A) :
  (forall x, In x l -> f x = h x) -> flat_map f l = flat_map h l.
Proof.
  induction l as [|a l IH]; intros H; simpl; [reflexivity|].
  rewrite (H a) by (left; reflexivity).
  rewrite IH; [reflexivity|]. intros x Hx. apply H. right. exact Hx.
Qed.

(** The buckets [start .. start + n - 1] of a pool emptied in turn. *)
Lemma flush_range_spec (pool : nat) :
  forall (n start : nat) (g : sgv_state),
  (forall (i : nat) o, (start <= i < start + n)%nat ->
     In o (recycling_lists (pools g pool) (Z.of_nat i)) ->
     owner_pool o = pool /\ order_or_pages o = Z.of_nat i) ->
  let g' :=
    fold_left
      (fun g i =>
         flush_bucket (length (recycling_lists (pools g pool) (Z.of_nat i)))
           pool (Z.of_nat i) g)
      (seq start n) g in
  let flushed :=
    flat_map (fun i => recycling_lists (pools g pool) (Z.of_nat i))
      (seq start n) in
  (forall i : nat, (start <= i < start + n)%nat ->
     recycling_lists (pools g' pool) (Z.of_nat i) = []) /\
  (forall k : Z,
     (forall i : nat, (start <= i < start + n)%nat -> k <> Z.of_nat i) ->
     recycling_lists (pools g' pool) k = recycling_lists (pools g pool) k) /\
  (forall q, q <> pool -> pools g' q = pools g q) /\
  sgv_pages_total g' =
    fold_left (fun t o => wrap_int (t - obj_pages o)) flushed
      (sgv_pages_total g) /\
  trace g' = rev (flat_map destroy_events flushed) ++ trace g.
Proof.
  induction n as [|n IH]; intros start g Hok; cbv zeta.
  - simpl. splits; auto. intros i Hi. lia.
  - simpl seq. simpl fold_left. simpl flat_map.
    set (l := recycling_lists (pools g pool) (Z.of_nat start)).
    set (g1 := flush_bucket (length l) pool (Z.of_nat start) g).
    destruct (flush_bucket_spec pool (Z.of_nat start) l g eq_refl
                ltac:(intros o Ho; apply (Hok start); [lia|exact Ho]))
      as (B1 & B2 & B3 & B4 & B5).
    cbv zeta in B1, B2, B3, B4, B5. fold g1 in B1, B2, B3, B4, B5.
    assert (Hsame : forall i : nat, (S start <= i)%nat ->
              recycling_lists (pools g1 pool) (Z.of_nat i)
              = recycling_lists (pools g pool) (Z.of_nat i)).
    { intros i Hi. apply B2. lia. }
    assert (Hok1 : forall (i : nat) o, (S start <= i < S start + n)%nat ->
              In o (recycling_lists (pools g1 pool) (Z.of_nat i)) ->
              owner_pool o = pool /\ order_or_pages o = Z.of_nat i).
    { intros i o Hi Ho. rewrite Hsame in Ho by lia. apply (Hok i); [lia|exact Ho]. }
    destruct (IH (S start) g1 Hok1) as (I1 & I2 & I3 & I4 & I5).
    cbv zeta in I1, I2, I3, I4, I5.
    assert (Hfl : flat_map (fun i => recycling_lists (pools g1 pool) (Z.of_nat i))
                    (seq (S start) n)
                  = flat_map (fun i => recycling_lists (pools g pool) (Z.of_nat i))
                      (seq (S start) n)).
    { apply flat_map_agree. intros i Hi. apply in_seq in Hi.
      apply Hsame. lia. }
    rewrite Hfl in I4, I5. splits.
    + intros i Hi. destruct (Nat.eq_dec i start) as [->|Hne].
      * rewrite I2; [exact B1|]. intros j Hj. lia.
      * apply I1. lia.
    + intros k Hk. rewrite I2.
      * apply B2. apply Hk. lia.
      * intros j Hj. apply Hk. lia.
    + intros q Hq. rewrite (I3 q Hq). apply B3. exact Hq.
    + rewrite I4, B4, fold_left_app. reflexivity.
    + rewrite I5, B5, flat_map_app, rev_app_distr, <- app_assoc. reflexivity.
Qed.

(** Every object of the pool's buckets carries the pool and the bucket it
    lies in. *)
Definition buckets_ok (pool : nat) (g : sgv_state) : Prop :=
  forall (i : nat) o, (i < Z.to_nat SGV_POOL_ELEMENTS)%nat ->
    In o (recycling_lists (pools g pool) (Z.of_nat i)) ->
    owner_pool o = pool /\ order_or_pages o = Z.of_nat i.

(** X9. [sgv_pool_flush] leaves every bucket [0 .. SGV_POOL_ELEMENTS - 1] of
    the pool empty, destroys each object that lay in them exactly once, in
    bucket order and in list order within a bucket, takes the pages of each
    off [sgv_pages_total], and leaves the other pools as they were. *)
Theorem flush_empties (pool : nat) (g : sgv_state) :
  buckets_ok pool g ->
  let g' := sgv_pool_flush pool g in
  let flushed :=
    flat_map (fun i => recycling_lists (pools g pool) (Z.of_nat i))
      (seq 0 (Z.to_nat SGV_POOL_ELEMENTS)) in
  (forall i : Z, 0 <= i < SGV_POOL_ELEMENTS ->
     recycling_lists (pools g' pool) i = []) /\
  (forall q, q <> pool -> pools g' q = pools g q) /\
  sgv_pages_total g' =
    fold_left (fun t o => wrap_int (t - obj_pages o)) flushed
      (sgv_pages_total g) /\
  trace g' = rev (flat_map destroy_events flushed) ++ trace g.
Proof.
  intros Hok. cbv zeta. unfold sgv_pool_flush.
  destruct (flush_range_spec pool (Z.to_nat SGV_POOL_ELEMENTS) 0 g
              ltac:(intros i o Hi; apply Hok; lia))
    as (F1 & _ & F3 & F4 & F5).
  cbv zeta in F1, F3, F4, F5. splits; auto.
  intros i Hi. rewrite <- (Z2Nat.id i) by lia. apply F1. lia.
Qed.

(** ** What the shrinker may take *)

(** The age test of [sgv_purge_from_cache] on an object. *)
Definition aged (after cur_time : Z) (o : sgv_pool_obj) : bool :=
  time_after_eq cur_time (wrap_ulong (time_stamp o + after)).

(** Of every pool's LRU list in [g], [g'] has a tail, and the objects gone
    from its head had passed the age test. *)
Definition trimmed (after t : Z) (g g' : sgv_state) : Prop :=
  forall q, exists k,
    sorted_recycling_list (pools g' q)
    = drop k (sorted_recycling_list (pools g q)) /\
    forallb (aged after t) (take k (sorted_recycling_list (pools g q))) = true.

Lemma trimmed_pools (after t : Z) (g g' : sgv_state) :
  pools g' = pools g -> trimmed after t g g'.
Proof.
  intros H q. exists 0%nat. rewrite H, drop_0. split; reflexivity.
Qed.

Lemma trimmed_trans (after t : Z) (g1 g2 g3 : sgv_state) :
  trimmed after t g1 g2 -> trimmed after t g2 g3 -> trimmed after t g1 g3.
Proof.
  intros H12 H23 q. destruct (H12 q) as (k1 & A1 & A2).
  destruct (H23 q) as (k2 & B1 & B2). exists (k1 + k2)%nat.
  rewrite A1 in B1, B2. split.
  - rewrite B1. apply drop_drop.
  - rewrite <- take_take_drop, forallb_app, A2, B2. reflexivity.
Qed.

Lemma shrink_pool_loop_aged (p : nat) (l : list sgv_pool_obj) :
  forall (nr freed after t : Z) (g : sgv_state),
  sorted_recycling_list (pools g p) = l ->
  (forall o, o ∈ l -> obj_ok p o = true) ->
  trimmed after t g (snd (shrink_pool_loop l nr freed after t g)).
Proof.
  induction l as [|obj l IH]; intros nr freed after t g Hl Hok.
  - apply trimmed_pools. reflexivity.
  - assert (Hstop : trimmed after t g g) by (apply trimmed_pools; reflexivity).
    simpl. destruct (sgv_pages_total g >? sgv_lo_wmk); [|exact Hstop].
    unfold sgv_purge_from_cache.
    destruct (time_after_eq t (wrap_ulong (time_stamp obj + after))) eqn:Hage;
      [|exact Hstop].
    clear Hstop.
    assert (Hobj : obj_ok p obj = true) by (apply Hok; left).
    destruct (obj_ok_spec p obj Hobj) as [Hown _].
    pose proof (purge_step obj l g) as Hstep. cbv zeta in Hstep.
    rewrite Hown in Hstep. specialize (Hstep Hl).
    destruct Hstep as (S1 & S2 & _).
    set (g1 := __sgv_purge_from_cache obj g) in *.
    destruct (dtor_fields obj g1) as (_ & _ & _ & D4). cbv zeta in D4.
    set (g2 := sgv_dtor_and_free obj g1) in *.
    assert (Hone : trimmed after t g g2).
    { intros q. destruct (Nat.eq_dec q p) as [->|Hne].
      - exists 1%nat. rewrite D4, S1, Hl. simpl. rewrite drop_0.
        unfold aged. rewrite Hage. split; reflexivity.
      - exists 0%nat. rewrite D4, S2, drop_0 by exact Hne.
        split; reflexivity. }
    destruct ((wrap_int (nr - obj_pages obj) <=? 0)
              || (wrap_int (freed + obj_pages obj) >=? MAX_PAGES_PER_POOL));
      [exact Hone|].
    apply (trimmed_trans after t g g2); [exact Hone|].
    apply IH.
    + rewrite D4. exact S1.
    + intros o Ho. apply Hok. right. exact Ho.
Qed.

Lemma shrink_loop_aged (after t : Z) :
  0 <= sgv_lo_wmk -> SGV_POOL_ELEMENTS <= 31 ->
  forall (fuel : nat) (nr prev : Z) (circle : bool) (g : sgv_state)
         (r : Z * sgv_state),
  shrink_inv g -> sgv_pages_total g < 2 ^ 31 ->
  shrink_loop fuel nr prev circle after t g = Some r ->
  trimmed after t g (snd r).
Proof.
  intros Hlo HE. induction fuel as [|fuel IH];
    intros nr prev circle g r Hinv Htot Hrun; [discriminate|].
  assert (Hstop : Some (nr, g) = Some r -> trimmed after t g (snd r)).
  { intros E. injection E as <-. apply trimmed_pools. reflexivity. }
  simpl in Hrun. destruct (nr >? 0); [|exact (Hstop Hrun)].
  pose proof Hinv as (I1 & I2 & I3).
  set (A := sgv_active_pools_list g) in *.
  destruct (match sgv_cur_purge_pool g with
            | Some p => Some p
            | None => hd_error A
            end) as [p|] eqn:Hsel; [|exact (Hstop Hrun)].
  assert (Hp : p ∈ A).
  { destruct (sgv_cur_purge_pool g) eqn:Hc.
    - injection Hsel as ->. apply I2. exact Hc.
    - apply hd_error_elem. exact Hsel. }
  assert (Hstep : forall (c : option nat) (prev' : Z) (circle' : bool),
    (forall q, c = Some q -> q ∈ A) ->
    (let '(nr1, g1) := sgv_shrink_pool p nr after t (set_cur_purge_pool c g) in
     shrink_loop fuel nr1 prev' circle' after t g1) = Some r ->
    trimmed after t g (snd r)).
  { intros c prev' circle' Hc Hrun'.
    set (g0 := set_cur_purge_pool c g) in *.
    assert (Hinv0 : shrink_inv g0).
    { unfold shrink_inv, cur_in_active. simpl. splits; auto. }
    destruct (shrink_pool_spec p nr after t g0 Hlo HE Hinv0 Hp Htot)
      as (k & Hk & Hinv1).
    assert (Hage : trimmed after t g0
                     (snd (sgv_shrink_pool p nr after t g0))).
    { unfold sgv_shrink_pool. apply (shrink_pool_loop_aged p); [reflexivity|].
      intros o Ho. apply (I3 p Hp). exact Ho. }
    destruct (sgv_shrink_pool p nr after t g0) as [nr1 g1].
    simpl in Hk, Hinv1, Hage.
    destruct Hk as (_ & _ & _ & _ & _ & _ & _ & _ & K9 & _).
    simpl in K9.
    apply (trimmed_trans after t g g1); [exact Hage|].
    apply (IH nr1 prev' circle' g1 r Hinv1 ltac:(lia) Hrun'). }
  clear Hstop.
  destruct (list_next p A) as [q|] eqn:Hnext.
  - destruct (list_next_elem p q A I1 Hnext) as (Hq & _).
    apply (Hstep (Some q) prev circle); [|exact Hrun].
    intros q' Hq'. injection Hq' as <-. exact Hq.
  - destruct (circle && (prev =? nr)).
    + injection Hrun as <-. apply trimmed_pools. reflexivity.
    + apply (Hstep (hd_error A) nr true); [|exact Hrun].
      intros q' Hq'. apply hd_error_elem. exact Hq'.
Qed.

(** X10. The shrinker takes cached objects only from the head of a pool's
    LRU list and only after the age test of [sgv_purge_from_cache] passed:
    after [__sgv_shrink], with any age floor, and after the callback
    [sgv_shrink], whose floor is [SHRINK_TIME_AFTER], each pool's list is a
    tail of what it was and every object gone from it was that old. *)
Theorem shrinker_spares_young (nr after jiffies : Z) (g : sgv_state) :
  0 <= sgv_lo_wmk -> SGV_POOL_ELEMENTS <= 31 ->
  shrink_wf g = true -> sgv_pages_total g < 2 ^ 31 ->
  trimmed after jiffies g (snd (__sgv_shrink nr after jiffies g)) /\
  forall q, exists k,
    sorted_recycling_list (pools (snd (sgv_shrink nr jiffies g)) q)
    = drop k (sorted_recycling_list (pools g q)) /\
    forall o, In o (take k (sorted_recycling_list (pools g q))) ->
      time_after_eq jiffies (wrap_ulong (time_stamp o + 1 * HZ)) = true.
Proof.
  intros Hlo HE Hwf Htot.
  assert (Hgen : forall after',
            trimmed after' jiffies g (snd (__sgv_shrink nr after' jiffies g))).
  { intros after'.
    destruct (shrink_loop_terminates nr after' jiffies g Hlo HE Hwf Htot)
      as (T1 & _).
    cbv zeta in T1.
    apply (shrink_loop_aged after' jiffies Hlo HE (shrink_fuel g) nr nr false g
             _ (shrink_wf_inv g Hwf) Htot (T1 _ (Nat.le_refl _))). }
  split; [apply Hgen|].
  intros q. unfold sgv_shrink. destruct (nr >? 0).
  - destruct (Hgen SHRINK_TIME_AFTER q) as (k & K1 & K2).
    exists k. split; [exact K1|].
    intros o Ho. rewrite forallb_forall in K2. apply (K2 o Ho).
  - exists 0%nat. simpl. rewrite drop_0. split; [reflexivity|].
    intros o [].
Qed.

Lemma shrink_pool_loop_low (l : list sgv_pool_obj) (nr freed after t : Z)
    (g : sgv_state) :
  sgv_pages_total g <= sgv_lo_wmk ->
  shrink_pool_loop l nr freed after t g = (nr, g).
Proof.
  intros H. destruct l as [|obj l]; simpl; [reflexivity|].
  destruct (Z.gtb_spec (sgv_pages_total g) sgv_lo_wmk); [lia|reflexivity].
Qed.

Lemma shrink_loop_low (after t : Z) :
  forall (fuel : nat) (nr prev : Z) (circle : bool) (g : sgv_state)
         (r : Z * sgv_state),
  sgv_pages_total g <= sgv_lo_wmk ->
  shrink_loop fuel nr prev circle after t g = Some r ->
  fst r = nr /\ pools (snd r) = pools g /\
  sgv_pages_total (snd r) = sgv_pages_total g /\
  sgv_active_pools_list (snd r) = sgv_active_pools_list g /\
  trace (snd r) = trace g.
Proof.
  induction fuel as [|fuel IH]; intros nr prev circle g r Hlow Hrun;
    [discriminate|].
  assert (Hstop : Some (nr, g) = Some r ->
            fst r = nr /\ pools (snd r) = pools g /\
            sgv_pages_total (snd r) = sgv_pages_total g /\
            sgv_active_pools_list (snd r) = sgv_active_pools_list g /\
            trace (snd r) = trace g).
  { intros E. injection E as <-. simpl. splits; reflexivity. }
  simpl in Hrun. destruct (nr >? 0); [|exact (Hstop Hrun)].
  destruct (match sgv_cur_purge_pool g with
            | Some p => Some p
            | None => hd_error (sgv_active_pools_list g)
            end) as [p|]; [|exact (Hstop Hrun)].
  assert (Hstep : forall (c : option nat) (prev' : Z) (circle' : bool),
    (let '(nr1, g1) := sgv_shrink_pool p nr after t (set_cur_purge_pool c g) in
     shrink_loop fuel nr1 prev' circle' after t g1) = Some r ->
    fst r = nr /\ pools (snd r) = pools g /\
    sgv_pages_total (snd r) = sgv_pages_total g /\
    sgv_active_pools_list (snd r) = sgv_active_pools_list g /\
    trace (snd r) = trace g).
  { intros c prev' circle' Hrun'. unfold sgv_shrink_pool in Hrun'.
    rewrite shrink_pool_loop_low in Hrun' by exact Hlow.
    exact (IH nr prev' circle' (set_cur_purge_pool c g) r Hlow Hrun'). }
  destruct (list_next p (sgv_active_pools_list g)).
  - apply (Hstep _ _ _ Hrun).
  - destruct (circle && (prev =? nr)); [exact (Hstop Hrun)|].
    apply (Hstep _ _ _ Hrun).
Qed.

(** X11. With [sgv_pages_total] at or below the low watermark the shrinker
    frees nothing: [sgv_shrink] leaves every pool, the total, the active list
    and the trace as they were, and a request for [nr > 0] pages comes back
    with all [nr] still to free, after a loop that does return. *)
Theorem shrink_at_low_wmk (nr jiffies : Z) (g : sgv_state) :
  0 <= sgv_lo_wmk -> SGV_POOL_ELEMENTS <= 31 -> shrink_wf g = true ->
  sgv_pages_total g <= sgv_lo_wmk -> sgv_lo_wmk < 2 ^ 31 ->
  let r := sgv_shrink nr jiffies g in
  pools (snd r) = pools g /\
  sgv_pages_total (snd r) = sgv_pages_total g /\
  sgv_active_pools_list (snd r) = sgv_active_pools_list g /\
  trace (snd r) = trace g /\
  (0 < nr ->
   fst r = nr /\
   shrink_loop (shrink_fuel g) nr nr false SHRINK_TIME_AFTER jiffies g = Some r).
Proof.
  intros Hlo HE Hwf Hlow Hmax. cbv zeta. unfold sgv_shrink.
  destruct (Z.gtb_spec nr 0) as [Hnr|Hnr].
  - destruct (shrink_loop_terminates nr SHRINK_TIME_AFTER jiffies g Hlo HE Hwf
                ltac:(lia)) as (T1 & _).
    cbv zeta in T1. specialize (T1 _ (Nat.le_refl _)).
    destruct (shrink_loop_low SHRINK_TIME_AFTER jiffies _ _ _ _ _ _ Hlow T1)
      as (L1 & L2 & L3 & L4 & L5).
    splits; auto.
  - simpl. splits; auto. intros H. lia.
Qed.

(** ** The age test across a wrap of [jiffies] *)

Lemma wrap_long_ulong (a b : Z) : wrap_long (a - wrap_ulong b) = wrap_long (a - b).
Proof.
  unfold wrap_long, wrap_ulong. f_equal.
  rewrite (Z.mod_eq b (2 ^ 64)) by (apply Z.pow_nonzero; lia).
  replace (a - (b - 2 ^ 64 * (b / 2 ^ 64)) + 2 ^ 63)
    with (a - b + 2 ^ 63 + (b / 2 ^ 64) * 2 ^ 64) by ring.
  apply Z_mod_plus_full.
Qed.

Lemma wrap_long_of_ulong (x c : Z) :
  0 <= c -> c <= 2 ^ 63 -> wrap_ulong x < 2 ^ 63 ->
  wrap_long (x - c) = wrap_ulong x - c.
Proof.
  intros Hc Hc' Hx.
  assert (Hpos : 0 <= wrap_ulong x).
  { unfold wrap_ulong. apply Z.mod_pos_bound. lia. }
  rewrite <- (wrap_long_id (wrap_ulong x - c)) by lia.
  unfold wrap_long at 2. unfold wrap_long, wrap_ulong. f_equal.
  rewrite (Z.mod_eq x (2 ^ 64)) by (apply Z.pow_nonzero; lia).
  replace (x - 2 ^ 64 * (x / 2 ^ 64) - c + 2 ^ 63)
    with (x - c + 2 ^ 63 + (- (x / 2 ^ 64)) * 2 ^ 64) by ring.
  symmetry. apply Z_mod_plus_full.
Qed.

(** X12. The age test of [sgv_purge_from_cache] counts the ticks since the
    time stamp modulo the width of [jiffies]: with an age floor that fits an
    [int] and fewer than [2^63] ticks gone by, the object is purged exactly
    when at least [after] ticks have passed, also when [jiffies] or
    [time_stamp + after] wrapped in between; an object that is not purged
    leaves the state untouched. *)
Theorem purge_test_wraps (obj : sgv_pool_obj) (after cur_time : Z)
    (g : sgv_state) :
  0 <= after < 2 ^ 31 ->
  wrap_ulong (cur_time - time_stamp obj) < 2 ^ 63 ->
  let r := sgv_purge_from_cache obj after cur_time g in
  fst r = (after <=? wrap_ulong (cur_time - time_stamp obj)) /\
  (fst r = false -> snd r = g) /\
  (fst r = true -> snd r = __sgv_purge_from_cache obj g).
Proof.
  intros Ha He. cbv zeta. unfold sgv_purge_from_cache, time_after_eq.
  rewrite wrap_long_ulong.
  replace (cur_time - (time_stamp obj + after))
    with (cur_time - time_stamp obj - after) by ring.
  rewrite wrap_long_of_ulong by lia.
  destruct (Z.leb_spec 0 (wrap_ulong (cur_time - time_stamp obj) - after));
    destruct (Z.leb_spec after (wrap_ulong (cur_time - time_stamp obj)));
    try lia; simpl; splits; auto; discriminate.
Qed.

(** ** [scst_alloc] without [__GFP_NOFAIL] *)

Lemma scst_pages_bounds (size : Z) :
  0 < size < 2 ^ 31 ->
  1 <= Z.shiftr size PAGE_SHIFT + (if page_rest size =? 0 then 0 else 1)
    < 2 ^ 31.
Proof.
  intros Hsize. pose proof PAGE_SIZE_bounds as HP.
  rewrite page_rest_mod, shiftr_page.
  pose proof (Z.div_mod size PAGE_SIZE ltac:(lia)) as Hdm.
  pose proof (Z.mod_pos_bound size PAGE_SIZE ltac:(lia)) as Hmod.
  assert (0 <= size / PAGE_SIZE) by (apply Z.div_pos; lia).
  assert (size / PAGE_SIZE < 2 ^ 31 - 1).
  { apply Z.div_lt_upper_bound; [lia|]. nia. }
  destruct (Z.eqb_spec (size mod PAGE_SIZE) 0); [|lia].
  assert (size / PAGE_SIZE <> 0) by nia. lia.
Qed.

(** A fill without clustering and without a translation table either gives
    one entry per page, or gives nothing and has freed what it got; the pages
    it obtained are the first the page source gave, up to the first refusal. *)
Lemma alloc_sg_entries_plain (pages : Z) (page_src : nat -> option Z) :
  1 <= pages -> pages * PAGE_SIZE < 2 ^ 31 ->
  (forall k, page_ok (page_src k) = true) ->
  exists cnt sg A F,
    sgv_alloc_sg_entries (sg_init_table pages) pages sgv_no_clustering None
      page_src
    = Some (cnt, sg, None, rev (map EvFreePage F) ++ rev (map EvAllocPage A)) /\
    A = pages_got page_src 0 (length A) /\
    (cnt = pages /\ F = [] /\ sgv_free_sys_sg_entries sg cnt ≡ₚ A /\
     Z.of_nat (length A) = pages /\ Z.of_nat (length sg) = pages /\
     (forall k, (k < Z.to_nat pages)%nat -> page_src k <> None)
     \/ cnt = 0 /\ F ≡ₚ A /\
        (length A < Z.to_nat pages)%nat /\ page_src (length A) = None).
Proof.
  intros Hp Hb Hok. unfold sgv_alloc_sg_entries.
  destruct (fill_pages_spec pages page_src sgv_no_clustering Hb (Z.to_nat pages)
              0 (sg_init_table pages) 0 (-1) [] []
              (fill_state_init pages ltac:(lia))
              eq_refl ltac:(lia) ltac:(intros; apply Hok))
    as (A & sg0 & cnt & merged & Hst & Hres).
  pose proof (fill_pages_no_clustering page_src (Z.to_nat pages) 0
                (sg_init_table pages) 0 (-1) []) as Hnc.
  pose proof (fill_pages_trace page_src sgv_no_clustering (Z.to_nat pages) 0
                (sg_init_table pages) 0 (-1) []) as Htr.
  cbv zeta in Hnc, Htr.
  simpl in Hst. rewrite app_nil_r in Hres.
  destruct Hst as (es & zs & Hsg & _ & Hlen & Hlsg & _ & Hsum & Hperm & _).
  assert (HA : forall j, rev (map EvAllocPage A)
                 = rev (map EvAllocPage (pages_got page_src 0 j)) ++ [] ->
               A = pages_got page_src 0 (length A)).
  { intros j H. rewrite app_nil_r in H. apply rev_map_alloc_inj in H.
    rewrite H at 1. f_equal. rewrite H. unfold pages_got.
    rewrite length_map, length_seq. reflexivity. }
  destruct Hres as [[E HlA]|(E & HlA & Hnone)]; rewrite E; rewrite E in Htr;
    simpl in Htr.
  - rewrite E in Hnc. simpl in Hnc. specialize (Hnc eq_refl).
    destruct Htr as [(_ & Hall & Htr)|(Hf & _)]; [|discriminate].
    exists cnt, sg0, A, []. split; [reflexivity|].
    split; [eapply HA; eauto|]. left.
    splits; [lia|reflexivity| |lia|lia|].
    + unfold sgv_free_sys_sg_entries. rewrite Hsg.
      replace (Z.to_nat cnt) with (length es) by lia.
      rewrite take_app_length. exact Hperm.
    + intros k Hk. apply Hall. lia.
  - destruct Htr as [(Hf & _)|(_ & j & _ & _ & _ & Htr)]; [discriminate|].
    exists 0, (sg_set sg0 cnt (mk_sg None 0 PAGE_SIZE)), A,
      (sgv_free_sys_sg_entries (sg_set sg0 cnt (mk_sg None 0 PAGE_SIZE)) cnt).
    split; [reflexivity|]. split; [eapply HA; eauto|].
    right. split; [reflexivity|]. split; [|split; [exact HlA|exact Hnone]].
    unfold sgv_free_sys_sg_entries, sg_set.
    rewrite take_insert_ge by lia. rewrite Hsg.
    replace (Z.to_nat cnt) with (length es) by lia.
    rewrite take_app_length. exact Hperm.
Qed.

(** X13. [scst_alloc] without [__GFP_NOFAIL] returns and keeps its
    books.  Refused by the high-watermark gate it returns [NULL] and touches
    neither [*count] nor the state the gate left.  Failing later, on the SG
    array or on a page, it returns [NULL] after freeing every page it
    obtained and taking its pages off [sgv_pages_total] again.  Succeeding,
    it returns one SG entry per page, and [scst_free] with the returned
    count then frees exactly the pages obtained and takes them off
    [sgv_pages_total]. *)
Theorem scst_alloc_balanced (size count : Z) (kmalloc_ok : bool)
    (page_src : nat -> option Z) (jiffies : Z) (g : sgv_state) :
  0 < size < 2 ^ 31 ->
  let pages := Z.shiftr size PAGE_SHIFT + (if page_rest size =? 0 then 0 else 1) in
  pages * PAGE_SIZE < 2 ^ 31 ->
  (forall k, page_ok (page_src k) = true) ->
  let gate := sgv_hiwmk_check pages jiffies g in
  exists r,
  scst_alloc size false count kmalloc_ok page_src jiffies g = Some r /\
  match fst r with
  | (None, c) =>
      if fst gate =? 0 then
        exists A F, F ≡ₚ A /\
          trace (snd r) =
            EvTotalSub pages :: rev (map EvFreePage F)
            ++ rev (map EvAllocPage A) ++ trace (snd gate) /\
          sgv_pages_total (snd r)
          = wrap_int (sgv_pages_total (snd gate) - pages)
      else snd r = snd gate /\ c = count
  | (Some sg, c) =>
      fst gate = 0 /\ c = pages /\
      exists A F, Z.of_nat (length A) = pages /\ F ≡ₚ A /\
        trace (snd r) = rev (map EvAllocPage A) ++ trace (snd gate) /\
        sgv_pages_total (snd r) = sgv_pages_total (snd gate) /\
        trace (scst_free sg c (snd r)) =
          rev (map EvFreePage F) ++ EvTotalSub pages :: trace (snd r) /\
        sgv_pages_total (scst_free sg c (snd r))
        = wrap_int (sgv_pages_total (snd gate) - pages)
  end.
Proof.
  intros Hsize pages Hb Hok gate.
  pose proof (scst_pages_bounds size Hsize) as Hpages. fold pages in Hpages.
  assert (Hw : wrap_int pages = pages) by (apply wrap_int_id; lia).
  unfold scst_alloc. fold pages. rewrite Hw. fold gate.
  destruct gate as [rc g1]. simpl fst. simpl snd.
  destruct (rc =? 0) eqn:Hrc; cbn [negb andb].
  2:{ eexists. split; [reflexivity|]. simpl. split; reflexivity. }
  apply Z.eqb_eq in Hrc. subst rc.
  destruct kmalloc_ok; cbn [negb].
  2:{ eexists. split; [reflexivity|]. simpl. exists [], []. splits; reflexivity. }
  destruct (alloc_sg_entries_plain pages page_src ltac:(lia) Hb Hok)
    as (cnt & sg & A & F & E & _ & Hcase).
  rewrite E.
  destruct (log_all_fields
              (rev (rev (map EvFreePage F) ++ rev (map EvAllocPage A))) g1)
    as (L1 & _ & _ & _ & L5).
  rewrite rev_involutive in L5.
  set (g2 := log_all _ g1) in *.
  destruct Hcase as [(-> & -> & Hfree & HA & _)|(-> & Hperm & _)].
  - destruct (Z.leb_spec pages 0) as [|_]; [lia|].
    eexists. split; [reflexivity|]. simpl fst.
    simpl snd. cbv beta iota. split; [reflexivity|]. split; [reflexivity|].
    exists A, (sgv_free_sys_sg_entries sg pages).
    simpl in L5.
    destruct (log_all_fields
                (map EvFreePage (sgv_free_sys_sg_entries sg pages))
                (sgv_hiwmk_uncheck pages g2)) as (M1 & _ & _ & _ & M5).
    splits; auto.
    unfold scst_free. rewrite M1, hiwmk_uncheck_total, L1. reflexivity.
  - eexists. split; [reflexivity|]. simpl fst. simpl snd. cbv beta iota.
    exists A, F. splits; auto.
    + simpl. rewrite L5, <- app_assoc. reflexivity.
    + rewrite hiwmk_uncheck_total, L1. reflexivity.
Qed.

(** ** [scst_alloc] with [__GFP_NOFAIL] *)

(** C10. With [__GFP_NOFAIL], [scst_alloc] returns, and the
    high-watermark gate does not fail it.  When the gate refuses, the pages
    are added to [sgv_pages_total] all the same (by [sgv_hiwmk_uncheck] of
    their negative) and the allocation goes on; what it returns depends on
    the SG array and on the pages alone.  When the SG array cannot be had it
    returns [NULL], [*count] untouched, no page asked for; when a page is
    refused it returns [NULL] with [*count] zero, having asked for the pages
    before it and freed them; in both cases the reservation stays in
    [sgv_pages_total].  Otherwise it returns one SG entry for each page,
    the pages being those the page source gave, and [scst_free] with the
    returned count frees exactly them and takes the pages off
    [sgv_pages_total], which after a refusal by the gate brings the total
    back to what the gate left. *)
Theorem scst_alloc_nofail (size count : Z) (kmalloc_ok : bool)
    (page_src : nat -> option Z) (jiffies : Z) (g : sgv_state) :
  0 < size < 2 ^ 31 ->
  let pages := Z.shiftr size PAGE_SHIFT + (if page_rest size =? 0 then 0 else 1) in
  pages * PAGE_SIZE < 2 ^ 31 ->
  (forall k, page_ok (page_src k) = true) ->
  let gate := sgv_hiwmk_check pages jiffies g in
  let reserved :=
    if fst gate =? 0 then sgv_pages_total (snd gate)
    else wrap_int (sgv_pages_total (snd gate) + pages) in
  let held :=
    if fst gate =? 0 then trace (snd gate)
    else EvTotalSub (- pages) :: trace (snd gate) in
  exists r,
  scst_alloc size true count kmalloc_ok page_src jiffies g = Some r /\
  sgv_pages_total (snd r) = reserved /\
  pools (snd r) = pools (snd gate) /\
  match fst r with
  | (None, c) =>
      exists A F, F ≡ₚ A /\ A = pages_got page_src 0 (length A) /\
        trace (snd r)
        = rev (map EvFreePage F) ++ rev (map EvAllocPage A) ++ held /\
        (kmalloc_ok = false /\ c = count /\ A = []
         \/ kmalloc_ok = true /\ c = 0 /\
            (length A < Z.to_nat pages)%nat /\ page_src (length A) = None)
  | (Some sg, c) =>
      kmalloc_ok = true /\ c = pages /\ Z.of_nat (length sg) = pages /\
      (forall k, (k < Z.to_nat pages)%nat -> page_src k <> None) /\
      exists F, F ≡ₚ pages_got page_src 0 (Z.to_nat pages) /\
        trace (snd r)
        = rev (map EvAllocPage (pages_got page_src 0 (Z.to_nat pages)))
          ++ held /\
        trace (scst_free sg c (snd r))
        = rev (map EvFreePage F) ++ EvTotalSub pages :: trace (snd r) /\
        sgv_pages_total (scst_free sg c (snd r)) = wrap_int (reserved - pages)
  end /\
  (fst gate <> 0 -> int_range (sgv_pages_total (snd gate)) ->
   wrap_int (reserved - pages) = sgv_pages_total (snd gate)).
Proof.
  intros Hsize pages Hb Hok gate reserved held.
  pose proof (scst_pages_bounds size Hsize) as Hpages. fold pages in Hpages.
  assert (Hw : wrap_int pages = pages) by (apply wrap_int_id; lia).
  assert (Hbal : fst gate <> 0 -> int_range (sgv_pages_total (snd gate)) ->
                 wrap_int (reserved - pages) = sgv_pages_total (snd gate)).
  { intros Hrc Hrange. unfold reserved.
    destruct (Z.eqb_spec (fst gate) 0); [contradiction|].
    rewrite wrap_int_sub_l.
    replace (sgv_pages_total (snd gate) + pages - pages)
      with (sgv_pages_total (snd gate)) by lia.
    apply wrap_int_id. exact Hrange. }
  unfold scst_alloc. fold pages. rewrite Hw. fold gate.
  revert reserved held Hbal. destruct gate as [rc g1]. simpl fst. simpl snd.
  intros reserved held Hbal.
  rewrite andb_false_r.
  set (g2 := if negb (rc =? 0) then sgv_hiwmk_uncheck (wrap_int (- pages)) g1
             else g1).
  assert (Hg2 : sgv_pages_total g2 = reserved /\ pools g2 = pools g1
                /\ trace g2 = held).
  { unfold g2, reserved, held. destruct (rc =? 0); simpl; [auto|].
    rewrite (wrap_int_id (- pages)) by lia. splits; auto. f_equal. lia. }
  destruct Hg2 as (G1 & G2 & G3).
  destruct kmalloc_ok; cbn [negb].
  2:{ eexists. split; [reflexivity|]. simpl. splits; auto.
      exists [], []. splits; auto. }
  destruct (alloc_sg_entries_plain pages page_src ltac:(lia) Hb Hok)
    as (cnt & sg & A & F & E & HA & Hcase).
  rewrite E.
  destruct (log_all_fields
              (rev (rev (map EvFreePage F) ++ rev (map EvAllocPage A))) g2)
    as (L1 & _ & _ & L4 & L5).
  rewrite rev_involutive in L5.
  set (g3 := log_all _ g2) in *.
  destruct Hcase as [(-> & -> & Hfree & HlA & Hlsg & Hall)|(-> & Hperm & HlA & Hnone)].
  - destruct (Z.leb_spec pages 0) as [|_]; [lia|].
    eexists. split; [reflexivity|]. simpl fst. simpl snd. cbv beta iota.
    assert (HAp : A = pages_got page_src 0 (Z.to_nat pages)).
    { rewrite HA at 1. f_equal. lia. }
    simpl in L5.
    destruct (log_all_fields
                (map EvFreePage (sgv_free_sys_sg_entries sg pages))
                (sgv_hiwmk_uncheck pages g3)) as (M1 & _ & _ & _ & M5).
    splits; auto; try congruence.
    exists (sgv_free_sys_sg_entries sg pages). rewrite <- HAp.
    splits; auto; try congruence.
    unfold scst_free. rewrite M1, hiwmk_uncheck_total, L1, G1. reflexivity.
  - eexists. split; [reflexivity|]. simpl fst. simpl snd. cbv beta iota.
    splits; auto; try congruence.
    exists A, F. splits; auto.
    rewrite L5, <- app_assoc, G3. reflexivity.
Qed.

(** ** Adjacent pages under clustering *)

(** The SG array while a run of adjacent pages is filled in: one entry of
    [j] pages from frame [base], cleared entries behind it. *)
Definition run_state (base j : Z) (m : nat) : list scatterlist :=
  mk_sg (Some base) 0 (j * PAGE_SIZE) :: replicate m sg_zero.

Lemma run_entry_facts (j : Z) :
  1 <= j -> (j + 1) * PAGE_SIZE < 2 ^ 31 ->
  Z.shiftr (j * PAGE_SIZE) PAGE_SHIFT = j /\
  page_rest (j * PAGE_SIZE) = 0 /\
  wrap_uint (j * PAGE_SIZE + wrap_int PAGE_SIZE) = (j + 1) * PAGE_SIZE /\
  wrap_int PAGE_SIZE = PAGE_SIZE /\
  Z.shiftr PAGE_SIZE PAGE_SHIFT = 1 /\ page_rest PAGE_SIZE = 0.
Proof.
  intros Hj Hb. pose proof PAGE_SIZE_bounds as HP.
  assert (Hw : wrap_int PAGE_SIZE = PAGE_SIZE) by (apply wrap_int_id; lia).
  rewrite !shiftr_page, !page_rest_mod, Hw.
  splits; auto.
  - apply Z.div_mul. lia.
  - apply Z.mod_mul. lia.
  - rewrite wrap_uint_id; [ring|]. change (2 ^ 32) with (2 * 2 ^ 31). nia.
  - apply Z.div_same. lia.
  - apply Z.mod_same. lia.
Qed.

Lemma tail_step (base j : Z) (m : nat) (hint : Z) :
  1 <= j -> (j + 1) * PAGE_SIZE < 2 ^ 31 -> 0 <= base -> base + j < 2 ^ 52 ->
  sgv_check_tail_clustering
    (sgv_alloc_sys_pages (run_state base j (S m)) 1 (Some (base + j))) 1 hint
  = (run_state base (j + 1) (S m), 0).
Proof.
  intros Hj Hb Hbase Hmax.
  destruct (run_entry_facts j Hj Hb) as (F1 & F2 & F3 & F4 & F5 & F6).
  unfold sgv_check_tail_clustering, sgv_alloc_sys_pages, run_state, out_tail,
    sg_at, sg_set.
  change (Z.to_nat 1) with 1%nat. change (1 =? 0) with false.
  change (Z.to_nat (1 - 1)) with 0%nat. cbn [replicate list_insert lookup
    list_lookup default sg_page sg_length sg_offset page_to_pfn id].
  simpl. rewrite F1, F2.
  rewrite wrap_ulong_id by (change (2 ^ 64) with (2 ^ 52 * 4096); lia).
  rewrite Z.eqb_refl. simpl. rewrite F3. reflexivity.
Qed.

Lemma full_step (base j : Z) (m : nat) (hint : Z) :
  1 <= j -> (j + 1) * PAGE_SIZE < 2 ^ 31 -> 0 <= base -> base + j < 2 ^ 52 ->
  hint = -1 \/ hint = 0 ->
  sgv_check_full_clustering
    (sgv_alloc_sys_pages (run_state base j (S m)) 1 (Some (base + j))) 1 hint
  = (run_state base (j + 1) (S m), 0).
Proof.
  intros Hj Hb Hbase Hmax Hhint.
  destruct (run_entry_facts j Hj Hb) as (F1 & F2 & F3 & F4 & F5 & F6).
  set (sg := sgv_alloc_sys_pages (run_state base j (S m)) 1 (Some (base + j))).
  assert (Hcur : sg_at sg 1 = mk_sg (Some (base + j)) 0 PAGE_SIZE) by reflexivity.
  assert (H0 : sg_at sg 0 = mk_sg (Some base) 0 (j * PAGE_SIZE)) by reflexivity.
  assert (Hcand : full_cand sg (base + j) (base + j + 1) true 0 = Some MergeTail).
  { unfold full_cand. rewrite H0. simpl. rewrite F1, F2.
    rewrite wrap_ulong_id by (change (2 ^ 64) with (2 ^ 52 * 4096); lia).
    destruct (Z.eqb_spec base (base + j + 1)); [lia|].
    rewrite Z.eqb_refl. reflexivity. }
  assert (Hout : out_tail sg 1 0 PAGE_SIZE = (run_state base (j + 1) (S m), 0)).
  { unfold out_tail. rewrite H0. unfold sg, sgv_alloc_sys_pages, run_state, sg_set.
    simpl. rewrite <- F4 at 2. rewrite F3. reflexivity. }
  unfold sgv_check_full_clustering. rewrite Hcur. simpl sg_page. simpl sg_length.
  simpl page_to_pfn. rewrite F4, F5, F6. simpl (0 =? 0).
  rewrite (wrap_ulong_id (base + j + 1))
    by (change (2 ^ 64) with (2 ^ 52 * 4096); lia).
  destruct Hhint as [-> | ->].
  - change (0 <=? -1) with false. change (Z.to_nat 1) with 1%nat.
    simpl full_scan. change (Z.of_nat 0) with 0. cbv iota.
    rewrite Hcand. exact Hout.
  - change (0 <=? 0) with true. cbv iota. rewrite Hcand. exact Hout.
Qed.

Lemma fill_run (ct : sgv_clustering_types) (base : Z)
    (page_src : nat -> option Z) (m : nat) :
  ct <> sgv_no_clustering -> 0 <= base ->
  Z.of_nat (S m) * PAGE_SIZE < 2 ^ 31 -> base + Z.of_nat (S m) <= 2 ^ 52 ->
  (forall k, (k < S m)%nat -> page_src k = Some (base + Z.of_nat k)) ->
  forall (n j : nat) (merged : Z) (tr : list event),
  (1 <= j)%nat -> (j + n = S m)%nat -> merged = -1 \/ merged = 0 ->
  fill_pages n j page_src ct (run_state base (Z.of_nat j) m) 1 merged tr
  = (true, run_state base (Z.of_nat (S m)) m, 1,
     rev (map EvAllocPage (map (fun k => base + Z.of_nat k) (seq j n))) ++ tr).
Proof.
  intros Hct Hbase Hb Hmax Hsrc.
  induction n as [|n IH]; intros j merged tr Hj Hjn Hm.
  - replace j with (S m) by lia. reflexivity.
  - destruct m as [|m]; [lia|].
    cbn [fill_pages]. rewrite (Hsrc j) by lia. cbv zeta.
    assert (Hstep :
      match ct with
      | sgv_no_clustering =>
          (sgv_alloc_sys_pages (run_state base (Z.of_nat j) (S m)) 1
             (Some (base + Z.of_nat j)), -1)
      | sgv_tail_clustering =>
          sgv_check_tail_clustering
            (sgv_alloc_sys_pages (run_state base (Z.of_nat j) (S m)) 1
               (Some (base + Z.of_nat j))) 1 merged
      | sgv_full_clustering =>
          sgv_check_full_clustering
            (sgv_alloc_sys_pages (run_state base (Z.of_nat j) (S m)) 1
               (Some (base + Z.of_nat j))) 1 merged
      end = (run_state base (Z.of_nat (S j)) (S m), 0)).
    { rewrite Nat2Z.inj_succ. unfold Z.succ.
      destruct ct; [congruence| |].
      - apply tail_step; try lia. nia.
      - apply full_step; try lia. nia. }
    rewrite Hstep. change (0 =? -1) with false. cbv iota.
    rewrite (IH (S j) 0 _ ltac:(lia) ltac:(lia) ltac:(right; reflexivity)).
    simpl. rewrite <- app_assoc. reflexivity.
Qed.

(** X14. Pages that come from the kernel with ascending adjacent frame
    numbers end up in one SG entry under tail and under full clustering:
    [sgv_alloc_sg_entries] reports a single entry that starts at the first
    frame and is [pages * PAGE_SIZE] long, and leaves every other entry of
    the array cleared. *)
Theorem adjacent_pages_one_entry (pages base : Z) (ct : sgv_clustering_types)
    (page_src : nat -> option Z) :
  ct <> sgv_no_clustering ->
  1 <= pages -> pages * PAGE_SIZE < 2 ^ 31 ->
  0 <= base -> base + pages <= 2 ^ 52 ->
  (forall k, (k < Z.to_nat pages)%nat -> page_src k = Some (base + Z.of_nat k)) ->
  sgv_alloc_sg_entries (sg_init_table pages) pages ct None page_src
  = Some (1,
          mk_sg (Some base) 0 (pages * PAGE_SIZE)
            :: replicate (Z.to_nat pages - 1) sg_zero,
          None,
          rev (map EvAllocPage
                 (map (fun k => base + Z.of_nat k) (seq 0 (Z.to_nat pages))))).
Proof.
  intros Hct Hp Hb Hbase Hmax Hsrc.
  destruct (Z.to_nat pages) as [|m] eqn:Hm; [lia|].
  assert (Hpages : pages = Z.of_nat (S m)) by lia.
  unfold sgv_alloc_sg_entries, sg_init_table. rewrite Hm.
  cbn [fill_pages]. rewrite (Hsrc 0%nat) by lia. cbv zeta.
  assert (Hfirst :
    match ct with
    | sgv_no_clustering =>
        (sgv_alloc_sys_pages (replicate (S m) sg_zero) 0
           (Some (base + Z.of_nat 0)), -1)
    | sgv_tail_clustering =>
        sgv_check_tail_clustering
          (sgv_alloc_sys_pages (replicate (S m) sg_zero) 0
             (Some (base + Z.of_nat 0))) 0 (-1)
    | sgv_full_clustering =>
        sgv_check_full_clustering
          (sgv_alloc_sys_pages (replicate (S m) sg_zero) 0
             (Some (base + Z.of_nat 0))) 0 (-1)
    end = (run_state base (Z.of_nat 1) m, -1)).
  { change (Z.of_nat 0) with 0. rewrite Z.add_0_r.
    change (Z.of_nat 1) with 1. unfold run_state. rewrite Z.mul_1_l.
    destruct ct; [congruence|reflexivity|reflexivity]. }
  rewrite Hfirst. change (-1 =? -1) with true. cbv iota.
  change (0 + 1) with 1.
  rewrite (fill_run ct base page_src m Hct Hbase ltac:(lia) ltac:(lia) Hsrc
             m 1%nat (-1) _ ltac:(lia) ltac:(lia) ltac:(left; reflexivity)).
  replace (S m - 1)%nat with m by lia. rewrite Hpages.
  unfold run_state. simpl. destruct ct; reflexivity.
Qed.

Lemma head_step (b j : Z) (m : nat) (hint : Z) :
  1 <= j -> (j + 1) * PAGE_SIZE < 2 ^ 31 -> 0 <= b -> b + 1 < 2 ^ 52 ->
  hint = -1 \/ hint = 0 ->
  sgv_check_full_clustering
    (sgv_alloc_sys_pages (run_state (b + 1) j (S m)) 1 (Some b)) 1 hint
  = (run_state b (j + 1) (S m), 0).
Proof.
  intros Hj Hb Hbase Hmax Hhint.
  destruct (run_entry_facts j Hj Hb) as (F1 & F2 & F3 & F4 & F5 & F6).
  set (sg := sgv_alloc_sys_pages (run_state (b + 1) j (S m)) 1 (Some b)).
  assert (Hcur : sg_at sg 1 = mk_sg (Some b) 0 PAGE_SIZE) by reflexivity.
  assert (H0 : sg_at sg 0 = mk_sg (Some (b + 1)) 0 (j * PAGE_SIZE))
    by reflexivity.
  assert (Hcand : full_cand sg b (b + 1) true 0 = Some MergeHead).
  { unfold full_cand. rewrite H0. simpl. rewrite Z.eqb_refl. reflexivity. }
  assert (Hout : out_head sg 1 0 PAGE_SIZE = (run_state b (j + 1) (S m), 0)).
  { unfold out_head. rewrite H0, Hcur.
    unfold sg, sgv_alloc_sys_pages, run_state, sg_set.
    simpl. rewrite <- F4 at 2. rewrite F3. reflexivity. }
  unfold sgv_check_full_clustering. rewrite Hcur. simpl sg_page. simpl sg_length.
  simpl page_to_pfn. rewrite F4, F5, F6. simpl (0 =? 0).
  rewrite (wrap_ulong_id (b + 1))
    by (change (2 ^ 64) with (2 ^ 52 * 4096); lia).
  destruct Hhint as [-> | ->].
  - change (0 <=? -1) with false. change (Z.to_nat 1) with 1%nat.
    simpl full_scan. change (Z.of_nat 0) with 0. cbv iota.
    rewrite Hcand. exact Hout.
  - change (0 <=? 0) with true. cbv iota. rewrite Hcand. exact Hout.
Qed.

Lemma fill_run_down (top : Z) (page_src : nat -> option Z) (m : nat) :
  Z.of_nat (S m) * PAGE_SIZE < 2 ^ 31 ->
  Z.of_nat m <= top -> top < 2 ^ 52 ->
  (forall k, (k < S m)%nat -> page_src k = Some (top - Z.of_nat k)) ->
  forall (n j : nat) (merged : Z) (tr : list event),
  (1 <= j)%nat -> (j + n = S m)%nat -> merged = -1 \/ merged = 0 ->
  fill_pages n j page_src sgv_full_clustering
    (run_state (top - Z.of_nat j + 1) (Z.of_nat j) m) 1 merged tr
  = (true, run_state (top - Z.of_nat m) (Z.of_nat (S m)) m, 1,
     rev (map EvAllocPage (map (fun k => top - Z.of_nat k) (seq j n))) ++ tr).
Proof.
  intros Hb Htop Hmax Hsrc.
  induction n as [|n IH]; intros j merged tr Hj Hjn Hm.
  - replace j with (S m) by lia.
    replace (top - Z.of_nat (S m) + 1) with (top - Z.of_nat m) by lia.
    reflexivity.
  - destruct m as [|m]; [lia|].
    cbn [fill_pages]. rewrite (Hsrc j) by lia. cbv zeta.
    rewrite (head_step (top - Z.of_nat j) (Z.of_nat j) m merged)
      by (try lia; nia).
    change (0 =? -1) with false. cbv iota.
    replace (top - Z.of_nat j) with (top - Z.of_nat (S j) + 1) at 1 by lia.
    replace (Z.of_nat j + 1) with (Z.of_nat (S j)) by lia.
    rewrite (IH (S j) 0 _ ltac:(lia) ltac:(lia) ltac:(right; reflexivity)).
    simpl. rewrite <- app_assoc. reflexivity.
Qed.

(** X15. Full clustering also merges at the head: pages that come from the
    kernel with descending adjacent frame numbers end up in one SG entry,
    which starts at the lowest frame, the last one obtained, and is
    [pages * PAGE_SIZE] long. *)
Theorem descending_pages_one_entry (pages top : Z)
    (page_src : nat -> option Z) :
  1 <= pages -> pages * PAGE_SIZE < 2 ^ 31 ->
  pages - 1 <= top -> top < 2 ^ 52 ->
  (forall k, (k < Z.to_nat pages)%nat -> page_src k = Some (top - Z.of_nat k)) ->
  sgv_alloc_sg_entries (sg_init_table pages) pages sgv_full_clustering None
    page_src
  = Some (1,
          mk_sg (Some (top - (pages - 1))) 0 (pages * PAGE_SIZE)
            :: replicate (Z.to_nat pages - 1) sg_zero,
          None,
          rev (map EvAllocPage
                 (map (fun k => top - Z.of_nat k) (seq 0 (Z.to_nat pages))))).
Proof.
  intros Hp Hb Htop Hmax Hsrc.
  destruct (Z.to_nat pages) as [|m] eqn:Hm; [lia|].
  assert (Hpages : pages = Z.of_nat (S m)) by lia.
  unfold sgv_alloc_sg_entries, sg_init_table. rewrite Hm.
  cbn [fill_pages]. rewrite (Hsrc 0%nat) by lia. cbv zeta.
  assert (Hfirst :
    sgv_check_full_clustering
      (sgv_alloc_sys_pages (replicate (S m) sg_zero) 0
         (Some (top - Z.of_nat 0))) 0 (-1)
    = (run_state (top - Z.of_nat 1 + 1) (Z.of_nat 1) m, -1)).
  { change (Z.of_nat 0) with 0. rewrite Z.sub_0_r.
    change (Z.of_nat 1) with 1. unfold run_state. rewrite Z.mul_1_l.
    replace (top - 1 + 1) with top by lia. reflexivity. }
  rewrite Hfirst. change (-1 =? -1) with true. cbv iota.
  change (0 + 1) with 1.
  rewrite (fill_run_down top page_src m ltac:(lia) ltac:(lia) Hmax Hsrc
             m 1%nat (-1) _ ltac:(lia) ltac:(lia) ltac:(left; reflexivity)).
  replace (S m - 1)%nat with m by lia. rewrite Hpages.
  replace (Z.of_nat (S m) - 1) with (Z.of_nat m) by lia.
  unfold run_state. simpl. reflexivity.
Qed.

(** ** Objects outside the buckets *)

(** Cutting less than a page off an entry does not change the pages that
    [sgv_free_sys_sg_entries] frees for it. *)
Lemma pages_of_len_trunc (k d : Z) :
  1 <= k -> 0 <= d < PAGE_SIZE -> k * PAGE_SIZE < 2 ^ 31 ->
  pages_of_len (wrap_int (wrap_uint (k * PAGE_SIZE - d))) = k.
Proof.
  intros Hk Hd Hb. pose proof PAGE_SIZE_bounds as HP.
  rewrite wrap_uint_id by (change (2 ^ 32) with (2 * 2 ^ 31); nia).
  rewrite wrap_int_id by nia.
  unfold pages_of_len. rewrite shiftr_page, page_rest_mod.
  destruct (Z.eq_dec d 0) as [->|Hne].
  - rewrite Z.sub_0_r, Z.div_mul, Z.mod_mul by lia. simpl. lia.
  - assert (E : k * PAGE_SIZE - d = PAGE_SIZE * (k - 1) + (PAGE_SIZE - d)) by ring.
    assert (Hr : 0 <= PAGE_SIZE - d < PAGE_SIZE) by lia.
    rewrite <- (Z.div_unique_pos _ _ (k - 1) (PAGE_SIZE - d) Hr E).
    rewrite <- (Z.mod_unique_pos _ _ (k - 1) (PAGE_SIZE - d) Hr E).
    destruct (Z.eqb_spec (PAGE_SIZE - d) 0); lia.
Qed.

Lemma free_entry_truncated (e : scatterlist) (d : Z) :
  good_entry e -> 0 <= d < PAGE_SIZE -> sg_length e < 2 ^ 31 ->
  free_entry_pages (mk_sg (sg_page e) (sg_offset e) (wrap_uint (sg_length e - d)))
  = free_entry_pages e.
Proof.
  intros (pfn & k & Hpg & Hl & _ & Hk & _) Hd Hb.
  unfold free_entry_pages. simpl. rewrite Hl in *.
  rewrite (pages_of_len_trunc k d Hk Hd Hb).
  pose proof (pages_of_len_trunc k 0 Hk ltac:(pose proof PAGE_SIZE_bounds; lia) Hb)
    as H0.
  rewrite Z.sub_0_r in H0.
  pose proof PAGE_SIZE_bounds as HP.
  rewrite wrap_uint_id in H0 by (change (2 ^ 32) with (2 * 2 ^ 31); nia).
  rewrite H0. reflexivity.
Qed.

Lemma flat_map_insert_same {A B : Type} (f : A -> list B) (l : list A)
    (i : nat) (x y : A) :
  l !! i = Some x -> f y = f x -> flat_map f (<[i:=y]> l) = flat_map f l.
Proof.
  revert i. induction l as [|a l IH]; intros i Hi Hf; [discriminate|].
  destruct i as [|i]; simpl in *.
  - injection Hi as ->. rewrite Hf. reflexivity.
  - rewrite (IH i Hi Hf). reflexivity.
Qed.

(** A fill for an object outside the buckets that succeeds: the pages it
    obtained are the pages a release frees, the cut of the last entry
    notwithstanding. *)
Lemma alloc_fill_big (pool : nat) (size n : Z) (flags : alloc_flags)
    (env : alloc_env) (obj : sgv_pool_obj) (ml : scst_mem_lim) (g : sgv_state) :
  0 < size -> size + PAGE_SIZE <= 2 ^ 31 ->
  1 <= n -> n * PAGE_SIZE < 2 ^ 31 ->
  (forall k, page_ok (env_page_src env k) = true) ->
  sg_entries obj = sg_init_table n ->
  let pages := wrap_int (Z.shiftr (wrap_ulong (size + PAGE_SIZE - 1)) PAGE_SHIFT) in
  pages = n ->
  forall r,
  alloc_fill false pool size pages n flags env obj ml g = Some r ->
  res_sg r <> None ->
  exists o A,
    res_sgv r = Some o /\ obj_addr o = obj_addr obj /\
    order_or_pages o = order_or_pages obj /\ 1 <= sg_count o /\
    Z.of_nat (length A) = n /\
    trace (res_state r) = rev (map EvAllocPage A) ++ trace g /\
    sgv_pages_total (res_state r) = sgv_pages_total g /\
    pools (res_state r) = pools g /\
    res_mem_lim r = ml /\
    sgv_free_sys_sg_entries (sg_entries o) (sg_count o) ≡ₚ A.
Proof.
  intros Hs Hs2 Hn Hb Hok Hsg pages Hpg r Hr Hres.
  destruct (request_pages_size size Hs Hs2) as (_ & _ & Hrest).
  unfold alloc_fill in Hr. rewrite Hsg in Hr.
  destruct (sgv_alloc_sg_entries (sg_init_table n) n
              (clustering_type (pools g pool)) (trans_tbl obj)
              (env_page_src env)) as [[[[cnt sg] tbl] evs]|] eqn:E;
    [|discriminate].
  apply (inj Some) in Hr. subst r.
  destruct (Z.leb_spec cnt 0) as [Hc|Hc].
  { exfalso. apply Hres. rewrite andb_false_r. apply out_fail_free_null. }
  pose proof (fill_success_valid _ _ _ _ _ _ _ _ _ Hok E Hc) as Hv.
  destruct (fill_all_pages n (clustering_type (pools g pool)) (env_page_src env)
              ltac:(lia) Hb Hv)
    as (alloc & sg' & cnt' & merged & E' & Hl & Hst).
  destruct Hst as (es & zs & Hsg' & _ & Hces & Hlen & Hg & Hes & Hperm & _).
  assert (Hsame : cnt = cnt' /\ sg = sg' /\ evs = rev (map EvAllocPage alloc)).
  { destruct (alloc_sg_entries_filled _ _ _ _ _ _ _ _ _ E' E) as (t2 & Heq & _).
    injection Heq as -> -> _ ->. auto. }
  destruct Hsame as (<- & <- & ->).
  set (obj1 := with_sg_count cnt (with_arrays sg tbl obj)).
  set (g1 := log_all (rev (rev (map EvAllocPage alloc))) g).
  destruct (log_all_fields (rev (rev (map EvAllocPage alloc))) g)
    as (L1 & _ & _ & L4 & L5).
  fold g1 in L1, L4, L5. rewrite rev_involutive in L5.
  assert (Hlast : exists x, es !! Z.to_nat (cnt - 1) = Some x).
  { apply lookup_lt_is_Some_2. lia. }
  destruct Hlast as [x Hx].
  assert (Hgx : good_entry x).
  { rewrite Forall_lookup in Hg. apply (Hg _ _ Hx). }
  assert (Hat : sg_at sg (cnt - 1) = x).
  { rewrite Hsg'. apply sg_at_prefix. exact Hx. }
  assert (Hi : (Z.to_nat (cnt - 1) < length (sg_entries obj1))%nat).
  { unfold obj1. simpl. rewrite Hsg', length_app. lia. }
  destruct (alloc_success_shape false (sgv_pool_clustered (pools g1 pool)) size
              pages obj1 ml g1 Hi) as (o & R1 & _ & _ & R4 & _).
  destruct (alloc_success_obj false (sgv_pool_clustered (pools g1 pool)) size
              pages obj1 ml g1)
    as (o' & S1 & _ & S3 & S4 & S5 & S6 & _ & _ & S9 & _).
  cbv zeta in R1, R4, S1, S3, S4. rewrite R1 in S1. injection S1 as <-.
  change (sg_count obj1) with cnt in *. change (sg_entries obj1) with sg in *.
  change (obj_addr obj1) with (obj_addr obj) in *.
  change (order_or_pages obj1) with (order_or_pages obj) in *.
  cbn [andb] in R4. rewrite Hat in R4.
  exists o, alloc. rewrite S3, S4, S9.
  splits; auto; try lia.
  unfold sgv_free_sys_sg_entries. rewrite R4.
  unfold set_sg_length, sg_set. rewrite Hat.
  rewrite take_insert_lt by lia. rewrite Hsg'.
  replace (Z.to_nat cnt) with (length es) by lia.
  rewrite take_app_length. rewrite <- Hperm.
  erewrite flat_map_insert_same; [reflexivity|exact Hx|].
  assert (Hlen_x : sg_length x < 2 ^ 31).
  { pose proof (sum_pages_lookup es _ x Hg Hx) as Hle.
    destruct (good_entry_length x Hgx) as [Hlx Hkx].
    pose proof PAGE_SIZE_bounds. rewrite Hlx. nia. }
  destruct (page_rest size =? 0) eqn:Hr.
  - destruct x; reflexivity.
  - apply Z.eqb_neq in Hr. apply free_entry_truncated; auto. lia.
Qed.

Lemma alloc_big_pages (pool : nat) (size : Z) (flags : alloc_flags)
    (count : Z) (mem_lim : scst_mem_lim) (priv : Z) (env : alloc_env)
    (g : sgv_state) :
  request_ok size env -> bucketed_request size flags None = false ->
  let pages := wrap_int (Z.shiftr (wrap_ulong (size + PAGE_SIZE - 1)) PAGE_SHIFT) in
  let gate := sgv_hiwmk_check pages (env_jiffies env) (log (EvQuotaAdd pages) g) in
  forall r,
  sgv_pool_alloc pool size false flags count None mem_lim priv env g = Some r ->
  res_sg r <> None ->
  exists o A,
    res_sgv r = Some o /\ order_or_pages o = wrap_int (- pages) /\
    1 <= sg_count o /\ Z.of_nat (length A) = pages /\
    fst gate = 0 /\
    trace (res_state r) = rev (map EvAllocPage A) ++ trace (snd gate) /\
    sgv_pages_total (res_state r) = sgv_pages_total (snd gate) /\
    pools (res_state r) = pools (snd gate) /\
    sgv_free_sys_sg_entries (sg_entries o) (sg_count o) ≡ₚ A.
Proof.
  intros (Hs & Hs2 & _ & Hok) Hbk pages gate r.
  destruct (request_pages_size size Hs Hs2) as (Hp1 & _).
  destruct (request_pages_bounds size Hs Hs2) as [_ Hp2].
  cbv zeta in Hp1, Hp2. fold pages in Hp1, Hp2.
  unfold sgv_pool_alloc.
  destruct (Z.eqb_spec size 0) as [|_]; [lia|].
  cbv beta zeta. fold pages. unfold bucketed_request in Hbk. rewrite Hbk.
  destruct (sgv_check_allowed_mem mem_lim pages) as [ok ml'].
  destruct ok; cbn [negb]; [|no_vector].
  destruct (SCST_POOL_NO_ALLOC_ON_CACHE_MISS flags); [no_vector|].
  destruct (env_new_obj env) as [a|]; [|no_vector].
  fold gate. destruct gate as [rc g1]. simpl fst. simpl snd.
  destruct (Z.eqb_spec rc 0) as [->|Hrc]; cbn [negb]; [|no_vector].
  intros Hr Hres.
  destruct (alloc_fill_big pool size pages flags env
              (mk_obj a (wrap_int (- pages)) pool 0 priv (sg_init_table pages)
                 None 0 0 0) ml' g1 Hs Hs2 Hp1 Hp2 Hok eq_refl eq_refl r Hr Hres)
    as (o & A & R1 & _ & R3 & R4 & R5 & R6 & R7 & R8 & _ & R10).
  exists o, A. splits; auto.
Qed.

(** X16. An object outside the buckets does not leak pages and is never
    cached.  When [sgv_pool_alloc] serves a request that goes to no bucket,
    the pages it obtains, one per page of the request, are exactly the pages
    that [sgv_pool_free] of the returned object frees, each once, although
    the last SG entry has been cut to the requested size; the release then
    frees the object, takes the pages off [sgv_pages_total] and off the
    quota, and the pools' lists are as the watermark gate left them. *)
Theorem big_alloc_free_pages (pool : nat) (size : Z) (flags : alloc_flags)
    (count : Z) (mem_lim : scst_mem_lim) (priv : Z) (env : alloc_env)
    (g : sgv_state) (r : alloc_result) (o : sgv_pool_obj) (now : Z) :
  request_ok size env -> bucketed_request size flags None = false ->
  sgv_pool_alloc pool size false flags count None mem_lim priv env g = Some r ->
  res_sg r <> None -> res_sgv r = Some o ->
  let pages := wrap_int (Z.shiftr (wrap_ulong (size + PAGE_SIZE - 1)) PAGE_SHIFT) in
  let gate := sgv_hiwmk_check pages (env_jiffies env) (log (EvQuotaAdd pages) g) in
  let g' := snd (sgv_pool_free o (res_mem_lim r) now (res_state r)) in
  exists A F,
    Z.of_nat (length A) = pages /\ F ≡ₚ A /\
    trace (res_state r) = rev (map EvAllocPage A) ++ trace (snd gate) /\
    trace g' =
      EvQuotaSub pages :: EvTotalSub pages :: EvObjFree (obj_addr o)
      :: rev (map EvFreePage F) ++ trace (res_state r) /\
    sgv_pages_total g' = wrap_int (sgv_pages_total (snd gate) - pages) /\
    pools g' = pools (snd gate).
Proof.
  intros Hreq Hbk Hcall Hres Ho pages gate g'.
  pose proof (alloc_big_pages pool size flags count mem_lim priv env g Hreq Hbk)
    as H.
  cbv zeta in H. fold pages in H. fold gate in H.
  destruct (H r Hcall Hres)
    as (o' & A & R1 & R2 & R3 & R4 & _ & R6 & R7 & R8 & R9).
  rewrite Ho in R1. injection R1 as <-.
  destruct Hreq as (Hs & Hs2 & _).
  destruct (request_pages_size size Hs Hs2) as (Hp1 & _).
  destruct (request_pages_bounds size Hs Hs2) as [_ Hp2].
  cbv zeta in Hp1, Hp2. fold pages in Hp1, Hp2.
  pose proof PAGE_SIZE_bounds as HP.
  assert (Hneg : wrap_int (- pages) = - pages) by (apply wrap_int_id; nia).
  assert (Hback : wrap_int (- order_or_pages o) = pages).
  { rewrite R2, Hneg, Z.opp_involutive. apply wrap_int_id. nia. }
  exists A, (sgv_free_sys_sg_entries (sg_entries o) (sg_count o)).
  split; [exact R4|]. split; [exact R9|]. split; [exact R6|].
  unfold g', sgv_pool_free.
  destruct (Z.leb_spec 0 (order_or_pages o)) as [Hge|_]; [lia|].
  destruct (Z.eqb_spec (sg_count o) 0) as [|_]; [lia|].
  rewrite Hback.
  destruct (log_all_fields
              (map EvFreePage (sgv_free_sys_sg_entries (sg_entries o) (sg_count o)))
              (res_state r)) as (L1 & _ & _ & L4 & L5).
  simpl. rewrite L1, L4, L5, R7, R8. splits; reflexivity.
Qed.

End SgvMem.


(** * Concrete runs *)

(** A machine with 4 KiB pages, eleven buckets per pool, and one pool that
    has cached nothing yet. *)
Definition empty_pool (ct : sgv_clustering_types) : sgv_pool :=
  mk_pool ct 0 0 0 false [] (fun _ => []).

Definition boot_state (ct : sgv_clustering_types) : sgv_state :=
  mk_state 0 None [] (fun _ => empty_pool ct) [].

Definition kernel_ok : alloc_env :=
  mk_env (Some 100%nat) true true (fun _ => mk_tt 77 88)
    (fun k => Some (Z.of_nat k + 1000)) 5.

Definition second_page_fails : alloc_env :=
  mk_env (Some 100%nat) true true (fun _ => mk_tt 77 88)
    (fun k => match k with O => Some 1000 | S _ => None end) 5.

(** A kernel that hands out a thousand adjacent pages and then none. *)
Definition kernel_bounded : alloc_env :=
  mk_env (Some 100%nat) true true (fun _ => mk_tt 77 88)
    (fun k => if (k <? 1000)%nat then Some (Z.of_nat k + 1000) else None) 5.

Lemma kernel_bounded_ok (k : nat) : page_ok (env_page_src kernel_bounded k) = true.
Proof.
  simpl. destruct (Nat.ltb_spec k 1000); [|reflexivity]. simpl.
  apply andb_true_intro. split; [apply Z.leb_le|apply Z.ltb_lt]; lia.
Qed.

Definition no_flags : alloc_flags := mk_flags false false false.

Definition handback_flags : alloc_flags := mk_flags false true true.

Definition quota100 : scst_mem_lim := mk_mem_lim 0 100.

Definition alloc_on (hi : Z) (size : Z) (flags : alloc_flags) (count : Z)
    (ml : scst_mem_lim) (priv : Z) (env : alloc_env) (g : sgv_state)
  : option alloc_result :=
  sgv_pool_alloc 12 11 4 5 hi 0 0%nat size false flags count None ml priv env g.


(** A one-page request on a clustered pool, and the state after the object
    it returned has been released at time 9. *)
Definition one_page_call : option alloc_result :=
  alloc_on 1 4096 no_flags 0 quota100 42 kernel_ok
    (boot_state sgv_full_clustering).

Definition one_page_obj : sgv_pool_obj :=
  match one_page_call with
  | Some r => default (mk_obj 0 0 0 0 0 [] None 0 0 0) (res_sgv r)
  | None => mk_obj 0 0 0 0 0 [] None 0 0 0
  end.

Definition cached_state : scst_mem_lim * sgv_state :=
  match one_page_call with
  | Some r => sgv_pool_free 12 100 one_page_obj (res_mem_lim r) 9 (res_state r)
  | None => (quota100, boot_state sgv_full_clustering)
  end.

Definition cached_obj : sgv_pool_obj :=
  default one_page_obj (hd_error (recycling_lists (pools (snd cached_state) 0%nat) 0)).






Lemma quota_charge_uncharge_witness :
  let m := mk_mem_lim 9 10 in
  sgv_check_allowed_mem m 2 = (false, m) /\
  sgv_uncheck_allowed_mem m 4 = mk_mem_lim 5 10.
Proof.
  pose proof (quota_charge_uncharge (mk_mem_lim 9 10) 2 ltac:(simpl; lia)) as H1.
  pose proof (quota_charge_uncharge (mk_mem_lim 9 10) 4 ltac:(simpl; lia)) as H2.
  simpl in H1, H2.
  destruct H1 as (H1 & _), H2 as (_ & _ & H2 & _).
  split; [exact H1 | exact H2].
Defined.

(** With a watermark of one page and one page cached, a request of one
    page makes the gate evict the cached object and then commit. *)
Lemma hiwmk_check_spec_witness :
  fst (sgv_hiwmk_check 12 1 0 1 20 (snd cached_state)) = 0 /\
  sgv_pages_total (snd (sgv_hiwmk_check 12 1 0 1 20 (snd cached_state))) = 1.
Proof.
  pose proof (hiwmk_check_spec 12 ltac:(lia) 11 1 0 1 20 (snd cached_state)
                ltac:(lia) ltac:(lia) ltac:(lia) ltac:(lia)
                ltac:(vm_compute; reflexivity)
                ltac:(vm_compute; split; [discriminate | reflexivity])) as H.
  cbv zeta in H.
  change (sgv_pages_total (snd cached_state) + 1 <=? 1) with false in H.
  destruct H as (_ & _ & H). rewrite H. vm_compute. split; reflexivity.
Defined.

(** The second of two adjacent pages merges into the entry of the first. *)
Lemma full_clustering_spec_witness :
  let sg := [mk_sg (Some 1000) 0 4096; mk_sg (Some 1001) 0 4096] in
  sgv_check_full_clustering 12 sg 1 (-1) = spec_full_clustering 12 sg 1 (-1) /\
  snd (sgv_check_full_clustering 12 sg 1 (-1)) = 0.
Proof.
  split.
  - apply (full_clustering_spec 12 ltac:(lia)
             [mk_sg (Some 1000) 0 4096; mk_sg (Some 1001) 0 4096] 1 (-1)).
    + lia.
    + simpl. lia.
    + lia.
    + vm_compute. reflexivity.
    + vm_compute. split; [reflexivity | discriminate].
  - vm_compute. reflexivity.
Defined.



(** What C5 says of [sg_num] does not hold of the object of
    [one_page_call]: its one page belongs to the one SG entry, and the table
    says 1. *)
Lemma sg_num_below_sg_count_counterexample :
  exists r o t,
    one_page_call = Some r /\ res_sgv r = Some o /\ trans_tbl o = Some t /\
    sgv_pool_clustered (pools (res_state r) (owner_pool o)) = true /\
    0 <= order_or_pages o /\
    sg_count o = 1 /\ sg_num (tt_at t 0) = 1 /\
    ~ sg_num (tt_at t 0) < sg_count o.
Proof.
  eexists. eexists. eexists.
  split; [vm_compute; reflexivity|].
  split; [reflexivity|]. split; [reflexivity|].
  split; [reflexivity|]. split; [vm_compute; discriminate|].
  split; [reflexivity|]. split; [reflexivity|].
  vm_compute. discriminate.
Qed.



(** A request served from the bucket returns the [priv] stored in the
    cached object, 42, not the 43 of the caller. *)
Lemma allocator_priv_spec_witness :
  exists r obj',
    alloc_on 1 4096 no_flags 0 (fst cached_state) 43 kernel_ok (snd cached_state)
    = Some r /\
    res_sgv r = Some obj' /\ sgv_get_priv obj' = 42 /\
    map sg_page (sg_entries obj') = map sg_page (sg_entries cached_obj).
Proof.
  assert (Hhit : cache_hit 12 11 0%nat 4096 no_flags (fst cached_state)
                   (snd cached_state) cached_obj).
  { unfold cache_hit. split; [discriminate|].
    split; [vm_compute; reflexivity|]. split; [reflexivity|].
    split; [vm_compute; discriminate|]. split; [vm_compute; reflexivity|].
    vm_compute. discriminate. }
  destruct (allocator_priv_spec 12 ltac:(lia) 11 4 5 1 0 100 0%nat 4096
              no_flags 0 None (fst cached_state) 43 kernel_ok (snd cached_state))
    as (_ & Hit & _).
  destruct (Hit cached_obj Hhit) as (r & obj' & H1 & H2 & _ & _ & H5 & _ & H7).
  exists r, obj'. split; [exact H1|]. split; [exact H2|].
  split; [|exact H7]. refine (eq_trans H5 _). vm_compute. reflexivity.
Defined.

(** A two-page request with [SCST_POOL_NO_ALLOC_ON_CACHE_MISS] and
    [SCST_POOL_RETURN_OBJ_ON_ALLOC_FAIL] and [priv] 7 on an empty bucket, and
    the refill with [priv] 9 of the object it hands back. *)
Definition handback_call : option alloc_result :=
  alloc_on 1000 8192 handback_flags 0 quota100 7 kernel_ok
    (boot_state sgv_no_clustering).

Definition refill_call : option alloc_result :=
  match handback_call with
  | Some r =>
      sgv_pool_alloc 12 11 4 5 1000 0 0%nat 8192 false no_flags 0 (res_sgv r)
        (res_mem_lim r) 9 kernel_ok (res_state r)
  | None => None
  end.

(** What C7 says of the writing of [allocator_priv] does not hold of these
    two calls.  The first writes 7 into the field of an object it does not
    fill: it asks for no page and hands the object back with [sg_count] 0.
    The second fills the object for the first time, with [priv] 9, and
    leaves the field alone: [sgv_get_priv] of the filled object is 7, which
    is not the [priv] of the fill. *)
Lemma priv_first_fill_counterexample :
  exists r1 o1 r2 o2,
    handback_call = Some r1 /\ res_sg r1 = None /\ res_sgv r1 = Some o1 /\
    sg_count o1 = 0 /\ map sg_page (sg_entries o1) = [None; None] /\
    trace (res_state r1)
    = [EvQuotaSub 2; EvCachedInc 0 2; EvQuotaAdd 2] /\
    sgv_get_priv o1 = 7 /\
    refill_call = Some r2 /\ res_sgv r2 = Some o2 /\
    res_sg r2 = Some (sg_entries o2) /\ obj_addr o2 = obj_addr o1 /\
    sg_count o2 = 2 /\
    map sg_page (sg_entries o2) = [Some 1000; Some 1001] /\
    sgv_get_priv o2 = 7 /\ sgv_get_priv o2 <> 9.
Proof.
  eexists. eexists. eexists. eexists.
  split; [vm_compute; reflexivity|].
  split; [reflexivity|]. split; [reflexivity|].
  split; [reflexivity|]. split; [reflexivity|].
  split; [reflexivity|]. split; [reflexivity|].
  split; [vm_compute; reflexivity|].
  split; [reflexivity|]. split; [reflexivity|]. split; [reflexivity|].
  split; [reflexivity|]. split; [reflexivity|]. split; [reflexivity|].
  vm_compute. discriminate.
Qed.

(** One minute after the release the worker finds the object old, purges
    it and is not scheduled again. *)
Lemma purge_work_spec_witness :
  let g' := sgv_purge_work_fn 12 100 0%nat 7000 (snd cached_state) in
  sorted_recycling_list (pools g' 0%nat) = [] /\
  purge_work_scheduled (pools g' 0%nat) = false /\
  sgv_pages_total g' = 0.
Proof.
  destruct (purge_work_spec 12 ltac:(lia) 100 0%nat 7000 (snd cached_state)
              ltac:(lia) ltac:(lia) ltac:(vm_compute; reflexivity))
    as (H1 & _ & H3 & H4 & _).
  cbv zeta. split; [rewrite H1; vm_compute; reflexivity|].
  split; [rewrite H4; vm_compute; reflexivity|].
  rewrite H3. vm_compute. reflexivity.
Defined.

(** What C9 says of the count does not hold when [*count] is 7 at entry. *)
Lemma alloc_size_zero_counterexample :
  exists r,
    alloc_on 1000 0 no_flags 7 quota100 0 kernel_ok
      (boot_state sgv_no_clustering) = Some r /\
    res_sg r = None /\ res_count r = 7 /\ res_count r <> 0.
Proof.
  eexists. split; [reflexivity|]. split; [reflexivity|].
  split; [reflexivity|]. simpl. discriminate.
Qed.

(** With a watermark of zero pages the gate refuses; the page is counted
    all the same, the call returns the one page asked for, and [scst_free]
    brings the total back. *)
Lemma scst_alloc_nofail_witness :
  let src := env_page_src kernel_bounded in
  exists r sg,
    scst_alloc 12 0 0 4096 true 0 true src 5 (boot_state sgv_no_clustering)
    = Some r /\
    fst r = (Some sg, 1) /\ map sg_page sg = [Some 1000] /\
    sgv_pages_total (snd r) = 1 /\
    trace (snd r) = [EvAllocPage 1000; EvTotalSub (-1)] /\
    sgv_pages_total (scst_free 12 sg 1 (snd r)) = 0.
Proof.
  cbv zeta.
  destruct (scst_alloc_nofail 12 ltac:(lia) 0 0 4096 0 true
              (env_page_src kernel_bounded) 5
              (boot_state sgv_no_clustering) ltac:(lia)
              ltac:(vm_compute; reflexivity) kernel_bounded_ok)
    as (r & Hr & Htot & _ & Hcase & _).
  pose proof Hr as Hc. vm_compute in Hr. apply (inj Some) in Hr.
  rewrite <- Hr in Hcase. cbn [fst snd] in Hcase.
  destruct Hcase as (_ & _ & _ & _ & F & _ & Ht & _ & Hf).
  eexists r, _. split; [exact Hc|].
  split; [rewrite <- Hr; reflexivity|]. split; [reflexivity|].
  split; [refine (eq_trans Htot _); vm_compute; reflexivity|].
  split; [rewrite <- Hr; reflexivity|].
  rewrite <- Hr. refine (eq_trans Hf _). vm_compute. reflexivity.
Defined.

(** ** Further concrete runs *)

Definition the_result (c : option alloc_result) : alloc_result :=
  default (mk_res None 0 None (mk_mem_lim 0 0) (boot_state sgv_no_clustering)) c.

Definition the_object (r : alloc_result) : sgv_pool_obj :=
  default (mk_obj 0 0 0 0 0 [] None 0 0 0) (res_sgv r).

(** A request of 5000 bytes, two pages, on the clustered pool. *)
Definition odd_call : option alloc_result :=
  alloc_on 1000 5000 no_flags 0 quota100 42 kernel_bounded
    (boot_state sgv_full_clustering).

(** Two active pools, the cursor on the second. *)
Definition two_active : sgv_state :=
  mk_state 0 (Some 1%nat) [0%nat; 1%nat]
    (fun _ => mk_pool sgv_no_clustering 1 1 0 false [] (fun _ => [])) [].

Lemma fill_then_free_witness :
  exists cnt sg tbl',
    sgv_alloc_sg_entries 12 (sg_init_table 2) 2 sgv_full_clustering None
      (env_page_src kernel_ok)
    = Some (cnt, sg, tbl', [EvAllocPage 1001; EvAllocPage 1000]) /\
    total_length (take (Z.to_nat cnt) sg) = 8192 /\
    sgv_free_sys_sg_entries 12 sg cnt ≡ₚ [1000; 1001].
Proof.
  destruct (fill_then_free 12 ltac:(lia) 2 sgv_full_clustering None
              (env_page_src kernel_ok) ltac:(lia)
              ltac:(vm_compute; reflexivity) ltac:(vm_compute; reflexivity))
    as [Hfit _].
  destruct (Hfit ltac:(right; intros t Ht; discriminate Ht))
    as (cnt & sg & tbl' & H1 & _ & _ & _ & H5 & _ & H7).
  exists cnt, sg, tbl'. split; [exact H1|]. split; [exact H5|exact H7].
Defined.

Lemma fill_refused_witness :
  exists sg F,
    sgv_alloc_sg_entries 12 (sg_init_table 2) 2 sgv_no_clustering None
      (env_page_src second_page_fails)
    = Some (0, sg, None, rev (map EvFreePage F) ++ [EvAllocPage 1000]) /\
    F ≡ₚ [1000].
Proof.
  apply (fill_refused 12 ltac:(lia) 2 sgv_no_clustering None
           (env_page_src second_page_fails) 1%nat).
  - lia.
  - vm_compute. reflexivity.
  - intros [|k]; reflexivity.
  - simpl. lia.
  - reflexivity.
  - intros k Hk. assert (k = 0%nat) by lia. subst k. discriminate.
Defined.

Lemma shrink_returns_witness :
  let r := __sgv_shrink 12 0 1 0 20 (snd cached_state) in
  1 - fst r = sgv_pages_total (snd cached_state) - sgv_pages_total (snd r) /\
  sgv_pages_total (snd r) = 0.
Proof.
  destruct (shrink_returns 12 ltac:(lia) 11 0 1 0 20 (snd cached_state)
              ltac:(lia) ltac:(lia) ltac:(vm_compute; reflexivity)
              ltac:(vm_compute; split; [discriminate|reflexivity]) ltac:(lia))
    as (_ & _ & H3 & _).
  cbv zeta. split; [exact H3|vm_compute; reflexivity].
Defined.

Lemma del_from_active_cursor_witness :
  let g' := sgv_del_from_active 1%nat two_active in
  sgv_active_pools_list g' = [0%nat] /\ sgv_cur_purge_pool g' = Some 0%nat.
Proof.
  destruct (del_from_active_cursor 12 ltac:(lia) 1%nat two_active)
    as (H1 & _ & _ & _ & H5 & _).
  - apply NoDup_cons. split; [|apply NoDup_singleton].
    rewrite list_elem_of_singleton. discriminate.
  - intros c Hc. injection Hc as <-. apply list_elem_of_In. simpl. auto.
  - cbv zeta in *. split; [exact H1|]. apply H5. reflexivity.
Defined.

Lemma active_list_tracks_witness :
  active_tracks (snd (sgv_get_obj 12%nat 0 (Some 100%nat)
                        (boot_state sgv_no_clustering))).
Proof.
  apply (active_list_tracks 12 ltac:(lia) 12%nat 0 1 (Some 100%nat)
           (mk_obj 0 0 0 0 0 [] None 0 0 0) (boot_state sgv_no_clustering)).
  - split; [constructor|]. intros q. simpl. split; [lia|]. split; [tauto|lia].
  - simpl. lia.
Defined.

Lemma odd_call_ok :
  request_ok 12 5000 kernel_bounded /\
  cache_ok 12 0%nat 5000 None (boot_state sgv_full_clustering) /\
  odd_call = Some (the_result odd_call) /\
  res_sg (the_result odd_call) = Some (sg_entries (the_object (the_result odd_call))) /\
  res_sgv (the_result odd_call) = Some (the_object (the_result odd_call)).
Proof.
  split; [|split; [|split; [|split]]].
  - split; [lia|]. split; [vm_compute; discriminate|].
    split; [vm_compute; reflexivity|]. exact kernel_bounded_ok.
  - split; [discriminate|]. intros o Ho. vm_compute in Ho. contradiction.
  - vm_compute. reflexivity.
  - vm_compute. reflexivity.
  - vm_compute. reflexivity.
Qed.

(** The fill of a two-page object of a clustered pool, and the object that
    [odd_call] hands out. *)
Lemma trans_tbl_spec_witness :
  (exists cnt sg t evs,
     sgv_alloc_sg_entries 12 (sg_init_table 2) 2 sgv_full_clustering
       (Some (uninit_tbl kernel_bounded 2)) (env_page_src kernel_bounded)
     = Some (cnt, sg, Some t, evs) /\
     1 <= cnt <= 2 /\ Z.of_nat (length t) = 2 /\
     (forall j, 0 <= j < 2 -> 1 <= sg_num (tt_at t j) <= cnt)) /\
  exists r o t,
    odd_call = Some r /\ res_sgv r = Some o /\ trans_tbl o = Some t /\
    Z.of_nat (length t) = 2 /\ sg_count o = 1 /\
    (forall j, 0 <= j < 2 -> 1 <= sg_num (tt_at t j) <= sg_count o).
Proof.
  destruct odd_call_ok as (Hreq & Hcache & Hcall & Hsg & Ho).
  destruct (trans_tbl_spec 12 ltac:(lia) 11 4 5 1000 0 100 0%nat 5000 no_flags 0
              None quota100 42 kernel_bounded (boot_state sgv_full_clustering))
    as (HA & HB & _).
  split.
  - destruct (HA 2 sgv_full_clustering (uninit_tbl kernel_bounded 2)
                ltac:(discriminate) ltac:(lia) ltac:(vm_compute; reflexivity)
                ltac:(vm_compute; reflexivity) ltac:(vm_compute; reflexivity))
      as (_ & _ & cnt & sg & t & evs & H1 & H2 & H3 & _ & H5).
    exists cnt, sg, t, evs. split; [exact H1|]. split; [exact H2|].
    split; [exact H3|]. intros j Hj. apply (H5 j Hj).
  - destruct (HB Hreq Hcache
                ltac:(intros o0 t0 Hin; vm_compute in Hin; contradiction)
                ltac:(vm_compute; reflexivity)
                ltac:(vm_compute; reflexivity)) as (r & Hr & Hobj).
    assert (E : Some r = Some (the_result odd_call))
      by (rewrite <- Hr; exact Hcall).
    apply (inj Some) in E. subst r.
    destruct (Hobj (the_object (the_result odd_call))
                ltac:(rewrite Hsg; discriminate) Ho)
      as (_ & _ & t & es & zs & T1 & T2 & _ & _ & _ & _ & T6).
    exists (the_result odd_call), (the_object (the_result odd_call)), t.
    split; [exact Hcall|]. split; [exact Ho|]. split; [exact T1|].
    split; [exact T2|]. split; [vm_compute; reflexivity|].
    intros j Hj. apply (T6 j Hj).
Defined.

Lemma alloc_covers_size_witness :
  exists r sg,
    odd_call = Some r /\ res_sg r = Some sg /\ res_count r = 1 /\
    total_length (take (Z.to_nat (res_count r)) sg) = 5000.
Proof.
  destruct odd_call_ok as (Hreq & Hcache & Hcall & Hsg & _).
  destruct (alloc_covers_size 12 ltac:(lia) 11 4 5 1000 0 0%nat 5000 no_flags 0
              None quota100 42 kernel_bounded (boot_state sgv_full_clustering)
              Hreq Hcache)
    as (r & Hr & Hvec).
  assert (E : Some r = Some (the_result odd_call))
    by (rewrite <- Hr; exact Hcall).
  apply (inj Some) in E. subst r.
  destruct (Hvec _ Hsg) as (o & _ & _ & _ & H4).
  exists (the_result odd_call), (sg_entries (the_object (the_result odd_call))).
  split; [exact Hcall|]. split; [exact Hsg|]. split; [reflexivity|exact H4].
Defined.

Lemma free_keeps_filled_witness :
  let o := the_object (the_result odd_call) in
  exists o',
    In o' (recycling_lists
             (pools (snd (sgv_pool_free 12 100 o quota100 9
                            (boot_state sgv_full_clustering))) 0%nat) 1) /\
    obj_addr o' = 100%nat /\ filled 12 true 2 o'.
Proof.
  destruct odd_call_ok as (Hreq & Hcache & Hcall & Hsg & Ho).
  destruct (free_keeps_filled 12 ltac:(lia) 11 4 5 1000 0 100 0%nat 5000
              no_flags 0 None quota100 42 kernel_bounded
              (boot_state sgv_full_clustering) (the_result odd_call)
              (the_object (the_result odd_call)) quota100 9
              (boot_state sgv_full_clustering) Hreq Hcache Hcall
              ltac:(rewrite Hsg; discriminate) Ho ltac:(vm_compute; reflexivity))
    as (_ & _ & o' & H1 & H2 & _ & H4).
  exists o'. split; [exact H1|]. split; [exact H2|exact H4].
Defined.

Lemma alloc_free_quota_witness :
  let r := the_result odd_call in
  alloced_pages (res_mem_lim r) = 2 /\
  alloced_pages (fst (sgv_pool_free 12 100 (the_object r) (res_mem_lim r) 9
                        (res_state r))) = 0.
Proof.
  destruct odd_call_ok as (Hreq & Hcache & Hcall & Hsg & Ho).
  destruct (alloc_free_quota 12 ltac:(lia) 11 4 5 1000 0 100 0%nat 5000
              no_flags 0 None quota100 42 kernel_bounded
              (boot_state sgv_full_clustering) (the_result odd_call)
              (the_object (the_result odd_call)) 9
              (res_state (the_result odd_call)) Hreq Hcache
              ltac:(simpl; lia) Hcall
              ltac:(rewrite Hsg; discriminate) Ho)
    as (H1 & _ & H3).
  cbv zeta. split; [exact H1|exact H3].
Defined.

Lemma cached_state_buckets : buckets_ok 11 0%nat (snd cached_state).
Proof.
  intros i o Hi Ho.
  do 11 (destruct i as [|i];
         [vm_compute in Ho;
          try contradiction;
          destruct Ho as [<-|[]]; split; vm_compute; reflexivity|]).
  vm_compute in Hi. lia.
Qed.

Lemma flush_empties_witness :
  let g' := sgv_pool_flush 12 11 0%nat (snd cached_state) in
  length (recycling_lists (pools (snd cached_state) 0%nat) 0) = 1%nat /\
  sgv_pages_total (snd cached_state) = 1 /\
  (forall i : Z, 0 <= i < 11 -> recycling_lists (pools g' 0%nat) i = []) /\
  sgv_pages_total g' = 0.
Proof.
  destruct (flush_empties 12 ltac:(lia) 11 0%nat (snd cached_state)
              cached_state_buckets) as (H1 & _ & H3 & _).
  cbv zeta. split; [vm_compute; reflexivity|].
  split; [vm_compute; reflexivity|]. split; [exact H1|].
  rewrite H3. vm_compute. reflexivity.
Defined.

Lemma shrinker_spares_young_witness :
  let g := snd cached_state in
  sorted_recycling_list (pools (snd (sgv_shrink 12 0 100 1 200 g)) 0%nat) = [] /\
  forall o, In o (sorted_recycling_list (pools g 0%nat)) ->
    time_after_eq 200 (wrap_ulong (time_stamp o + 1 * 100)) = true.
Proof.
  destruct (shrinker_spares_young 12 ltac:(lia) 11 0 100 1 0 200
              (snd cached_state) ltac:(lia) ltac:(lia)
              ltac:(vm_compute; reflexivity) ltac:(vm_compute; reflexivity))
    as [_ H].
  destruct (H 0%nat) as (k & H1 & H2). cbv zeta.
  split; [vm_compute; reflexivity|].
  destruct k as [|k]; [vm_compute in H1; discriminate|].
  intros o Ho. apply H2. rewrite take_ge; [exact Ho|].
  assert (length (sorted_recycling_list (pools (snd cached_state) 0%nat))
          = 1%nat) as -> by (vm_compute; reflexivity).
  lia.
Defined.

Lemma shrink_at_low_wmk_witness :
  let g := snd cached_state in
  let r := sgv_shrink 12 1 100 1 200 g in
  sgv_pages_total g = 1 /\ fst r = 1 /\ pools (snd r) = pools g /\
  trace (snd r) = trace g.
Proof.
  destruct (shrink_at_low_wmk 12 ltac:(lia) 11 1 100 1 200 (snd cached_state)
              ltac:(lia) ltac:(lia) ltac:(vm_compute; reflexivity)
              ltac:(vm_compute; discriminate) ltac:(lia))
    as (H1 & _ & _ & H4 & H5).
  cbv zeta. split; [vm_compute; reflexivity|].
  split; [apply H5; lia|]. split; [exact H1|exact H4].
Defined.

(** An object stamped five ticks before [jiffies] wrapped, looked at ten
    ticks after the wrap with a floor of twelve ticks. *)
Lemma purge_test_wraps_witness :
  let obj := mk_obj 100 0 0 (2 ^ 64 - 5) 0 [] None 0 0 0 in
  wrap_ulong (10 - time_stamp obj) = 15 /\
  fst (sgv_purge_from_cache obj 12 10 (boot_state sgv_no_clustering)) = true.
Proof.
  destruct (purge_test_wraps (mk_obj 100 0 0 (2 ^ 64 - 5) 0 [] None 0 0 0)
              12 10 (boot_state sgv_no_clustering)
              ltac:(lia) ltac:(vm_compute; reflexivity)) as (H & _).
  cbv zeta. split; [vm_compute; reflexivity|]. rewrite H. vm_compute. reflexivity.
Defined.

(** Two pages asked for, the second refused. *)
Lemma scst_alloc_balanced_witness :
  let src := env_page_src second_page_fails in
  exists r,
    scst_alloc 12 1000 0 8192 false 7 true src 5 (boot_state sgv_no_clustering)
    = Some r /\
    fst r = (None, 0) /\
    exists A F, F ≡ₚ A /\
      trace (snd r) =
        EvTotalSub 2 :: rev (map EvFreePage F) ++ rev (map EvAllocPage A)
        ++ [EvTotalAdd 2] /\
      sgv_pages_total (snd r) = 0.
Proof.
  cbv zeta.
  destruct (scst_alloc_balanced 12 ltac:(lia) 1000 0 8192 7 true
              (env_page_src second_page_fails) 5
              (boot_state sgv_no_clustering) ltac:(lia)
              ltac:(vm_compute; reflexivity)
              ltac:(intros [|k]; reflexivity)) as (r & Hr & H).
  pose proof Hr as Hc. vm_compute in Hr. apply (inj Some) in Hr.
  assert (E : fst r = (None, 0)) by (rewrite <- Hr; reflexivity).
  rewrite E in H.
  assert (G : sgv_hiwmk_check 12 1000 0
                (Z.shiftr 8192 12 + (if page_rest 12 8192 =? 0 then 0 else 1))
                5 (boot_state sgv_no_clustering)
              = (0, mk_state 2 None [] (pools (boot_state sgv_no_clustering))
                      [EvTotalAdd 2]))
    by (vm_compute; reflexivity).
  rewrite G in H. simpl fst in H. simpl snd in H.
  change (0 =? 0) with true in H. cbv iota in H.
  destruct H as (A & F & HP & Ht & Htot).
  exists r. split; [exact Hc|]. split; [exact E|].
  exists A, F. split; [exact HP|]. split; [exact Ht|exact Htot].
Defined.

Lemma adjacent_pages_one_entry_witness :
  sgv_alloc_sg_entries 12 (sg_init_table 3) 3 sgv_tail_clustering None
    (env_page_src kernel_bounded)
  = Some (1, [mk_sg (Some 1000) 0 12288; sg_zero; sg_zero], None,
      [EvAllocPage 1002; EvAllocPage 1001; EvAllocPage 1000]).
Proof.
  refine (eq_trans
            (adjacent_pages_one_entry 12 ltac:(lia) 3 1000 sgv_tail_clustering
               (env_page_src kernel_bounded) ltac:(discriminate) ltac:(lia)
               ltac:(vm_compute; reflexivity) ltac:(lia) ltac:(lia) _) _).
  - intros k Hk. do 3 (destruct k as [|k]; [reflexivity|]).
    vm_compute in Hk. lia.
  - vm_compute. reflexivity.
Defined.

Lemma descending_pages_one_entry_witness :
  let src := fun k : nat => Some (1002 - Z.of_nat k) in
  sgv_alloc_sg_entries 12 (sg_init_table 3) 3 sgv_full_clustering None src
  = Some (1, [mk_sg (Some 1000) 0 12288; sg_zero; sg_zero], None,
      [EvAllocPage 1000; EvAllocPage 1001; EvAllocPage 1002]).
Proof.
  cbv zeta.
  refine (eq_trans
            (descending_pages_one_entry 12 ltac:(lia) 3 1002
               (fun k : nat => Some (1002 - Z.of_nat k)) ltac:(lia)
               ltac:(vm_compute; reflexivity) ltac:(lia) ltac:(lia) _) _).
  - intros k Hk. reflexivity.
  - vm_compute. reflexivity.
Defined.

(** A request of 5000 bytes that bypasses the cache, on the clustered pool:
    two adjacent pages in one entry, cut to 5000 bytes. *)
Definition uncached_call : option alloc_result :=
  alloc_on 1000 5000 (mk_flags true false false) 0 quota100 42 kernel_bounded
    (boot_state sgv_full_clustering).

Lemma big_alloc_free_pages_witness :
  let r := the_result uncached_call in
  let o := the_object r in
  let g' := snd (sgv_pool_free 12 100 o (res_mem_lim r) 9 (res_state r)) in
  sg_entries o = [mk_sg (Some 1000) 0 5000; sg_zero] /\
  exists A F,
    Z.of_nat (length A) = 2 /\ F ≡ₚ A /\
    trace g' =
      EvQuotaSub 2 :: EvTotalSub 2 :: EvObjFree 100
      :: rev (map EvFreePage F) ++ trace (res_state r) /\
    sgv_pages_total g' = 0.
Proof.
  cbv zeta. split; [vm_compute; reflexivity|].
  destruct (big_alloc_free_pages 12 ltac:(lia) 11 4 5 1000 0 100 0%nat 5000
              (mk_flags true false false) 0 quota100 42 kernel_bounded
              (boot_state sgv_full_clustering) (the_result uncached_call)
              (the_object (the_result uncached_call)) 9)
    as (A & F & H1 & H2 & _ & H4 & H5 & _).
  - split; [lia|]. split; [vm_compute; discriminate|].
    split; [vm_compute; reflexivity|]. exact kernel_bounded_ok.
  - vm_compute. reflexivity.
  - vm_compute. reflexivity.
  - vm_compute. discriminate.
  - vm_compute. reflexivity.
  - exists A, F. split; [exact H1|]. split; [exact H2|]. split; [exact H4|].
    refine (eq_trans H5 _). vm_compute. reflexivity.
Defined.

(** A four-page request on the clustered pool with
    [SCST_POOL_RETURN_OBJ_ON_ALLOC_FAIL], whose pages are not adjacent and
    whose fourth page cannot be had. *)
Definition fourth_page_fails : alloc_env :=
  mk_env (Some 100%nat) true true (fun _ => mk_tt 77 88)
    (fun k => match k with
              | 0%nat => Some 1000 | 1%nat => Some 3000 | 2%nat => Some 5000
              | _ => None
              end) 5.

Definition stale_call : option alloc_result :=
  alloc_on 1000 16384 (mk_flags false false true) 0 quota100 7 fourth_page_fails
    (boot_state sgv_full_clustering).

(** X26. The refill, through [*sgv], of the object that a failed fill
    handed back leaves the translation table on a pool with clustering.
    [stale_call] gets three pages, frees them when the fourth is refused and
    hands its object back with [sg_count] 0, a table of four entries and an
    SG array that still holds the four entries of the failed fill.  The
    refill does not clear the array.  With four adjacent pages it fills
    entry 0 alone, 16384 bytes long, clears entry 1, into which it put each
    page before merging it, and leaves the old entries 2 and 3.  Its table
    loop reads the lengths of all four entries: after the four pages of
    entry 0 and none of entry 1 it comes to the page of the old entry 2 and
    stores at index 4 of the table, which has none; [sgv_alloc_sg_entries],
    and with it [sgv_pool_alloc], has no result. *)
Theorem stale_refill_leaves_table :
  exists r o t sg t1 t2 t3,
    stale_call = Some r /\ res_sg r = None /\ res_sgv r = Some o /\
    sg_count o = 0 /\
    map sg_page (sg_entries o) = [Some 1000; Some 3000; Some 5000; None] /\
    map sg_length (sg_entries o) = [4096; 4096; 4096; 4096] /\
    trans_tbl o = Some t /\ length t = 4%nat /\
    fill_pages 12 4 0 (env_page_src kernel_bounded) sgv_full_clustering
      (sg_entries o) 0 (-1) []
    = (true, sg, 1,
       [EvAllocPage 1003; EvAllocPage 1002; EvAllocPage 1001; EvAllocPage 1000]) /\
    map sg_length sg = [16384; 0; 4096; 4096] /\
    tbl_mark 4 (default [] (tt_set_pg_count t 0 0)) 0 1 = Some (t1, 4) /\
    tt_set_pg_count t1 1 4 = Some t2 /\
    tt_set_pg_count t2 2 4 = Some t3 /\
    tt_set_sg_num t3 4 3 = None /\
    tbl_fill 12 4 0 sg t 0 = None /\
    sgv_alloc_sg_entries 12 (sg_entries o) 4 sgv_full_clustering (trans_tbl o)
      (env_page_src kernel_bounded) = None /\
    sgv_pool_alloc 12 11 4 5 1000 0 0%nat 16384 false no_flags 0 (Some o)
      (res_mem_lim r) 9 kernel_bounded (res_state r) = None.
Proof.
  eexists. eexists. eexists. eexists. eexists. eexists. eexists.
  split; [vm_compute; reflexivity|].
  split; [reflexivity|]. split; [reflexivity|]. split; [reflexivity|].
  split; [reflexivity|]. split; [reflexivity|]. split; [reflexivity|].
  split; [reflexivity|]. split; [vm_compute; reflexivity|].
  split; [reflexivity|]. split; [vm_compute; reflexivity|].
  split; [vm_compute; reflexivity|]. split; [vm_compute; reflexivity|].
  split; [vm_compute; reflexivity|]. split; [vm_compute; reflexivity|].
  split; vm_compute; reflexivity.
Qed.

(** * The pool registry *)

(** [sgv_evaluate_local_order], [sgv_pool_init], [sgv_pool_deinit],
    [sgv_pool_create], the reference count and [scst_sgv_pools_init]: the
    globals they assign, the list of pools, the slab caches of each pool
    and [sgv_pools_mutex].

    Conventions.
    - A pool is named by its address, a [nat]; a C string is the list of
      its characters before the terminating NUL.
    - The model follows one task.  [sgv_pools_mutex] is a kernel mutex, which
      is not recursive: a task that locks it while holding it does not
      return, and a call that does not return yields [None].
    - What [kzalloc] and [kmem_cache_create] answer are inputs.
    - Slab caches, the purge work and the shrinker are recorded as
      [reg_event]s, most recent first. *)

Section Registry.

Variable PAGE_SHIFT : Z.
Hypothesis PAGE_SHIFT_range : 0 < PAGE_SHIFT < 31.
Variable SGV_POOL_ELEMENTS : Z.

(** [sizeof(struct sgv_pool_obj)], [sizeof(struct scatterlist)],
    [sizeof(struct trans_tbl_ent)] and [sizeof(pool->name)]. *)
Variables sizeof_obj sizeof_sg sizeof_tt : Z.
Variable NAME_SIZE : Z.

Local Abbreviation PAGE_SZ := (PAGE_SIZE PAGE_SHIFT).

Inductive reg_event : Type :=
| EvCacheCreate (pool : nat) (i size : Z)  (* kmem_cache_create, not NULL *)
| EvCacheDestroy (pool : nat) (i : Z)      (* kmem_cache_destroy *)
| EvPoolFree (pool : nat)                  (* kfree(pool) *)
| EvCancelWork (pool : nat)                (* cancel_delayed_work_sync *)
| EvRegisterShrinker
| EvUnregisterShrinker
| EvFlushScheduledWork.

(** The fields of [struct sgv_pool] that the registry reads and writes;
    [caches i] tells whether [pool->caches[i]] is not [NULL]. *)
Record pool_desc : Type := mk_desc {
  name : list Ascii.ascii;
  owner_mm : nat;
  sgv_pool_ref : Z;
  caches : Z -> bool
}.

Record registry : Type := mk_reg {
  sgv_hi_wmk : Z;
  sgv_lo_wmk : Z;
  sgv_max_local_order : Z;
  sgv_max_trans_order : Z;
  sgv_pools_list : list nat;
  sgv_pools_mutex : bool;        (* held *)
  descs : nat -> pool_desc;
  mem : sgv_state;
  reg_trace : list reg_event
}.

Definition set_wmk (hi lo : Z) (R : registry) : registry :=
  mk_reg hi lo (sgv_max_local_order R) (sgv_max_trans_order R)
    (sgv_pools_list R) (sgv_pools_mutex R) (descs R) (mem R) (reg_trace R).

Definition set_orders (lo tr : Z) (R : registry) : registry :=
  mk_reg (sgv_hi_wmk R) (sgv_lo_wmk R) lo tr
    (sgv_pools_list R) (sgv_pools_mutex R) (descs R) (mem R) (reg_trace R).

Definition set_list (l : list nat) (R : registry) : registry :=
  mk_reg (sgv_hi_wmk R) (sgv_lo_wmk R) (sgv_max_local_order R)
    (sgv_max_trans_order R) l (sgv_pools_mutex R) (descs R) (mem R)
    (reg_trace R).

Definition set_mutex (held : bool) (R : registry) : registry :=
  mk_reg (sgv_hi_wmk R) (sgv_lo_wmk R) (sgv_max_local_order R)
    (sgv_max_trans_order R) (sgv_pools_list R) held (descs R) (mem R)
    (reg_trace R).

Definition set_desc (pool : nat) (d : pool_desc) (R : registry) : registry :=
  mk_reg (sgv_hi_wmk R) (sgv_lo_wmk R) (sgv_max_local_order R)
    (sgv_max_trans_order R) (sgv_pools_list R) (sgv_pools_mutex R)
    (fun q => if Nat.eqb q pool then d else descs R q) (mem R) (reg_trace R).

Definition set_mem (g : sgv_state) (R : registry) : registry :=
  mk_reg (sgv_hi_wmk R) (sgv_lo_wmk R) (sgv_max_local_order R)
    (sgv_max_trans_order R) (sgv_pools_list R) (sgv_pools_mutex R) (descs R)
    g (reg_trace R).

Definition log_reg (e : reg_event) (R : registry) : registry :=
  mk_reg (sgv_hi_wmk R) (sgv_lo_wmk R) (sgv_max_local_order R)
    (sgv_max_trans_order R) (sgv_pools_list R) (sgv_pools_mutex R) (descs R)
    (mem R) (e :: reg_trace R).

Definition set_cache (pool : nat) (i : Z) (v : bool) (R : registry) : registry :=
  let d := descs R pool in
  set_desc pool
    (mk_desc (name d) (owner_mm d) (sgv_pool_ref d)
       (fun j => if j =? i then v else caches d j)) R.

Definition set_ref (pool : nat) (v : Z) (R : registry) : registry :=
  let d := descs R pool in
  set_desc pool (mk_desc (name d) (owner_mm d) v (caches d)) R.

(** [strcmp(a, b) == 0]. *)
Fixpoint name_eqb (a b : list Ascii.ascii) : bool :=
  match a, b with
  | [], [] => true
  | x :: a', y :: b' => Ascii.eqb x y && name_eqb a' b'
  | _, _ => false
  end.

(** [x & PAGE_MASK]. *)
Definition page_floor (x : Z) : Z := Z.land x (Z.lnot (PAGE_SZ - 1)).

(** [sgv_evaluate_local_order]: the values it assigns to
    [sgv_max_local_order] and [sgv_max_trans_order]. *)
Definition sgv_evaluate_local_order : Z * Z :=
  let space4sgv_ttbl := wrap_int (PAGE_SZ - sizeof_obj) in
  let local :=
    wrap_int
      (get_order PAGE_SHIFT
         (page_floor
            (wrap_ulong (wrap_ulong space4sgv_ttbl / (sizeof_tt + sizeof_sg)
                         * PAGE_SZ))) - 1) in
  let trans :=
    wrap_int
      (get_order PAGE_SHIFT
         (page_floor
            (wrap_ulong (wrap_ulong space4sgv_ttbl / sizeof_tt * PAGE_SZ)))
       - 1) in
  (local, trans).

(** The [size] that [sgv_pool_init] passes to [kmem_cache_create] for
    cache [i]. *)
Definition cache_obj_size (ct : sgv_clustering_types) (i : Z) (R : registry)
  : Z :=
  let tt := match ct with sgv_no_clustering => 0 | _ => sizeof_tt end in
  if i <=? sgv_max_local_order R then
    wrap_int (wrap_ulong (sizeof_obj + wrap_int (Z.shiftl 1 i) * (sizeof_sg + tt)))
  else if i <=? sgv_max_trans_order R then
    wrap_int (wrap_ulong (sizeof_obj + wrap_int (Z.shiftl 1 i) * tt))
  else wrap_int sizeof_obj.

(** The cache loop of [sgv_pool_init], entered with [n] caches to go;
    [false] is [goto out_free]. *)
Fixpoint init_caches (n : nat) (i : Z) (pool : nat)
    (ct : sgv_clustering_types) (kmem_ok : Z -> bool) (R : registry)
  : bool * registry :=
  match n with
  | O => (true, R)
  | S n' =>
      if kmem_ok i then
        init_caches n' (i + 1) pool ct kmem_ok
          (log_reg (EvCacheCreate pool i (cache_obj_size ct i R))
             (set_cache pool i true R))
      else (false, R)
  end.

(** The loop at [out_free], which stops at the first [NULL] cache. *)
Fixpoint free_caches (n : nat) (i : Z) (pool : nat) (R : registry) : registry :=
  match n with
  | O => R
  | S n' =>
      if caches (descs R pool) i then
        free_caches n' (i + 1) pool
          (set_cache pool i false (log_reg (EvCacheDestroy pool i) R))
      else R
  end.

(** [sgv_pool_init]; [kmem_ok i] tells whether [kmem_cache_create] gives a
    cache for index [i].  The list heads, which the code initialises only on
    success, are empty lists from the [memset] on. *)
Definition sgv_pool_init (pool : nat) (nm : list Ascii.ascii)
    (clustering_type : sgv_clustering_types) (current_mm : nat)
    (kmem_ok : Z -> bool) (R : registry) : Z * registry :=
  let R := set_desc pool
             (mk_desc (take (Z.to_nat (NAME_SIZE - 1)) nm) current_mm 0
                (fun _ => false)) R in
  let R := set_mem
             (set_pool pool (mk_pool clustering_type 0 0 0 false [] (fun _ => []))
                (mem R)) R in
  match init_caches (Z.to_nat SGV_POOL_ELEMENTS) 0 pool clustering_type
          kmem_ok R with
  | (true, R) =>
      let R := set_ref pool 1 R in
      (0, set_list (sgv_pools_list R ++ [pool]) R)
  | (false, R) =>
      (- ENOMEM, free_caches (Z.to_nat SGV_POOL_ELEMENTS) 0 pool R)
  end.

(** The last loop of [sgv_pool_deinit]. *)
Fixpoint destroy_caches (n : nat) (i : Z) (pool : nat) (R : registry)
  : registry :=
  match n with
  | O => R
  | S n' =>
      let R := if caches (descs R pool) i
               then log_reg (EvCacheDestroy pool i) R else R in
      destroy_caches n' (i + 1) pool (set_cache pool i false R)
  end.

(** [sgv_pool_deinit]. *)
Definition sgv_pool_deinit (pool : nat) (R : registry) : option registry :=
  let R := log_reg (EvCancelWork pool) R in
  let R := set_mem (sgv_pool_flush PAGE_SHIFT SGV_POOL_ELEMENTS pool (mem R)) R in
  if sgv_pools_mutex R then None
  else
    let R := set_mutex true R in
    let R := set_list (list_del_pool pool (sgv_pools_list R)) R in
    let R := set_mutex false R in
    Some (destroy_caches (Z.to_nat SGV_POOL_ELEMENTS) 0 pool R).

(** [sgv_pool_destroy]. *)
Definition sgv_pool_destroy (pool : nat) (R : registry) : option registry :=
  match sgv_pool_deinit pool R with
  | Some R => Some (log_reg (EvPoolFree pool) R)
  | None => None
  end.

(** [sgv_pool_get]. *)
Definition sgv_pool_get (pool : nat) (R : registry) : registry :=
  set_ref pool (wrap_int (sgv_pool_ref (descs R pool) + 1)) R.

(** [sgv_pool_put]. *)
Definition sgv_pool_put (pool : nat) (R : registry) : option registry :=
  let R := set_ref pool (wrap_int (sgv_pool_ref (descs R pool) - 1)) R in
  if sgv_pool_ref (descs R pool) =? 0 then sgv_pool_destroy pool R
  else Some R.

(** [sgv_pool_del]. *)
Definition sgv_pool_del (pool : nat) (R : registry) : option registry :=
  sgv_pool_put pool R.

(** [sgv_pool_create]; [kzalloc] is the address of the new pool, if the
    allocation succeeds.  The result is the pool returned, [None] for
    [NULL]. *)
Definition sgv_pool_create (nm : list Ascii.ascii)
    (clustering_type : sgv_clustering_types) (shared : bool)
    (current_mm : nat) (kzalloc : option nat) (kmem_ok : Z -> bool)
    (R : registry) : option (option nat * registry) :=
  if sgv_pools_mutex R then None
  else
    let R := set_mutex true R in
    let '(res, R) :=
      match find (fun p => name_eqb (name (descs R p)) nm) (sgv_pools_list R) with
      | Some pool =>
          if shared then
            if negb (Nat.eqb (owner_mm (descs R pool)) current_mm)
            then (None, R)
            else (Some pool, sgv_pool_get pool R)
          else (None, R)
      | None =>
          match kzalloc with
          | None => (None, R)
          | Some pool =>
              let '(rc, R) :=
                sgv_pool_init pool nm clustering_type current_mm kmem_ok R in
              if negb (rc =? 0) then (None, log_reg (EvPoolFree pool) R)
              else (Some pool, R)
          end
      end in
    Some (res, set_mutex false R).

(** The three pools of the module, by address. *)
Definition sgv_norm_pool : nat := 0.
Definition sgv_norm_clust_pool : nat := 1.
Definition sgv_dma_pool : nat := 2.

(** The names [sgv], [sgv-clust] and [sgv-dma], by character code. *)
Definition sgv_name : list Ascii.ascii :=
  map Ascii.ascii_of_nat [115; 103; 118]%nat.

Definition sgv_clust_name : list Ascii.ascii :=
  map Ascii.ascii_of_nat [115; 103; 118; 45; 99; 108; 117; 115; 116]%nat.

Definition sgv_dma_name : list Ascii.ascii :=
  map Ascii.ascii_of_nat [115; 103; 118; 45; 100; 109; 97]%nat.

(** [scst_sgv_pools_init]; [kmem_ok pool i] answers for the caches of each
    pool. *)
Definition scst_sgv_pools_init (mem_hwmark mem_lwmark : Z) (current_mm : nat)
    (kmem_ok : nat -> Z -> bool) (R : registry) : option (Z * registry) :=
  let R := set_wmk (wrap_int mem_hwmark) (wrap_int mem_lwmark) R in
  let R := set_orders (fst sgv_evaluate_local_order)
             (snd sgv_evaluate_local_order) R in
  if sgv_pools_mutex R then None
  else
    let R := set_mutex true R in
    let '(res, R) :=
      sgv_pool_init sgv_norm_pool sgv_name sgv_no_clustering current_mm
        (kmem_ok sgv_norm_pool) R in
    if negb (res =? 0) then Some (res, set_mutex false R)
    else
      let '(res, R) :=
        sgv_pool_init sgv_norm_clust_pool sgv_clust_name
          sgv_full_clustering current_mm (kmem_ok sgv_norm_clust_pool) R in
      if negb (res =? 0) then
        (* out_free_norm *)
        match sgv_pool_deinit sgv_norm_pool R with
        | Some R => Some (res, set_mutex false R)
        | None => None
        end
      else
        let '(res, R) :=
          sgv_pool_init sgv_dma_pool sgv_dma_name sgv_no_clustering
            current_mm (kmem_ok sgv_dma_pool) R in
        if negb (res =? 0) then
          (* out_free_clust, out_free_norm *)
          match sgv_pool_deinit sgv_norm_clust_pool R with
          | Some R =>
              match sgv_pool_deinit sgv_norm_pool R with
              | Some R => Some (res, set_mutex false R)
              | None => None
              end
          | None => None
          end
        else
          let R := set_mutex false R in
          Some (res, log_reg EvRegisterShrinker R).

(** [scst_sgv_pools_deinit]. *)
Definition scst_sgv_pools_deinit (R : registry) : option registry :=
  let R := log_reg EvUnregisterShrinker R in
  match sgv_pool_deinit sgv_dma_pool R with
  | Some R =>
      match sgv_pool_deinit sgv_norm_pool R with
      | Some R =>
          match sgv_pool_deinit sgv_norm_clust_pool R with
          | Some R => Some (log_reg EvFlushScheduledWork R)
          | None => None
          end
      | None => None
      end
  | None => None
  end.


(** * Properties of the registry *)

Ltac splits := repeat match goal with |- _ /\ _ => split end.

(** ** Layout limits *)

Lemma page_floor_pages (q : Z) : 0 <= q -> page_floor (q * PAGE_SZ) = q * PAGE_SZ.
Proof.
  intros Hq. unfold page_floor. rewrite <- Z.ldiff_land.
  rewrite PAGE_SIZE_eq by exact PAGE_SHIFT_range.
  replace (2 ^ PAGE_SHIFT - 1) with (Z.ones PAGE_SHIFT)
    by (rewrite Z.ones_equiv; lia).
  rewrite Z.ldiff_ones_r by lia.
  rewrite Z.shiftr_div_pow2, Z.shiftl_mul_pow2 by lia.
  rewrite Z.div_mul; [reflexivity|]. apply Z.pow_nonzero; lia.
Qed.

Lemma get_order_pages (q : Z) :
  0 <= q -> get_order PAGE_SHIFT (q * PAGE_SZ) = Z.log2_up q.
Proof.
  intros Hq. unfold get_order.
  pose proof (PAGE_SIZE_bounds PAGE_SHIFT PAGE_SHIFT_range) as HP.
  rewrite shiftr_page by exact PAGE_SHIFT_range. f_equal.
  replace (q * PAGE_SZ + PAGE_SZ - 1) with (PAGE_SZ - 1 + q * PAGE_SZ) by ring.
  rewrite Z.div_add by lia. rewrite Z.div_small by lia. lia.
Qed.

(** The order that [sgv_evaluate_local_order] derives from [q] entries
    that fit into the space left in a page. *)
Lemma order_of_entries (space sz : Z) :
  0 <= space <= 2 ^ 30 -> 0 < sz ->
  wrap_int
    (get_order PAGE_SHIFT
       (page_floor (wrap_ulong (wrap_ulong space / sz * PAGE_SZ))) - 1)
  = Z.log2_up (space / sz) - 1 /\
  forall i, 0 <= i <= Z.log2_up (space / sz) - 1 -> 2 ^ i * sz < space.
Proof.
  intros Hsp Hsz.
  pose proof (PAGE_SIZE_bounds PAGE_SHIFT PAGE_SHIFT_range) as HP.
  assert (Hq : 0 <= space / sz <= 2 ^ 30).
  { split; [apply Z.div_pos; lia|].
    apply Z.div_le_upper_bound; [lia|]. nia. }
  rewrite (wrap_ulong_id space) by (change (2 ^ 64) with (2 ^ 30 * 2 ^ 34); lia).
  rewrite wrap_ulong_id
    by (change (2 ^ 64) with (2 ^ 30 * 2 ^ 30 * 16); nia).
  rewrite page_floor_pages, get_order_pages by lia.
  assert (Hlog : 0 <= Z.log2_up (space / sz) <= 30).
  { split; [apply Z.log2_up_nonneg|].
    change 30 with (Z.log2_up (2 ^ 30)). apply Z.log2_up_le_mono. lia. }
  split; [apply wrap_int_id; lia|].
  intros i Hi.
  assert (H1 : 1 < space / sz).
  { destruct (Z_lt_le_dec 1 (space / sz)) as [|Hle]; [assumption|].
    rewrite (Z.log2_up_eqn0 (space / sz)) in Hi by lia. lia. }
  destruct (Z.log2_up_spec (space / sz) H1) as [Hlo _].
  assert (Hpow : 2 ^ i <= 2 ^ Z.pred (Z.log2_up (space / sz))).
  { apply Z.pow_le_mono_r; lia. }
  pose proof (Z.mul_div_le space sz Hsz). nia.
Qed.

(** X17. The layout limits fit the page: with the orders that
    [sgv_evaluate_local_order] computes, [-1 <= sgv_max_local_order <=
    sgv_max_trans_order], and the object size that [sgv_pool_init] asks of
    [kmem_cache_create] for any cache, with the SG array and the translation
    table embedded up to [sgv_max_local_order] and the table alone up to
    [sgv_max_trans_order], is never more than [PAGE_SIZE]. *)
Theorem cache_sizes_fit (ct : sgv_clustering_types) (i : Z) (R : registry) :
  0 < sizeof_obj <= PAGE_SZ -> 0 < sizeof_sg -> 0 < sizeof_tt ->
  sgv_max_local_order R = fst sgv_evaluate_local_order ->
  sgv_max_trans_order R = snd sgv_evaluate_local_order ->
  0 <= i < 31 ->
  -1 <= sgv_max_local_order R <= sgv_max_trans_order R /\
  sizeof_obj <= cache_obj_size ct i R <= PAGE_SZ.
Proof.
  intros Hobj Hsg Htt Hlo Htr Hi.
  pose proof (PAGE_SIZE_bounds PAGE_SHIFT PAGE_SHIFT_range) as HP.
  unfold sgv_evaluate_local_order in Hlo, Htr. cbv zeta in Hlo, Htr.
  simpl fst in Hlo. simpl snd in Htr.
  rewrite (wrap_int_id (PAGE_SZ - sizeof_obj)) in Hlo, Htr by lia.
  destruct (order_of_entries (PAGE_SZ - sizeof_obj) (sizeof_tt + sizeof_sg)
              ltac:(lia) ltac:(lia)) as [El Fl].
  destruct (order_of_entries (PAGE_SZ - sizeof_obj) sizeof_tt
              ltac:(lia) ltac:(lia)) as [Et Ft].
  rewrite El in Hlo. rewrite Et in Htr.
  assert (Hmono : Z.log2_up ((PAGE_SZ - sizeof_obj) / (sizeof_tt + sizeof_sg))
                  <= Z.log2_up ((PAGE_SZ - sizeof_obj) / sizeof_tt)).
  { apply Z.log2_up_le_mono. apply Z.div_le_compat_l; lia. }
  pose proof (Z.log2_up_nonneg ((PAGE_SZ - sizeof_obj) / (sizeof_tt + sizeof_sg))).
  split; [lia|].
  assert (Hsh : wrap_int (Z.shiftl 1 i) = 2 ^ i).
  { rewrite Z.shiftl_mul_pow2, Z.mul_1_l by lia. apply wrap_int_id.
    assert (1 <= 2 ^ i <= 2 ^ 30).
    { split; [apply (Z.pow_le_mono_r 2 0); lia|apply Z.pow_le_mono_r; lia]. }
    lia. }
  assert (Hpos : 1 <= 2 ^ i) by (apply (Z.pow_le_mono_r 2 0); lia).
  unfold cache_obj_size. cbv zeta. rewrite Hsh.
  set (tt := match ct with sgv_no_clustering => 0 | _ => sizeof_tt end).
  assert (Htt' : 0 <= tt <= sizeof_tt) by (unfold tt; destruct ct; lia).
  assert (Hid : forall x, sizeof_obj <= x <= PAGE_SZ ->
            sizeof_obj <= wrap_int (wrap_ulong x) <= PAGE_SZ).
  { intros x Hx.
    rewrite wrap_ulong_id by (change (2 ^ 64) with (2 ^ 30 * 2 ^ 34); lia).
    rewrite wrap_int_id; lia. }
  destruct (Z.leb_spec i (sgv_max_local_order R)) as [Hil|Hil].
  - apply Hid. specialize (Fl i ltac:(lia)). nia.
  - destruct (Z.leb_spec i (sgv_max_trans_order R)) as [Hit|Hit].
    + apply Hid. specialize (Ft i ltac:(lia)). nia.
    + rewrite wrap_int_id; lia.
Qed.

(** ** [sgv_pool_init] *)

(** The indices [i, i + 1, ..., i + m - 1]. *)
Fixpoint upto (i : Z) (m : nat) : list Z :=
  match m with
  | O => []
  | S m' => i :: upto (i + 1) m'
  end.

(** [R'] differs from [R] at most in the caches of [pool] and in the
    trace. *)
Definition reg_same_but (pool : nat) (R R' : registry) : Prop :=
  sgv_hi_wmk R' = sgv_hi_wmk R /\ sgv_lo_wmk R' = sgv_lo_wmk R /\
  sgv_max_local_order R' = sgv_max_local_order R /\
  sgv_max_trans_order R' = sgv_max_trans_order R /\
  sgv_pools_list R' = sgv_pools_list R /\
  sgv_pools_mutex R' = sgv_pools_mutex R /\
  mem R' = mem R /\
  (forall q, q <> pool -> descs R' q = descs R q) /\
  name (descs R' pool) = name (descs R pool) /\
  owner_mm (descs R' pool) = owner_mm (descs R pool) /\
  sgv_pool_ref (descs R' pool) = sgv_pool_ref (descs R pool).

Lemma reg_same_refl (pool : nat) (R : registry) : reg_same_but pool R R.
Proof. unfold reg_same_but. splits; auto. Qed.

Lemma reg_same_trans (pool : nat) (R1 R2 R3 : registry) :
  reg_same_but pool R1 R2 -> reg_same_but pool R2 R3 -> reg_same_but pool R1 R3.
Proof.
  intros (A1 & A2 & A3 & A4 & A5 & A6 & A7 & A8 & A9 & A10 & A11)
         (B1 & B2 & B3 & B4 & B5 & B6 & B7 & B8 & B9 & B10 & B11).
  unfold reg_same_but. splits; try congruence.
  intros q Hq. rewrite B8, A8; auto.
Qed.

Lemma reg_same_set_cache (pool : nat) (i : Z) (v : bool) (R : registry) :
  reg_same_but pool R (set_cache pool i v R).
Proof.
  unfold reg_same_but, set_cache. simpl. rewrite Nat.eqb_refl. simpl.
  splits; auto.
  intros q Hq. destruct (Nat.eqb_spec q pool); [contradiction|reflexivity].
Qed.

Lemma reg_same_log (pool : nat) (e : reg_event) (R : registry) :
  reg_same_but pool R (log_reg e R).
Proof. unfold reg_same_but. simpl. splits; auto. Qed.

Lemma set_cache_at (pool : nat) (i k : Z) (v : bool) (R : registry) :
  caches (descs (set_cache pool i v R) pool) k
  = if k =? i then v else caches (descs R pool) k.
Proof. unfold set_cache. simpl. rewrite Nat.eqb_refl. reflexivity. Qed.

Definition in_range (i : Z) (m : nat) (k : Z) : bool :=
  (i <=? k) && (k <? i + Z.of_nat m).

Lemma init_caches_run (pool : nat) (ct : sgv_clustering_types)
    (kmem_ok : Z -> bool) :
  forall (m n : nat) (i : Z) (R : registry),
  (m <= n)%nat ->
  (forall k, i <= k < i + Z.of_nat m -> kmem_ok k = true) ->
  m = n \/ kmem_ok (i + Z.of_nat m) = false ->
  let r := init_caches n i pool ct kmem_ok R in
  fst r = (m =? n)%nat /\
  reg_trace (snd r)
  = rev (map (fun k => EvCacheCreate pool k (cache_obj_size ct k R)) (upto i m))
    ++ reg_trace R /\
  (forall k, caches (descs (snd r) pool) k
             = if in_range i m k then true else caches (descs R pool) k) /\
  reg_same_but pool R (snd r).
Proof.
  induction m as [|m IH]; intros n i R Hle Hok Hend; cbv zeta.
  - destruct n as [|n]; simpl.
    + splits; auto using reg_same_refl.
      intros k. unfold in_range. rewrite Z.add_0_r.
      destruct (Z.leb_spec i k), (Z.ltb_spec k i); simpl; auto; lia.
    + destruct Hend as [|Hend]; [discriminate|].
      rewrite Z.add_0_r in Hend. rewrite Hend. simpl.
      splits; auto using reg_same_refl.
      intros k. unfold in_range. rewrite Z.add_0_r.
      destruct (Z.leb_spec i k), (Z.ltb_spec k i); simpl; auto; lia.
  - destruct n as [|n]; [lia|]. simpl init_caches.
    rewrite (Hok i) by lia.
    set (R1 := log_reg (EvCacheCreate pool i (cache_obj_size ct i R))
                 (set_cache pool i true R)).
    destruct (IH n (i + 1) R1 ltac:(lia)) as (I1 & I2 & I3 & I4).
    { intros k Hk. apply Hok. lia. }
    { destruct Hend as [Hend|Hend]; [left; lia|right].
      rewrite <- Hend. f_equal. lia. }
    cbv zeta in I1, I2, I3. splits.
    + rewrite I1. reflexivity.
    + rewrite I2. simpl. rewrite <- app_assoc. reflexivity.
    + intros k. rewrite I3.
      assert (Hc1 : caches (descs R1 pool) k
                    = if k =? i then true else caches (descs R pool) k)
        by exact (set_cache_at pool i k true R).
      rewrite Hc1. unfold in_range.
      destruct (Z.eqb_spec k i), (Z.leb_spec (i + 1) k), (Z.leb_spec i k),
        (Z.ltb_spec k (i + 1 + Z.of_nat m)), (Z.ltb_spec k (i + Z.of_nat (S m)));
        simpl; auto; lia.
    + eapply reg_same_trans; [|exact I4]. unfold R1.
      eapply reg_same_trans; [apply reg_same_set_cache|apply reg_same_log].
Qed.

Lemma free_caches_run (pool : nat) :
  forall (m n : nat) (i : Z) (R : registry),
  (m <= n)%nat ->
  (forall k, i <= k < i + Z.of_nat m -> caches (descs R pool) k = true) ->
  m = n \/ caches (descs R pool) (i + Z.of_nat m) = false ->
  let R' := free_caches n i pool R in
  reg_trace R' = rev (map (EvCacheDestroy pool) (upto i m)) ++ reg_trace R /\
  (forall k, caches (descs R' pool) k
             = if in_range i m k then false else caches (descs R pool) k) /\
  reg_same_but pool R R'.
Proof.
  induction m as [|m IH]; intros n i R Hle Hok Hend; cbv zeta.
  - assert (Hr : forall k, in_range i 0 k = false).
    { intros k. unfold in_range. rewrite Z.add_0_r.
      destruct (Z.leb_spec i k), (Z.ltb_spec k i); simpl; auto; lia. }
    destruct n as [|n]; simpl.
    + splits; auto using reg_same_refl. intros k. rewrite Hr. reflexivity.
    + destruct Hend as [|Hend]; [discriminate|].
      rewrite Z.add_0_r in Hend. rewrite Hend.
      splits; auto using reg_same_refl. intros k. rewrite Hr. reflexivity.
  - destruct n as [|n]; [lia|]. simpl free_caches.
    rewrite (Hok i) by lia.
    set (R1 := set_cache pool i false (log_reg (EvCacheDestroy pool i) R)).
    assert (Hc1 : forall k, caches (descs R1 pool) k
                            = if k =? i then false else caches (descs R pool) k).
    { intros k. unfold R1. rewrite set_cache_at. reflexivity. }
    destruct (IH n (i + 1) R1 ltac:(lia)) as (I1 & I2 & I3).
    { intros k Hk. rewrite Hc1. destruct (Z.eqb_spec k i); [lia|].
      apply Hok. lia. }
    { destruct Hend as [Hend|Hend]; [left; lia|right].
      rewrite Hc1. destruct (Z.eqb_spec (i + 1 + Z.of_nat m) i); [reflexivity|].
      rewrite <- Hend. f_equal. lia. }
    cbv zeta in I1, I2. splits.
    + rewrite I1. simpl. rewrite <- app_assoc. reflexivity.
    + intros k. rewrite I2, Hc1. unfold in_range.
      destruct (Z.eqb_spec k i), (Z.leb_spec (i + 1) k), (Z.leb_spec i k),
        (Z.ltb_spec k (i + 1 + Z.of_nat m)), (Z.ltb_spec k (i + Z.of_nat (S m)));
        simpl; auto; lia.
    + eapply reg_same_trans; [|exact I3]. unfold R1.
      eapply reg_same_trans; [apply reg_same_log|apply reg_same_set_cache].
Qed.

(** What [sgv_pool_init] leaves, for the first cache index [m] that
    [kmem_cache_create] refuses, if any. *)
Lemma pool_init_outcome (pool : nat) (nm : list Ascii.ascii)
    (ct : sgv_clustering_types) (current_mm : nat) (kmem_ok : Z -> bool)
    (R : registry) (m : nat) :
  (m <= Z.to_nat SGV_POOL_ELEMENTS)%nat ->
  (forall k, 0 <= k < Z.of_nat m -> kmem_ok k = true) ->
  m = Z.to_nat SGV_POOL_ELEMENTS \/ kmem_ok (Z.of_nat m) = false ->
  let r := sgv_pool_init pool nm ct current_mm kmem_ok R in
  let R' := snd r in
  let created :=
    map (fun k => EvCacheCreate pool k (cache_obj_size ct k R)) (upto 0 m) in
  (forall q, q <> pool ->
     descs R' q = descs R q /\ pools (mem R') q = pools (mem R) q) /\
  sgv_pools_mutex R' = sgv_pools_mutex R /\
  name (descs R' pool) = take (Z.to_nat (NAME_SIZE - 1)) nm /\
  owner_mm (descs R' pool) = current_mm /\
  if (m =? Z.to_nat SGV_POOL_ELEMENTS)%nat then
    fst r = 0 /\
    sgv_pools_list R' = sgv_pools_list R ++ [pool] /\
    sgv_pool_ref (descs R' pool) = 1 /\
    (forall k, caches (descs R' pool) k = in_range 0 m k) /\
    reg_trace R' = rev created ++ reg_trace R /\
    pools (mem R') pool = mk_pool ct 0 0 0 false [] (fun _ => [])
  else
    fst r = - ENOMEM /\
    sgv_pools_list R' = sgv_pools_list R /\
    (forall k, caches (descs R' pool) k = false) /\
    reg_trace R' =
      rev (map (EvCacheDestroy pool) (upto 0 m)) ++ rev created ++ reg_trace R.
Proof.
  intros Hm Hok Hend. cbv zeta. unfold sgv_pool_init.
  set (R0 := set_mem _ (set_desc pool _ R)).
  assert (H0 : forall q, q <> pool ->
            descs R0 q = descs R q /\ pools (mem R0) q = pools (mem R) q).
  { intros q Hq. unfold R0. simpl.
    destruct (Nat.eqb_spec q pool); [contradiction|]. split; reflexivity. }
  assert (H0p : descs R0 pool
                = mk_desc (take (Z.to_nat (NAME_SIZE - 1)) nm) current_mm 0
                    (fun _ => false)).
  { unfold R0. simpl. rewrite Nat.eqb_refl. reflexivity. }
  assert (H0m : pools (mem R0) pool = mk_pool ct 0 0 0 false [] (fun _ => [])).
  { unfold R0. simpl. rewrite Nat.eqb_refl. reflexivity. }
  assert (H0t : reg_trace R0 = reg_trace R) by reflexivity.
  assert (H0l : sgv_pools_list R0 = sgv_pools_list R) by reflexivity.
  assert (H0x : sgv_pools_mutex R0 = sgv_pools_mutex R) by reflexivity.
  assert (H0s : forall k, cache_obj_size ct k R0 = cache_obj_size ct k R)
    by reflexivity.
  clearbody R0.
  destruct (init_caches_run pool ct kmem_ok m (Z.to_nat SGV_POOL_ELEMENTS) 0 R0
              Hm ltac:(intros k Hk; apply Hok; lia)
              ltac:(destruct Hend; [left|right]; auto))
    as (I1 & I2 & I3 & I4).
  cbv zeta in I1, I2, I3.
  destruct (init_caches (Z.to_nat SGV_POOL_ELEMENTS) 0 pool ct kmem_ok R0)
    as [b R1].
  simpl in I1, I2, I3, I4. subst b.
  destruct I4 as (S1 & S2 & S3 & S4 & S5 & S6 & S7 & S8 & S9 & S10 & S11).
  rewrite H0p in S9, S10, S11. simpl in S9, S10, S11.
  rewrite H0t in I2. rewrite H0l in S5. rewrite H0x in S6.
  rewrite (List.map_ext
             (fun k => EvCacheCreate pool k (cache_obj_size ct k R0))
             (fun k => EvCacheCreate pool k (cache_obj_size ct k R))
             ltac:(intros k; cbv beta; rewrite H0s; reflexivity)) in I2.
  destruct (Nat.eqb_spec m (Z.to_nat SGV_POOL_ELEMENTS)) as [Heq|Hne].
  - simpl. rewrite Nat.eqb_refl. simpl. splits; auto.
    + intros q Hq. destruct (Nat.eqb_spec q pool); [contradiction|].
      rewrite S8, S7 by exact Hq. apply H0. exact Hq.
    + rewrite S5. reflexivity.
    + intros k. rewrite I3, H0p. simpl. destruct (in_range 0 m k); reflexivity.
    + rewrite S7. exact H0m.
  - destruct (free_caches_run pool m (Z.to_nat SGV_POOL_ELEMENTS) 0 R1 Hm)
      as (F1 & F2 & F3).
    { intros k Hk. rewrite I3. unfold in_range.
      destruct (Z.leb_spec 0 k), (Z.ltb_spec k (0 + Z.of_nat m)); simpl; auto;
        lia. }
    { right. rewrite I3, H0p. simpl. unfold in_range.
      destruct (Z.leb_spec 0 (0 + Z.of_nat m)),
        (Z.ltb_spec (0 + Z.of_nat m) (0 + Z.of_nat m)); simpl; auto; lia. }
    cbv zeta in F1, F2. simpl fst. simpl snd.
    destruct F3 as (T1 & T2 & T3 & T4 & T5 & T6 & T7 & T8 & T9 & T10 & T11).
    splits; try congruence.
    + intros q Hq. rewrite T8, T7, S8, S7 by exact Hq. apply H0. exact Hq.
    + intros k. rewrite F2, I3, H0p. simpl.
      destruct (in_range 0 m k); reflexivity.
Qed.

(** X18. [sgv_pool_init] either completes or unwinds.  When
    [kmem_cache_create] gives all [SGV_POOL_ELEMENTS] caches, the call
    returns 0 with every cache set, the reference count at one, empty lists
    and the pool appended to the end of [sgv_pools_list].  When the cache of
    index [m] is the first to be refused, the call returns [-ENOMEM], has
    destroyed each of the [m] caches it created, once and in the order of
    creation, leaves every cache pointer [NULL] and does not touch
    [sgv_pools_list].  Either way the name kept is the first
    [sizeof(pool->name) - 1] characters of the one given, and no other pool
    is touched. *)
Theorem pool_init_unwinds (pool : nat) (nm : list Ascii.ascii)
    (ct : sgv_clustering_types) (current_mm : nat) (kmem_ok : Z -> bool)
    (R : registry) (m : nat) :
  (m <= Z.to_nat SGV_POOL_ELEMENTS)%nat ->
  (forall k, 0 <= k < Z.of_nat m -> kmem_ok k = true) ->
  m = Z.to_nat SGV_POOL_ELEMENTS \/ kmem_ok (Z.of_nat m) = false ->
  let r := sgv_pool_init pool nm ct current_mm kmem_ok R in
  let R' := snd r in
  let created :=
    map (fun k => EvCacheCreate pool k (cache_obj_size ct k R)) (upto 0 m) in
  (forall q, q <> pool ->
     descs R' q = descs R q /\ pools (mem R') q = pools (mem R) q) /\
  sgv_pools_mutex R' = sgv_pools_mutex R /\
  name (descs R' pool) = take (Z.to_nat (NAME_SIZE - 1)) nm /\
  owner_mm (descs R' pool) = current_mm /\
  if (m =? Z.to_nat SGV_POOL_ELEMENTS)%nat then
    fst r = 0 /\
    sgv_pools_list R' = sgv_pools_list R ++ [pool] /\
    sgv_pool_ref (descs R' pool) = 1 /\
    (forall k, caches (descs R' pool) k = in_range 0 m k) /\
    reg_trace R' = rev created ++ reg_trace R /\
    pools (mem R') pool = mk_pool ct 0 0 0 false [] (fun _ => [])
  else
    fst r = - ENOMEM /\
    sgv_pools_list R' = sgv_pools_list R /\
    (forall k, caches (descs R' pool) k = false) /\
    reg_trace R' =
      rev (map (EvCacheDestroy pool) (upto 0 m)) ++ rev created ++ reg_trace R.
Proof. exact (pool_init_outcome pool nm ct current_mm kmem_ok R m). Qed.


(** ** [sgv_pool_create] *)

Lemma name_eqb_spec (a b : list Ascii.ascii) : name_eqb a b = true <-> a = b.
Proof.
  revert b. induction a as [|x a IH]; intros [|y b]; simpl;
    try (split; [discriminate|discriminate]); [tauto|].
  rewrite andb_true_iff, Ascii.eqb_eq, IH. split.
  - intros [-> ->]. reflexivity.
  - intros E. injection E as -> ->. auto.
Qed.

(** No two pools of the list carry the same name. *)
Definition names_distinct (R : registry) : Prop :=
  NoDup (map (fun p => name (descs R p)) (sgv_pools_list R)).

Lemma find_named (nm : list Ascii.ascii) (d : nat -> pool_desc) (pool : nat) :
  forall l : list nat,
  NoDup (map (fun p => name (d p)) l) -> In pool l -> name (d pool) = nm ->
  find (fun p => name_eqb (name (d p)) nm) l = Some pool.
Proof.
  induction l as [|p l IH]; intros Hnd Hin Hnm; [contradiction|].
  simpl in Hnd. apply NoDup_cons in Hnd as [Hp Hnd]. simpl.
  destruct (name_eqb (name (d p)) nm) eqn:E.
  - apply name_eqb_spec in E. destruct Hin as [->|Hin]; [reflexivity|].
    exfalso. apply Hp. rewrite E, <- Hnm. apply list_elem_of_In.
    apply in_map_iff. exists pool. auto.
  - destruct Hin as [->|Hin]; [|apply IH; auto].
    apply name_eqb_spec in Hnm. congruence.
Qed.

Lemma find_unnamed (nm : list Ascii.ascii) (d : nat -> pool_desc) :
  forall l : list nat,
  (forall p, In p l -> name (d p) <> nm) ->
  find (fun p => name_eqb (name (d p)) nm) l = None.
Proof.
  induction l as [|p l IH]; intros H; [reflexivity|]. simpl.
  destruct (name_eqb (name (d p)) nm) eqn:E.
  - apply name_eqb_spec in E. exfalso. apply (H p); [left; reflexivity|exact E].
  - apply IH. intros q Hq. apply H. right. exact Hq.
Qed.

Lemma unlock_lock (R : registry) :
  sgv_pools_mutex R = false -> set_mutex false (set_mutex true R) = R.
Proof. destruct R. simpl. intros ->. reflexivity. Qed.

Lemma unlock_get_lock (pool : nat) (R : registry) :
  sgv_pools_mutex R = false ->
  set_mutex false (sgv_pool_get pool (set_mutex true R)) = sgv_pool_get pool R.
Proof. destruct R. simpl. intros ->. reflexivity. Qed.

(** X19. [sgv_pool_create] with the name of a registered pool makes no
    pool.  When names are distinct in [sgv_pools_list], the pool of that name
    is the one found: a shared request from the owning address space gets that
    pool with its reference count raised by one and nothing else changed; a
    request that is not shared, or comes from another address space, gets
    [NULL] and leaves the registry exactly as it was.  The mutex is released
    in every case. *)
Theorem pool_create_existing (nm : list Ascii.ascii)
    (ct : sgv_clustering_types) (shared : bool) (current_mm : nat)
    (kzalloc : option nat) (kmem_ok : Z -> bool) (R : registry) (pool : nat) :
  sgv_pools_mutex R = false -> names_distinct R ->
  In pool (sgv_pools_list R) -> name (descs R pool) = nm ->
  sgv_pool_create nm ct shared current_mm kzalloc kmem_ok R
  = Some (if shared && Nat.eqb (owner_mm (descs R pool)) current_mm
          then (Some pool, sgv_pool_get pool R)
          else (None, R)) /\
  sgv_pools_mutex (sgv_pool_get pool R) = false /\
  sgv_pools_list (sgv_pool_get pool R) = sgv_pools_list R /\
  sgv_pool_ref (descs (sgv_pool_get pool R) pool)
  = wrap_int (sgv_pool_ref (descs R pool) + 1).
Proof.
  intros Hmx Hnd Hin Hnm. split.
  - unfold sgv_pool_create. rewrite Hmx.
    change (sgv_pools_list (set_mutex true R)) with (sgv_pools_list R).
    change (descs (set_mutex true R)) with (descs R).
    rewrite (find_named nm (descs R) pool (sgv_pools_list R) Hnd Hin Hnm).
    destruct shared; simpl.
    + destruct (Nat.eqb (owner_mm (descs R pool)) current_mm); simpl.
      * rewrite unlock_get_lock by exact Hmx. reflexivity.
      * rewrite unlock_lock by exact Hmx. reflexivity.
    + rewrite unlock_lock by exact Hmx. reflexivity.
  - unfold sgv_pool_get, set_ref. simpl. rewrite Nat.eqb_refl. simpl. auto.
Qed.

(** A call of [sgv_pool_create] whose name is not registered, with a pool
    from [kzalloc]: [m] is the first cache index refused, if any. *)
Lemma pool_create_miss (nm : list Ascii.ascii) (ct : sgv_clustering_types)
    (shared : bool) (current_mm : nat) (pool : nat) (kmem_ok : Z -> bool)
    (R : registry) (m : nat) :
  sgv_pools_mutex R = false ->
  (forall p, In p (sgv_pools_list R) -> name (descs R p) <> nm) ->
  (m <= Z.to_nat SGV_POOL_ELEMENTS)%nat ->
  (forall k, 0 <= k < Z.of_nat m -> kmem_ok k = true) ->
  m = Z.to_nat SGV_POOL_ELEMENTS \/ kmem_ok (Z.of_nat m) = false ->
  let ok := (m =? Z.to_nat SGV_POOL_ELEMENTS)%nat in
  let created :=
    map (fun k => EvCacheCreate pool k (cache_obj_size ct k R)) (upto 0 m) in
  exists R',
    sgv_pool_create nm ct shared current_mm (Some pool) kmem_ok R
    = Some (if ok then Some pool else None, R') /\
    sgv_pools_mutex R' = false /\
    (forall q, q <> pool ->
       descs R' q = descs R q /\ pools (mem R') q = pools (mem R) q) /\
    sgv_pools_list R'
    = (if ok then sgv_pools_list R ++ [pool] else sgv_pools_list R) /\
    (ok = true ->
     name (descs R' pool) = take (Z.to_nat (NAME_SIZE - 1)) nm /\
     owner_mm (descs R' pool) = current_mm /\
     (forall k, caches (descs R' pool) k = in_range 0 m k) /\
     sgv_pool_ref (descs R' pool) = 1) /\
    reg_trace R' =
      (if ok then []
       else EvPoolFree pool :: rev (map (EvCacheDestroy pool) (upto 0 m)))
      ++ rev created ++ reg_trace R.
Proof.
  intros Hmx Hmiss Hm Hok Hend ok created.
  unfold sgv_pool_create. rewrite Hmx.
  change (sgv_pools_list (set_mutex true R)) with (sgv_pools_list R).
  change (descs (set_mutex true R)) with (descs R).
  rewrite (find_unnamed nm (descs R) (sgv_pools_list R) Hmiss).
  pose proof (pool_init_outcome pool nm ct current_mm kmem_ok (set_mutex true R)
                m Hm Hok Hend) as H.
  cbv zeta in H. fold ok in H.
  destruct (sgv_pool_init pool nm ct current_mm kmem_ok (set_mutex true R))
    as [rc R1].
  simpl fst in H. simpl snd in H.
  destruct H as (P1 & P2 & P3 & P4 & P5).
  destruct ok.
  - destruct P5 as (-> & Q2 & Q3 & Q4 & Q5 & _). simpl.
    eexists. split; [reflexivity|]. simpl. splits; auto.
  - destruct P5 as (-> & Q2 & Q3 & Q4).
    change (negb (- ENOMEM =? 0)) with true. cbv iota.
    eexists. split; [reflexivity|]. simpl. splits; auto.
    + discriminate.
    + rewrite Q4. reflexivity.
Qed.

Lemma names_distinct_kept (pool : nat) (R R' : registry) :
  names_distinct R -> ~ In pool (sgv_pools_list R) ->
  (forall q, q <> pool -> descs R' q = descs R q) ->
  (sgv_pools_list R' = sgv_pools_list R \/
   sgv_pools_list R' = sgv_pools_list R ++ [pool] /\
   forall p, In p (sgv_pools_list R) -> name (descs R p) <> name (descs R' pool)) ->
  names_distinct R'.
Proof.
  intros Hnd Hfresh Hsame Hl. unfold names_distinct in *.
  assert (Hmap : map (fun p => name (descs R' p)) (sgv_pools_list R)
                 = map (fun p => name (descs R p)) (sgv_pools_list R)).
  { apply map_ext_in. intros p Hp. rewrite Hsame; [reflexivity|].
    intros ->. contradiction. }
  destruct Hl as [->|[-> Hnew]].
  - rewrite Hmap. exact Hnd.
  - rewrite map_app, Hmap. simpl. apply NoDup_app. split; [exact Hnd|].
    split; [|apply NoDup_singleton].
    intros x Hx Hx'. apply list_elem_of_singleton in Hx'. subst x.
    apply list_elem_of_In, in_map_iff in Hx as (p & Hp1 & Hp2).
    apply (Hnew p Hp2). exact Hp1.
Qed.

(** X20. [sgv_pool_create] with a name that is not registered and a pool
    from [kzalloc].  When all caches can be created the new pool is
    returned, registered at the end of [sgv_pools_list] with a reference count
    of one and the caller's address space as owner.  When cache [m] is
    refused the call returns [NULL] after destroying the caches it made and
    freeing the pool, and the list is as before.  The mutex is released, no
    other pool is touched, and for a name shorter than [sizeof(pool->name)]
    the names in the list stay distinct. *)
Theorem pool_create_new (nm : list Ascii.ascii) (ct : sgv_clustering_types)
    (shared : bool) (current_mm : nat) (pool : nat) (kmem_ok : Z -> bool)
    (R : registry) (m : nat) :
  sgv_pools_mutex R = false ->
  (forall p, In p (sgv_pools_list R) -> name (descs R p) <> nm) ->
  (m <= Z.to_nat SGV_POOL_ELEMENTS)%nat ->
  (forall k, 0 <= k < Z.of_nat m -> kmem_ok k = true) ->
  m = Z.to_nat SGV_POOL_ELEMENTS \/ kmem_ok (Z.of_nat m) = false ->
  let ok := (m =? Z.to_nat SGV_POOL_ELEMENTS)%nat in
  exists R',
    sgv_pool_create nm ct shared current_mm (Some pool) kmem_ok R
    = Some (if ok then Some pool else None, R') /\
    sgv_pools_mutex R' = false /\
    (forall q, q <> pool -> descs R' q = descs R q) /\
    sgv_pools_list R'
    = (if ok then sgv_pools_list R ++ [pool] else sgv_pools_list R) /\
    (ok = true ->
     owner_mm (descs R' pool) = current_mm /\
     sgv_pool_ref (descs R' pool) = 1 /\
     (forall k, 0 <= k < SGV_POOL_ELEMENTS -> caches (descs R' pool) k = true) /\
     name (descs R' pool) = take (Z.to_nat (NAME_SIZE - 1)) nm) /\
    (ok = false ->
     reg_trace R' =
       EvPoolFree pool :: rev (map (EvCacheDestroy pool) (upto 0 m))
       ++ rev (map (fun k => EvCacheCreate pool k (cache_obj_size ct k R))
                 (upto 0 m))
       ++ reg_trace R) /\
    (Z.of_nat (length nm) < NAME_SIZE -> names_distinct R ->
     ~ In pool (sgv_pools_list R) -> names_distinct R').
Proof.
  intros Hmx Hmiss Hm Hok Hend ok.
  destruct (pool_create_miss nm ct shared current_mm pool kmem_ok R m
              Hmx Hmiss Hm Hok Hend)
    as (R' & C1 & C2 & C3 & C4 & C5 & C6).
  cbv zeta in C1, C4, C5, C6. fold ok in C1, C4, C5, C6.
  exists R'. splits; auto.
  - intros q Hq. apply C3. exact Hq.
  - intros Ht. destruct (C5 Ht) as (N1 & N2 & N3 & N4). splits; auto.
    intros k Hk. rewrite N3. unfold ok in Ht. apply Nat.eqb_eq in Ht.
    unfold in_range.
    destruct (Z.leb_spec 0 k), (Z.ltb_spec k (0 + Z.of_nat m)); simpl; auto;
      lia.
  - intros Hf. rewrite C6, Hf. reflexivity.
  - intros Hfit Hnd Hfresh.
    apply (names_distinct_kept pool R R' Hnd Hfresh).
    + intros q Hq. apply C3. exact Hq.
    + rewrite C4. destruct ok; [right|left; reflexivity].
      split; [reflexivity|].
      destruct (C5 eq_refl) as (N1 & _). rewrite N1, take_ge by lia.
      exact Hmiss.
Qed.

Lemma find_app_last {A : Type} (f : A -> bool) (l : list A) (x : A) :
  find f l = None -> find f (l ++ [x]) = if f x then Some x else None.
Proof.
  induction l as [|a l IH]; simpl; [reflexivity|].
  destruct (f a); [discriminate|exact IH].
Qed.

(** X21. The same name given twice to [sgv_pool_create], not shared.  The
    first call registers a pool.  When the name is shorter than
    [sizeof(pool->name)] the second call finds it, returns [NULL] and
    changes nothing.  When the name is that long or longer, the pool keeps
    only its first [sizeof(pool->name) - 1] characters, the comparison with
    the full name fails, and the second call succeeds: two pools of the list
    then carry the same name. *)
Theorem create_same_name_twice (nm : list Ascii.ascii)
    (ct : sgv_clustering_types) (current_mm : nat) (p1 p2 : nat)
    (kmem_ok : Z -> bool) (R : registry) :
  sgv_pools_mutex R = false ->
  (forall p, In p (sgv_pools_list R) -> name (descs R p) <> nm) ->
  ~ In p1 (sgv_pools_list R) -> p1 <> p2 -> 1 <= NAME_SIZE ->
  (forall k, 0 <= k < SGV_POOL_ELEMENTS -> kmem_ok k = true) ->
  exists R1,
    sgv_pool_create nm ct false current_mm (Some p1) kmem_ok R
    = Some (Some p1, R1) /\
    if Z.of_nat (length nm) <? NAME_SIZE then
      sgv_pool_create nm ct false current_mm (Some p2) kmem_ok R1
      = Some (None, R1)
    else
      exists R2,
        sgv_pool_create nm ct false current_mm (Some p2) kmem_ok R1
        = Some (Some p2, R2) /\
        sgv_pools_list R2 = sgv_pools_list R ++ [p1; p2] /\
        name (descs R2 p1) = name (descs R2 p2).
Proof.
  intros Hmx Hmiss Hfresh Hne Hsz Hok.
  assert (Hall : forall k, 0 <= k < Z.of_nat (Z.to_nat SGV_POOL_ELEMENTS) ->
                           kmem_ok k = true).
  { intros k Hk. apply Hok. lia. }
  destruct (pool_create_miss nm ct false current_mm p1 kmem_ok R
              (Z.to_nat SGV_POOL_ELEMENTS) Hmx Hmiss (Nat.le_refl _) Hall
              ltac:(left; reflexivity))
    as (R1 & C1 & C2 & C3 & C4 & C5 & _).
  cbv zeta in C1, C4, C5. rewrite Nat.eqb_refl in C1, C4, C5.
  destruct (C5 eq_refl) as (N1 & _).
  exists R1. split; [exact C1|].
  assert (Hold : forall p, In p (sgv_pools_list R) -> name (descs R1 p) <> nm).
  { intros p Hp. destruct (C3 p ltac:(intros ->; contradiction)) as [-> _].
    apply Hmiss. exact Hp. }
  destruct (Z.ltb_spec (Z.of_nat (length nm)) NAME_SIZE) as [Hfit|Hlong].
  - unfold sgv_pool_create. rewrite C2.
    change (sgv_pools_list (set_mutex true R1)) with (sgv_pools_list R1).
    change (descs (set_mutex true R1)) with (descs R1).
    rewrite C4, find_app_last
      by (apply find_unnamed; exact Hold).
    rewrite N1, take_ge by lia.
    rewrite (proj2 (name_eqb_spec nm nm) eq_refl). simpl.
    rewrite unlock_lock by exact C2. reflexivity.
  - assert (Hcut : take (Z.to_nat (NAME_SIZE - 1)) nm <> nm).
    { intros E. apply (f_equal (@length Ascii.ascii)) in E.
      rewrite length_take in E. lia. }
    destruct (pool_create_miss nm ct false current_mm p2 kmem_ok R1
                (Z.to_nat SGV_POOL_ELEMENTS) C2) as (R2 & D1 & _ & D3 & D4 & D5 & _).
    { intros p Hp. rewrite C4 in Hp. apply in_app_or in Hp as [Hp|[<-|[]]].
      - apply Hold. exact Hp.
      - rewrite N1. exact Hcut. }
    { apply Nat.le_refl. }
    { exact Hall. }
    { left. reflexivity. }
    cbv zeta in D1, D4, D5. rewrite Nat.eqb_refl in D1, D4, D5.
    destruct (D5 eq_refl) as (M1 & _).
    exists R2. split; [exact D1|]. split.
    + rewrite D4, C4, <- app_assoc. reflexivity.
    + destruct (D3 p1 Hne) as [-> _]. rewrite N1, M1. reflexivity.
Qed.


(** ** The reference count and [sgv_pool_deinit] *)

Lemma upto_range (k : Z) : forall (n : nat) (i : Z),
  In k (upto i n) -> i <= k < i + Z.of_nat n.
Proof.
  induction n as [|n IH]; intros i H; [contradiction|].
  destruct H as [<-|H]; [lia|]. apply IH in H. lia.
Qed.

Lemma filter_agree {A : Type} (f h : A -> bool) (l : list A) :
  (forall x, In x l -> f x = h x) -> List.filter f l = List.filter h l.
Proof.
  induction l as [|a l IH]; intros H; simpl; [reflexivity|].
  rewrite (H a) by (left; reflexivity).
  rewrite IH; [reflexivity|]. intros x Hx. apply H. right. exact Hx.
Qed.

Lemma destroy_caches_run (pool : nat) :
  forall (n : nat) (i : Z) (R : registry),
  let R' := destroy_caches n i pool R in
  (forall k, caches (descs R' pool) k
             = if in_range i n k then false else caches (descs R pool) k) /\
  reg_trace R'
  = rev (map (EvCacheDestroy pool)
           (List.filter (caches (descs R pool)) (upto i n)))
    ++ reg_trace R /\
  reg_same_but pool R R'.
Proof.
  induction n as [|n IH]; intros i R; cbv zeta.
  - simpl. splits; auto using reg_same_refl.
    intros k. unfold in_range. rewrite Z.add_0_r.
    destruct (Z.leb_spec i k), (Z.ltb_spec k i); simpl; auto; lia.
  - simpl destroy_caches.
    set (R0 := if caches (descs R pool) i
               then log_reg (EvCacheDestroy pool i) R else R).
    set (R1 := set_cache pool i false R0).
    assert (H0 : descs R0 = descs R /\ reg_same_but pool R R0 /\
                 reg_trace R0 = (if caches (descs R pool) i
                                 then [EvCacheDestroy pool i] else [])
                                ++ reg_trace R).
    { unfold R0. destruct (caches (descs R pool) i); simpl;
        splits; auto using reg_same_refl, reg_same_log. }
    destruct H0 as (H0d & H0s & H0t).
    assert (Hc1 : forall k, caches (descs R1 pool) k
                            = if k =? i then false else caches (descs R pool) k).
    { intros k. unfold R1. rewrite set_cache_at, H0d. reflexivity. }
    destruct (IH (i + 1) R1) as (I1 & I2 & I3). cbv zeta in I1, I2.
    splits.
    + intros k. rewrite I1, Hc1. unfold in_range.
      destruct (Z.eqb_spec k i), (Z.leb_spec (i + 1) k), (Z.leb_spec i k),
        (Z.ltb_spec k (i + 1 + Z.of_nat n)), (Z.ltb_spec k (i + Z.of_nat (S n)));
        simpl; auto; lia.
    + rewrite I2.
      rewrite (filter_agree (caches (descs R1 pool)) (caches (descs R pool)))
        by (intros k Hk; apply upto_range in Hk; rewrite Hc1;
            destruct (Z.eqb_spec k i); [lia|reflexivity]).
      change (reg_trace R1) with (reg_trace R0). rewrite H0t. simpl.
      destruct (caches (descs R pool) i); simpl;
        rewrite <- ?app_assoc; reflexivity.
    + eapply reg_same_trans; [exact H0s|].
      eapply reg_same_trans; [apply reg_same_set_cache|exact I3].
Qed.

(** [sgv_pool_deinit] with the mutex free. *)
Lemma pool_deinit_outcome (pool : nat) (R : registry) :
  sgv_pools_mutex R = false ->
  exists R',
    sgv_pool_deinit pool R = Some R' /\
    sgv_pools_mutex R' = false /\
    sgv_pools_list R' = list_del_pool pool (sgv_pools_list R) /\
    mem R' = sgv_pool_flush PAGE_SHIFT SGV_POOL_ELEMENTS pool (mem R) /\
    (forall q, q <> pool -> descs R' q = descs R q) /\
    (forall k, caches (descs R' pool) k
               = if in_range 0 (Z.to_nat SGV_POOL_ELEMENTS) k then false
                 else caches (descs R pool) k) /\
    sgv_pool_ref (descs R' pool) = sgv_pool_ref (descs R pool) /\
    reg_trace R' =
      rev (map (EvCacheDestroy pool)
             (List.filter (caches (descs R pool))
                (upto 0 (Z.to_nat SGV_POOL_ELEMENTS))))
      ++ EvCancelWork pool :: reg_trace R /\
    sgv_hi_wmk R' = sgv_hi_wmk R /\ sgv_lo_wmk R' = sgv_lo_wmk R /\
    sgv_max_local_order R' = sgv_max_local_order R /\
    sgv_max_trans_order R' = sgv_max_trans_order R.
Proof.
  intros Hmx. unfold sgv_pool_deinit. cbv zeta.
  change (sgv_pools_mutex (set_mem _ (log_reg (EvCancelWork pool) R)))
    with (sgv_pools_mutex R).
  rewrite Hmx.
  set (R0 := set_mutex false _).
  destruct (destroy_caches_run pool (Z.to_nat SGV_POOL_ELEMENTS) 0 R0)
    as (D1 & D2 & D3).
  cbv zeta in D1, D2.
  destruct D3 as (S1 & S2 & S3 & S4 & S5 & S6 & S7 & S8 & S9 & S10 & S11).
  eexists. split; [reflexivity|].
  rewrite S1, S2, S3, S4, S5, S6, S7, S11, D2. splits; auto.
Qed.

Lemma pool_deinit_blocks (pool : nat) (R : registry) :
  sgv_pools_mutex R = true -> sgv_pool_deinit pool R = None.
Proof.
  intros Hmx. unfold sgv_pool_deinit. cbv zeta.
  change (sgv_pools_mutex (set_mem _ (log_reg (EvCancelWork pool) R)))
    with (sgv_pools_mutex R).
  rewrite Hmx. reflexivity.
Qed.

(** X22. [sgv_pool_put] on the last reference destroys the pool: the purge
    work is cancelled, the pool's cached objects are flushed, the pool is
    taken off [sgv_pools_list], each cache it still has is destroyed once
    and all its cache pointers in [0 .. SGV_POOL_ELEMENTS - 1] are [NULL],
    and the pool is freed last; no other pool is touched and the mutex is
    free again.  Called with [sgv_pools_mutex] held, it does not return.
    A put that is not the last only lowers the count. *)
Theorem last_put_destroys (pool : nat) (R : registry) :
  let ref := sgv_pool_ref (descs R pool) in
  - 2 ^ 31 < ref < 2 ^ 31 ->
  (ref <> 1 -> sgv_pool_put pool R = Some (set_ref pool (ref - 1) R)) /\
  (ref = 1 -> sgv_pools_mutex R = true -> sgv_pool_put pool R = None) /\
  (ref = 1 -> sgv_pools_mutex R = false ->
   exists R',
     sgv_pool_put pool R = Some R' /\
     sgv_pools_mutex R' = false /\
     sgv_pools_list R' = list_del_pool pool (sgv_pools_list R) /\
     mem R' = sgv_pool_flush PAGE_SHIFT SGV_POOL_ELEMENTS pool (mem R) /\
     (forall q, q <> pool -> descs R' q = descs R q) /\
     (forall k, 0 <= k < SGV_POOL_ELEMENTS -> caches (descs R' pool) k = false) /\
     reg_trace R' =
       EvPoolFree pool
       :: rev (map (EvCacheDestroy pool)
                 (List.filter (caches (descs R pool))
                    (upto 0 (Z.to_nat SGV_POOL_ELEMENTS))))
       ++ EvCancelWork pool :: reg_trace R).
Proof.
  intros ref Href.
  assert (Hw : wrap_int (ref - 1) = ref - 1) by (apply wrap_int_id; lia).
  assert (Hnew : sgv_pool_ref
                   (descs (set_ref pool (wrap_int (ref - 1)) R) pool) = ref - 1).
  { unfold set_ref. simpl. rewrite Nat.eqb_refl. simpl. exact Hw. }
  unfold sgv_pool_put. cbv zeta. fold ref. rewrite Hnew. splits.
  - intros Hne. destruct (Z.eqb_spec (ref - 1) 0); [lia|]. rewrite Hw.
    reflexivity.
  - intros H1 Hmx. destruct (Z.eqb_spec (ref - 1) 0); [|lia].
    unfold sgv_pool_destroy. rewrite pool_deinit_blocks; [reflexivity|].
    exact Hmx.
  - intros H1 Hmx. destruct (Z.eqb_spec (ref - 1) 0); [|lia].
    unfold sgv_pool_destroy.
    set (R0 := set_ref pool (wrap_int (ref - 1)) R).
    destruct (pool_deinit_outcome pool R0 Hmx)
      as (R' & E & P1 & P2 & P3 & P4 & P5 & _ & P7 & _).
    rewrite E. eexists. split; [reflexivity|]. simpl.
    assert (Hc0 : caches (descs R0 pool) = caches (descs R pool)).
    { unfold R0, set_ref. simpl. rewrite Nat.eqb_refl. reflexivity. }
    rewrite Hc0 in P7. splits; auto.
    + intros q Hq. rewrite P4 by exact Hq. unfold R0, set_ref. simpl.
      destruct (Nat.eqb_spec q pool); [contradiction|reflexivity].
    + intros k Hk. rewrite P5. unfold in_range.
      destruct (Z.leb_spec 0 k),
        (Z.ltb_spec k (0 + Z.of_nat (Z.to_nat SGV_POOL_ELEMENTS)));
        simpl; auto; lia.
    + rewrite P7. reflexivity.
Qed.

(** The registries [R] and [R'] agree in every field. *)
Definition reg_eq (R R' : registry) : Prop :=
  sgv_hi_wmk R' = sgv_hi_wmk R /\ sgv_lo_wmk R' = sgv_lo_wmk R /\
  sgv_max_local_order R' = sgv_max_local_order R /\
  sgv_max_trans_order R' = sgv_max_trans_order R /\
  sgv_pools_list R' = sgv_pools_list R /\
  sgv_pools_mutex R' = sgv_pools_mutex R /\
  mem R' = mem R /\ reg_trace R' = reg_trace R /\
  forall q, descs R' q = descs R q.

(** X23. A shared [sgv_pool_create] of a registered pool followed by
    [sgv_pool_del] of the pool returned leaves the registry as it was: the
    reference taken is the reference given back, and a pool with a
    reference left is not destroyed. *)
Theorem shared_create_del (nm : list Ascii.ascii) (ct : sgv_clustering_types)
    (kzalloc : option nat) (kmem_ok : Z -> bool) (R : registry) (pool : nat) :
  sgv_pools_mutex R = false -> names_distinct R ->
  In pool (sgv_pools_list R) -> name (descs R pool) = nm ->
  1 <= sgv_pool_ref (descs R pool) < 2 ^ 31 - 1 ->
  exists R1 R2,
    sgv_pool_create nm ct true (owner_mm (descs R pool)) kzalloc kmem_ok R
    = Some (Some pool, R1) /\
    sgv_pool_ref (descs R1 pool) = sgv_pool_ref (descs R pool) + 1 /\
    sgv_pool_del pool R1 = Some R2 /\
    reg_eq R R2.
Proof.
  intros Hmx Hnd Hin Hnm Href.
  exists (sgv_pool_get pool R).
  assert (Hget : sgv_pool_ref (descs (sgv_pool_get pool R) pool)
                 = sgv_pool_ref (descs R pool) + 1).
  { unfold sgv_pool_get, set_ref. simpl. rewrite Nat.eqb_refl. simpl.
    apply wrap_int_id. lia. }
  eexists. split; [|split; [exact Hget|]].
  - unfold sgv_pool_create. rewrite Hmx.
    change (sgv_pools_list (set_mutex true R)) with (sgv_pools_list R).
    change (descs (set_mutex true R)) with (descs R).
    rewrite (find_named nm (descs R) pool (sgv_pools_list R) Hnd Hin Hnm).
    rewrite Nat.eqb_refl. simpl.
    rewrite unlock_get_lock by exact Hmx. reflexivity.
  - unfold sgv_pool_del, sgv_pool_put. cbv zeta. rewrite Hget.
    replace (sgv_pool_ref (descs R pool) + 1 - 1)
      with (sgv_pool_ref (descs R pool)) by lia.
    rewrite (wrap_int_id (sgv_pool_ref (descs R pool))) by lia.
    set (R2 := set_ref pool (sgv_pool_ref (descs R pool)) (sgv_pool_get pool R)).
    assert (Hd : descs R2 pool = descs R pool).
    { unfold R2, sgv_pool_get, set_ref. simpl. rewrite !Nat.eqb_refl. simpl.
      destruct (descs R pool); reflexivity. }
    rewrite Hd. destruct (Z.eqb_spec (sgv_pool_ref (descs R pool)) 0); [lia|].
    split; [reflexivity|].
    unfold reg_eq. splits; auto.
    intros q. destruct (Nat.eq_dec q pool) as [->|Hq]; [exact Hd|].
    unfold R2, sgv_pool_get, set_ref. simpl.
    destruct (Nat.eqb_spec q pool); [contradiction|reflexivity].
Qed.


(** ** [scst_sgv_pools_init] *)

Lemma all_or_first (f : Z -> bool) :
  forall n : nat,
  (forall k, 0 <= k < Z.of_nat n -> f k = true) \/
  exists m : nat, (m < n)%nat /\ f (Z.of_nat m) = false /\
                  forall k, 0 <= k < Z.of_nat m -> f k = true.
Proof.
  induction n as [|n [Hall|(m & Hm & H1 & H2)]].
  - left. intros k Hk. lia.
  - destruct (f (Z.of_nat n)) eqn:E.
    + left. intros k Hk.
      destruct (Z.eq_dec k (Z.of_nat n)) as [->|]; [exact E|apply Hall; lia].
    + right. exists n. split; [lia|]. split; [exact E|exact Hall].
  - right. exists m. split; [lia|]. split; [exact H1|exact H2].
Qed.

Lemma first_refusal (f : Z -> bool) (n : nat) :
  (exists k, 0 <= k < Z.of_nat n /\ f k = false) ->
  exists m : nat, (m < n)%nat /\ f (Z.of_nat m) = false /\
                  forall k, 0 <= k < Z.of_nat m -> f k = true.
Proof.
  intros (k & Hk & Hf). destruct (all_or_first f n) as [Hall|H]; [|exact H].
  rewrite Hall in Hf by exact Hk. discriminate.
Qed.

(** [sgv_pool_init] fails when a cache is refused, and gives 0 when none
    is. *)
Lemma pool_init_result (pool : nat) (nm : list Ascii.ascii)
    (ct : sgv_clustering_types) (current_mm : nat) (kmem_ok : Z -> bool)
    (R : registry) :
  let r := sgv_pool_init pool nm ct current_mm kmem_ok R in
  sgv_pools_mutex (snd r) = sgv_pools_mutex R /\
  ((exists k, 0 <= k < SGV_POOL_ELEMENTS /\ kmem_ok k = false) ->
   fst r = - ENOMEM /\ sgv_pools_list (snd r) = sgv_pools_list R /\
   exists m : nat,
     reg_trace (snd r) =
       rev (map (EvCacheDestroy pool) (upto 0 m))
       ++ rev (map (fun k => EvCacheCreate pool k (cache_obj_size ct k R))
                 (upto 0 m))
       ++ reg_trace R) /\
  ((forall k, 0 <= k < SGV_POOL_ELEMENTS -> kmem_ok k = true) ->
   fst r = 0 /\ sgv_pools_list (snd r) = sgv_pools_list R ++ [pool] /\
   pools (mem (snd r)) pool = mk_pool ct 0 0 0 false [] (fun _ => []) /\
   forall q, q <> pool -> pools (mem (snd r)) q = pools (mem R) q).
Proof.
  cbv zeta. splits.
  - destruct (all_or_first kmem_ok (Z.to_nat SGV_POOL_ELEMENTS))
      as [Hall|(m & Hm & H1 & H2)].
    + apply (pool_init_outcome pool nm ct current_mm kmem_ok R
               (Z.to_nat SGV_POOL_ELEMENTS) (Nat.le_refl _) Hall
               ltac:(left; reflexivity)).
    + apply (pool_init_outcome pool nm ct current_mm kmem_ok R m
               ltac:(lia) H2 ltac:(right; exact H1)).
  - intros (k & Hk & Hf).
    assert (Hk' : 0 <= k < Z.of_nat (Z.to_nat SGV_POOL_ELEMENTS)) by lia.
    destruct (first_refusal kmem_ok (Z.to_nat SGV_POOL_ELEMENTS)
                (ex_intro _ k (conj Hk' Hf))) as (m & Hm & H1 & H2).
    pose proof (pool_init_outcome pool nm ct current_mm kmem_ok R m
                  ltac:(lia) H2 ltac:(right; exact H1)) as H.
    cbv zeta in H. destruct H as (_ & _ & _ & _ & H).
    destruct (Nat.eqb_spec m (Z.to_nat SGV_POOL_ELEMENTS)); [lia|].
    destruct H as (Q1 & Q2 & _ & Q4). splits; auto. exists m. exact Q4.
  - intros Hall.
    pose proof (pool_init_outcome pool nm ct current_mm kmem_ok R
                  (Z.to_nat SGV_POOL_ELEMENTS) (Nat.le_refl _)
                  ltac:(intros k Hk; apply Hall; lia)
                  ltac:(left; reflexivity)) as H.
    cbv zeta in H. rewrite Nat.eqb_refl in H.
    destruct H as (P1 & _ & _ & _ & Q1 & Q2 & _ & _ & _ & Q6).
    splits; auto. intros q Hq. apply P1. exact Hq.
Qed.

(** The globals that [scst_sgv_pools_init] assigns. *)
Definition globals (R : registry) : Z * Z * Z * Z :=
  (sgv_hi_wmk R, sgv_lo_wmk R, sgv_max_local_order R, sgv_max_trans_order R).

Lemma init_caches_globals (pool : nat) (ct : sgv_clustering_types)
    (kmem_ok : Z -> bool) :
  forall (n : nat) (i : Z) (R : registry),
  globals (snd (init_caches n i pool ct kmem_ok R)) = globals R.
Proof.
  induction n as [|n IH]; intros i R; simpl; [reflexivity|].
  destruct (kmem_ok i); [|reflexivity]. rewrite IH. reflexivity.
Qed.

Lemma free_caches_globals (pool : nat) :
  forall (n : nat) (i : Z) (R : registry),
  globals (free_caches n i pool R) = globals R.
Proof.
  induction n as [|n IH]; intros i R; simpl; [reflexivity|].
  destruct (caches (descs R pool) i); [|reflexivity]. rewrite IH. reflexivity.
Qed.

Lemma pool_init_globals (pool : nat) (nm : list Ascii.ascii)
    (ct : sgv_clustering_types) (current_mm : nat) (kmem_ok : Z -> bool)
    (R : registry) :
  globals (snd (sgv_pool_init pool nm ct current_mm kmem_ok R)) = globals R.
Proof.
  unfold sgv_pool_init. cbv zeta.
  set (R0 := set_mem _ (set_desc pool _ R)).
  pose proof (init_caches_globals pool ct kmem_ok
                (Z.to_nat SGV_POOL_ELEMENTS) 0 R0) as H.
  destruct (init_caches (Z.to_nat SGV_POOL_ELEMENTS) 0 pool ct kmem_ok R0)
    as [b R1].
  simpl in H. destruct b; simpl.
  - exact H.
  - rewrite free_caches_globals. exact H.
Qed.

(** X24. [scst_sgv_pools_init] sets the two watermarks and the two layout
    limits and initialises the pools [sgv], [sgv-clust] and [sgv-dma] in
    this order.  When every cache is granted it returns 0 with the three
    pools at the end of [sgv_pools_list], the second one with full
    clustering, the mutex released and the shrinker registered.  When a cache
    of the first pool is refused it returns [-ENOMEM] with the list as it
    was, the caches it made destroyed, the mutex released and no shrinker.
    When a cache of the second or of the third pool is refused, the call
    goes on to [sgv_pool_deinit], which locks [sgv_pools_mutex] while the
    call itself holds it: the call does not return. *)
Theorem pools_init_outcomes (mem_hwmark mem_lwmark : Z) (current_mm : nat)
    (kmem_ok : nat -> Z -> bool) (R : registry) :
  sgv_pools_mutex R = false ->
  let refused p := exists k, 0 <= k < SGV_POOL_ELEMENTS /\ kmem_ok p k = false in
  let granted p := forall k, 0 <= k < SGV_POOL_ELEMENTS -> kmem_ok p k = true in
  let r := scst_sgv_pools_init mem_hwmark mem_lwmark current_mm kmem_ok R in
  (granted sgv_norm_pool -> granted sgv_norm_clust_pool ->
   granted sgv_dma_pool ->
   exists R',
     r = Some (0, R') /\
     sgv_pools_list R'
     = sgv_pools_list R ++ [sgv_norm_pool; sgv_norm_clust_pool; sgv_dma_pool] /\
     sgv_pools_mutex R' = false /\
     globals R' = (wrap_int mem_hwmark, wrap_int mem_lwmark,
                   fst sgv_evaluate_local_order, snd sgv_evaluate_local_order) /\
     hd_error (reg_trace R') = Some EvRegisterShrinker /\
     clustering_type (pools (mem R') sgv_norm_pool) = sgv_no_clustering /\
     clustering_type (pools (mem R') sgv_norm_clust_pool) = sgv_full_clustering /\
     clustering_type (pools (mem R') sgv_dma_pool) = sgv_no_clustering) /\
  (refused sgv_norm_pool ->
   exists R' (m : nat),
     r = Some (- ENOMEM, R') /\
     sgv_pools_list R' = sgv_pools_list R /\
     sgv_pools_mutex R' = false /\
     reg_trace R' =
       rev (map (EvCacheDestroy sgv_norm_pool) (upto 0 m))
       ++ rev (map (fun k => EvCacheCreate sgv_norm_pool k
                               (cache_obj_size sgv_no_clustering k
                                  (set_orders (fst sgv_evaluate_local_order)
                                     (snd sgv_evaluate_local_order) R)))
                 (upto 0 m))
       ++ reg_trace R) /\
  (granted sgv_norm_pool -> refused sgv_norm_clust_pool -> r = None) /\
  (granted sgv_norm_pool -> granted sgv_norm_clust_pool ->
   refused sgv_dma_pool -> r = None).
Proof.
  intros Hmx refused granted r.
  unfold r, scst_sgv_pools_init. cbv zeta.
  set (R0 := set_mutex true
               (set_orders (fst sgv_evaluate_local_order)
                  (snd sgv_evaluate_local_order)
                  (set_wmk (wrap_int mem_hwmark) (wrap_int mem_lwmark) R))).
  change (sgv_pools_mutex
            (set_orders (fst sgv_evaluate_local_order)
               (snd sgv_evaluate_local_order)
               (set_wmk (wrap_int mem_hwmark) (wrap_int mem_lwmark) R)))
    with (sgv_pools_mutex R).
  rewrite Hmx.
  destruct (pool_init_result sgv_norm_pool sgv_name sgv_no_clustering
              current_mm (kmem_ok sgv_norm_pool) R0) as (A1 & A2 & A3).
  pose proof (pool_init_globals sgv_norm_pool sgv_name sgv_no_clustering
                current_mm (kmem_ok sgv_norm_pool) R0) as Ag.
  destruct (sgv_pool_init sgv_norm_pool sgv_name sgv_no_clustering current_mm
              (kmem_ok sgv_norm_pool) R0) as [rc1 R1].
  simpl fst in *. simpl snd in *.
  destruct (pool_init_result sgv_norm_clust_pool sgv_clust_name
              sgv_full_clustering current_mm (kmem_ok sgv_norm_clust_pool) R1)
    as (B1 & B2 & B3).
  pose proof (pool_init_globals sgv_norm_clust_pool sgv_clust_name
                sgv_full_clustering current_mm (kmem_ok sgv_norm_clust_pool) R1)
    as Bg.
  destruct (sgv_pool_init sgv_norm_clust_pool sgv_clust_name
              sgv_full_clustering current_mm (kmem_ok sgv_norm_clust_pool) R1)
    as [rc2 R2].
  simpl fst in *. simpl snd in *.
  destruct (pool_init_result sgv_dma_pool sgv_dma_name sgv_no_clustering
              current_mm (kmem_ok sgv_dma_pool) R2) as (C1 & C2 & C3).
  pose proof (pool_init_globals sgv_dma_pool sgv_dma_name sgv_no_clustering
                current_mm (kmem_ok sgv_dma_pool) R2) as Cg.
  destruct (sgv_pool_init sgv_dma_pool sgv_dma_name sgv_no_clustering
              current_mm (kmem_ok sgv_dma_pool) R2) as [rc3 R3].
  simpl fst in *. simpl snd in *.
  change (sgv_pools_mutex R0) with true in A1.
  change (sgv_pools_list R0) with (sgv_pools_list R) in A2, A3.
  change (reg_trace R0) with (reg_trace R) in A2.
  splits.
  - intros G1 G2 G3.
    destruct (A3 G1) as (-> & L1 & M1 & _).
    destruct (B3 G2) as (-> & L2 & M2 & N2).
    destruct (C3 G3) as (-> & L3 & M3 & N3).
    simpl. eexists. split; [reflexivity|]. simpl.
    splits; auto.
    + rewrite L3, L2, L1, <- !app_assoc. reflexivity.
    + change (globals R3 = globals R0). congruence.
    + rewrite N3, N2, M1 by (unfold sgv_norm_pool, sgv_norm_clust_pool,
                               sgv_dma_pool; lia).
      reflexivity.
    + rewrite N3, M2 by (unfold sgv_norm_clust_pool, sgv_dma_pool; lia).
      reflexivity.
    + rewrite M3. reflexivity.
  - intros F1. destruct (A2 F1) as (-> & L1 & m & T1).
    change (negb (- ENOMEM =? 0)) with true. cbv iota.
    exists (set_mutex false R1), m. splits; auto.
  - intros G1 F2. destruct (A3 G1) as (-> & _).
    destruct (B2 F2) as (-> & _).
    change (negb (0 =? 0)) with false. change (negb (- ENOMEM =? 0)) with true.
    cbv iota. rewrite pool_deinit_blocks; [reflexivity|]. congruence.
  - intros G1 G2 F3. destruct (A3 G1) as (-> & _).
    destruct (B3 G2) as (-> & _). destruct (C2 F3) as (-> & _).
    change (negb (0 =? 0)) with false. change (negb (- ENOMEM =? 0)) with true.
    cbv iota. rewrite pool_deinit_blocks; [reflexivity|]. congruence.
Qed.


(** ** Module load followed by module unload *)

Lemma list_del_pool_app (p : nat) (l l' : list nat) :
  ~ In p l -> list_del_pool p (l ++ l') = l ++ list_del_pool p l'.
Proof.
  induction l as [|q l IH]; intros H; simpl; [reflexivity|].
  destruct (Nat.eqb_spec q p) as [->|_].
  - exfalso. apply H. left. reflexivity.
  - rewrite IH; [reflexivity|]. intros Hp. apply H. right. exact Hp.
Qed.

Lemma filter_in_range (n : nat) (i : Z) :
  List.filter (in_range i n) (upto i n) = upto i n.
Proof.
  assert (H : forall (m : nat) (j : Z), i <= j -> j + Z.of_nat m <= i + Z.of_nat n ->
            List.filter (in_range i n) (upto j m) = upto j m).
  { induction m as [|m IH]; intros j H1 H2; simpl; [reflexivity|].
    unfold in_range at 1.
    destruct (Z.leb_spec i j), (Z.ltb_spec j (i + Z.of_nat n)); try lia.
    simpl. rewrite IH by lia. reflexivity. }
  apply H; lia.
Qed.

Lemma flush_empty_pool (pool : nat) (g : sgv_state) :
  (forall i, recycling_lists (pools g pool) i = []) ->
  sgv_pool_flush PAGE_SHIFT SGV_POOL_ELEMENTS pool g = g.
Proof.
  intros H. unfold sgv_pool_flush.
  induction (seq 0 (Z.to_nat SGV_POOL_ELEMENTS)) as [|i l IH]; simpl;
    [reflexivity|].
  rewrite H. simpl. exact IH.
Qed.

(** [sgv_pool_init] when every cache is granted. *)
Lemma pool_init_granted (pool : nat) (nm : list Ascii.ascii)
    (ct : sgv_clustering_types) (current_mm : nat) (kmem_ok : Z -> bool)
    (R : registry) :
  (forall k, 0 <= k < SGV_POOL_ELEMENTS -> kmem_ok k = true) ->
  let R' := snd (sgv_pool_init pool nm ct current_mm kmem_ok R) in
  (forall k, caches (descs R' pool) k
             = in_range 0 (Z.to_nat SGV_POOL_ELEMENTS) k) /\
  (forall q, q <> pool -> descs R' q = descs R q) /\
  sgv_pool_ref (descs R' pool) = 1.
Proof.
  intros Hall.
  pose proof (pool_init_outcome pool nm ct current_mm kmem_ok R
                (Z.to_nat SGV_POOL_ELEMENTS) (Nat.le_refl _)
                ltac:(intros k Hk; apply Hall; lia)
                ltac:(left; reflexivity)) as H.
  cbv zeta in H. rewrite Nat.eqb_refl in H.
  destruct H as (P1 & _ & _ & _ & _ & _ & Q3 & Q4 & _).
  cbv zeta. splits; auto. intros q Hq. apply P1. exact Hq.
Qed.

Lemma pools_init_granted (mem_hwmark mem_lwmark : Z) (current_mm : nat)
    (kmem_ok : nat -> Z -> bool) (R : registry) :
  sgv_pools_mutex R = false ->
  (forall p k, 0 <= k < SGV_POOL_ELEMENTS -> kmem_ok p k = true) ->
  exists R1,
    scst_sgv_pools_init mem_hwmark mem_lwmark current_mm kmem_ok R
    = Some (0, R1) /\
    sgv_pools_list R1
    = sgv_pools_list R ++ [sgv_norm_pool; sgv_norm_clust_pool; sgv_dma_pool] /\
    sgv_pools_mutex R1 = false /\
    forall p, p = sgv_norm_pool \/ p = sgv_norm_clust_pool \/ p = sgv_dma_pool ->
      (forall k, caches (descs R1 p) k
                 = in_range 0 (Z.to_nat SGV_POOL_ELEMENTS) k) /\
      (forall i, recycling_lists (pools (mem R1) p) i = []).
Proof.
  intros Hmx Hall.
  unfold scst_sgv_pools_init. cbv zeta.
  set (R0 := set_mutex true
               (set_orders (fst sgv_evaluate_local_order)
                  (snd sgv_evaluate_local_order)
                  (set_wmk (wrap_int mem_hwmark) (wrap_int mem_lwmark) R))).
  change (sgv_pools_mutex
            (set_orders (fst sgv_evaluate_local_order)
               (snd sgv_evaluate_local_order)
               (set_wmk (wrap_int mem_hwmark) (wrap_int mem_lwmark) R)))
    with (sgv_pools_mutex R).
  rewrite Hmx.
  destruct (pool_init_result sgv_norm_pool sgv_name sgv_no_clustering
              current_mm (kmem_ok sgv_norm_pool) R0) as (A1 & _ & A3).
  destruct (pool_init_granted sgv_norm_pool sgv_name sgv_no_clustering
              current_mm (kmem_ok sgv_norm_pool) R0 (Hall _)) as (Ac & Ad & _).
  destruct (sgv_pool_init sgv_norm_pool sgv_name sgv_no_clustering current_mm
              (kmem_ok sgv_norm_pool) R0) as [rc1 R1].
  simpl fst in *. simpl snd in *.
  destruct (pool_init_result sgv_norm_clust_pool sgv_clust_name
              sgv_full_clustering current_mm (kmem_ok sgv_norm_clust_pool) R1)
    as (B1 & _ & B3).
  destruct (pool_init_granted sgv_norm_clust_pool sgv_clust_name
              sgv_full_clustering current_mm (kmem_ok sgv_norm_clust_pool) R1
              (Hall _)) as (Bc & Bd & _).
  destruct (sgv_pool_init sgv_norm_clust_pool sgv_clust_name
              sgv_full_clustering current_mm (kmem_ok sgv_norm_clust_pool) R1)
    as [rc2 R2].
  simpl fst in *. simpl snd in *.
  destruct (pool_init_result sgv_dma_pool sgv_dma_name sgv_no_clustering
              current_mm (kmem_ok sgv_dma_pool) R2) as (C1 & _ & C3).
  destruct (pool_init_granted sgv_dma_pool sgv_dma_name sgv_no_clustering
              current_mm (kmem_ok sgv_dma_pool) R2 (Hall _)) as (Cc & Cd & _).
  destruct (sgv_pool_init sgv_dma_pool sgv_dma_name sgv_no_clustering
              current_mm (kmem_ok sgv_dma_pool) R2) as [rc3 R3].
  simpl fst in *. simpl snd in *.
  change (sgv_pools_list R0) with (sgv_pools_list R) in A3.
  destruct (A3 (Hall _)) as (-> & L1 & M1 & _).
  destruct (B3 (Hall _)) as (-> & L2 & M2 & N2).
  destruct (C3 (Hall _)) as (-> & L3 & M3 & N3).
  simpl. eexists. split; [reflexivity|]. simpl. splits; auto.
  - rewrite L3, L2, L1, <- !app_assoc. reflexivity.
  - intros p [-> | [-> | ->]]; split.
    + intros k. rewrite Cd, Bd by (unfold sgv_norm_pool, sgv_norm_clust_pool,
                                      sgv_dma_pool; lia). apply Ac.
    + intros i. rewrite N3, N2, M1 by (unfold sgv_norm_pool, sgv_norm_clust_pool,
                                         sgv_dma_pool; lia). reflexivity.
    + intros k. rewrite Cd by (unfold sgv_norm_clust_pool, sgv_dma_pool; lia).
      apply Bc.
    + intros i. rewrite N3, M2 by (unfold sgv_norm_clust_pool, sgv_dma_pool; lia).
      reflexivity.
    + apply Cc.
    + intros i. rewrite M3. reflexivity.
Qed.

(** X25. Module load followed by module unload leaves nothing behind.
    After a [scst_sgv_pools_init] that was granted every cache,
    [scst_sgv_pools_deinit] returns; it unregisters the shrinker, and for the
    pools [sgv-dma], [sgv] and [sgv-clust], in this order, cancels the purge
    work and destroys each of the [SGV_POOL_ELEMENTS] caches once.  After it
    [sgv_pools_list] is what it was before the load, every cache pointer of
    the three pools is [NULL], the mutex is free, and, the pools having
    cached nothing, the allocator state is untouched. *)
Theorem pools_init_deinit (mem_hwmark mem_lwmark : Z) (current_mm : nat)
    (kmem_ok : nat -> Z -> bool) (R : registry) :
  sgv_pools_mutex R = false ->
  (forall p, In p [sgv_norm_pool; sgv_norm_clust_pool; sgv_dma_pool] ->
             ~ In p (sgv_pools_list R)) ->
  (forall p k, 0 <= k < SGV_POOL_ELEMENTS -> kmem_ok p k = true) ->
  let torn_down p :=
    rev (map (EvCacheDestroy p) (upto 0 (Z.to_nat SGV_POOL_ELEMENTS)))
    ++ [EvCancelWork p] in
  exists R1 R2,
    scst_sgv_pools_init mem_hwmark mem_lwmark current_mm kmem_ok R
    = Some (0, R1) /\
    scst_sgv_pools_deinit R1 = Some R2 /\
    sgv_pools_list R2 = sgv_pools_list R /\
    sgv_pools_mutex R2 = false /\
    mem R2 = mem R1 /\
    (forall p k, In p [sgv_norm_pool; sgv_norm_clust_pool; sgv_dma_pool] ->
                 caches (descs R2 p) k = false) /\
    reg_trace R2 =
      EvFlushScheduledWork
      :: torn_down sgv_norm_clust_pool ++ torn_down sgv_norm_pool
      ++ torn_down sgv_dma_pool ++ EvUnregisterShrinker :: reg_trace R1.
Proof.
  intros Hmx Hfresh Hall torn_down.
  destruct (pools_init_granted mem_hwmark mem_lwmark current_mm kmem_ok R
              Hmx Hall) as (R1 & E1 & L1 & X1 & Hp).
  destruct (Hp sgv_norm_pool ltac:(auto)) as [Nc Nl].
  destruct (Hp sgv_norm_clust_pool ltac:(auto)) as [Cc Cl].
  destruct (Hp sgv_dma_pool ltac:(auto)) as [Dc Dl].
  exists R1. unfold scst_sgv_pools_deinit. cbv zeta.
  set (Ra := log_reg EvUnregisterShrinker R1).
  destruct (pool_deinit_outcome sgv_dma_pool Ra X1)
    as (Rb & Eb & Xb & Lb & Mb & Ob & Kb & _ & Tb & _).
  rewrite Eb.
  destruct (pool_deinit_outcome sgv_norm_pool Rb Xb)
    as (Rc & Ec & Xc & Lc & Mc & Oc & Kc & _ & Tc & _).
  rewrite Ec.
  destruct (pool_deinit_outcome sgv_norm_clust_pool Rc Xc)
    as (Rd & Ed & Xd & Ld & Md & Od & Kd & _ & Td & _).
  rewrite Ed.
  eexists. split; [exact E1|]. split; [reflexivity|].
  change (mem Ra) with (mem R1) in Mb.
  change (descs Ra) with (descs R1) in Ob, Kb, Tb.
  change (sgv_pools_list Ra) with (sgv_pools_list R1) in Lb.
  change (reg_trace Ra) with (EvUnregisterShrinker :: reg_trace R1) in Tb.
  rewrite flush_empty_pool in Mb by exact Dl.
  rewrite flush_empty_pool in Mc by (rewrite Mb; exact Nl).
  rewrite flush_empty_pool in Md by (rewrite Mc, Mb; exact Cl).
  assert (Hn0 : forall k, caches (descs Rb sgv_norm_pool) k
                          = in_range 0 (Z.to_nat SGV_POOL_ELEMENTS) k).
  { intros k. rewrite Ob by (unfold sgv_norm_pool, sgv_dma_pool; lia).
    apply Nc. }
  assert (Hc0 : forall k, caches (descs Rc sgv_norm_clust_pool) k
                          = in_range 0 (Z.to_nat SGV_POOL_ELEMENTS) k).
  { intros k.
    rewrite Oc, Ob by (unfold sgv_norm_pool, sgv_norm_clust_pool, sgv_dma_pool;
                       lia).
    apply Cc. }
  assert (Hflt : forall (f : Z -> bool),
            (forall k, f k = in_range 0 (Z.to_nat SGV_POOL_ELEMENTS) k) ->
            List.filter f (upto 0 (Z.to_nat SGV_POOL_ELEMENTS))
            = upto 0 (Z.to_nat SGV_POOL_ELEMENTS)).
  { intros f Hf.
    rewrite (filter_agree f (in_range 0 (Z.to_nat SGV_POOL_ELEMENTS)))
      by (intros; apply Hf).
    apply filter_in_range. }
  rewrite (Hflt _ Dc) in Tb. rewrite (Hflt _ Hn0) in Tc.
  rewrite (Hflt _ Hc0) in Td.
  assert (Hkill : forall (f : Z -> bool) k,
            (forall j, f j = in_range 0 (Z.to_nat SGV_POOL_ELEMENTS) j) ->
            (if in_range 0 (Z.to_nat SGV_POOL_ELEMENTS) k then false else f k)
            = false).
  { intros f k Hf. rewrite Hf.
    destruct (in_range 0 (Z.to_nat SGV_POOL_ELEMENTS) k); reflexivity. }
  simpl. splits.
  - rewrite Ld, Lc, Lb, L1.
    rewrite !list_del_pool_app by (apply Hfresh; simpl; auto).
    simpl. apply app_nil_r.
  - exact Xd.
  - rewrite Md, Mc, Mb. reflexivity.
  - intros p k [<- | [<- | [<- | []]]].
    + rewrite Od by (unfold sgv_norm_pool, sgv_norm_clust_pool; lia).
      rewrite Kc. apply Hkill. exact Hn0.
    + rewrite Kd. apply Hkill. exact Hc0.
    + rewrite Od, Oc by (unfold sgv_norm_pool, sgv_norm_clust_pool,
                           sgv_dma_pool; lia).
      rewrite Kb. apply Hkill. exact Dc.
  - rewrite Td, Tc, Tb. unfold torn_down. rewrite <- !app_assoc. reflexivity.
Qed.

End Registry.

(** ** Concrete runs of the registry *)

(** A 4 KiB page, eleven caches per pool, a 100-byte object, 32-byte SG
    entries, 4-byte table entries and a 25-byte name field. *)
Definition empty_registry : registry :=
  mk_reg 0 0 0 0 [] false (fun _ => mk_desc [] 0%nat 0 (fun _ => false))
    (boot_state sgv_no_clustering) [].

Definition create_on (name_size : Z) (nm : list Ascii.ascii) (shared : bool)
    (mm : nat) (pool : nat) (R : registry) : option (option nat * registry) :=
  sgv_pool_create 11 100 32 4 name_size nm sgv_no_clustering shared mm
    (Some pool) (fun _ => true) R.

(** The registry after pool 5 was created under the name [sgv] by the
    address space 7. *)
Definition one_pool_registry : registry :=
  match create_on 25 sgv_name false 7 5 empty_registry with
  | Some (_, R) => R
  | None => empty_registry
  end.

Lemma cache_sizes_fit_witness :
  let R := set_orders (fst (sgv_evaluate_local_order 12 100 32 4))
             (snd (sgv_evaluate_local_order 12 100 32 4)) empty_registry in
  sgv_max_local_order R = 6 /\ sgv_max_trans_order R = 9 /\
  cache_obj_size 100 32 4 sgv_full_clustering 6 R = 2404 /\
  cache_obj_size 100 32 4 sgv_full_clustering 6 R <= PAGE_SIZE 12.
Proof.
  destruct (cache_sizes_fit 12 ltac:(lia) 100 32 4 sgv_full_clustering 6
              (set_orders (fst (sgv_evaluate_local_order 12 100 32 4))
                 (snd (sgv_evaluate_local_order 12 100 32 4)) empty_registry)
              ltac:(vm_compute; split; [reflexivity|discriminate])
              ltac:(lia) ltac:(lia) ltac:(reflexivity) ltac:(reflexivity)
              ltac:(lia)) as [_ [_ H]].
  cbv zeta. split; [vm_compute; reflexivity|].
  split; [vm_compute; reflexivity|]. split; [vm_compute; reflexivity|exact H].
Defined.

(** The fourth cache is refused. *)
Lemma pool_init_unwinds_witness :
  let r := sgv_pool_init 11 100 32 4 25 5 sgv_name sgv_no_clustering 7
             (fun k => k <? 3) empty_registry in
  fst r = -12 /\ sgv_pools_list (snd r) = [] /\
  reg_trace (snd r) =
    [EvCacheDestroy 5 2; EvCacheDestroy 5 1; EvCacheDestroy 5 0;
     EvCacheCreate 5 2 100; EvCacheCreate 5 1 100; EvCacheCreate 5 0 132].
Proof.
  pose proof (pool_init_unwinds 11 100 32 4 25 5 sgv_name sgv_no_clustering 7
                (fun k => k <? 3) empty_registry 3
                ltac:(vm_compute; lia)
                ltac:(intros k Hk; apply Z.ltb_lt; lia)
                ltac:(right; reflexivity)) as H.
  cbv zeta in H. destruct H as (_ & _ & _ & _ & H).
  change ((3 =? Z.to_nat 11)%nat) with false in H. cbv iota in H.
  destruct H as (H1 & H2 & _ & H4).
  cbv zeta. split; [exact H1|]. split; [exact H2|].
  refine (eq_trans H4 _). vm_compute. reflexivity.
Defined.

Lemma one_pool_registry_ok :
  sgv_pools_mutex one_pool_registry = false /\
  names_distinct one_pool_registry /\
  In 5%nat (sgv_pools_list one_pool_registry) /\
  name (descs one_pool_registry 5) = sgv_name /\
  sgv_pool_ref (descs one_pool_registry 5) = 1.
Proof.
  split; [vm_compute; reflexivity|]. split.
  - unfold names_distinct.
    change (sgv_pools_list one_pool_registry) with [5%nat]. simpl.
    apply NoDup_singleton.
  - split; [vm_compute; auto|]. split; vm_compute; reflexivity.
Qed.

Lemma pool_create_existing_witness :
  create_on 25 sgv_name false 7 6 one_pool_registry
  = Some (None, one_pool_registry) /\
  create_on 25 sgv_name true 7 6 one_pool_registry
  = Some (Some 5%nat, sgv_pool_get 5 one_pool_registry).
Proof.
  destruct one_pool_registry_ok as (H1 & H2 & H3 & H4 & _).
  split.
  - apply (pool_create_existing 12 ltac:(lia) 11 100 32 4 25 sgv_name
             sgv_no_clustering false 7 (Some 6%nat) (fun _ => true)
             one_pool_registry 5 H1 H2 H3 H4).
  - apply (pool_create_existing 12 ltac:(lia) 11 100 32 4 25 sgv_name
             sgv_no_clustering true 7 (Some 6%nat) (fun _ => true)
             one_pool_registry 5 H1 H2 H3 H4).
Defined.

Lemma pool_create_new_witness :
  exists R',
    create_on 25 sgv_dma_name false 7 6 one_pool_registry = Some (Some 6%nat, R') /\
    sgv_pools_list R' = [5%nat; 6%nat] /\ names_distinct R'.
Proof.
  destruct one_pool_registry_ok as (H1 & H2 & _).
  destruct (pool_create_new 12 ltac:(lia) 11 100 32 4 25 sgv_dma_name
              sgv_no_clustering false 7 6 (fun _ => true) one_pool_registry 11)
    as (R' & C1 & _ & _ & C4 & _ & _ & C7).
  - exact H1.
  - intros p Hp. vm_compute in Hp. destruct Hp as [<-|[]].
    vm_compute. discriminate.
  - vm_compute. lia.
  - reflexivity.
  - left. reflexivity.
  - exists R'. split; [exact C1|]. split; [exact C4|].
    apply C7; [vm_compute; reflexivity|exact H2|].
    vm_compute. intros [E|[]]. discriminate.
Defined.

(** A name of seven characters and a name field of four bytes. *)
Lemma create_same_name_twice_witness :
  exists R1 R2,
    create_on 4 sgv_dma_name false 7 5 empty_registry = Some (Some 5%nat, R1) /\
    create_on 4 sgv_dma_name false 7 6 R1 = Some (Some 6%nat, R2) /\
    sgv_pools_list R2 = [5%nat; 6%nat] /\
    name (descs R2 5) = name (descs R2 6).
Proof.
  destruct (create_same_name_twice 12 ltac:(lia) 11 100 32 4 4 sgv_dma_name
              sgv_no_clustering 7 5 6 (fun _ => true) empty_registry)
    as (R1 & C1 & C2).
  - reflexivity.
  - intros p [].
  - intros [].
  - discriminate.
  - lia.
  - reflexivity.
  - change (Z.of_nat (length sgv_dma_name) <? 4) with false in C2.
    destruct C2 as (R2 & D1 & D2 & D3).
    exists R1, R2. split; [exact C1|]. split; [exact D1|].
    split; [exact D2|exact D3].
Defined.

Lemma last_put_destroys_witness :
  exists R',
    sgv_pool_put 12 11 5 one_pool_registry = Some R' /\
    sgv_pools_list R' = [] /\
    hd_error (reg_trace R') = Some (EvPoolFree 5).
Proof.
  destruct one_pool_registry_ok as (H1 & _ & _ & _ & H5).
  destruct (last_put_destroys 12 11 5 one_pool_registry) as (_ & _ & H).
  - rewrite H5. lia.
  - destruct (H H5 H1) as (R' & P1 & _ & P3 & _ & _ & _ & P7).
    exists R'. split; [exact P1|]. split.
    + rewrite P3. vm_compute. reflexivity.
    + rewrite P7. reflexivity.
Defined.

Lemma shared_create_del_witness :
  exists R1 R2,
    create_on 25 sgv_name true 7 6 one_pool_registry = Some (Some 5%nat, R1) /\
    sgv_pool_ref (descs R1 5) = 2 /\
    sgv_pool_del 12 11 5 R1 = Some R2 /\ reg_eq one_pool_registry R2.
Proof.
  destruct one_pool_registry_ok as (H1 & H2 & H3 & H4 & H5).
  destruct (shared_create_del 12 ltac:(lia) 11 100 32 4 25 sgv_name
              sgv_no_clustering (Some 6%nat) (fun _ => true) one_pool_registry 5
              H1 H2 H3 H4 ltac:(rewrite H5; lia))
    as (R1 & R2 & C1 & C2 & C3 & C4).
  exists R1, R2. split; [exact C1|]. split; [rewrite C2, H5; reflexivity|].
  split; [exact C3|exact C4].
Defined.

(** A cache of the second pool is refused. *)
Lemma pools_init_outcomes_witness :
  scst_sgv_pools_init 12 11 100 32 4 25 1000 500 7
    (fun p k => negb (Nat.eqb p 1 && (k =? 4))) empty_registry = None /\
  exists R',
    scst_sgv_pools_init 12 11 100 32 4 25 1000 500 7 (fun _ _ => true)
      empty_registry = Some (0, R') /\
    sgv_pools_list R' = [0%nat; 1%nat; 2%nat].
Proof.
  split.
  - destruct (pools_init_outcomes 12 11 100 32 4 25 1000 500 7
                (fun p k => negb (Nat.eqb p 1 && (k =? 4))) empty_registry
                ltac:(reflexivity)) as (_ & _ & H & _).
    apply H.
    + intros k Hk. reflexivity.
    + exists 4. split; [lia|reflexivity].
  - destruct (pools_init_outcomes 12 11 100 32 4 25 1000 500 7
                (fun _ _ => true) empty_registry ltac:(reflexivity))
      as (H & _).
    destruct H as (R' & E & L & _); try (intros k Hk; reflexivity).
    exists R'. split; [exact E|exact L].
Defined.

Lemma pools_init_deinit_witness :
  exists R1 R2,
    scst_sgv_pools_init 12 11 100 32 4 25 1000 500 7 (fun _ _ => true)
      empty_registry = Some (0, R1) /\
    scst_sgv_pools_deinit 12 11 R1 = Some R2 /\
    sgv_pools_list R2 = [] /\ sgv_pools_mutex R2 = false.
Proof.
  destruct (pools_init_deinit 12 11 100 32 4 25 1000 500 7 (fun _ _ => true)
              empty_registry)
    as (R1 & R2 & E1 & E2 & L & X & _).
  - reflexivity.
  - intros p _ [].
  - intros p k Hk. reflexivity.
  - exists R1, R2. split; [exact E1|]. split; [exact E2|].
    split; [exact L|exact X].
Defined.
